(** * Brookline cablecast pipeline: downloader, uploader and their ledgers

    A shallow embedding of [brookline_downloader.py] and
    [brookline_uploader.py].  The two Python classes keep their state in
    object fields and talk to a browser, a clock and a disk; here that
    state is one record per class, threaded through a small state and
    exception monad.  What the outside world answers (which elements a
    page has, whether a click goes through, whether a file can be
    written) is data handed to the functions, so every function below is
    executable.

    Conventions.
    - Clock readings ([time.time()]) are integers, in seconds.  Time
      passes in [time.sleep] and in a [WebDriverWait] that times out;
      every other call is taken to be instantaneous.
    - A [datetime] is an integer number of seconds on the local
      calendar; [datetime(y, m, d)] is midnight of that day.
    - Python [set]s of strings are [gset string]; lists are lists.
    - [print] calls are left out. *)

From Stdlib Require Import ZArith String Ascii List Lia Permutation.
From stdpp Require Import gmap strings list pretty.

Set Warnings "-register-all".
Open Scope Z_scope.

(** ** Python exceptions, and a state monad that can raise *)

Inductive exn :=
| OSError
| JSONDecodeError
| AttributeError
| TypeError
| ValueError
| IndexError
| NoSuchElementException
| TimeoutException
| NoSuchWindowException
| WebDriverException.

#[global] Instance exn_eq_dec : EqDecision exn.
Proof. solve_decision. Defined.

(** [TimeoutException] is the only one the uploader's [except
    TimeoutException] clauses catch. *)
Definition is_timeout (e : exn) : bool :=
  match e with TimeoutException => true | _ => false end.

(** A call returns a value, raises, or is still inside a [while] loop
    when the rounds it was allowed are used up. *)
Inductive outcome (S A : Type) :=
| Ok (a : A) (s : S)
| Raised (e : exn) (s : S)
| Unfinished (s : S).
Arguments Ok {S A} a s.
Arguments Raised {S A} e s.
Arguments Unfinished {S A} s.

Definition M (S A : Type) : Type := S -> outcome S A.

Definition ret {S A} (a : A) : M S A := fun s => Ok a s.

Definition bind {S A B} (c : M S A) (k : A -> M S B) : M S B :=
  fun s => match c s with
           | Ok a s' => k a s'
           | Raised e s' => Raised e s'
           | Unfinished s' => Unfinished s'
           end.

Definition raise {S A} (e : exn) : M S A := fun s => Raised e s.

(** [try: c  except Exception as e: h e].  Effects of [c] made before the
    exception stay. *)
Definition try_except {S A} (c : M S A) (h : exn -> M S A) : M S A :=
  fun s => match c s with
           | Ok a s' => Ok a s'
           | Raised e s' => h e s'
           | Unfinished s' => Unfinished s'
           end.

(** [try: c  except TimeoutException: h]; other exceptions go on. *)
Definition try_except_timeout {S A} (c : M S A) (h : M S A) : M S A :=
  try_except c (fun e => if is_timeout e then h else raise e).

Definition get {S} : M S S := fun s => Ok s s.
Definition gets {S A} (f : S -> A) : M S A := fun s => Ok (f s) s.
Definition modify {S} (f : S -> S) : M S unit := fun s => Ok tt (f s).

Definition state_of {S A} (o : outcome S A) : S :=
  match o with Ok _ s => s | Raised _ s => s | Unfinished s => s end.

Definition value_of {S A} (o : outcome S A) : option A :=
  match o with Ok a _ => Some a | _ => None end.

Definition returned {S A} (o : outcome S A) : bool :=
  match o with Ok _ _ => true | _ => false end.

Declare Scope py_scope.
Delimit Scope py_scope with py.
Notation "x <- c ;; k" := (bind c (fun x => k))
  (at level 100, c at next level, right associativity) : py_scope.
Notation "c ;;; k" := (bind c (fun _ => k))
  (at level 100, right associativity) : py_scope.
Open Scope py_scope.

(** [for x in l: body x] *)
Fixpoint for_each {S A} (l : list A) (body : A -> M S unit) : M S unit :=
  match l with
  | [] => ret tt
  | x :: l' => body x ;;; for_each l' body
  end.

(** ** Lists the way Python uses them *)

(** [l.remove(x)]: drops the first element equal to [x]; [ValueError]
    when there is none. *)
Fixpoint list_remove `{EqDecision A} (x : A) (l : list A) : option (list A) :=
  match l with
  | [] => None
  | y :: l' => if decide (x = y) then Some l'
               else option_map (cons y) (list_remove x l')
  end.

(** [sorted(l, key=...)]: a stable sort; [le a b] compares the keys. *)
Fixpoint insert_sorted {A} (le : A -> A -> bool) (x : A) (l : list A) : list A :=
  match l with
  | [] => [x]
  | y :: l' => if le x y then x :: y :: l' else y :: insert_sorted le x l'
  end.

Definition sorted {A} (le : A -> A -> bool) (l : list A) : list A :=
  foldr (insert_sorted le) [] l.

(** [needle in haystack] on strings. *)
Fixpoint str_in (needle hay : string) : bool :=
  if String.prefix needle hay then true
  else match hay with
       | EmptyString => false
       | String _ hay' => str_in needle hay'
       end.

(** How many members of [l] are the string [x]. *)
Definition occurrences (x : string) (l : list string) : nat :=
  length (List.filter (String.eqb x) l).

(** ** JSON values, for [uploaded_files.json] *)

Inductive json :=
| JNull
| JBool (b : bool)
| JNum (n : Z)
| JStr (s : string)
| JArr (l : list json)
| JObj (fields : list (string * json)).

(** What a file holds when it is opened for reading: text that
    [json.load] rejects, or a JSON document. *)
Inductive file_text :=
| Garbled
| Document (j : json).

(** [json.load] builds a [dict] from an object; a repeated key keeps its
    last value. *)
Fixpoint dict_get (k : string) (fields : list (string * json)) : option json :=
  match fields with
  | [] => None
  | (k', v) :: rest =>
      match dict_get k rest with
      | Some v' => Some v'
      | None => if decide (k = k') then Some v else None
      end
  end.

(** [data.get(key, [])]: only a [dict] has [get]. *)
Definition json_get_or_empty (key : string) (data : json) : exn + json :=
  match data with
  | JObj fields => inr (default (JArr []) (dict_get key fields))
  | _ => inl AttributeError
  end.

Definition chars_of (s : string) : list string :=
  map (fun c => String c EmptyString) (list_ascii_of_string s).

(** [set(v)].  A list gives the set of its members, and a member that
    is itself a list or a dict cannot be hashed.  A string gives its
    characters, a dict its keys.  Numbers, booleans and [None] inside a
    list are hashable but never equal to a string; since the set is only
    ever asked about strings, they are left out of it. *)
Fixpoint set_of_members (l : list json) : exn + gset string :=
  match l with
  | [] => inr ∅
  | JStr s :: l' =>
      match set_of_members l' with
      | inr X => inr ({[ s ]} ∪ X)
      | inl e => inl e
      end
  | JArr _ :: _ | JObj _ :: _ => inl TypeError
  | _ :: l' => set_of_members l'
  end.

Definition py_set (v : json) : exn + gset string :=
  match v with
  | JArr l => set_of_members l
  | JStr s => inr (list_to_set (chars_of s))
  | JObj fields => inr (list_to_set (map fst fields))
  | _ => inl TypeError
  end.

(** ** The disk *)

Record File := {
  file_name : string;
  st_size : Z;          (* bytes *)
  st_mtime : Z          (* seconds *)
}.

#[global] Instance File_eq_dec : EqDecision File.
Proof. solve_decision. Defined.

Record Folder := {
  dir_name : string;
  dir_files : list File;                   (* directly inside the folder *)
  corrected_format : option (list File)    (* the subfolder, when it exists *)
}.

Record Disk := {
  can_write : bool;                         (* does [open(..., 'w')] work *)
  downloaded_events_txt : option (list string);   (* lines, without newline *)
  uploaded_files_json : option file_text;
  folders : list Folder
}.

Definition set_downloaded_events_txt (v : option (list string)) (d : Disk) : Disk :=
  {| can_write := can_write d; downloaded_events_txt := v;
     uploaded_files_json := uploaded_files_json d; folders := folders d |}.

Definition set_uploaded_files_json (v : option file_text) (d : Disk) : Disk :=
  {| can_write := can_write d; downloaded_events_txt := downloaded_events_txt d;
     uploaded_files_json := v; folders := folders d |}.

Definition set_folders (v : list Folder) (d : Disk) : Disk :=
  {| can_write := can_write d; downloaded_events_txt := downloaded_events_txt d;
     uploaded_files_json := uploaded_files_json d; folders := v |}.

(** ** The browser *)

Definition Tab := nat.

(** [current] may name a window that has been closed, as in Selenium
    after [driver.close()]. *)
Record Driver := {
  window_handles : list Tab;
  current : Tab
}.

Definition is_open (h : Tab) (d : Driver) : bool :=
  bool_decide (h ∈ window_handles d).

(** [driver.current_window_handle] *)
Definition drv_current (d : Driver) : exn + (Tab * Driver) :=
  if is_open (current d) d then inr (current d, d)
  else inl NoSuchWindowException.

(** [driver.switch_to.window(h)] *)
Definition drv_switch (h : Tab) (d : Driver) : exn + (unit * Driver) :=
  if is_open h d
  then inr (tt, {| window_handles := window_handles d; current := h |})
  else inl NoSuchWindowException.

(** [driver.close()]: closes the current window. *)
Definition drv_close (d : Driver) : exn + (unit * Driver) :=
  if is_open (current d) d
  then inr (tt, {| window_handles := filter (fun h => h ≠ current d) (window_handles d);
                   current := current d |})
  else inl NoSuchWindowException.

(** A new tab, opened by the page or by [window.open('')]; the focus
    stays where it was. *)
Definition drv_open (h : Tab) (d : Driver) : Driver :=
  {| window_handles := window_handles d ++ [h]; current := current d |}.

(** [driver.window_handles[0]] *)
Definition drv_first (d : Driver) : exn + (Tab * Driver) :=
  match window_handles d with
  | h :: _ => inr (h, d)
  | [] => inl IndexError
  end.

(** What a page shows: an element answers a CSS selector or XPath or
    does not. *)
Record Elem := {
  el_text : string;
  el_href : option string;      (* [get_attribute("href")] *)
  el_click_ok : bool            (* do [click()] and [send_keys()] go through *)
}.

Record Page := {
  pg_url : string;
  pg_query : string -> option Elem
}.

(** The first selector of the list that finds an element. *)
Fixpoint first_found (p : Page) (selectors : list string) : option Elem :=
  match selectors with
  | [] => None
  | sel :: rest =>
      match pg_query p sel with
      | Some el => Some el
      | None => first_found p rest
      end
  end.

(** Python truth of an optional string. *)
Definition truthy (v : option string) : bool :=
  match v with
  | Some s => negb (String.eqb s EmptyString)
  | None => false
  end.

(** ** The calendar, as [datetime] computes it *)

Definition datetime := Z.

Definition is_leap (year : Z) : bool :=
  (year mod 4 =? 0) && (negb (year mod 100 =? 0) || (year mod 400 =? 0)).

Definition days_before_year (year : Z) : Z :=
  let y := year - 1 in y * 365 + y / 4 - y / 100 + y / 400.

Definition days_in_month (year month : Z) : Z :=
  if (month =? 2) && is_leap year then 29
  else nth (Z.to_nat month) [0; 31; 28; 31; 30; 31; 30; 31; 31; 30; 31; 30; 31] 0.

Definition days_before_month (year month : Z) : Z :=
  nth (Z.to_nat month) [0; 0; 31; 59; 90; 120; 151; 181; 212; 243; 273; 304; 334] 0
  + (if (2 <? month) && is_leap year then 1 else 0).

Definition ymd2ord (year month day : Z) : Z :=
  days_before_year year + days_before_month year month + day.

(** [datetime(year, month, day)]; [None] stands for its [ValueError]. *)
Definition datetime_ymd (year month day : Z) : option datetime :=
  if (1 <=? year) && (year <=? 9999) && (1 <=? month) && (month <=? 12)
     && (1 <=? day) && (day <=? days_in_month year month)
  then Some (ymd2ord year month day * 86400)
  else None.

(** [timedelta(days=n)] *)
Definition timedelta_days (n : Z) : Z := n * 86400.

(** ** Small string functions *)

Definition is_digit (c : ascii) : bool :=
  let n := nat_of_ascii c in (48 <=? n)%nat && (n <=? 57)%nat.

(** [c.isspace()] for an ASCII character [c]: tab to carriage return,
    the four separators and the space. *)
Definition is_space (c : ascii) : bool :=
  let n := nat_of_ascii c in
  ((9 <=? n)%nat && (n <=? 13)%nat) || ((28 <=? n)%nat && (n <=? 32)%nat).

Fixpoint lstrip (s : string) : string :=
  match s with
  | String c s' => if is_space c then lstrip s' else s
  | EmptyString => s
  end.

(** [s.strip()] *)
Definition strip (s : string) : string :=
  String.rev (lstrip (String.rev (lstrip s))).

(** The digits a string starts with, and what follows them. *)
Fixpoint span_digits (s : string) : string * string :=
  match s with
  | String c s' =>
      if is_digit c then let (d, r) := span_digits s' in (String c d, r)
      else (EmptyString, s)
  | EmptyString => (EmptyString, EmptyString)
  end.

(** [re.search(r'(\d+)', s).group(1)]: the first run of digits; [None]
    when [re.search] finds nothing. *)
Fixpoint first_digits (s : string) : option string :=
  match s with
  | EmptyString => None
  | String c s' =>
      if is_digit c then Some (fst (span_digits s)) else first_digits s'
  end.

Definition newline : string := String (ascii_of_nat 10) EmptyString.

(** [re.match(r'listItemText-\d+$', s)]: [$] also matches just before a
    final newline. *)
Definition is_list_item_id (s : string) : bool :=
  let pre := "listItemText-"%string in
  String.prefix pre s &&
  (let (d, r) := span_digits (String.substring (String.length pre)
                                (String.length s - String.length pre) s) in
   negb (String.eqb d EmptyString)
   && (String.eqb r EmptyString || String.eqb r newline)).

Definition replace_char (bad : ascii) (s : string) : string :=
  string_of_list_ascii
    (map (fun c => if Ascii.eqb c bad then "_"%char else c) (list_ascii_of_string s)).

(** The nine characters replaced: less-than, greater-than, colon,
    double quote, slash, backslash, bar, question mark and star. *)
Definition invalid_chars : list ascii :=
  map ascii_of_nat [60; 62; 58; 34; 47; 92; 124; 63; 42]%nat.

(** [sanitize_filename] *)
Definition sanitize_filename (filename : string) : string :=
  let replaced := foldl (fun s c => replace_char c s) filename invalid_chars in
  String.substring 0 100 (strip replaced).

(** * The downloader: [SimpleBrooklineDownloader] *)

Module Downloader.

(** One entry of [self.downloading_tabs]. *)
Record download_info := {
  tab : Tab;
  dl_event_number : string;
  dl_event_title : string;
  meeting_name : string;
  folder_name : string;
  start_time : Z
}.

#[global] Instance download_info_eq_dec : EqDecision download_info.
Proof. solve_decision. Defined.

(** What the catalog page and the pages behind it answer. *)

(** The result of [re.search(r'(\w+)\s+(\w+)\s+(\d+),\s+(\d+)', text)],
    with [int] applied to groups 3 and 4. *)
Record DateMatch := {
  month_name : string;
  day : Z;
  year : Z
}.

(** What happens when a meeting is clicked. *)
Record Visit := {
  opens_tab : bool;             (* the click opens a new tab *)
  meeting_page : Page;          (* what that tab shows *)
  video_page : option Page;     (* what [driver.get(video_url)] loads, if it loads *)
  cdp_ok : bool                 (* does [Page.setDownloadBehavior] go through *)
}.

(** An element of the catalog list. *)
Record ListItem := {
  elem_id : string;
  elem_text : string;
  date_match : option DateMatch;
  on_click : Visit
}.

Record Site := {
  reachable : bool;             (* does [driver.get(base_url)] load *)
  scroll_wrap : bool;           (* is there a [#scroll-wrap] element *)
  list_items : list ListItem    (* the elements with [id^='listItemText-'] *)
}.

(** One entry of [recent_events]. *)
Record event_info := {
  element : ListItem;
  event_number : string;
  title : string;
  date : datetime
}.

(** The object's fields, with the clock, the disk and the supply of
    window handles it works against. *)
Record State := {
  downloaded_events : gset string;
  downloading_tabs : list download_info;
  driver : option Driver;
  clock : Z;
  next_tab : Tab;
  disk : Disk
}.

Definition set_downloaded_events (v : gset string) (s : State) : State :=
  {| downloaded_events := v; downloading_tabs := downloading_tabs s;
     driver := driver s; clock := clock s; next_tab := next_tab s; disk := disk s |}.

Definition set_downloading_tabs (v : list download_info) (s : State) : State :=
  {| downloaded_events := downloaded_events s; downloading_tabs := v;
     driver := driver s; clock := clock s; next_tab := next_tab s; disk := disk s |}.

Definition set_driver (v : option Driver) (s : State) : State :=
  {| downloaded_events := downloaded_events s; downloading_tabs := downloading_tabs s;
     driver := v; clock := clock s; next_tab := next_tab s; disk := disk s |}.

Definition set_clock (v : Z) (s : State) : State :=
  {| downloaded_events := downloaded_events s; downloading_tabs := downloading_tabs s;
     driver := driver s; clock := v; next_tab := next_tab s; disk := disk s |}.

Definition set_next_tab (v : Tab) (s : State) : State :=
  {| downloaded_events := downloaded_events s; downloading_tabs := downloading_tabs s;
     driver := driver s; clock := clock s; next_tab := v; disk := disk s |}.

Definition set_disk (v : Disk) (s : State) : State :=
  {| downloaded_events := downloaded_events s; downloading_tabs := downloading_tabs s;
     driver := driver s; clock := clock s; next_tab := next_tab s; disk := v |}.

(** [__init__], before [load_downloaded_events]. *)
Definition init (now : Z) (d : Disk) : State :=
  {| downloaded_events := ∅; downloading_tabs := []; driver := None;
     clock := now; next_tab := 0%nat; disk := d |}.

(** [time.sleep(d)] *)
Definition sleep (d : Z) : M State unit :=
  modify (fun s => set_clock (clock s + d) s).

(** A call on [self.driver]; without a live session it raises. *)
Definition with_driver {A} (f : Driver -> exn + (A * Driver)) : M State A :=
  fun s => match driver s with
           | None => Raised WebDriverException s
           | Some d => match f d with
                       | inl e => Raised e s
                       | inr (a, d') => Ok a (set_driver (Some d') s)
                       end
           end.

Definition get_window_handles : M State (list Tab) :=
  with_driver (fun d => inr (window_handles d, d)).

(** [len(l) == 0] raises [IndexError] at [l[0]]. *)
Definition head_or_raise {A} (l : list A) : M State A :=
  match l with
  | x :: _ => ret x
  | [] => raise IndexError
  end.

(** ** The ledger of downloaded events *)

(** [load_downloaded_events] *)
Definition load_downloaded_events : M State unit :=
  fun s => match downloaded_events_txt (disk s) with
           | Some lines => Ok tt (set_downloaded_events (list_to_set (map strip lines)) s)
           | None => Ok tt s
           end.

(** [open(downloaded_file, 'w')] and the writes that follow. *)
Definition write_downloaded_file (lines : list string) : M State unit :=
  fun s => if can_write (disk s)
           then Ok tt (set_disk (set_downloaded_events_txt (Some lines) (disk s)) s)
           else Raised OSError s.

(** [save_downloaded_events]: the whole body sits in [try ... except
    Exception], so a failed write is printed and dropped. *)
Definition save_downloaded_events : M State unit :=
  try_except
    (s <- get ;;
     write_downloaded_file (sorted String.leb (elements (downloaded_events s))))
    (fun _ => ret tt).

(** The two lines under [# MARK EVENT AS DOWNLOADED]. *)
Definition mark_event_as_downloaded (event_number : string) : M State unit :=
  modify (fun s => set_downloaded_events ({[ event_number ]} ∪ downloaded_events s) s) ;;;
  save_downloaded_events.

(** ** Discovery: [load_all_events] *)

Definition month_map : list (string * Z) :=
  [("JAN", 1); ("FEB", 2); ("MAR", 3); ("APR", 4); ("MAY", 5); ("JUN", 6);
   ("JUL", 7); ("AUG", 8); ("SEP", 9); ("OCT", 10); ("NOV", 11); ("DEC", 12)]%string.

(** [month_map.get(name, 6)] *)
Fixpoint map_get_or (m : list (string * Z)) (name : string) (dflt : Z) : Z :=
  match m with
  | [] => dflt
  | (k, v) :: rest => if String.eqb k name then v else map_get_or rest name dflt
  end.

(** The body of the loop over the elements.  [None] is every way of
    leaving the iteration without appending: the [continue] for an
    event already downloaded, a text without a date, a date outside the
    window, and the exceptions the loop's [except Exception] swallows
    (no digits in the id, or a day the month does not have). *)
Definition candidate (downloaded : gset string) (current_date : datetime)
    (e : ListItem) : option event_info :=
  let one_week_ago := current_date - timedelta_days 14 in
  let element_text := strip (elem_text e) in
  match first_digits (elem_id e) with
  | None => None
  | Some number =>
      if bool_decide (number ∈ downloaded) then None
      else
        match date_match e with
        | None => None
        | Some dm =>
            let month := map_get_or month_map (month_name dm) 6 in
            match datetime_ymd (year dm) month (day dm) with
            | None => None
            | Some event_date =>
                if (one_week_ago <=? event_date) && (event_date <=? current_date)
                then Some {| element := e; event_number := number;
                             title := element_text; date := event_date |}
                else None
            end
        end
  end.

(** The filter on ids, then the loop over [reversed(meeting_elements)]. *)
Definition recent_events_of (items : list ListItem) (downloaded : gset string)
    (current_date : datetime) : list event_info :=
  let meeting_elements := List.filter (fun e => is_list_item_id (elem_id e)) items in
  omap (candidate downloaded current_date) (rev meeting_elements).

(** [driver.get(url)] of a page that loads or does not. *)
Definition driver_get (loads : bool) : M State unit :=
  with_driver (fun d => if loads then inr (tt, d) else inl WebDriverException).

Definition load_all_events (site : Site) : M State (list event_info) :=
  driver_get (reachable site) ;;;
  sleep 5 ;;;
  (if scroll_wrap site
   then for_each (seq 0 15) (fun _ => sleep 2) ;;; sleep 20
   else ret tt) ;;;
  s <- get ;;
  ret (recent_events_of (list_items site) (downloaded_events s) (clock s)).

(** ** Acquisition: [start_download] and [process_single_meeting] *)

Definition media_selectors : list string :=
  ["#MeetingMedia";
   "#MeetingMedia > span.cpp-MuiIconButton-label > span";
   "#MeetingMedia > span.cpp-MuiIconButton-label"]%string.

Definition video_selectors : list string :=
  ["#EventDetailsVideo a"; "a[href*='zoom']"; "a[href*='zoomgov']";
   "a[href*='rec/play']"]%string.

Definition topic_selector : string :=
  "#app > header > div.header-left > div.header-info > h1 > span.topic".

Definition date_selector : string :=
  "#app > header > div.header-left > div.header-info > div > span".

Definition download_selectors : list string :=
  ["#app header .header-right a"; ".download-btn"; "a[download]"]%string.

(** The loop over [video_selectors]: [video_url] keeps the last [href]
    read, and the loop stops at the first one that mentions zoom or rec. *)
Fixpoint find_video_url (p : Page) (selectors : list string)
    (video_url : option string) : option string :=
  match selectors with
  | [] => video_url
  | sel :: rest =>
      match pg_query p sel with
      | None => find_video_url p rest video_url
      | Some video_element =>
          let href := el_href video_element in
          if truthy href
             && (str_in "zoom" (default EmptyString href)
                 || str_in "rec" (default EmptyString href))
          then href
          else find_video_url p rest href
      end
  end.

(** [element.click()] *)
Definition click (el : Elem) : M State unit :=
  with_driver (fun d => if el_click_ok el then inr (tt, d)
                        else inl WebDriverException).

(** The size of [info.txt], from the lines written to it. *)
Definition info_size (number name mdate etitle url stamp folder : string) : Z :=
  32 + 41
  + (14 + Z.of_nat (String.length number) + 1)
  + (14 + Z.of_nat (String.length name) + 1)
  + (14 + Z.of_nat (String.length mdate) + 1)
  + (13 + Z.of_nat (String.length etitle) + 1)
  + (11 + Z.of_nat (String.length url) + 1)
  + (20 + Z.of_nat (String.length stamp) + 1)
  + (13 + Z.of_nat (String.length folder) + 1)
  + 41.

Definition put_info (info : File) (f : Folder) : Folder :=
  {| dir_name := dir_name f;
     dir_files := info :: List.filter
                    (fun x => negb (String.eqb (file_name x) (file_name info)))
                    (dir_files f);
     corrected_format := corrected_format f |}.

(** [download_folder.mkdir(exist_ok=True)] and the writing of
    [info.txt] inside it. *)
Definition make_download_folder (name : string) (info : File) : M State unit :=
  fun s =>
    let d := disk s in
    if can_write d then
      let fs :=
        if existsb (fun f => String.eqb (dir_name f) name) (folders d)
        then map (fun f => if String.eqb (dir_name f) name then put_info info f else f)
                 (folders d)
        else folders d ++ [{| dir_name := name; dir_files := [info];
                              corrected_format := None |}] in
      Ok tt (set_disk (set_folders fs d) s)
    else Raised OSError s.

Definition start_download (v : Visit) (video_url event_title event_number : string)
    (tab_handle : Tab) : M State bool :=
  try_except
    (page <- (match video_page v with
              | Some page => driver_get true ;;; ret page
              | None => driver_get false ;;; raise WebDriverException
              end) ;;
     sleep 10 ;;;
     let '(meeting_name, meeting_date) :=
       match pg_query page topic_selector with
       | Some name_element =>
           (strip (el_text name_element),
            match pg_query page date_selector with
            | Some date_element => strip (el_text date_element)
            | None => "Unknown_Date"%string
            end)
       | None => ("Unknown_Meeting", "Unknown_Date")%string
       end in
     now <- gets clock ;;
     let timestamp := pretty now in
     let clean_meeting_name := sanitize_filename meeting_name in
     let folder_name :=
       (timestamp +:+ "_" +:+ clean_meeting_name +:+ "_" +:+ event_number)%string in
     make_download_folder folder_name
       {| file_name := "info.txt";
          st_size := info_size event_number meeting_name meeting_date event_title
                       video_url timestamp folder_name;
          st_mtime := now |} ;;;
     with_driver (fun d => if cdp_ok v then inr (tt, d) else inl WebDriverException) ;;;
     match first_found page download_selectors with
     | Some download_button =>
         click download_button ;;;
         started <- gets clock ;;
         modify (fun s => set_downloading_tabs
                   (downloading_tabs s ++
                    [{| tab := tab_handle; dl_event_number := event_number;
                        dl_event_title := event_title; meeting_name := meeting_name;
                        folder_name := folder_name; start_time := started |}]) s) ;;;
         mark_event_as_downloaded event_number ;;;
         handles <- get_window_handles ;;
         main_tab <- head_or_raise (List.filter (fun t => negb (Nat.eqb t tab_handle)) handles) ;;
         with_driver (drv_switch main_tab) ;;;
         ret true
     | None => ret false
     end)
    (fun _ => ret false).

(** The click on a meeting in the list: it may open a tab, which gets
    the next unused handle. *)
Definition click_meeting (v : Visit) : M State unit :=
  if opens_tab v
  then (h <- gets next_tab ;;
        with_driver (fun d => inr (tt, drv_open h d)) ;;;
        modify (fun s => set_next_tab (S h) s))
  else with_driver (fun d => inr (tt, d)).

(** [self.driver.close()] then [self.driver.switch_to.window(main_tab)] *)
Definition close_and_go_back (main_tab : Tab) : M State unit :=
  with_driver drv_close ;;; with_driver (drv_switch main_tab).

Definition process_single_meeting (ev : event_info) : M State bool :=
  let v := on_click (element ev) in
  s0 <- get ;;
  (* [main_tab], as the [except] clause finds it: unbound when the very
     first statement raised *)
  let main_tab_bound :=
    match driver s0 with
    | Some d => if is_open (current d) d then Some (current d) else None
    | None => None
    end in
  try_except
    (main_tab <- with_driver drv_current ;;
     original_tabs <- get_window_handles ;;
     click_meeting v ;;;
     sleep 8 ;;;
     new_tabs <- get_window_handles ;;
     if (length original_tabs <? length new_tabs)%nat then
       new_tab <- head_or_raise
                    (List.filter (fun t => negb (bool_decide (t ∈ original_tabs))) new_tabs) ;;
       with_driver (drv_switch new_tab) ;;;
       let page := meeting_page v in
       if str_in "civicclerk.com/event" (pg_url page) then
         match first_found page media_selectors with
         | Some media_button =>
             sleep 5 ;;;
             let video_url := find_video_url page video_selectors None in
             if truthy video_url then
               success <- start_download v (default EmptyString video_url)
                            (title ev) (event_number ev) new_tab ;;
               if success then ret true
               else close_and_go_back main_tab ;;; ret false
             else close_and_go_back main_tab ;;; ret false
         | None => close_and_go_back main_tab ;;; ret false
         end
       else close_and_go_back main_tab ;;; ret false
     else ret false)
    (fun _ =>
       match main_tab_bound with
       | Some main_tab =>
           try_except (with_driver (drv_switch main_tab)) (fun _ => ret tt)
       | None => ret tt
       end ;;;
       ret false).

(** ** The pool of download tabs *)

(** [if info['tab'] in self.driver.window_handles: switch to it; close it] *)
Definition close_tab_if_open (h : Tab) : M State unit :=
  handles <- get_window_handles ;;
  if bool_decide (h ∈ handles)
  then with_driver (drv_switch h) ;;; with_driver drv_close
  else ret tt.

(** [self.downloading_tabs.remove(info)] *)
Definition untrack (info : download_info) : M State unit :=
  fun s => match list_remove info (downloading_tabs s) with
           | Some l => Ok tt (set_downloading_tabs l s)
           | None => Raised ValueError s
           end.

(** The closing [try: switch to window_handles[0]  except: pass]. *)
Definition back_to_first_tab : M State unit :=
  try_except
    (main_tab <- with_driver drv_first ;; with_driver (drv_switch main_tab))
    (fun _ => ret tt).

(** The first loop of [cleanup_old_download_tabs]; the result is
    [tabs_to_remove]. *)
Fixpoint close_expired (current_time : Z) (l : list download_info)
    : M State (list download_info) :=
  match l with
  | [] => ret []
  | download_info :: rest =>
      let time_elapsed := current_time - start_time download_info in
      if 300 <? time_elapsed then
        try_except (close_tab_if_open (tab download_info)) (fun _ => ret tt) ;;;
        tabs_to_remove <- close_expired current_time rest ;;
        ret (download_info :: tabs_to_remove)
      else close_expired current_time rest
  end.

Definition cleanup_old_download_tabs : M State unit :=
  current_time <- gets clock ;;
  tabs <- gets downloading_tabs ;;
  tabs_to_remove <- close_expired current_time tabs ;;
  for_each tabs_to_remove untrack ;;;
  back_to_first_tab.

Definition limit_open_tabs : M State unit :=
  handles <- get_window_handles ;;
  let total_tabs := length handles in
  if (10 <? total_tabs)%nat then
    let tabs_to_close := (total_tabs - 10)%nat in
    tabs <- gets downloading_tabs ;;
    let oldest_downloads :=
      take tabs_to_close (sorted (fun a b => start_time a <=? start_time b) tabs) in
    for_each oldest_downloads
      (fun download_info =>
         try_except
           (close_tab_if_open (tab download_info) ;;; untrack download_info)
           (fun _ => ret tt)) ;;;
    back_to_first_tab
  else ret tt.

(** ** One scan: [run_download_scan] *)

(** [init_driver]: a new browser session with one window. *)
Definition init_driver (chrome_ok : bool) : M State bool :=
  if chrome_ok then
    h <- gets next_tab ;;
    modify (fun s => set_next_tab (S h)
                       (set_driver (Some {| window_handles := [h]; current := h |}) s)) ;;;
    ret true
  else ret false.

(** [self.driver.quit()] *)
Definition driver_quit : M State unit :=
  with_driver (fun d => inr (tt, d)) ;;; modify (set_driver None).

(** The loop [for i, event in enumerate(recent_events, 1)]. *)
Fixpoint process_events (i : Z) (events : list event_info) : M State unit :=
  match events with
  | [] => ret tt
  | event :: rest =>
      (if i mod 10 =? 0 then cleanup_old_download_tabs else ret tt) ;;;
      limit_open_tabs ;;;
      process_single_meeting event ;;;
      sleep 2 ;;;
      process_events (i + 1) rest
  end.

(** The loop that closes what is left, over a copy of the list; the
    entries themselves stay in [downloading_tabs]. *)
Definition close_remaining_tabs : M State unit :=
  tabs <- gets downloading_tabs ;;
  for_each tabs
    (fun download_info =>
       try_except (close_tab_if_open (tab download_info)) (fun _ => ret tt)).

(** Step 3 of [run_download_scan], up to the conversion: the wait for
    the downloads and the closing of the tabs. *)
Definition wait_and_close_tabs : M State unit :=
  sleep 60 ;;;
  close_remaining_tabs ;;;
  back_to_first_tab.

(** The body of the [try] of [run_download_scan].  Steps 4 and 5, the
    conversion of the downloaded videos and the summary, touch neither
    the ledger nor the tabs and are left out. *)
Definition scan_steps (site : Site) : M State unit :=
  recent_events <- load_all_events site ;;
  match recent_events with
  | [] => ret tt
  | _ => process_events 1 recent_events ;;; wait_and_close_tabs
  end.

(** [run_download_scan] *)
Definition run_download_scan (chrome_ok : bool) (site : Site) : M State unit :=
  ok <- init_driver chrome_ok ;;
  if ok then
    try_except (scan_steps site) (fun _ => ret tt) ;;;
    try_except driver_quit (fun _ => ret tt)
  else ret tt.

End Downloader.

(** * The uploader: [BrooklineCablecastUploader] *)

Module Uploader.

(** One entry of [self.uploading_tabs]. *)
Record upload_info := {
  tab : Tab;
  filename : string;
  start_time : Z
}.

#[global] Instance upload_info_eq_dec : EqDecision upload_info.
Proof. solve_decision. Defined.

(** A file under [watch_path/<folder>/corrected_format]. *)
Record Artifact := {
  in_folder : string;
  file : File
}.

Definition sep : string := "/".

(** [str(mp4_file.relative_to(self.watch_path))] *)
Definition relative_path (a : Artifact) : string :=
  (in_folder a +:+ sep +:+ "corrected_format" +:+ sep +:+ file_name (file a))%string.

(** What the Cablecast site answers when a tab is opened on the Assets
    page. *)
Record Visit := {
  assets_loads : bool;          (* does [driver.get] of the Assets URL load *)
  form : Page;                  (* what the tab shows *)
  flex_by_text : bool           (* a [select] offers an option with Flex in its text *)
}.

Record Site := {
  login_ok : bool;              (* does the login form lead to the main menu *)
  first_visit : Visit;          (* the tab opened before the scan for files *)
  visit_for : Artifact -> Visit (* the tab opened for each file *)
}.

Record State := {
  uploaded_files : gset string;
  uploading_tabs : list upload_info;
  driver : option Driver;
  logged_in : bool;
  clock : Z;
  next_tab : Tab;
  disk : Disk
}.

Definition set_uploaded_files (v : gset string) (s : State) : State :=
  {| uploaded_files := v; uploading_tabs := uploading_tabs s; driver := driver s;
     logged_in := logged_in s; clock := clock s; next_tab := next_tab s;
     disk := disk s |}.

Definition set_uploading_tabs (v : list upload_info) (s : State) : State :=
  {| uploaded_files := uploaded_files s; uploading_tabs := v; driver := driver s;
     logged_in := logged_in s; clock := clock s; next_tab := next_tab s;
     disk := disk s |}.

Definition set_driver (v : option Driver) (s : State) : State :=
  {| uploaded_files := uploaded_files s; uploading_tabs := uploading_tabs s; driver := v;
     logged_in := logged_in s; clock := clock s; next_tab := next_tab s;
     disk := disk s |}.

Definition set_logged_in (v : bool) (s : State) : State :=
  {| uploaded_files := uploaded_files s; uploading_tabs := uploading_tabs s;
     driver := driver s; logged_in := v; clock := clock s; next_tab := next_tab s;
     disk := disk s |}.

Definition set_clock (v : Z) (s : State) : State :=
  {| uploaded_files := uploaded_files s; uploading_tabs := uploading_tabs s;
     driver := driver s; logged_in := logged_in s; clock := v; next_tab := next_tab s;
     disk := disk s |}.

Definition set_next_tab (v : Tab) (s : State) : State :=
  {| uploaded_files := uploaded_files s; uploading_tabs := uploading_tabs s;
     driver := driver s; logged_in := logged_in s; clock := clock s; next_tab := v;
     disk := disk s |}.

Definition set_disk (v : Disk) (s : State) : State :=
  {| uploaded_files := uploaded_files s; uploading_tabs := uploading_tabs s;
     driver := driver s; logged_in := logged_in s; clock := clock s;
     next_tab := next_tab s; disk := v |}.

(** [__init__], before [load_upload_history]. *)
Definition init (now : Z) (d : Disk) : State :=
  {| uploaded_files := ∅; uploading_tabs := []; driver := None; logged_in := false;
     clock := now; next_tab := 0%nat; disk := d |}.

Definition sleep (d : Z) : M State unit :=
  modify (fun s => set_clock (clock s + d) s).

Definition with_driver {A} (f : Driver -> exn + (A * Driver)) : M State A :=
  fun s => match driver s with
           | None => Raised WebDriverException s
           | Some d => match f d with
                       | inl e => Raised e s
                       | inr (a, d') => Ok a (set_driver (Some d') s)
                       end
           end.

Definition get_window_handles : M State (list Tab) :=
  with_driver (fun d => inr (window_handles d, d)).

Definition head_or_raise {A} (l : list A) : M State A :=
  match l with
  | x :: _ => ret x
  | [] => raise IndexError
  end.

Definition driver_get (loads : bool) : M State unit :=
  with_driver (fun d => if loads then inr (tt, d) else inl WebDriverException).

(** [WebDriverWait(self.driver, timeout).until(...)] for one selector:
    the element, or [TimeoutException] once [timeout] seconds are over. *)
Definition wait_until (timeout : Z) (p : Page) (selector : string) : M State Elem :=
  match pg_query p selector with
  | Some el => ret el
  | None => sleep timeout ;;; raise TimeoutException
  end.

(** [click()] or [send_keys(...)] on an element. *)
Definition act_on (el : Elem) : M State unit :=
  with_driver (fun d => if el_click_ok el then inr (tt, d)
                        else inl WebDriverException).

(** ** The ledger of uploaded files *)

(** The body of the [try] in [load_upload_history]. *)
Definition read_upload_history : M State unit :=
  s <- get ;;
  match uploaded_files_json (disk s) with
  | Some text =>
      data <- (match text with
               | Document j => ret j
               | Garbled => raise JSONDecodeError
               end) ;;
      members <- (match json_get_or_empty "uploaded_files" data with
                  | inr v => ret v
                  | inl e => raise e
                  end) ;;
      match py_set members with
      | inr X => modify (set_uploaded_files X)
      | inl e => raise e
      end
  | None => ret tt
  end.

(** [load_upload_history] *)
Definition load_upload_history : M State unit :=
  try_except read_upload_history (fun _ => modify (set_uploaded_files ∅)).

(** The document [save_upload_history] dumps; the time stamp is the
    clock reading in decimal. *)
Definition history_document (X : gset string) (now : Z) : json :=
  JObj [("uploaded_files"%string, JArr (map JStr (elements X)));
        ("last_updated"%string, JStr (pretty now))].

(** [save_upload_history]: the whole body sits in [try ... except
    Exception]. *)
Definition save_upload_history : M State unit :=
  try_except
    (fun s =>
       if can_write (disk s)
       then Ok tt (set_disk
                     (set_uploaded_files_json
                        (Some (Document (history_document (uploaded_files s) (clock s))))
                        (disk s)) s)
       else Raised OSError s)
    (fun _ => ret tt).

(** The two lines under [# Mark as uploaded]. *)
Definition mark_as_uploaded (file_path : Artifact) : M State unit :=
  modify (fun s => set_uploaded_files ({[ relative_path file_path ]} ∪ uploaded_files s) s) ;;;
  save_upload_history.

(** ** The stability gate: [find_files_to_upload] *)

Definition is_mp4 (f : File) : bool :=
  let n := file_name f in
  (4 <=? String.length n)%nat
  && String.eqb (String.substring (String.length n - 4) 4 n) ".mp4".

(** The two nested tests on size and age. *)
Definition is_stable (current_time : Z) (f : File) : bool :=
  (1024 * 1024 <? st_size f) && (300 <? current_time - st_mtime f).

(** The body of the loop over the MP4 files of one [corrected_format]. *)
Definition wanted (uploaded : gset string) (current_time : Z) (a : Artifact) : bool :=
  negb (bool_decide (relative_path a ∈ uploaded)) && is_stable current_time (file a).

Definition files_of_folder (uploaded : gset string) (current_time : Z)
    (folder : Folder) : list Artifact :=
  match corrected_format folder with
  | Some found =>
      let mp4_files := List.filter is_mp4 found in
      List.filter (wanted uploaded current_time)
        (map (fun f => {| in_folder := dir_name folder; file := f |}) mp4_files)
  | None => []
  end.

Definition find_files_to_upload : M State (list Artifact) :=
  s <- get ;;
  ret (flat_map (files_of_folder (uploaded_files s) (clock s)) (folders (disk s))).

(** ** The pool of upload tabs *)

Definition switch_to (h : Tab) : M State unit := with_driver (drv_switch h).

(** The inner [try] that goes back to a valid tab after a close. *)
Definition switch_back (current_tab : Tab) : M State unit :=
  try_except
    (handles <- get_window_handles ;;
     if bool_decide (current_tab ∈ handles) then switch_to current_tab
     else (first <- head_or_raise handles ;; switch_to first))
    (fun _ =>
       handles <- get_window_handles ;;
       match handles with
       | first :: _ => switch_to first
       | [] => ret tt
       end).

(** [if info['tab'] in self.driver.window_handles: ...] of the cleanup
    and of the limit. *)
Definition close_tab_if_open (h : Tab) : M State unit :=
  handles <- get_window_handles ;;
  if bool_decide (h ∈ handles) then
    current_tab <- with_driver drv_current ;;
    switch_to h ;;;
    with_driver drv_close ;;;
    switch_back current_tab
  else ret tt.

(** [self.uploading_tabs.remove(info)] *)
Definition untrack (info : upload_info) : M State unit :=
  fun s => match list_remove info (uploading_tabs s) with
           | Some l => Ok tt (set_uploading_tabs l s)
           | None => Raised ValueError s
           end.

(** The first loop of [cleanup_old_upload_tabs]; the result is
    [tabs_to_remove]. *)
Fixpoint close_expired (current_time : Z) (l : list upload_info)
    : M State (list upload_info) :=
  match l with
  | [] => ret []
  | upload_info :: rest =>
      let time_elapsed := current_time - start_time upload_info in
      if 720 <? time_elapsed then
        try_except (close_tab_if_open (tab upload_info)) (fun _ => ret tt) ;;;
        tabs_to_remove <- close_expired current_time rest ;;
        ret (upload_info :: tabs_to_remove)
      else close_expired current_time rest
  end.

Definition cleanup_old_upload_tabs : M State unit :=
  current_time <- gets clock ;;
  tabs <- gets uploading_tabs ;;
  tabs_to_remove <- close_expired current_time tabs ;;
  for_each tabs_to_remove untrack.

Definition limit_open_upload_tabs : M State unit :=
  handles <- get_window_handles ;;
  let total_tabs := length handles in
  if (10 <? total_tabs)%nat then
    let tabs_to_close := (total_tabs - 10)%nat in
    tabs <- gets uploading_tabs ;;
    let oldest_uploads :=
      take tabs_to_close (sorted (fun a b => start_time a <=? start_time b) tabs) in
    for_each oldest_uploads
      (fun upload_info =>
         try_except
           (close_tab_if_open (tab upload_info) ;;; untrack upload_info)
           (fun _ => try_except (untrack upload_info) (fun _ => ret tt)))
  else ret tt.

(** [wait_for_upload_slots]: the [while] loop, run for at most [rounds]
    rounds. *)
Fixpoint wait_for_upload_slots (rounds : nat) (max_concurrent : Z) : M State unit :=
  fun s =>
    if max_concurrent <=? Z.of_nat (length (uploading_tabs s)) then
      match rounds with
      | O => Unfinished s
      | S rounds' =>
          (sleep 30 ;;;
           cleanup_old_upload_tabs ;;;
           wait_for_upload_slots rounds' max_concurrent) s
      end
    else Ok tt s.

(** ** Publication: [upload_file] *)

Definition upload_selectors : list string :=
  ["#ember319 > div.canvas > div.container-fluid > div > div.row.assets-view-currentlyshowing > p > button.btn.btn-default.assets-view-uploadbutton";
   "button.assets-view-uploadbutton";
   "button[class*='upload']";
   ".btn.btn-default.assets-view-uploadbutton"]%string.

Definition upload_text_xpath : string :=
  "//button[contains(text(), 'Upload') or contains(text(), 'upload')]".

Definition file_input_selectors : list string :=
  ["#ember2781 > div > div > input"; "input[type='file']"; "input[accept*='mp4']"]%string.

Definition dynamic_selectors : list string :=
  ["#ember4375"; "#ember4369"; "#ember4199"; "#ember3839"]%string.

Definition final_upload_selectors : list string :=
  ["#ember2782 > div > button.btn.btn-primary"; "button.btn.btn-primary";
   "button[class*='btn-primary']"]%string.

Definition final_text_xpath : string :=
  "//button[contains(text(), 'Upload') and contains(@class, 'btn-primary')]".

(** A loop of the shape
    [for selector in selectors: try: wait; act; found = True; break
     except TimeoutException: continue]; the result is [found]. *)
Fixpoint act_on_first (p : Page) (timeout : Z) (selectors : list string) : M State bool :=
  match selectors with
  | [] => ret false
  | selector :: rest =>
      found <- try_except_timeout
                 (el <- wait_until timeout p selector ;; act_on el ;;; ret true)
                 (ret false) ;;
      if found then ret true else act_on_first p timeout rest
  end.

(** Method 2 of the file store selection: the loop over the dynamic
    ember ids, each try under a bare [except: continue]. *)
Fixpoint select_by_dynamic_id (p : Page) (selectors : list string) : M State bool :=
  match selectors with
  | [] => ret false
  | selector :: rest =>
      selected <- try_except
                    (filestore_dropdown <- wait_until 3 p selector ;;
                     act_on filestore_dropdown ;;;
                     sleep 1 ;;;
                     first_option <- wait_until 3 p (selector +:+ " option:nth-child(2)")%string ;;
                     act_on first_option ;;;
                     ret true)
                    (fun _ => ret false) ;;
      if selected then ret true else select_by_dynamic_id p rest
  end.

(** The file store selection.  Nothing in it can stop the upload; the
    third method, a script run in the page, changes nothing here. *)
Definition select_file_store (v : Visit) : M State unit :=
  try_except
    (if flex_by_text v then ret tt
     else select_by_dynamic_id (form v) dynamic_selectors ;;; ret tt)
    (fun _ => ret tt).

Definition upload_file (v : Visit) (file_path : Artifact) : M State bool :=
  let p := form v in
  try_except
    (upload_clicked <- act_on_first p 5 upload_selectors ;;
     (if upload_clicked then ret tt
      else (upload_button <- wait_until 10 p upload_text_xpath ;; act_on upload_button)) ;;;
     sleep 2 ;;;
     file_input_found <- act_on_first p 5 file_input_selectors ;;
     if file_input_found then
       sleep 3 ;;;
       select_file_store v ;;;
       sleep 2 ;;;
       final_upload_clicked <- act_on_first p 5 final_upload_selectors ;;
       (if final_upload_clicked then ret tt
        else (final_upload_button <- wait_until 10 p final_text_xpath ;;
              act_on final_upload_button)) ;;;
       current_tab <- with_driver drv_current ;;
       started <- gets clock ;;
       modify (fun s => set_uploading_tabs
                 (uploading_tabs s ++
                  [{| tab := current_tab; filename := file_name (file file_path);
                      start_time := started |}]) s) ;;;
       sleep 5 ;;;
       mark_as_uploaded file_path ;;;
       ret true
     else ret false)
    (fun _ => ret false).

(** ** One session: [upload_session] *)

(** [navigate_to_assets].  With [keep_old_tab] false the loop over the
    older tabs closes the first of them at its first round, since
    [i == 0] holds there, and stops. *)
Definition navigate_to_assets (v : Visit) (keep_old_tab : bool) : M State (option Tab) :=
  try_except
    (h <- gets next_tab ;;
     with_driver (fun d => inr (tt, drv_open h d)) ;;;
     modify (fun s => set_next_tab (S h) s) ;;;
     handles <- get_window_handles ;;
     new_tab <- (match last handles with
                 | Some t => ret t
                 | None => raise IndexError
                 end) ;;
     switch_to new_tab ;;;
     driver_get (assets_loads v) ;;;
     sleep 10 ;;;
     handles <- get_window_handles ;;
     (if negb keep_old_tab && (1 <? length handles)%nat then
        match handles with
        | handle :: _ =>
            s <- get ;;
            try_except
              (old_tab <- with_driver drv_current ;;
               switch_to handle ;;;
               with_driver drv_close ;;;
               switch_to old_tab)
              (fun _ =>
                 match driver s with
                 | Some d =>
                     if is_open (current d) d
                     then try_except (switch_to (current d)) (fun _ => ret tt)
                     else ret tt
                 | None => ret tt
                 end)
        | [] => ret tt
        end
      else ret tt) ;;;
     sleep 3 ;;;
     current_tab <- with_driver drv_current ;;
     ret (Some current_tab))
    (fun _ => ret None).

Definition init_driver (chrome_ok : bool) : M State bool :=
  if chrome_ok then
    h <- gets next_tab ;;
    modify (fun s => set_next_tab (S h)
                       (set_driver (Some {| window_handles := [h]; current := h |}) s)) ;;;
    ret true
  else ret false.

(** [check_login_status] in a new browser session, whose address is
    neither the main menu nor the login page. *)
Definition check_login_status : M State bool := ret false.

(** [login_to_cablecast]; a failed login is the first wait timing out. *)
Definition login_to_cablecast (site : Site) : M State bool :=
  try_except
    (driver_get true ;;;
     sleep 5 ;;;
     if login_ok site then
       sleep 1 ;;; sleep 1 ;;;
       modify (set_logged_in true) ;;; ret true
     else sleep 15 ;;; raise TimeoutException)
    (fun _ => modify (set_logged_in false) ;;; ret false).

(** The loop [for i, file_path in enumerate(files_to_upload, 1)], with
    [rounds] rounds allowed to each wait for a slot. *)
Fixpoint upload_files (rounds : nat) (site : Site) (i : Z) (l : list Artifact)
    : M State unit :=
  match l with
  | [] => ret tt
  | file_path :: rest =>
      wait_for_upload_slots rounds 10 ;;;
      upload_tab <- navigate_to_assets (visit_for site file_path) true ;;
      match upload_tab with
      | None => ret tt
      | Some _ =>
          upload_file (visit_for site file_path) file_path ;;;
          (if i mod 3 =? 0
           then cleanup_old_upload_tabs ;;; limit_open_upload_tabs
           else ret tt) ;;;
          sleep 5
      end ;;;
      upload_files rounds site (i + 1) rest
  end.

(** The [while self.uploading_tabs and cleanup_rounds < max_cleanup_rounds]
    loop; [left] is [max_cleanup_rounds - cleanup_rounds]. *)
Fixpoint final_cleanup (left : nat) : M State unit :=
  match left with
  | O => ret tt
  | S left' =>
      tabs <- gets uploading_tabs ;;
      match tabs with
      | [] => ret tt
      | _ => sleep 30 ;;; cleanup_old_upload_tabs ;;; final_cleanup left'
      end
  end.

(** The forced close of what is left: an entry goes when its tab was
    open and is closed, or when closing raised. *)
Definition force_close_remaining : M State unit :=
  remaining_tabs <- gets uploading_tabs ;;
  for_each remaining_tabs
    (fun upload_info =>
       try_except
         (handles <- get_window_handles ;;
          if bool_decide (tab upload_info ∈ handles)
          then switch_to (tab upload_info) ;;; with_driver drv_close ;;; untrack upload_info
          else ret tt)
         (fun _ => try_except (untrack upload_info) (fun _ => ret tt))).

Definition driver_quit : M State unit :=
  with_driver (fun d => inr (tt, d)) ;;;
  modify (set_driver None) ;;;
  modify (set_logged_in false).

Definition upload_session (rounds : nat) (chrome_ok : bool) (site : Site) : M State unit :=
  ok <- init_driver chrome_ok ;;
  if ok then
    try_except
      (logged <- check_login_status ;;
       logged <- (if logged then ret true else login_to_cablecast site) ;;
       if logged then
         assets_tab <- navigate_to_assets (first_visit site) false ;;
         match assets_tab with
         | None => ret tt
         | Some _ =>
             files_to_upload <- find_files_to_upload ;;
             match files_to_upload with
             | [] => ret tt
             | _ =>
                 upload_files rounds site 1 files_to_upload ;;;
                 final_cleanup 20 ;;;
                 force_close_remaining ;;;
                 try_except
                   (handles <- get_window_handles ;;
                    match handles with
                    | first :: _ => switch_to first
                    | [] => ret tt
                    end)
                   (fun _ => ret tt)
             end
         end
       else ret tt)
      (fun _ => ret tt) ;;;
    try_except driver_quit (fun _ => ret tt)
  else ret tt.

End Uploader.

(** * Notions used to state the properties *)

(** [for x in rm: l.remove(x)], on the list alone. *)
Fixpoint remove_each `{EqDecision A} (rm l : list A) : option (list A) :=
  match rm with
  | [] => Some l
  | x :: rm' =>
      match list_remove x l with
      | Some l' => remove_each rm' l'
      | None => None
      end
  end.

(** What [if h in window_handles: switch to h; close] leaves of the
    browser. *)
Definition close_tab (h : Tab) (d : Driver) : Driver :=
  if is_open h d
  then {| window_handles := filter (fun x => x ≠ h) (window_handles d); current := h |}
  else d.

Definition close_tabs (hs : list Tab) (d : Driver) : Driver :=
  foldl (fun d h => close_tab h d) d hs.

(** The same for the uploader, which remembers the tab it was on and
    goes back to it, or to the first tab left; it closes nothing when
    the tab it is on has itself been closed. *)
Definition close_tab_and_return (h : Tab) (d : Driver) : Driver :=
  if is_open h d && is_open (current d) d then
    let left := filter (fun x => x ≠ h) (window_handles d) in
    {| window_handles := left;
       current := if bool_decide (current d ∈ left) then current d
                  else match left with
                       | first :: _ => first
                       | [] => h
                       end |}
  else d.

Definition close_tabs_and_return (hs : list Tab) (d : Driver) : Driver :=
  foldl (fun d h => close_tab_and_return h d) d hs.

(** The browser is on an open tab, or has no tab left. *)
Definition focus_ok (d : Driver) : Prop :=
  current d ∈ window_handles d \/ window_handles d = [].

(** [c] relates the state it starts from to the state it leaves,
    however it ends. *)
Definition keeps {S A} (R : S -> S -> Prop) (c : M S A) : Prop :=
  forall s, R s (state_of (c s)).

(** The same at one starting state. *)
Definition runs_at {S A} (R : S -> S -> Prop) (Q : A -> Prop) (c : M S A) (s : S) : Prop :=
  match c s with
  | Ok a s' => R s s' /\ Q a
  | Raised _ s' => R s s'
  | Unfinished _ => False
  end.

(** The quantity [m] does not grow; the projection [f] does not change. *)
Definition shrinks {S} (m : S -> nat) : S -> S -> Prop :=
  fun s s' => (m s' <= m s)%nat.

Definition same {S B} (f : S -> B) : S -> S -> Prop :=
  fun s s' => f s' = f s.

(** The quantity [m] grows by [n] at most. *)
Definition grows {S} (m : S -> nat) (n : nat) : S -> S -> Prop :=
  fun s s' => (m s' <= m s + n)%nat.

(** [c] leaves a state with [P] when started in one. *)
Definition preserves {S A} (P : S -> Prop) (c : M S A) : Prop :=
  forall s, P s -> P (state_of (c s)).

(** [c] does not loop; when it returns or raises, [R] relates the
    states, and a returned value has [Q]. *)
Definition runs {S A} (R : S -> S -> Prop) (Q : A -> Prop) (c : M S A) : Prop :=
  forall s, match c s with
            | Ok a s' => R s s' /\ Q a
            | Raised _ s' => R s s'
            | Unfinished _ => False
            end.

(** How many tabs the downloader's browser has open. *)
Definition open_tabs (s : Downloader.State) : nat :=
  match Downloader.driver s with
  | Some d => length (window_handles d)
  | None => 0
  end.

(** The tracked download tabs that are open in the browser. *)
Definition open_download_tabs (s : Downloader.State) : list Downloader.download_info :=
  match Downloader.driver s with
  | Some d => List.filter (fun i => is_open (Downloader.tab i) d) (Downloader.downloading_tabs s)
  | None => []
  end.

(** [run_download_scan] up to the end of its loop over the events. *)
Definition scan_through_step_2 (site : Downloader.Site) : M Downloader.State unit :=
  Downloader.init_driver true ;;;
  recent_events <- Downloader.load_all_events site ;;
  Downloader.process_events 1 recent_events.

(** The browser shows the tabs [H] and is on tab [c], the list of
    download tabs is [T], and [n] is the handle the next tab gets. *)
Definition browser_at (H : list Tab) (c : Tab) (T : list Downloader.download_info) (n : Tab)
    (s : Downloader.State) : Prop :=
  Downloader.driver s = Some {| window_handles := H; current := c |}
  /\ Downloader.downloading_tabs s = T
  /\ Downloader.next_tab s = n.

(** The list of download tabs agrees with the browser: every entry has
    a tab of its own, that tab is open, and some open tab, the main
    one, belongs to no entry.  Handles not yet given out are unused. *)
Definition tabs_in_order (s : Downloader.State) : Prop :=
  exists d main_tab,
    Downloader.driver s = Some d
    /\ NoDup (map Downloader.tab (Downloader.downloading_tabs s))
    /\ (forall i, i ∈ Downloader.downloading_tabs s -> Downloader.tab i ∈ window_handles d)
    /\ (forall h, h ∈ window_handles d -> (h < Downloader.next_tab s)%nat)
    /\ main_tab ∈ window_handles d
    /\ main_tab ∉ map Downloader.tab (Downloader.downloading_tabs s).

(** Where [process_single_meeting] may leave the browser and the list
    when it started with the entries [T]. *)
Definition after_meeting (T : list Downloader.download_info) (s : Downloader.State) : Prop :=
  tabs_in_order s /\ (length (Downloader.downloading_tabs s) <= length T + 1)%nat.

(** From a state with [P], [c] returns a value and a state with [Q] or
    raises in a state with [E]; it does not loop. *)
Definition triple {S A} (P : S -> Prop) (c : M S A) (Q : A -> S -> Prop) (E : S -> Prop) : Prop :=
  forall s, P s -> match c s with
                   | Ok a s' => Q a s'
                   | Raised _ s' => E s'
                   | Unfinished _ => False
                   end.

(** The downloader's ledger: the set in memory and the file. *)
Definition dl_ledger (s : Downloader.State) : gset string * option (list string) :=
  (Downloader.downloaded_events s, downloaded_events_txt (Downloader.disk s)).

(** The downloader's ledger and its list of tracked tabs. *)
Definition dl_records (s : Downloader.State)
    : gset string * option (list string) * list Downloader.download_info :=
  (Downloader.downloaded_events s, downloaded_events_txt (Downloader.disk s),
   Downloader.downloading_tabs s).

(** The downloader's ledger gains members of [N] at most. *)
Definition adds_only (N : gset string) : Downloader.State -> Downloader.State -> Prop :=
  fun s s' => Downloader.downloaded_events s' ⊆ Downloader.downloaded_events s ∪ N.

(** The clock reading that [load_all_events] takes for [current_date]. *)
Definition discovery_time (site : Downloader.Site) (s : Downloader.State) : Z :=
  Downloader.clock s + 5 + (if Downloader.scroll_wrap site then 15 * 2 + 20 else 0).

(** The uploader's ledger. *)
Definition up_ledger (u : Uploader.State) : gset string * option file_text :=
  (Uploader.uploaded_files u, uploaded_files_json (Uploader.disk u)).

(** The meeting has no media: its page has no Meeting Media button, or
    the loop over the video selectors ends without a link. *)
Definition no_media (v : Downloader.Visit) : bool :=
  match first_found (Downloader.meeting_page v) Downloader.media_selectors with
  | None => true
  | Some _ =>
      negb (truthy (Downloader.find_video_url (Downloader.meeting_page v)
                      Downloader.video_selectors None))
  end.

(** The recording page loaded, it has a download button, and the click
    on it went through. *)
Definition download_clicked (v : Downloader.Visit) : bool :=
  match Downloader.video_page v with
  | Some page =>
      match first_found page Downloader.download_selectors with
      | Some download_button => el_click_ok download_button
      | None => false
      end
  | None => false
  end.

(** The final Upload button was found, by a selector or by its text,
    and the click on it went through. *)
Definition final_upload_clicked (p : Page) : bool :=
  match first_found p Uploader.final_upload_selectors with
  | Some final_upload_button => el_click_ok final_upload_button
  | None =>
      match pg_query p Uploader.final_text_xpath with
      | Some final_upload_button => el_click_ok final_upload_button
      | None => false
      end
  end.

(** How many upload tabs, how many download tabs are tracked. *)
Definition tracked_uploads (u : Uploader.State) : nat :=
  length (Uploader.uploading_tabs u).

Definition tracked_downloads (s : Downloader.State) : nat :=
  length (Downloader.downloading_tabs s).

(** Ten upload tabs, all opened at second 1000, in a browser that shows
    them next to the Assets tab 0. *)
Definition full_pool : Uploader.State :=
  {| Uploader.uploaded_files := ∅;
     Uploader.uploading_tabs :=
       map (fun k => {| Uploader.tab := k; Uploader.filename := "video.mp4";
                        Uploader.start_time := 1000 |}) (seq 1 10);
     Uploader.driver := Some {| window_handles := seq 0 11; current := 0%nat |};
     Uploader.logged_in := true;
     Uploader.clock := 1000;
     Uploader.next_tab := 11%nat;
     Uploader.disk := {| can_write := true; downloaded_events_txt := None;
                         uploaded_files_json := None; folders := [] |} |}.

(** * Concrete worlds *)

(** A converted video of 50 MiB, written at second 1000. *)
Definition stable_file : File :=
  {| file_name := "meeting_29.97fps_1080p.mp4"; st_size := 50 * 1024 * 1024; st_mtime := 1000 |}.

Definition disk_with_stable_file : Disk :=
  {| can_write := true; downloaded_events_txt := None; uploaded_files_json := None;
     folders := [{| dir_name := "1000_Select_Board_1001"; dir_files := [];
                    corrected_format := Some [stable_file] |}] |}.

(** An uploader that has that file in its set while the ledger file on
    disk is not JSON. *)
Definition uploaded_before : Uploader.State :=
  Uploader.set_uploaded_files
    {[ "1000_Select_Board_1001/corrected_format/meeting_29.97fps_1080p.mp4"%string ]}
    (Uploader.init 1360
       (set_uploaded_files_json (Some Garbled) disk_with_stable_file)).

Definition empty_disk : Disk :=
  {| can_write := true; downloaded_events_txt := None; uploaded_files_json := None;
     folders := [] |}.

(** A downloader at second 1301 with three browser tabs: the main tab
    0, tab 1 opened at second 1000 and tab 2 opened at second 1001. *)
Definition two_download_tabs : Downloader.State :=
  {| Downloader.downloaded_events := {[ "1001"; "1002" ]}%string;
     Downloader.downloading_tabs :=
       [{| Downloader.tab := 1%nat; Downloader.dl_event_number := "1001";
           Downloader.dl_event_title := "Select Board"; Downloader.meeting_name := "Select Board";
           Downloader.folder_name := "1000_Select Board_1001"; Downloader.start_time := 1000 |};
        {| Downloader.tab := 2%nat; Downloader.dl_event_number := "1002";
           Downloader.dl_event_title := "School Committee";
           Downloader.meeting_name := "School Committee";
           Downloader.folder_name := "1001_School Committee_1002";
           Downloader.start_time := 1001 |}];
     Downloader.driver := Some {| window_handles := [0; 1; 2]%nat; current := 0%nat |};
     Downloader.clock := 1301;
     Downloader.next_tab := 3%nat;
     Downloader.disk := empty_disk |}.

(** An uploader at second 1721 with three browser tabs: the Assets tab
    0, tab 1 opened at second 1000 and tab 2 opened at second 1001. *)
Definition two_upload_tabs : Uploader.State :=
  {| Uploader.uploaded_files := ∅;
     Uploader.uploading_tabs :=
       [{| Uploader.tab := 1%nat; Uploader.filename := "a.mp4"; Uploader.start_time := 1000 |};
        {| Uploader.tab := 2%nat; Uploader.filename := "b.mp4"; Uploader.start_time := 1001 |}];
     Uploader.driver := Some {| window_handles := [0; 1; 2]%nat; current := 0%nat |};
     Uploader.logged_in := true;
     Uploader.clock := 1721;
     Uploader.next_tab := 3%nat;
     Uploader.disk := empty_disk |}.

(** Elements and pages of the two sites. *)
Definition link (href : string) : Elem :=
  {| el_text := ""; el_href := Some href; el_click_ok := true |}.

Definition label (text : string) : Elem :=
  {| el_text := text; el_href := None; el_click_ok := true |}.

(** A meeting page with a Meeting Media button and a Zoom link. *)
Definition meeting_with_video : Page :=
  {| pg_url := "https://brooklinema.portal.civicclerk.com/event/1001/files";
     pg_query := fun sel =>
       if String.eqb sel "#MeetingMedia" then Some (label "Meeting Media")
       else if String.eqb sel "#EventDetailsVideo a"
            then Some (link "https://us02web.zoom.us/rec/play/abc")
            else None |}.

(** A meeting page with the button and no link behind it. *)
Definition meeting_without_video : Page :=
  {| pg_url := "https://brooklinema.portal.civicclerk.com/event/1002/files";
     pg_query := fun sel =>
       if String.eqb sel "#MeetingMedia" then Some (label "Meeting Media") else None |}.

(** A Zoom recording page with its topic, its date and a download
    button. *)
Definition zoom_recording : Page :=
  {| pg_url := "https://us02web.zoom.us/rec/play/abc";
     pg_query := fun sel =>
       if String.eqb sel Downloader.topic_selector then Some (label "Select Board")
       else if String.eqb sel Downloader.date_selector then Some (label "Jul 14, 2025")
       else if String.eqb sel "#app header .header-right a" then Some (label "Download")
       else None |}.

(** Three ways a click on a meeting can go. *)
Definition downloads : Downloader.Visit :=
  {| Downloader.opens_tab := true; Downloader.meeting_page := meeting_with_video;
     Downloader.video_page := Some zoom_recording; Downloader.cdp_ok := true |}.

Definition has_no_video : Downloader.Visit :=
  {| Downloader.opens_tab := true; Downloader.meeting_page := meeting_without_video;
     Downloader.video_page := None; Downloader.cdp_ok := true |}.

Definition opens_nothing : Downloader.Visit :=
  {| Downloader.opens_tab := false; Downloader.meeting_page := meeting_with_video;
     Downloader.video_page := None; Downloader.cdp_ok := true |}.

(** The catalog entry of meeting [n], held on 14 July 2025. *)
Definition item (n : nat) (v : Downloader.Visit) : Downloader.ListItem :=
  {| Downloader.elem_id := ("listItemText-" +:+ pretty n)%string;
     Downloader.elem_text := "Select Board Monday JUL 14, 2025";
     Downloader.date_match :=
       Some {| Downloader.month_name := "JUL"; Downloader.day := 14;
               Downloader.year := 2025 |};
     Downloader.on_click := v |}.

(** 15 July 2025, ten in the morning. *)
Definition t0 : Z := ymd2ord 2025 7 15 * 86400 + 36000.

(** A catalog that lists meetings 1001, 1002, ... so that they are
    processed in this order; [vs] says how each click goes. *)
Definition catalog (vs : list Downloader.Visit) : Downloader.Site :=
  {| Downloader.reachable := true; Downloader.scroll_wrap := true;
     Downloader.list_items := rev (imap (fun k v => item (1001 + k) v) vs) |}.

(** A downloader that has just opened its browser. *)
Definition browser_open : Downloader.State :=
  state_of (Downloader.init_driver true (Downloader.init t0 empty_disk)).

Definition event_of (n : nat) (v : Downloader.Visit) : Downloader.event_info :=
  {| Downloader.element := item n v;
     Downloader.event_number := pretty n;
     Downloader.title := "Select Board Monday JUL 14, 2025";
     Downloader.date := ymd2ord 2025 7 14 * 86400 |}.



(** 20 June 2025, ten in the morning. *)
Definition june_20 : Z := ymd2ord 2025 6 20 * 86400 + 36000.

(** Meeting 1003 is announced for 14 September 2025, with the month
    written [SEPT]; its page already has a video that could be
    downloaded. *)
Definition september_item : Downloader.ListItem :=
  {| Downloader.elem_id := "listItemText-1003";
     Downloader.elem_text := "Select Board Sunday SEPT 14, 2025";
     Downloader.date_match :=
       Some {| Downloader.month_name := "SEPT"; Downloader.day := 14;
               Downloader.year := 2025 |};
     Downloader.on_click := downloads |}.

Definition september_site : Downloader.Site :=
  {| Downloader.reachable := true; Downloader.scroll_wrap := true;
     Downloader.list_items := [september_item] |}.

(** An Assets tab whose upload form works. *)
Definition upload_form : Page :=
  {| pg_url := "http://brookline-interactive-group.cablecast.tv:8080/CablecastUI/#/assets?location_id=1";
     pg_query := fun sel =>
       if String.eqb sel "button.assets-view-uploadbutton" then Some (label "Upload")
       else if String.eqb sel "input[type='file']" then Some (label "")
       else if String.eqb sel "button.btn.btn-primary" then Some (label "Upload")
       else None |}.

Definition accepts_upload : Uploader.Visit :=
  {| Uploader.assets_loads := true; Uploader.form := upload_form;
     Uploader.flex_by_text := true |}.

Definition stable_artifact : Uploader.Artifact :=
  {| Uploader.in_folder := "1000_Select_Board_1001"; Uploader.file := stable_file |}.

(** An uploader that has just opened its browser. *)
Definition uploader_open : Uploader.State :=
  state_of (Uploader.init_driver true (Uploader.init 1360 disk_with_stable_file)).

(** One scan of a new downloader over ten meetings that all download,
    stopped at the end of the loop over the events. *)
Definition during_first_scan : Downloader.State :=
  state_of (scan_through_step_2 (catalog (replicate 10 downloads))
              (Downloader.init t0 empty_disk)).

(** Two scans of one downloader.  The first finds twenty meetings, of
    which only the last one, 1020, opens a tab and downloads; the
    second finds meetings 1001 to 1019 again, and now the last eleven
    download. *)
Definition first_scan_site : Downloader.Site :=
  catalog (replicate 19 opens_nothing ++ [downloads]).

Definition second_scan_site : Downloader.Site :=
  catalog (replicate 8 opens_nothing ++ replicate 11 downloads).

Definition after_first_scan : Downloader.State :=
  state_of (Downloader.run_download_scan true first_scan_site
              (Downloader.init t0 empty_disk)).

Definition during_second_scan : Downloader.State :=
  state_of (scan_through_step_2 second_scan_site after_first_scan).

(** * Notions for the files, the names and single steps *)

Definition chars (s : string) : list ascii := list_ascii_of_string s.

Fixpoint drop_spaces (l : list ascii) : list ascii :=
  match l with
  | c :: l' => if is_space c then drop_spaces l' else l
  | [] => []
  end.

(** The names this development can speak of exactly: those of ASCII
    characters.  Among them [is_space] holds of just the characters
    that [str.strip] removes; beyond them Python knows more white space
    (the no-break space for one). *)
Definition ascii_only (s : string) : bool :=
  forallb (fun c => (nat_of_ascii c <? 128)%nat) (chars s).

(** A string without white space. *)
Definition no_space (id : string) : bool :=
  forallb (fun c => negb (is_space c)) (chars id).

(** A new downloader object on the disk that [s] leaves: [__init__]
    with its call of [load_downloaded_events]. *)
Definition restarted (now : Z) (s : Downloader.State) : Downloader.State :=
  state_of (Downloader.load_downloaded_events (Downloader.init now (Downloader.disk s))).

(** The ledger file holds what the last save wrote from the set. *)
Definition ledger_written (s : Downloader.State) : Prop :=
  downloaded_events_txt (Downloader.disk s)
  = Some (sorted String.leb (elements (Downloader.downloaded_events s))).

(** On a disk that can be written, the set and the file stay as they
    are or the file is written from the set. *)
Definition ledger_kept (s s' : Downloader.State) : Prop :=
  can_write (Downloader.disk s) = true ->
  can_write (Downloader.disk s') = true
  /\ (dl_ledger s' = dl_ledger s \/ ledger_written s').

(** A new uploader object on the disk that [u] leaves: [__init__] with
    its call of [load_upload_history]. *)
Definition uploader_restarted (now : Z) (u : Uploader.State) : Uploader.State :=
  state_of (Uploader.load_upload_history (Uploader.init now (Uploader.disk u))).

(** The history file holds a document that a save wrote from the set. *)
Definition history_written (u : Uploader.State) : Prop :=
  exists t, uploaded_files_json (Uploader.disk u)
            = Some (Document (Uploader.history_document (Uploader.uploaded_files u) t)).

Definition history_kept (u u' : Uploader.State) : Prop :=
  can_write (Uploader.disk u) = true ->
  can_write (Uploader.disk u') = true
  /\ (up_ledger u' = up_ledger u \/ history_written u').

(** Everything [process_single_meeting] needs for a download: the click
    opens a tab on a civicclerk event page with a Meeting Media button
    and a video link, the recording page loads and takes the download
    directory, and the click on its download button goes through. *)
Definition downloadable (v : Downloader.Visit) : bool :=
  Downloader.opens_tab v
  && str_in "civicclerk.com/event" (pg_url (Downloader.meeting_page v))
  && negb (no_media v)
  && download_clicked v
  && Downloader.cdp_ok v.

(** [browser_at], with the ledger [X] and whether the disk can be
    written. *)
Definition downloader_at (H : list Tab) (c : Tab) (T : list Downloader.download_info)
    (n : Tab) (X : gset string) (w : bool) (s : Downloader.State) : Prop :=
  browser_at H c T n s
  /\ Downloader.downloaded_events s = X
  /\ can_write (Downloader.disk s) = w.

Definition upload_site : Uploader.Site :=
  {| Uploader.login_ok := true; Uploader.first_visit := accepts_upload;
     Uploader.visit_for := fun _ => accepts_upload |}.

(** Meeting 1003, held on 14 July 2025, with the month written [Jul]. *)
Definition mixed_case_item : Downloader.ListItem :=
  {| Downloader.elem_id := "listItemText-1003";
     Downloader.elem_text := "Select Board Monday Jul 14, 2025";
     Downloader.date_match :=
       Some {| Downloader.month_name := "Jul"; Downloader.day := 14;
               Downloader.year := 2025 |};
     Downloader.on_click := downloads |}.

(** The browser is on one of its open tabs. *)
Definition on_open_tab (s : Downloader.State) : Prop :=
  exists d, Downloader.driver s = Some d /\ current d ∈ window_handles d.

(** The browser, when it has a tab, is on one of its tabs. *)
Definition on_first_tab (s : Downloader.State) : Prop :=
  forall d, Downloader.driver s = Some d -> window_handles d ≠ [] ->
            current d ∈ window_handles d.

(** The set of downloaded events and whether the disk can be written. *)
Definition ledger_and_disk (s : Downloader.State) : gset string * bool :=
  (Downloader.downloaded_events s, can_write (Downloader.disk s)).

(** The numbers of the events of a list that can be downloaded. *)
Definition downloadable_numbers (events : list Downloader.event_info) : gset string :=
  list_to_set
    (map Downloader.event_number
       (List.filter (fun ev => downloadable (Downloader.on_click (Downloader.element ev)))
          events)).

(** The state in which [process_events] finds and leaves the
    downloader: the tabs in order, the browser on an open tab, the
    ledger [X] and a disk that can be written. *)
Definition ready (X : gset string) (s : Downloader.State) : Prop :=
  tabs_in_order s /\ on_open_tab s /\ ledger_and_disk s = (X, true).

(** A browser session that is open stays open. *)
Definition stays_open (s s' : Downloader.State) : Prop :=
  is_Some (Downloader.driver s) -> is_Some (Downloader.driver s').

(** A second converted video, written at second 1300. *)
Definition late_file : File :=
  {| file_name := "hearing_29.97fps_1080p.mp4"; st_size := 50 * 1024 * 1024; st_mtime := 1300 |}.

Definition disk_with_two_files : Disk :=
  {| can_write := true; downloaded_events_txt := None; uploaded_files_json := None;
     folders := [{| dir_name := "1000_Select_Board_1001"; dir_files := [];
                    corrected_format := Some [stable_file; late_file] |}] |}.

Definition late_artifact : Uploader.Artifact :=
  {| Uploader.in_folder := "1000_Select_Board_1001"; Uploader.file := late_file |}.

(** * The names of the converted files: [convert_video] *)

(** [s.split(sep)] for a separator of one character. *)
Fixpoint str_split (sep : ascii) (s : string) : list string :=
  match s with
  | EmptyString => [EmptyString]
  | String c rest =>
      match str_split sep rest with
      | part :: parts =>
          if Ascii.eqb c sep then EmptyString :: part :: parts
          else String c part :: parts
      | [] => []
      end
  end.

(** [sep.join(parts)] *)
Fixpoint str_join (sep : string) (parts : list string) : string :=
  match parts with
  | [] => EmptyString
  | [part] => part
  | part :: rest => (part +:+ sep +:+ str_join sep rest)%string
  end.

(** [parts[2:-1]] *)
Definition slice_2_to_last {A} (parts : list A) : list A :=
  drop 2 (take (length parts - 1) parts).

(** [n] digits at the start of [s]: what follows them. *)
Fixpoint take_digits (n : nat) (s : string) : option string :=
  match n with
  | O => Some s
  | S n' =>
      match s with
      | String c s' => if is_digit c then take_digits n' s' else None
      | EmptyString => None
      end
  end.

Definition take_underscore (s : string) : option string :=
  match s with
  | String c s' => if Ascii.eqb c "_" then Some s' else None
  | EmptyString => None
  end.

Fixpoint no_newline (s : string) : bool :=
  match s with
  | EmptyString => true
  | String c s' => negb (Ascii.eqb c (ascii_of_nat 10)) && no_newline s'
  end.

(** [.*_\d+$] on what is left of the name: read from the end, a final
    newline that [$] allows, the digits, the underscore, and before
    these no newline, which [.] does not match. *)
Definition ends_with_number (s : string) : bool :=
  let r := String.rev s in
  let r := match r with
           | String c r' => if Ascii.eqb c (ascii_of_nat 10) then r' else r
           | EmptyString => r
           end in
  let (d, m) := span_digits r in
  negb (String.eqb d EmptyString)
  && match m with
     | String c m' => Ascii.eqb c "_" && no_newline m'
     | EmptyString => false
     end.

(** [re.match(r'\d{8}_\d{6}_.*_\d+$', folder_name)] *)
Definition is_download_folder (folder_name : string) : bool :=
  match take_digits 8 folder_name with
  | Some s1 =>
      match take_underscore s1 with
      | Some s2 =>
          match take_digits 6 s2 with
          | Some s3 =>
              match take_underscore s3 with
              | Some s4 => ends_with_number s4
              | None => false
              end
          | None => false
          end
      | None => false
      end
  | None => false
  end.

(** The meeting name that [convert_video] puts into the name of its
    output, from the name of the download folder and of the folder the
    video lies in. *)
Definition meeting_name_of (folder_name video_parent : string) : string :=
  let meeting_name :=
    if is_download_folder folder_name then
      let folder_parts := str_split "_" folder_name in
      if (3 <=? length folder_parts)%nat
      then str_join "_" (slice_2_to_last folder_parts)
      else "Unknown_Meeting"%string
    else folder_name in
  let meeting_name :=
    if negb (String.eqb video_parent folder_name)
       && negb (String.eqb video_parent "corrected_format")
    then (meeting_name +:+ "_" +:+ video_parent)%string
    else meeting_name in
  sanitize_filename meeting_name.

(** [output_filename], from [video_path.stem] and [video_path.suffix]. *)
Definition output_filename (folder_name video_parent stem suffix : string) : string :=
  (meeting_name_of folder_name video_parent +:+ "_" +:+ stem +:+ "_29.97fps_1080p"
   +:+ suffix)%string.

(** A string of digits. *)
Definition all_digits (s : string) : bool := forallb is_digit (chars s).

(** * Notions for the uploader's session *)

(** What a loop over selectors that acts on the first element found
    comes to: the click went through, it failed, or nothing was found. *)
Definition first_click (p : Page) (selectors : list string) : option bool :=
  option_map el_click_ok (first_found p selectors).

(** A button was found, by a selector or else by its text, and the
    click on it went through. *)
Definition clicked (p : Page) (selectors : list string) (text_xpath : string) : bool :=
  match first_found p selectors with
  | Some button => el_click_ok button
  | None =>
      match pg_query p text_xpath with
      | Some button => el_click_ok button
      | None => false
      end
  end.

(** The tab takes the upload: the Upload button, the file input and the
    final Upload button are found and take the click or the keys. *)
Definition uploadable (v : Uploader.Visit) : bool :=
  clicked (Uploader.form v) Uploader.upload_selectors Uploader.upload_text_xpath
  && match first_click (Uploader.form v) Uploader.file_input_selectors with
     | Some sent => sent
     | None => false
     end
  && final_upload_clicked (Uploader.form v).

(** The browser is [d], the list of upload tabs is [T], the history is
    [X], and the clock is at [t0] or later. *)
Definition uploader_at (d : Driver) (T : list Uploader.upload_info) (X : gset string)
    (t0 : Z) (u : Uploader.State) : Prop :=
  Uploader.driver u = Some d
  /\ Uploader.uploading_tabs u = T
  /\ Uploader.uploaded_files u = X
  /\ t0 <= Uploader.clock u.

(** Time passes, upload tabs go and none comes, the history stays, and
    a browser session that is open stays open. *)
Definition ages (u u' : Uploader.State) : Prop :=
  Uploader.clock u <= Uploader.clock u'
  /\ Uploader.uploading_tabs u' `sublist_of` Uploader.uploading_tabs u
  /\ Uploader.uploaded_files u' = Uploader.uploaded_files u
  /\ (is_Some (Uploader.driver u) -> is_Some (Uploader.driver u')).

(** The state in which the loop over the files finds and leaves the
    uploader: a browser session, no upload tab dated after the clock,
    and the history [X]. *)
Definition in_session (X : gset string) (u : Uploader.State) : Prop :=
  is_Some (Uploader.driver u)
  /\ Forall (fun i => Uploader.start_time i <= Uploader.clock u) (Uploader.uploading_tabs u)
  /\ Uploader.uploaded_files u = X.

(** The paths of the files of a list whose tab loads the Assets page
    and takes the upload. *)
Definition uploads_of (site : Uploader.Site) (files : list Uploader.Artifact) : gset string :=
  list_to_set
    (map Uploader.relative_path
       (List.filter
          (fun a => Uploader.assets_loads (Uploader.visit_for site a)
                    && uploadable (Uploader.visit_for site a))
          files)).

(** The uploader, field by field, up to [logged_in]. *)
Definition uploader_exactly (d : Driver) (T : list Uploader.upload_info) (X : gset string)
    (t : Z) (n : Tab) (dk : Disk) (u : Uploader.State) : Prop :=
  Uploader.driver u = Some d
  /\ Uploader.uploading_tabs u = T
  /\ Uploader.uploaded_files u = X
  /\ Uploader.clock u = t
  /\ Uploader.next_tab u = n
  /\ Uploader.disk u = dk.

(** The files that the scan of a session finds: the scan runs twenty
    seconds after the session began. *)
Definition files_found (u : Uploader.State) : list Uploader.Artifact :=
  flat_map (Uploader.files_of_folder (Uploader.uploaded_files u) (Uploader.clock u + 20))
    (folders (Uploader.disk u)).

(** * The manager: [BrooklineManager] *)

(** The downloader's clock does not go back. *)
Definition later (s s' : Downloader.State) : Prop :=
  Downloader.clock s <= Downloader.clock s'.

(** The manager, [BrooklineManager].  It keeps no downloader and no
    uploader: each run makes a new object, which finds the folders and
    the clock as the run before left them. *)
Module Manager.
(** Where the two classes keep their files.  The downloader works in
    [Path(__file__).parent / "govideosav"], the uploader in
    [Path("C:/govideosav")]: one folder when the scripts lie in [C:\],
    two folders otherwise. *)
Inductive Folders :=
| OneFolder (govideosav : Disk)
| TwoFolders (save_path watch_path : Disk).
Record World := { layout : Folders; clock : Z }.
Definition save_path (w : World) : Disk :=
  match layout w with OneFolder d => d | TwoFolders d _ => d end.
Definition watch_path (w : World) : Disk :=
  match layout w with OneFolder d => d | TwoFolders _ d => d end.
Definition set_save_path (d : Disk) (w : World) : World :=
  {| layout := match layout w with
               | OneFolder _ => OneFolder d
               | TwoFolders _ watched => TwoFolders d watched
               end;
     clock := clock w |}.
Definition set_watch_path (d : Disk) (w : World) : World :=
  {| layout := match layout w with
               | OneFolder _ => OneFolder d
               | TwoFolders saved _ => TwoFolders saved d
               end;
     clock := clock w |}.
Definition set_clock (t : Z) (w : World) : World :=
  {| layout := layout w; clock := t |}.
(** What the machine answers where the manager and the two
    constructors ask it outside any [try] of their own. *)
Record Machine := {
  imported : bool;          (* the two imports of the manager's [__init__] went through *)
  save_path_mkdir : bool;   (* [self.save_path.mkdir(exist_ok=True)] goes through *)
  is_windows : bool;        (* [platform.system() == "Windows"] *)
  getuser_ok : bool;        (* [getpass.getuser()] finds a user name *)
  watch_path_mkdir : bool   (* [self.watch_path.mkdir(exist_ok=True)] goes through *)
}.
(** [check_and_find_ffmpeg], as [__init__] sees it: its result is
    dropped there, and every probe of a path sits in a [try]; the call
    of [getpass.getuser()], made on Windows to build the list of
    paths, does not. *)
Definition ffmpeg_search_raises (m : Machine) : bool :=
  is_windows m && negb (getuser_ok m).
(** [SimpleBrooklineDownloader()]: [__init__] makes the folder, loads
    the ledger and looks for FFmpeg.  [None] when it raises. *)
Definition new_downloader (m : Machine) (w : World) : option Downloader.State :=
  if save_path_mkdir m then
    match Downloader.load_downloaded_events (Downloader.init (clock w) (save_path w)) with
    | Ok _ s => if ffmpeg_search_raises m then None else Some s
    | _ => None
    end
  else None.
(** [BrooklineCablecastUploader()]: [__init__] loads the history and
    then makes the folder.  [None] when it raises. *)
Definition new_uploader (m : Machine) (w : World) : option Uploader.State :=
  match Uploader.load_upload_history (Uploader.init (clock w) (watch_path w)) with
  | Ok _ u => if watch_path_mkdir m then Some u else None
  | _ => None
  end.
Definition after_download (s : Downloader.State) (w : World) : World :=
  set_clock (Downloader.clock s) (set_save_path (Downloader.disk s) w).
Definition after_upload (u : Uploader.State) (w : World) : World :=
  set_clock (Uploader.clock u) (set_watch_path (Uploader.disk u) w).
(** [run_downloader]: the constructor and the scan sit in one [try]
    whose [except Exception] returns [False]. *)
Definition run_downloader (m : Machine) (chrome_ok : bool) (site : Downloader.Site)
    : M World bool :=
  fun w =>
    if imported m then
      match new_downloader m w with
      | Some downloader =>
          match Downloader.run_download_scan chrome_ok site downloader with
          | Ok _ s => Ok true (after_download s w)
          | Raised _ s => Ok false (after_download s w)
          | Unfinished s => Unfinished (after_download s w)
          end
      | None => Ok false w
      end
    else Ok false w.
(** [run_uploader] *)
Definition run_uploader (m : Machine) (rounds : nat) (chrome_ok : bool)
    (site : Uploader.Site) : M World bool :=
  fun w =>
    if imported m then
      match new_uploader m w with
      | Some uploader =>
          match Uploader.upload_session rounds chrome_ok site uploader with
          | Ok _ u => Ok true (after_upload u w)
          | Raised _ u => Ok false (after_upload u w)
          | Unfinished u => Unfinished (after_upload u w)
          end
      | None => Ok false w
      end
    else Ok false w.
Definition sleep (d : Z) : M World unit :=
  modify (fun w => set_clock (clock w + d) w).
(** [run_sync_cycle] *)
Definition run_sync_cycle (m : Machine) (rounds : nat)
    (chrome_ok chrome_ok_again : bool) (catalog : Downloader.Site)
    (cablecast : Uploader.Site) : M World unit :=
  download_success <- run_downloader m chrome_ok catalog ;;
  if download_success then
    sleep 300 ;;;
    upload_success <- run_uploader m rounds chrome_ok_again cablecast ;;
    ret tt
  else ret tt.
End Manager.

(** A Windows machine on which both constructors go through. *)
Definition windows_pc : Manager.Machine :=
  {| Manager.imported := true; Manager.save_path_mkdir := true;
     Manager.is_windows := true; Manager.getuser_ok := true;
     Manager.watch_path_mkdir := true |}.

(** On 15 July 2025 at ten: the folder of the scripts holds no
    download yet, [C:/govideosav] holds the two converted videos. *)
Definition two_files_waiting : Manager.World :=
  {| Manager.layout := Manager.TwoFolders empty_disk disk_with_two_files;
     Manager.clock := t0 |}.

(** * Properties *)

(** ** Lists *)

Lemma insert_sorted_Permutation {A} (le : A -> A -> bool) (x : A) (l : list A) :
  Permutation (insert_sorted le x l) (x :: l).
Proof.
  induction l as [|y l IH]; simpl.
  - reflexivity.
  - destruct (le x y).
    + reflexivity.
    + rewrite IH. apply perm_swap.
Qed.

Lemma sorted_Permutation {A} (le : A -> A -> bool) (l : list A) :
  Permutation (sorted le l) l.
Proof.
  unfold sorted. induction l as [|x l IH]; simpl.
  - reflexivity.
  - rewrite insert_sorted_Permutation. now rewrite IH.
Qed.

Lemma occurrences_Permutation (x : string) (l l' : list string) :
  Permutation l l' -> occurrences x l = occurrences x l'.
Proof.
  unfold occurrences.
  induction 1 as [|y l l' _ IH|y z l|l l' l'' _ IH1 _ IH2]; simpl.
  - reflexivity.
  - destruct (String.eqb x y); simpl; congruence.
  - destruct (String.eqb x y), (String.eqb x z); reflexivity.
  - congruence.
Qed.

Lemma occurrences_notin (x : string) (l : list string) :
  x ∉ l -> occurrences x l = 0%nat.
Proof.
  unfold occurrences. induction l as [|y l IH]; simpl; intros Hx.
  - reflexivity.
  - destruct (String.eqb_spec x y) as [->|Hne].
    + exfalso. apply Hx. left.
    + apply IH. intros Hin. apply Hx. now right.
Qed.

Lemma occurrences_NoDup (x : string) (l : list string) :
  NoDup l -> x ∈ l -> occurrences x l = 1%nat.
Proof.
  unfold occurrences. induction 1 as [|y l Hy Hl IH]; intros Hx.
  - inversion Hx.
  - simpl. destruct (String.eqb_spec x y) as [->|Hne]; simpl.
    + f_equal. now apply occurrences_notin.
    + apply IH. inversion Hx; subst; [congruence | assumption].
Qed.

Lemma occurrences_elements (x : string) (X : gset string) :
  x ∈ X -> occurrences x (elements X) = 1%nat.
Proof.
  intros Hx. apply occurrences_NoDup.
  - apply NoDup_elements.
  - now apply elem_of_elements.
Qed.

(** ** C1: recording a completion twice *)

Lemma add_twice (x : string) (X : gset string) :
  {[ x ]} ∪ ({[ x ]} ∪ X) = {[ x ]} ∪ X.
Proof. set_solver. Qed.

(** C1.  Marking an event as downloaded, or a file as uploaded, twice in
    a row: both calls return without raising, the second leaves the set
    as the first left it, the set holds the id exactly once, and so do
    the lines and the JSON list that the save writes; when the disk
    refuses the write the file keeps what it had and the call still
    returns. *)
Theorem record_completion_idempotent
    (s : Downloader.State) (u : Uploader.State) (id : string) (a : Uploader.Artifact) :
  let d1 := Downloader.mark_event_as_downloaded id s in
  let d2 := Downloader.mark_event_as_downloaded id (state_of d1) in
  let u1 := Uploader.mark_as_uploaded a u in
  let u2 := Uploader.mark_as_uploaded a (state_of u1) in
  let lines := sorted String.leb (elements (Downloader.downloaded_events (state_of d2))) in
  let paths := elements (Uploader.uploaded_files (state_of u2)) in
  (returned d1 = true /\ returned d2 = true
   /\ Downloader.downloaded_events (state_of d2) = Downloader.downloaded_events (state_of d1)
   /\ occurrences id (elements (Downloader.downloaded_events (state_of d2))) = 1%nat
   /\ occurrences id lines = 1%nat
   /\ downloaded_events_txt (Downloader.disk (state_of d2))
      = if can_write (Downloader.disk s) then Some lines
        else downloaded_events_txt (Downloader.disk s))
  /\
  (returned u1 = true /\ returned u2 = true
   /\ Uploader.uploaded_files (state_of u2) = Uploader.uploaded_files (state_of u1)
   /\ occurrences (Uploader.relative_path a) paths = 1%nat
   /\ uploaded_files_json (Uploader.disk (state_of u2))
      = if can_write (Uploader.disk u)
        then Some (Document (JObj [("uploaded_files"%string, JArr (map JStr paths));
                                   ("last_updated"%string, JStr (pretty (Uploader.clock u)))]))
        else uploaded_files_json (Uploader.disk u)).
Proof.
  assert (Hin : forall x (X : gset string), x ∈ {[ x ]} ∪ X) by set_solver.
  split.
  - unfold Downloader.mark_event_as_downloaded, Downloader.save_downloaded_events,
      Downloader.write_downloaded_file, try_except, bind, modify, get, ret.
    simpl. destruct (can_write (Downloader.disk s)) eqn:Hw; simpl; rewrite ?Hw; simpl;
      rewrite ?add_twice;
      (repeat split; try reflexivity;
       [ now apply occurrences_elements
       | rewrite (occurrences_Permutation _ _ _ (sorted_Permutation _ _));
         now apply occurrences_elements ]).
  - unfold Uploader.mark_as_uploaded, Uploader.save_upload_history,
      Uploader.history_document, try_except, bind, modify, get, ret.
    simpl. destruct (can_write (Uploader.disk u)) eqn:Hw; simpl; rewrite ?Hw; simpl;
      rewrite ?add_twice;
      (repeat split; try reflexivity; now apply occurrences_elements).
Qed.

(** ** C4: the stability gate *)

Lemma find_files_to_upload_returns (s : Uploader.State) :
  Uploader.find_files_to_upload s
  = Ok (flat_map (Uploader.files_of_folder (Uploader.uploaded_files s) (Uploader.clock s))
          (folders (Uploader.disk s))) s.
Proof. reflexivity. Qed.

Lemma in_files_of_folder (X : gset string) (now : Z) (folder : Folder) (a : Uploader.Artifact) :
  In a (Uploader.files_of_folder X now folder) <->
  exists found, corrected_format folder = Some found
    /\ In (Uploader.file a) found /\ is_true (Uploader.is_mp4 (Uploader.file a))
    /\ Uploader.in_folder a = dir_name folder
    /\ Uploader.wanted X now a = true.
Proof.
  unfold Uploader.files_of_folder.
  destruct (corrected_format folder) as [found|].
  - rewrite filter_In, in_map_iff. split.
    + intros [[f [<- Hf]] Hw]. apply filter_In in Hf as [Hf Hmp4].
      exists found. simpl. rewrite Hmp4. repeat split; try done.
    + intros [found' [[= <-] [Hf [Hmp4 [Hname Hw]]]]]. split; [|done].
      exists (Uploader.file a). split.
      * destruct a; simpl in *. now subst.
      * apply filter_In. split; [done|]. now destruct (Uploader.is_mp4 _).
  - split; [intros [] | intros [found [[=] _]]].
Qed.

Lemma is_stable_spec (now : Z) (f : File) :
  Uploader.is_stable now f = true <-> 1024 * 1024 < st_size f /\ 300 < now - st_mtime f.
Proof. unfold Uploader.is_stable. rewrite andb_true_iff, !Z.ltb_lt. reflexivity. Qed.

(** C4.  An MP4 file of some [corrected_format] folder that is not in
    the upload ledger is returned by [find_files_to_upload] if and only
    if it is larger than 1 MiB and was last modified more than 300
    seconds before the scan's clock reading.  The answer depends on
    nothing but the disk, the ledger and the clock, so a file that
    meets both conditions is returned by the first scan that sees it
    so. *)
Theorem stability_gate (s : Uploader.State) (folder : Folder) (found : list File) (f : File) :
  In folder (folders (Uploader.disk s)) ->
  corrected_format folder = Some found ->
  In f found ->
  Uploader.is_mp4 f = true ->
  let a := {| Uploader.in_folder := dir_name folder; Uploader.file := f |} in
  Uploader.relative_path a ∉ Uploader.uploaded_files s ->
  exists files_to_upload,
    Uploader.find_files_to_upload s = Ok files_to_upload s
    /\ (In a files_to_upload <->
        1024 * 1024 < st_size f /\ 300 < Uploader.clock s - st_mtime f).
Proof.
  intros Hfolder Hcf Hf Hmp4 a Hnew.
  eexists. split; [apply find_files_to_upload_returns|].
  rewrite in_flat_map. rewrite <- is_stable_spec.
  assert (Hw : Uploader.wanted (Uploader.uploaded_files s) (Uploader.clock s) a
               = Uploader.is_stable (Uploader.clock s) f).
  { unfold Uploader.wanted. rewrite bool_decide_eq_false_2 by done. reflexivity. }
  split.
  - intros [folder' [_ Hin]]. apply in_files_of_folder in Hin as (_ & _ & _ & _ & Hin).
    now rewrite <- Hw.
  - intros Hst. exists folder. split; [done|]. apply in_files_of_folder.
    exists found. simpl. rewrite Hmp4, Hw. repeat split; done.
Qed.

Lemma stability_gate_witness :
  exists files_to_upload,
    Uploader.find_files_to_upload (Uploader.init 1360 disk_with_stable_file)
    = Ok files_to_upload (Uploader.init 1360 disk_with_stable_file)
    /\ (In {| Uploader.in_folder := "1000_Select_Board_1001"; Uploader.file := stable_file |}
          files_to_upload
        <-> 1024 * 1024 < st_size stable_file /\ 300 < 1360 - st_mtime stable_file).
Proof.
  apply (stability_gate (Uploader.init 1360 disk_with_stable_file)
           {| dir_name := "1000_Select_Board_1001"; dir_files := [];
              corrected_format := Some [stable_file] |} [stable_file] stable_file).
  - simpl. left. reflexivity.
  - reflexivity.
  - simpl. left. reflexivity.
  - reflexivity.
  - simpl. apply not_elem_of_empty.
Defined.

(** ** C10: a ledger file that cannot be loaded *)

(** C10.  When [uploaded_files.json] exists and reading it raises, the
    load still returns, the set of uploaded files is empty afterwards,
    and the next scan returns every MP4 file of every
    [corrected_format] folder that passes the stability gate, whatever
    had been uploaded before. *)
Theorem corrupt_ledger_resets (s : Uploader.State) (text : file_text) (e : exn)
    (s' : Uploader.State) :
  uploaded_files_json (Uploader.disk s) = Some text ->
  Uploader.read_upload_history s = Raised e s' ->
  let loaded := Uploader.load_upload_history s in
  returned loaded = true
  /\ Uploader.uploaded_files (state_of loaded) = ∅
  /\ Uploader.disk (state_of loaded) = Uploader.disk s
  /\ forall folder found f,
       In folder (folders (Uploader.disk s)) ->
       corrected_format folder = Some found ->
       In f found ->
       Uploader.is_mp4 f = true ->
       exists files_to_upload,
         Uploader.find_files_to_upload (state_of loaded) = Ok files_to_upload (state_of loaded)
         /\ (In {| Uploader.in_folder := dir_name folder; Uploader.file := f |} files_to_upload
             <-> Uploader.is_stable (Uploader.clock (state_of loaded)) f = true).
Proof.
  intros Hfile Hraise loaded.
  assert (Hs' : s' = s).
  { revert Hraise. unfold Uploader.read_upload_history, bind, get, raise, ret, modify.
    rewrite Hfile. destruct text as [|j]; simpl; [congruence|].
    destruct (json_get_or_empty _ j) as [e1|v]; simpl; [congruence|].
    destruct (py_set v); simpl; congruence. }
  subst s'.
  assert (Hloaded : loaded = Ok tt (Uploader.set_uploaded_files ∅ s)).
  { unfold loaded, Uploader.load_upload_history, try_except. now rewrite Hraise. }
  rewrite Hloaded. simpl. repeat split; try reflexivity.
  intros folder found f Hfolder Hcf Hf Hmp4.
  destruct (stability_gate (Uploader.set_uploaded_files ∅ s) folder found f)
    as [l [Hl Hiff]]; try done; try (simpl; apply not_elem_of_empty).
  exists l. split; [done|]. simpl in Hiff. rewrite Hiff. symmetry. apply is_stable_spec.
Qed.

Lemma corrupt_ledger_resets_witness :
  let loaded := Uploader.load_upload_history uploaded_before in
  returned loaded = true
  /\ Uploader.uploaded_files (state_of loaded) = ∅
  /\ Uploader.disk (state_of loaded) = Uploader.disk uploaded_before
  /\ forall folder found f,
       In folder (folders (Uploader.disk uploaded_before)) ->
       corrected_format folder = Some found ->
       In f found ->
       Uploader.is_mp4 f = true ->
       exists files_to_upload,
         Uploader.find_files_to_upload (state_of loaded) = Ok files_to_upload (state_of loaded)
         /\ (In {| Uploader.in_folder := dir_name folder; Uploader.file := f |} files_to_upload
             <-> Uploader.is_stable (Uploader.clock (state_of loaded)) f = true).
Proof.
  apply (corrupt_ledger_resets uploaded_before Garbled JSONDecodeError uploaded_before).
  - reflexivity.
  - reflexivity.
Defined.

(** ** Removing from a list *)

Lemma list_remove_app `{EqDecision A} (x : A) (pre l : list A) :
  x ∉ pre -> list_remove x (pre ++ x :: l) = Some (pre ++ l).
Proof.
  induction pre as [|y pre IH]; simpl; intros Hx.
  - now rewrite decide_True.
  - rewrite decide_False.
    + rewrite IH; [reflexivity|]. intros Hin. apply Hx. now right.
    + intros ->. apply Hx. left.
Qed.

Lemma remove_each_filter `{EqDecision A} (P : A -> bool) (pre l : list A) :
  (forall x, x ∈ pre -> P x = false) ->
  remove_each (List.filter P l) (pre ++ l)
  = Some (pre ++ List.filter (fun x => negb (P x)) l).
Proof.
  revert pre. induction l as [|x l IH]; intros pre Hpre; simpl.
  - reflexivity.
  - destruct (P x) eqn:HP; simpl.
    + rewrite list_remove_app.
      * now apply IH.
      * intros Hin. apply Hpre in Hin. congruence.
    + replace (pre ++ x :: l) with ((pre ++ [x]) ++ l) by now rewrite <- app_assoc.
      rewrite IH.
      * now rewrite <- app_assoc.
      * intros y Hy. apply elem_of_app in Hy as [Hy|Hy]; [now apply Hpre|].
        apply list_elem_of_singleton in Hy. now subst.
Qed.

Lemma window_handles_close_tab (h : Tab) (d : Driver) :
  window_handles (close_tab h d) = filter (fun x => x ≠ h) (window_handles d).
Proof.
  unfold close_tab, is_open. case_bool_decide as Hh; simpl; [reflexivity|].
  symmetry. induction (window_handles d) as [|y l IH]; [reflexivity|].
  rewrite filter_cons. rewrite decide_True.
  - f_equal. apply IH. intros Hin. apply Hh. now right.
  - intros ->. apply Hh. left.
Qed.

Lemma window_handles_close_tabs (hs : list Tab) (d : Driver) :
  window_handles (close_tabs hs d) = filter (fun x => x ∉ hs) (window_handles d).
Proof.
  unfold close_tabs. revert d. induction hs as [|h hs IH]; intros d; simpl.
  - induction (window_handles d) as [|y l IHl]; [reflexivity|].
    rewrite filter_cons, decide_True; [now f_equal|]. apply not_elem_of_nil.
  - rewrite IH, window_handles_close_tab.
    induction (window_handles d) as [|y l IHl]; [reflexivity|].
    rewrite !filter_cons. destruct (decide (y ≠ h)) as [Hne|Heq].
    + rewrite filter_cons. destruct (decide (y ∉ hs)) as [Hn|Hi].
      * rewrite decide_True; [now f_equal|].
        intros Hin. apply elem_of_cons in Hin as [?|?]; [congruence|done].
      * rewrite decide_False; [done|]. intros Hn. apply Hi. intros Hin. apply Hn. now right.
    + rewrite decide_False; [done|]. intros Hn. apply Heq. intros ->. apply Hn. left.
Qed.

(** ** The downloader's cleanup, step by step *)

Lemma dl_set_driver_id (s : Downloader.State) :
  Downloader.set_driver (Downloader.driver s) s = s.
Proof. now destruct s. Qed.

Lemma dl_set_tabs_id (s : Downloader.State) :
  Downloader.set_downloading_tabs (Downloader.downloading_tabs s) s = s.
Proof. now destruct s. Qed.

Lemma dl_try_close (h : Tab) (s : Downloader.State) :
  try_except (Downloader.close_tab_if_open h) (fun _ => ret tt) s
  = Ok tt (Downloader.set_driver (option_map (close_tab h) (Downloader.driver s)) s).
Proof.
  unfold try_except, Downloader.close_tab_if_open, Downloader.get_window_handles,
    Downloader.with_driver, bind, ret.
  destruct (Downloader.driver s) as [d|] eqn:Hd; simpl.
  - unfold close_tab, is_open. case_bool_decide as Hh; simpl.
    + unfold drv_switch, is_open. rewrite bool_decide_eq_true_2 by done. simpl.
      unfold drv_close, is_open. simpl. rewrite bool_decide_eq_true_2 by done.
      reflexivity.
    + reflexivity.
  - rewrite <- Hd. now rewrite dl_set_driver_id.
Qed.

Lemma dl_close_expired (now : Z) (l : list Downloader.download_info) (s : Downloader.State) :
  let expired := List.filter (fun i => 300 <? now - Downloader.start_time i) l in
  Downloader.close_expired now l s
  = Ok expired
      (Downloader.set_driver
         (option_map (close_tabs (map Downloader.tab expired)) (Downloader.driver s)) s).
Proof.
  revert s. induction l as [|i l IH]; intros s; simpl.
  - unfold ret. rewrite <- (dl_set_driver_id s) at 1. f_equal. f_equal.
    now destruct (Downloader.driver s).
  - destruct (300 <? now - Downloader.start_time i); simpl.
    + unfold bind at 1. rewrite dl_try_close. unfold bind at 1. rewrite IH. simpl.
      unfold ret. now destruct (Downloader.driver s).
    + apply IH.
Qed.

Lemma dl_for_each_untrack (rm l' : list Downloader.download_info) (s : Downloader.State) :
  remove_each rm (Downloader.downloading_tabs s) = Some l' ->
  for_each rm Downloader.untrack s = Ok tt (Downloader.set_downloading_tabs l' s).
Proof.
  revert s. induction rm as [|x rm IH]; intros s; simpl.
  - intros [= <-]. unfold ret. now rewrite dl_set_tabs_id.
  - destruct (list_remove x (Downloader.downloading_tabs s)) as [l1|] eqn:Hx; [|done].
    intros Hrest.
    assert (Hu : Downloader.untrack x s = Ok tt (Downloader.set_downloading_tabs l1 s))
      by (unfold Downloader.untrack; now rewrite Hx).
    unfold bind. rewrite Hu.
    rewrite (IH (Downloader.set_downloading_tabs l1 s)); [reflexivity | exact Hrest].
Qed.

Lemma dl_back_to_first_tab (s : Downloader.State) :
  exists dr,
    Downloader.back_to_first_tab s = Ok tt (Downloader.set_driver dr s)
    /\ option_map window_handles dr = option_map window_handles (Downloader.driver s).
Proof.
  unfold Downloader.back_to_first_tab, try_except, bind, Downloader.with_driver, ret.
  destruct (Downloader.driver s) as [d|] eqn:Hd; simpl.
  - unfold drv_first. destruct (window_handles d) as [|h hs] eqn:Hh; simpl.
    + exists (Some d). split; [|simpl; now rewrite Hh].
      rewrite <- Hd. now rewrite dl_set_driver_id.
    + unfold drv_switch, is_open. rewrite Hh.
      rewrite bool_decide_eq_true_2 by left. simpl.
      eexists. split; [reflexivity|]. reflexivity.
  - exists None. split; [|reflexivity]. rewrite <- Hd. now rewrite dl_set_driver_id.
Qed.

Lemma dl_cleanup (s : Downloader.State) :
  let now := Downloader.clock s in
  let tabs := Downloader.downloading_tabs s in
  let expired := List.filter (fun i => 300 <? now - Downloader.start_time i) tabs in
  exists dr,
    Downloader.cleanup_old_download_tabs s
    = Ok tt (Downloader.set_driver dr
               (Downloader.set_downloading_tabs
                  (List.filter (fun i => negb (300 <? now - Downloader.start_time i)) tabs) s))
    /\ option_map window_handles dr
       = option_map (fun d => filter (fun h => h ∉ map Downloader.tab expired) (window_handles d))
           (Downloader.driver s).
Proof.
  intros now tabs expired.
  unfold Downloader.cleanup_old_download_tabs, bind, gets.
  fold now tabs. rewrite dl_close_expired. fold expired.
  rewrite (dl_for_each_untrack expired
             (List.filter (fun i => negb (300 <? now - Downloader.start_time i)) tabs)).
  - match goal with |- context [Downloader.back_to_first_tab ?t] =>
      destruct (dl_back_to_first_tab t) as [dr [Hback Hh]]; rewrite Hback end.
    exists dr. split; [reflexivity|].
    rewrite Hh. simpl. destruct (Downloader.driver s) as [d|]; simpl; [|reflexivity].
    now rewrite window_handles_close_tabs.
  - simpl. apply (remove_each_filter _ [] tabs). intros x Hx. inversion Hx.
Qed.

(** ** The uploader's cleanup, step by step *)

Lemma up_set_driver_id (s : Uploader.State) :
  Uploader.set_driver (Uploader.driver s) s = s.
Proof. now destruct s. Qed.

Lemma up_set_tabs_id (s : Uploader.State) :
  Uploader.set_uploading_tabs (Uploader.uploading_tabs s) s = s.
Proof. now destruct s. Qed.

Lemma up_try_close (h : Tab) (s : Uploader.State) :
  try_except (Uploader.close_tab_if_open h) (fun _ => ret tt) s
  = Ok tt (Uploader.set_driver
             (option_map (close_tab_and_return h) (Uploader.driver s)) s).
Proof.
  unfold try_except, Uploader.close_tab_if_open, Uploader.get_window_handles,
    Uploader.with_driver, bind, ret.
  destruct (Uploader.driver s) as [d|] eqn:Hd; simpl.
  - unfold close_tab_and_return, is_open. case_bool_decide as Hh; simpl; [|reflexivity].
    unfold drv_current, is_open. case_bool_decide as Hc; simpl; [|reflexivity].
    unfold Uploader.switch_to, Uploader.with_driver. simpl.
    unfold drv_switch, is_open. rewrite bool_decide_eq_true_2 by done. simpl.
    unfold drv_close, is_open. simpl. rewrite bool_decide_eq_true_2 by done. simpl.
    unfold Uploader.switch_back, try_except, bind, Uploader.get_window_handles,
      Uploader.with_driver. simpl.
    case_bool_decide as Hleft; simpl.
    + unfold Uploader.switch_to, Uploader.with_driver, drv_switch, is_open. simpl.
      rewrite bool_decide_eq_true_2 by done. reflexivity.
    + destruct (filter (fun x => x ≠ h) (window_handles d)) as [|first others] eqn:Hl; simpl.
      * reflexivity.
      * unfold Uploader.switch_to, Uploader.with_driver, drv_switch, is_open. simpl.
        rewrite bool_decide_eq_true_2 by left. reflexivity.
  - rewrite <- Hd. now rewrite up_set_driver_id.
Qed.

Lemma up_close_expired (now : Z) (l : list Uploader.upload_info) (s : Uploader.State) :
  let expired := List.filter (fun i => 720 <? now - Uploader.start_time i) l in
  Uploader.close_expired now l s
  = Ok expired
      (Uploader.set_driver
         (option_map (close_tabs_and_return (map Uploader.tab expired)) (Uploader.driver s)) s).
Proof.
  revert s. induction l as [|i l IH]; intros s; simpl.
  - unfold ret. rewrite <- (up_set_driver_id s) at 1. f_equal. f_equal.
    now destruct (Uploader.driver s).
  - destruct (720 <? now - Uploader.start_time i); simpl.
    + unfold bind at 1. rewrite up_try_close. unfold bind at 1. rewrite IH. simpl.
      unfold ret. now destruct (Uploader.driver s).
    + apply IH.
Qed.

Lemma up_for_each_untrack (rm l' : list Uploader.upload_info) (s : Uploader.State) :
  remove_each rm (Uploader.uploading_tabs s) = Some l' ->
  for_each rm Uploader.untrack s = Ok tt (Uploader.set_uploading_tabs l' s).
Proof.
  revert s. induction rm as [|x rm IH]; intros s; simpl.
  - intros [= <-]. unfold ret. now rewrite up_set_tabs_id.
  - destruct (list_remove x (Uploader.uploading_tabs s)) as [l1|] eqn:Hx; [|done].
    intros Hrest.
    assert (Hu : Uploader.untrack x s = Ok tt (Uploader.set_uploading_tabs l1 s))
      by (unfold Uploader.untrack; now rewrite Hx).
    unfold bind. rewrite Hu.
    rewrite (IH (Uploader.set_uploading_tabs l1 s)); [reflexivity | exact Hrest].
Qed.

Lemma up_cleanup (s : Uploader.State) :
  let now := Uploader.clock s in
  let tabs := Uploader.uploading_tabs s in
  let expired := List.filter (fun i => 720 <? now - Uploader.start_time i) tabs in
  Uploader.cleanup_old_upload_tabs s
  = Ok tt (Uploader.set_uploading_tabs
             (List.filter (fun i => negb (720 <? now - Uploader.start_time i)) tabs)
             (Uploader.set_driver
                (option_map (close_tabs_and_return (map Uploader.tab expired))
                   (Uploader.driver s)) s)).
Proof.
  intros now tabs expired.
  unfold Uploader.cleanup_old_upload_tabs, bind, gets.
  fold now tabs. rewrite up_close_expired. fold expired.
  rewrite (up_for_each_untrack expired
             (List.filter (fun i => negb (720 <? now - Uploader.start_time i)) tabs)).
  - reflexivity.
  - simpl. apply (remove_each_filter _ [] tabs). intros x Hx. inversion Hx.
Qed.

Lemma focus_ok_close_tab_and_return (h : Tab) (d : Driver) :
  focus_ok d ->
  focus_ok (close_tab_and_return h d)
  /\ window_handles (close_tab_and_return h d) = filter (fun x => x ≠ h) (window_handles d).
Proof.
  intros Hfocus. unfold close_tab_and_return, is_open.
  case_bool_decide as Hh; simpl.
  - case_bool_decide as Hc; simpl.
    + split; [|reflexivity]. unfold focus_ok. simpl.
      case_bool_decide as Hleft; [now left|].
      destruct (filter (fun x => x ≠ h) (window_handles d)) as [|first others];
        [now right | left; left].
    + exfalso. destruct Hfocus as [Hin|Hnil]; [done|]. rewrite Hnil in Hh. inversion Hh.
  - split; [exact Hfocus|]. rewrite <- (window_handles_close_tab h d).
    unfold close_tab, is_open. now rewrite bool_decide_eq_false_2.
Qed.

Lemma focus_ok_close_tabs_and_return (hs : list Tab) (d : Driver) :
  focus_ok d ->
  focus_ok (close_tabs_and_return hs d)
  /\ window_handles (close_tabs_and_return hs d) = window_handles (close_tabs hs d).
Proof.
  unfold close_tabs_and_return, close_tabs. revert d.
  assert (Hgen : forall hs d d', focus_ok d -> window_handles d = window_handles d' ->
            focus_ok (foldl (fun d h => close_tab_and_return h d) d hs)
            /\ window_handles (foldl (fun d h => close_tab_and_return h d) d hs)
               = window_handles (foldl (fun d h => close_tab h d) d' hs)).
  { clear hs. induction hs as [|h hs IH]; intros d d' Hf Heq; simpl.
    - now split.
    - destruct (focus_ok_close_tab_and_return h d Hf) as [Hf' Hw].
      apply IH; [exact Hf'|]. now rewrite Hw, window_handles_close_tab, Heq. }
  intros d Hf. now apply Hgen.
Qed.

(** ** C5: reclaiming tabs by age *)

(** C5.  [cleanup_old_download_tabs] keeps exactly the download tabs
    whose age is at most 300 seconds and closes the browser tabs of the
    others; [cleanup_old_upload_tabs] does the same with 720 seconds.
    Both return.  The browser tabs of the entries kept are not touched,
    apart from a tab that an expired entry names too.  For the uploader
    the browser part needs the browser to be on an open tab, since it
    asks for the current tab before it closes one. *)
Theorem ttl_reclamation (s : Downloader.State) (u : Uploader.State) :
  match Uploader.driver u with Some d => focus_ok d | None => True end ->
  let s' := state_of (Downloader.cleanup_old_download_tabs s) in
  let u' := state_of (Uploader.cleanup_old_upload_tabs u) in
  (returned (Downloader.cleanup_old_download_tabs s) = true
   /\ Downloader.downloading_tabs s'
      = List.filter (fun i => Downloader.clock s - Downloader.start_time i <=? 300)
          (Downloader.downloading_tabs s)
   /\ option_map window_handles (Downloader.driver s')
      = option_map
          (fun d => filter
             (fun h => h ∉ map Downloader.tab
                (List.filter (fun i => 300 <? Downloader.clock s - Downloader.start_time i)
                   (Downloader.downloading_tabs s)))
             (window_handles d))
          (Downloader.driver s))
  /\
  (returned (Uploader.cleanup_old_upload_tabs u) = true
   /\ Uploader.uploading_tabs u'
      = List.filter (fun i => Uploader.clock u - Uploader.start_time i <=? 720)
          (Uploader.uploading_tabs u)
   /\ option_map window_handles (Uploader.driver u')
      = option_map
          (fun d => filter
             (fun h => h ∉ map Uploader.tab
                (List.filter (fun i => 720 <? Uploader.clock u - Uploader.start_time i)
                   (Uploader.uploading_tabs u)))
             (window_handles d))
          (Uploader.driver u)).
Proof.
  intros Hfocus s' u'. split.
  - destruct (dl_cleanup s) as [dr [Hrun Hh]]. subst s'. rewrite Hrun. simpl.
    repeat split.
    + apply filter_ext. intros i. now rewrite Z.leb_antisym.
    + exact Hh.
  - subst u'. rewrite up_cleanup. simpl. repeat split.
    + apply filter_ext. intros i. now rewrite Z.leb_antisym.
    + destruct (Uploader.driver u) as [d|]; simpl; [|reflexivity]. f_equal.
      destruct (focus_ok_close_tabs_and_return
                  (map Uploader.tab
                     (List.filter (fun i => 720 <? Uploader.clock u - Uploader.start_time i)
                        (Uploader.uploading_tabs u))) d Hfocus) as [_ Hw].
      now rewrite Hw, window_handles_close_tabs.
Qed.

Lemma ttl_reclamation_witness :
  (map Downloader.start_time
     (Downloader.downloading_tabs
        (state_of (Downloader.cleanup_old_download_tabs two_download_tabs))) = [1001]
   /\ option_map window_handles
        (Downloader.driver (state_of (Downloader.cleanup_old_download_tabs two_download_tabs)))
      = Some [0; 2]%nat)
  /\
  (map Uploader.start_time
     (Uploader.uploading_tabs
        (state_of (Uploader.cleanup_old_upload_tabs two_upload_tabs))) = [1001]
   /\ option_map window_handles
        (Uploader.driver (state_of (Uploader.cleanup_old_upload_tabs two_upload_tabs)))
      = Some [0; 2]%nat).
Proof.
  destruct (ttl_reclamation two_download_tabs two_upload_tabs) as [(_ & Hd & Hdw) (_ & Hu & Huw)].
  - simpl. left. simpl. left.
  - split; split.
    + rewrite Hd. reflexivity.
    + rewrite Hdw. reflexivity.
    + rewrite Hu. reflexivity.
    + rewrite Huw. reflexivity.
Defined.

(** ** Rules for [keeps] *)

Section Keeps.
Context {S : Type} (R : S -> S -> Prop) `{!PreOrder R}.

Lemma keeps_ret {A} (a : A) : keeps R (ret a).
Proof. intros s. reflexivity. Qed.

Lemma keeps_raise {A} (e : exn) : keeps R (@raise S A e).
Proof. intros s. reflexivity. Qed.

Lemma keeps_get : keeps R (@get S).
Proof. intros s. reflexivity. Qed.

Lemma keeps_gets {A} (f : S -> A) : keeps R (gets f).
Proof. intros s. reflexivity. Qed.

Lemma keeps_modify (f : S -> S) : (forall s, R s (f s)) -> keeps R (modify f).
Proof. intros Hf s. apply Hf. Qed.

Lemma keeps_bind {A B} (c : M S A) (k : A -> M S B) :
  keeps R c -> (forall a, keeps R (k a)) -> keeps R (bind c k).
Proof.
  intros Hc Hk s. unfold bind. specialize (Hc s).
  destruct (c s) as [a s1|e s1|s1]; simpl in *; [|done|done].
  etransitivity; [exact Hc | apply Hk].
Qed.

Lemma keeps_try_except {A} (c : M S A) (h : exn -> M S A) :
  keeps R c -> (forall e, keeps R (h e)) -> keeps R (try_except c h).
Proof.
  intros Hc Hh s. unfold try_except. specialize (Hc s).
  destruct (c s) as [a s1|e s1|s1]; simpl in *; [done| |done].
  etransitivity; [exact Hc | apply Hh].
Qed.

Lemma keeps_try_except_timeout {A} (c h : M S A) :
  keeps R c -> keeps R h -> keeps R (try_except_timeout c h).
Proof.
  intros Hc Hh. apply keeps_try_except; [done|].
  intros e. destruct (is_timeout e); [done | apply keeps_raise].
Qed.

Lemma keeps_for_each {A} (l : list A) (body : A -> M S unit) :
  (forall x, keeps R (body x)) -> keeps R (for_each l body).
Proof.
  intros Hb. induction l as [|x l IH]; simpl.
  - apply keeps_ret.
  - apply keeps_bind; [apply Hb | intros _; exact IH].
Qed.
End Keeps.

#[global] Instance shrinks_preorder {S} (m : S -> nat) : PreOrder (shrinks m).
Proof.
  split.
  - intros s. unfold shrinks. lia.
  - intros a b c. unfold shrinks. lia.
Qed.

#[global] Instance same_preorder {S B} (f : S -> B) : PreOrder (same f).
Proof.
  split.
  - intros s. reflexivity.
  - intros a b c. unfold same. congruence.
Qed.

Lemma list_remove_length `{EqDecision A} (x : A) (l l' : list A) :
  list_remove x l = Some l' -> length l = Datatypes.S (length l').
Proof.
  revert l'. induction l as [|y l IH]; simpl; intros l'; [done|].
  destruct (decide (x = y)).
  - now intros [= <-].
  - destruct (list_remove x l) as [l1|]; simpl; [|done].
    intros [= <-]. simpl. f_equal. now apply IH.
Qed.

(** ** What the uploader's steps do to the number of tracked tabs *)

Ltac keeps_side :=
  intros; unfold shrinks, same, adds_only, tracked_uploads, tracked_downloads, open_tabs,
    dl_ledger, dl_records, up_ledger;
  simpl;
  try reflexivity; try lia; try solve [set_solver].

Ltac keeps_step :=
  match goal with
  | |- forall _, _ => intro
  | |- PreOrder _ => typeclasses eauto
  | |- keeps _ (bind _ _) => apply keeps_bind
  | |- keeps _ (try_except _ _) => apply keeps_try_except
  | |- keeps _ (try_except_timeout _ _) => apply keeps_try_except_timeout
  | |- keeps _ (ret _) => apply keeps_ret
  | |- keeps _ (raise _) => apply keeps_raise
  | |- keeps _ get => apply keeps_get
  | |- keeps _ (gets _) => apply keeps_gets
  | |- keeps _ (modify _) => apply keeps_modify; keeps_side
  | |- keeps _ (for_each _ _) => apply keeps_for_each
  | |- keeps _ (match ?x with _ => _ end) => destruct x
  end.

Lemma up_keeps_with_driver {A} (R : Uploader.State -> Uploader.State -> Prop)
    `{!PreOrder R} (f : Driver -> exn + (A * Driver)) :
  (forall s v, R s (Uploader.set_driver v s)) -> keeps R (Uploader.with_driver f).
Proof.
  intros HR s. unfold Uploader.with_driver.
  destruct (Uploader.driver s) as [d|]; simpl; [|reflexivity].
  destruct (f d) as [e|[a d']]; simpl; [reflexivity | apply HR].
Qed.

Lemma up_keeps_sleep (R : Uploader.State -> Uploader.State -> Prop) (d : Z) :
  (forall s v, R s (Uploader.set_clock v s)) -> keeps R (Uploader.sleep d).
Proof. intros HR s. apply HR. Qed.

Lemma up_untrack_shrinks (i : Uploader.upload_info) :
  keeps (shrinks tracked_uploads) (Uploader.untrack i).
Proof.
  intros s. unfold Uploader.untrack, shrinks, tracked_uploads.
  destruct (list_remove i (Uploader.uploading_tabs s)) as [l|] eqn:Hl; simpl; [|lia].
  apply list_remove_length in Hl. lia.
Qed.

Ltac up_keeps :=
  repeat first
    [ keeps_step
    | apply up_keeps_with_driver; [.. | keeps_side]
    | apply up_keeps_sleep; keeps_side
    | apply up_untrack_shrinks
    | progress unfold Uploader.get_window_handles, Uploader.head_or_raise,
        Uploader.driver_get, Uploader.wait_until, Uploader.act_on, Uploader.switch_to,
        Uploader.switch_back, Uploader.close_tab_if_open ].

Lemma up_close_tab_if_open_shrinks (h : Tab) :
  keeps (shrinks tracked_uploads) (Uploader.close_tab_if_open h).
Proof. up_keeps. Qed.

Lemma list_filter_length_le {A} (f : A -> bool) (l : list A) :
  (length (List.filter f l) <= length l)%nat.
Proof.
  induction l as [|x l IH]; simpl; [lia|]. destruct (f x); simpl; lia.
Qed.

Lemma up_cleanup_shrinks :
  keeps (shrinks tracked_uploads) Uploader.cleanup_old_upload_tabs.
Proof.
  intros s. rewrite up_cleanup. unfold shrinks, tracked_uploads. simpl.
  apply list_filter_length_le.
Qed.

Lemma up_limit_shrinks :
  keeps (shrinks tracked_uploads) Uploader.limit_open_upload_tabs.
Proof. unfold Uploader.limit_open_upload_tabs. up_keeps. Qed.

Lemma up_navigate_shrinks (v : Uploader.Visit) (keep_old_tab : bool) :
  keeps (shrinks tracked_uploads) (Uploader.navigate_to_assets v keep_old_tab).
Proof. unfold Uploader.navigate_to_assets. up_keeps. Qed.

Lemma keeps_shrinks_then_grows {S A B} (m : S -> nat) (n : nat) (c : M S A) (k : A -> M S B) :
  keeps (shrinks m) c -> (forall a, keeps (grows m n) (k a)) -> keeps (grows m n) (bind c k).
Proof.
  intros Hc Hk s. unfold bind. specialize (Hc s). unfold shrinks, grows in *.
  destruct (c s) as [a s1|e s1|s1]; simpl in *; [|lia|lia].
  specialize (Hk a s1). simpl in Hk. lia.
Qed.

Lemma keeps_grows_then_shrinks {S A B} (m : S -> nat) (n : nat) (c : M S A) (k : A -> M S B) :
  keeps (grows m n) c -> (forall a, keeps (shrinks m) (k a)) -> keeps (grows m n) (bind c k).
Proof.
  intros Hc Hk s. unfold bind. specialize (Hc s). unfold shrinks, grows in *.
  destruct (c s) as [a s1|e s1|s1]; simpl in *; [|lia|lia].
  specialize (Hk a s1). simpl in Hk. lia.
Qed.

Lemma keeps_try_grows {S A} (m : S -> nat) (n : nat) (c : M S A) (h : exn -> M S A) :
  keeps (grows m n) c -> (forall e, keeps (shrinks m) (h e)) ->
  keeps (grows m n) (try_except c h).
Proof.
  intros Hc Hh s. unfold try_except. specialize (Hc s). unfold shrinks, grows in *.
  destruct (c s) as [a s1|e s1|s1]; simpl in *; [lia| |lia].
  specialize (Hh e s1). simpl in Hh. lia.
Qed.

Lemma keeps_shrinks_grows {S A} (m : S -> nat) (n : nat) (c : M S A) :
  keeps (shrinks m) c -> keeps (grows m n) c.
Proof. intros Hc s. specialize (Hc s). unfold shrinks, grows in *. lia. Qed.

Lemma state_of_bind {S A B} (P : S -> Prop) (c : M S A) (k : A -> M S B) (s : S) :
  P (state_of (c s)) ->
  (forall a s1, c s = Ok a s1 -> P (state_of (k a s1))) ->
  P (state_of (bind c k s)).
Proof.
  intros Hc Hk. unfold bind. destruct (c s) as [a s1|e s1|s1]; simpl in *; auto.
Qed.

Lemma preserves_bind {S A B} (P : S -> Prop) (c : M S A) (k : A -> M S B) :
  preserves P c -> (forall a, preserves P (k a)) -> preserves P (bind c k).
Proof.
  intros Hc Hk s Hs. apply state_of_bind; [now apply Hc|].
  intros a s1 Hrun. apply Hk. specialize (Hc s Hs). now rewrite Hrun in Hc.
Qed.

Lemma preserves_try_except {S A} (P : S -> Prop) (c : M S A) (h : exn -> M S A) :
  preserves P c -> (forall e, preserves P (h e)) -> preserves P (try_except c h).
Proof.
  intros Hc Hh s Hs. unfold try_except. specialize (Hc s Hs).
  destruct (c s) as [a s1|e s1|s1]; simpl in *; [done| |done]. now apply Hh.
Qed.

Lemma preserves_shrinks {S A} (m : S -> nat) (bound : nat) (c : M S A) :
  keeps (shrinks m) c -> preserves (fun s => (m s <= bound)%nat) c.
Proof. intros Hc s Hs. specialize (Hc s). unfold shrinks in Hc. lia. Qed.

(** ** The uploader: at most ten tracked tabs *)

Lemma up_act_on_first_shrinks (p : Page) (timeout : Z) (selectors : list string) :
  keeps (shrinks tracked_uploads) (Uploader.act_on_first p timeout selectors).
Proof. induction selectors as [|sel rest IH]; simpl; up_keeps. exact IH. Qed.

Lemma up_select_by_dynamic_id_shrinks (p : Page) (selectors : list string) :
  keeps (shrinks tracked_uploads) (Uploader.select_by_dynamic_id p selectors).
Proof. induction selectors as [|sel rest IH]; simpl; up_keeps. exact IH. Qed.

Lemma up_save_shrinks : keeps (shrinks tracked_uploads) Uploader.save_upload_history.
Proof.
  intros s. unfold Uploader.save_upload_history, try_except, shrinks, tracked_uploads.
  destruct (can_write (Uploader.disk s)); simpl; lia.
Qed.

Lemma up_mark_shrinks (a : Uploader.Artifact) :
  keeps (shrinks tracked_uploads) (Uploader.mark_as_uploaded a).
Proof. unfold Uploader.mark_as_uploaded. up_keeps. apply up_save_shrinks. Qed.

Lemma up_upload_file_grows (v : Uploader.Visit) (a : Uploader.Artifact) :
  keeps (grows tracked_uploads 1) (Uploader.upload_file v a).
Proof.
  unfold Uploader.upload_file.
  apply keeps_try_grows; [|intros e; up_keeps].
  apply keeps_shrinks_then_grows; [apply up_act_on_first_shrinks | intros clicked].
  apply keeps_shrinks_then_grows; [destruct clicked; up_keeps | intros _].
  apply keeps_shrinks_then_grows; [up_keeps | intros _].
  apply keeps_shrinks_then_grows; [apply up_act_on_first_shrinks | intros found].
  destruct found; [|apply keeps_shrinks_grows; up_keeps].
  apply keeps_shrinks_then_grows; [up_keeps | intros _].
  apply keeps_shrinks_then_grows.
  { unfold Uploader.select_file_store. up_keeps. apply up_select_by_dynamic_id_shrinks. }
  intros _.
  apply keeps_shrinks_then_grows; [up_keeps | intros _].
  apply keeps_shrinks_then_grows; [apply up_act_on_first_shrinks | intros final].
  apply keeps_shrinks_then_grows; [destruct final; up_keeps | intros _].
  apply keeps_shrinks_then_grows; [up_keeps | intros current_tab].
  apply keeps_shrinks_then_grows; [up_keeps | intros started].
  apply keeps_grows_then_shrinks.
  { intros s. unfold modify, grows, tracked_uploads. simpl. rewrite length_app. simpl. lia. }
  intros _. up_keeps. apply up_mark_shrinks.
Qed.

Lemma up_wait_shrinks (rounds : nat) (max_concurrent : Z) :
  keeps (shrinks tracked_uploads) (Uploader.wait_for_upload_slots rounds max_concurrent).
Proof.
  induction rounds as [|n IH]; intros s; simpl.
  - destruct (max_concurrent <=? _); simpl; reflexivity.
  - destruct (max_concurrent <=? _); simpl; [|reflexivity].
    assert (Hk : keeps (shrinks tracked_uploads)
                   (Uploader.sleep 30 ;;; Uploader.cleanup_old_upload_tabs ;;;
                    Uploader.wait_for_upload_slots n max_concurrent)).
    { up_keeps; [apply up_cleanup_shrinks | exact IH]. }
    apply Hk.
Qed.

Lemma up_wait_returns (rounds : nat) (max_concurrent : Z) (s s' : Uploader.State) :
  Uploader.wait_for_upload_slots rounds max_concurrent s = Ok tt s' ->
  Z.of_nat (tracked_uploads s') < max_concurrent.
Proof.
  revert s. induction rounds as [|n IH]; intros s; simpl.
  - destruct (max_concurrent <=? _) eqn:Hfull; [done|].
    intros [= <-]. unfold tracked_uploads. lia.
  - destruct (max_concurrent <=? _) eqn:Hfull.
    + unfold bind at 1. simpl. unfold bind at 1. rewrite up_cleanup. apply IH.
    + intros [= <-]. unfold tracked_uploads. lia.
Qed.

Lemma up_after_upload_grows (site : Uploader.Site) (i : Z) (a : Uploader.Artifact)
    (upload_tab : option Tab) :
  keeps (grows tracked_uploads 1)
    (match upload_tab with
     | None => ret tt
     | Some _ =>
         Uploader.upload_file (Uploader.visit_for site a) a ;;;
         (if i mod 3 =? 0
          then Uploader.cleanup_old_upload_tabs ;;; Uploader.limit_open_upload_tabs
          else ret tt) ;;;
         Uploader.sleep 5
     end).
Proof.
  destruct upload_tab as [t|]; [|apply keeps_shrinks_grows; up_keeps].
  apply keeps_grows_then_shrinks; [apply up_upload_file_grows | intros _].
  up_keeps; [apply up_cleanup_shrinks | apply up_limit_shrinks].
Qed.

Lemma up_upload_files_bounded (rounds : nat) (site : Uploader.Site) (l : list Uploader.Artifact) :
  forall i, preserves (fun s => (tracked_uploads s <= 10)%nat)
              (Uploader.upload_files rounds site i l).
Proof.
  induction l as [|a rest IH]; intros i s Hs; simpl; [exact Hs|].
  apply state_of_bind.
  { pose proof (up_wait_shrinks rounds 10 s) as Hw. unfold shrinks in Hw. lia. }
  intros [] s1 Hwait. apply up_wait_returns in Hwait.
  apply state_of_bind.
  { pose proof (up_navigate_shrinks (Uploader.visit_for site a) true s1) as Hn.
    unfold shrinks in Hn. lia. }
  intros upload_tab s2 Hnav.
  pose proof (up_navigate_shrinks (Uploader.visit_for site a) true s1) as Hn.
  rewrite Hnav in Hn. unfold shrinks in Hn. simpl in Hn.
  pose proof (up_after_upload_grows site i a upload_tab s2) as Hup. unfold grows in Hup.
  apply state_of_bind; [lia|].
  intros [] s3 Hrun. rewrite Hrun in Hup. simpl in Hup.
  apply IH. lia.
Qed.

Lemma up_final_cleanup_shrinks (rounds : nat) :
  keeps (shrinks tracked_uploads) (Uploader.final_cleanup rounds).
Proof.
  induction rounds as [|n IH]; simpl; up_keeps; [apply up_cleanup_shrinks | exact IH].
Qed.

Lemma up_session_bounded (rounds : nat) (chrome_ok : bool) (site : Uploader.Site) :
  preserves (fun s => (tracked_uploads s <= 10)%nat)
    (Uploader.upload_session rounds chrome_ok site).
Proof.
  assert (Hshrink : forall A (c : M Uploader.State A),
            keeps (shrinks tracked_uploads) c ->
            preserves (fun s => (tracked_uploads s <= 10)%nat) c)
    by (intros A c; apply preserves_shrinks).
  unfold Uploader.upload_session.
  apply preserves_bind; [apply Hshrink; unfold Uploader.init_driver; up_keeps|].
  intros [|]; [|apply Hshrink; up_keeps].
  apply preserves_bind; [|intros _; apply Hshrink; unfold Uploader.driver_quit; up_keeps].
  apply preserves_try_except; [|intros e; apply Hshrink; up_keeps].
  apply preserves_bind; [apply Hshrink; unfold Uploader.check_login_status; up_keeps|].
  intros logged.
  apply preserves_bind.
  { apply Hshrink. destruct logged; [up_keeps|]. unfold Uploader.login_to_cablecast. up_keeps. }
  intros [|]; [|apply Hshrink; up_keeps].
  apply preserves_bind; [apply Hshrink; apply up_navigate_shrinks|].
  intros [assets_tab|]; [|apply Hshrink; up_keeps].
  apply preserves_bind; [apply Hshrink; unfold Uploader.find_files_to_upload; up_keeps|].
  intros files.
  destruct files as [|a files]; [apply Hshrink; up_keeps|].
  apply preserves_bind; [apply up_upload_files_bounded|]. intros _.
  apply Hshrink. up_keeps.
  - apply up_final_cleanup_shrinks.
  - unfold Uploader.force_close_remaining. up_keeps.
Qed.

(** ** C8: waiting for an upload slot *)

Lemma list_filter_none {A} (f : A -> bool) (l : list A) :
  (forall x, In x l -> f x = false) -> List.filter f l = [].
Proof.
  induction l as [|x l IH]; simpl; intros Hl; [reflexivity|].
  rewrite (Hl x) by now left. apply IH. intros y Hy. apply Hl. now right.
Qed.

Lemma up_wait_round (n : nat) (max_concurrent : Z) (s : Uploader.State) :
  (max_concurrent <=? Z.of_nat (length (Uploader.uploading_tabs s))) = true ->
  Uploader.wait_for_upload_slots (Datatypes.S n) max_concurrent s
  = Uploader.wait_for_upload_slots n max_concurrent
      (Uploader.set_uploading_tabs
         (List.filter (fun i => negb (720 <? Uploader.clock s + 30 - Uploader.start_time i))
            (Uploader.uploading_tabs s))
         (Uploader.set_driver
            (option_map
               (close_tabs_and_return
                  (map Uploader.tab
                     (List.filter (fun i => 720 <? Uploader.clock s + 30 - Uploader.start_time i)
                        (Uploader.uploading_tabs s))))
               (Uploader.driver s))
            (Uploader.set_clock (Uploader.clock s + 30) s))).
Proof.
  intros Hfull. simpl. rewrite Hfull.
  unfold bind at 1. simpl. unfold bind at 1. rewrite up_cleanup. reflexivity.
Qed.

Lemma up_wait_terminates (n : nat) (max_concurrent : Z) :
  0 < max_concurrent ->
  forall s,
    (forall i, In i (Uploader.uploading_tabs s) ->
               720 < Uploader.clock s + 30 * (Z.of_nat n + 1) - Uploader.start_time i) ->
    exists s',
      Uploader.wait_for_upload_slots (Datatypes.S n) max_concurrent s = Ok tt s'
      /\ Z.of_nat (tracked_uploads s') < max_concurrent
      /\ Uploader.clock s <= Uploader.clock s' <= Uploader.clock s + 30 * (Z.of_nat n + 1).
Proof.
  intros Hmax. induction n as [|n IH]; intros s Hold.
  - destruct (max_concurrent <=? Z.of_nat (length (Uploader.uploading_tabs s))) eqn:Hfull.
    + rewrite up_wait_round by exact Hfull.
      rewrite list_filter_none.
      * simpl. change (Z.of_nat 0) with 0.
        destruct (max_concurrent <=? 0) eqn:H0; [lia|].
        eexists. split; [reflexivity|]. unfold tracked_uploads. simpl. lia.
      * intros i Hi. specialize (Hold i Hi). simpl in Hold.
        apply negb_false_iff, Z.ltb_lt. lia.
    + exists s. simpl. rewrite Hfull. unfold tracked_uploads. repeat split; lia.
  - destruct (max_concurrent <=? Z.of_nat (length (Uploader.uploading_tabs s))) eqn:Hfull.
    + rewrite up_wait_round by exact Hfull.
      match goal with |- context [Uploader.wait_for_upload_slots _ _ ?t] =>
        destruct (IH t) as [s' (Hrun & Hfree & Hclock)] end.
      * simpl. intros i Hi. apply filter_In in Hi as [Hi _]. specialize (Hold i Hi). lia.
      * exists s'. split; [exact Hrun|]. split; [exact Hfree|]. simpl in Hclock. lia.
    + exists s. simpl. rewrite Hfull. unfold tracked_uploads. repeat split; lia.
Qed.

Lemma up_wait_never_raises (rounds : nat) (max_concurrent : Z) (s : Uploader.State) :
  forall e s', Uploader.wait_for_upload_slots rounds max_concurrent s <> Raised e s'.
Proof.
  revert s. induction rounds as [|n IH]; intros s e s'.
  - simpl. destruct (max_concurrent <=? _); discriminate.
  - destruct (max_concurrent <=? Z.of_nat (length (Uploader.uploading_tabs s))) eqn:Hfull.
    + rewrite up_wait_round by exact Hfull. apply IH.
    + simpl. rewrite Hfull. discriminate.
Qed.

(** C8, as the code has it.  [wait_for_upload_slots] takes no timeout
    and has no error to return.  With a positive [max_concurrent] and
    no tracked tab dated after the clock, it returns within 25 rounds of
    30 seconds, with fewer than [max_concurrent] tabs tracked; and
    however many rounds it is given, it never raises. *)
Theorem wait_for_upload_slots_returns (s : Uploader.State) (max_concurrent : Z) :
  0 < max_concurrent ->
  Forall (fun i => Uploader.start_time i <= Uploader.clock s) (Uploader.uploading_tabs s) ->
  (exists s',
     Uploader.wait_for_upload_slots 25 max_concurrent s = Ok tt s'
     /\ Z.of_nat (tracked_uploads s') < max_concurrent
     /\ Uploader.clock s <= Uploader.clock s' <= Uploader.clock s + 750)
  /\ (forall rounds e s',
        Uploader.wait_for_upload_slots rounds max_concurrent s <> Raised e s').
Proof.
  intros Hmax Hpast. split.
  - destruct (up_wait_terminates 24 max_concurrent Hmax s) as [s' (Hrun & Hfree & Hclock)].
    + intros i Hi. rewrite Forall_forall in Hpast.
      assert (Hi' : Uploader.start_time i <= Uploader.clock s)
        by (apply Hpast; now apply list_elem_of_In).
      lia.
    + exists s'. repeat split; try done; lia.
  - intros rounds. apply up_wait_never_raises.
Qed.

Lemma wait_for_upload_slots_returns_witness :
  (exists s',
     Uploader.wait_for_upload_slots 25 10 two_upload_tabs = Ok tt s'
     /\ Z.of_nat (tracked_uploads s') < 10
     /\ Uploader.clock two_upload_tabs <= Uploader.clock s'
        <= Uploader.clock two_upload_tabs + 750)
  /\ (forall rounds e s',
        Uploader.wait_for_upload_slots rounds 10 two_upload_tabs <> Raised e s').
Proof.
  apply (wait_for_upload_slots_returns two_upload_tabs 10).
  - lia.
  - simpl. repeat constructor; simpl; lia.
Defined.

(** C8, as stated, fails.  Ten upload tabs opened at second 1000 fill
    the pool.  A caller that could wait 60 seconds at most would have to
    be told at second 1060 that the pool is exhausted; the call is
    still in its loop then, with all ten tabs tracked, and it returns
    normally at second 1750, once the cleanup has dropped the tabs. *)
Lemma acquire_has_no_timeout :
  match Uploader.wait_for_upload_slots 2 10 full_pool with
  | Unfinished s1 => Uploader.clock s1 = 1060 /\ tracked_uploads s1 = 10%nat
  | _ => False
  end
  /\ match Uploader.wait_for_upload_slots 25 10 full_pool with
     | Ok _ s2 => Uploader.clock s2 = 1750 /\ tracked_uploads s2 = 0%nat
     | _ => False
     end.
Proof. vm_compute. repeat split; reflexivity. Qed.

(** ** Rules for [runs] *)

Section Runs.
Context {S : Type} (R : S -> S -> Prop) `{!PreOrder R}.

Lemma runs_ret {A} (Q : A -> Prop) (a : A) : Q a -> runs R Q (ret a).
Proof. intros Ha s. simpl. split; [reflexivity | exact Ha]. Qed.

Lemma runs_raise {A} (Q : A -> Prop) (e : exn) : runs R Q (raise e).
Proof. intros s. simpl. reflexivity. Qed.

Lemma runs_get (Q : S -> Prop) : (forall s, Q s) -> runs R Q get.
Proof. intros HQ s. simpl. split; [reflexivity | apply HQ]. Qed.

Lemma runs_gets {A} (Q : A -> Prop) (f : S -> A) : (forall s, Q (f s)) -> runs R Q (gets f).
Proof. intros HQ s. simpl. split; [reflexivity | apply HQ]. Qed.

Lemma runs_modify (Q : unit -> Prop) (f : S -> S) :
  (forall s, R s (f s)) -> Q tt -> runs R Q (modify f).
Proof. intros Hf HQ s. simpl. split; [apply Hf | exact HQ]. Qed.

Lemma runs_bind {A B} (Q1 : A -> Prop) (Q : B -> Prop) (c : M S A) (k : A -> M S B) :
  runs R Q1 c -> (forall a, Q1 a -> runs R Q (k a)) -> runs R Q (bind c k).
Proof.
  intros Hc Hk s. unfold bind. specialize (Hc s).
  destruct (c s) as [a s1|e s1|s1]; [|done|done].
  destruct Hc as [HR Ha]. specialize (Hk a Ha s1).
  destruct (k a s1) as [b s2|e s2|s2]; [|  |done].
  - destruct Hk as [HR2 Hb]. split; [now transitivity s1 | exact Hb].
  - now transitivity s1.
Qed.

Lemma runs_try_except {A} (Q : A -> Prop) (c : M S A) (h : exn -> M S A) :
  runs R Q c -> (forall e, runs R Q (h e)) -> runs R Q (try_except c h).
Proof.
  intros Hc Hh s. unfold try_except. specialize (Hc s).
  destruct (c s) as [a s1|e s1|s1]; [done| |done].
  specialize (Hh e s1).
  destruct (h e s1) as [b s2|e2 s2|s2]; [| |done].
  - destruct Hh as [HR2 Hb]. split; [now transitivity s1 | exact Hb].
  - now transitivity s1.
Qed.

Lemma runs_weaken {A} (Q Q' : A -> Prop) (c : M S A) :
  runs R Q c -> (forall a, Q a -> Q' a) -> runs R Q' c.
Proof.
  intros Hc HQ s. specialize (Hc s).
  destruct (c s) as [a s1|e s1|s1]; [|done|done].
  destruct Hc. split; auto.
Qed.

Lemma runs_for_each {A} (l : list A) (body : A -> M S unit) :
  (forall x, runs R (fun _ => True) (body x)) -> runs R (fun _ => True) (for_each l body).
Proof.
  intros Hb. induction l as [|x l IH]; simpl.
  - now apply runs_ret.
  - apply (runs_bind (fun _ => True)); [apply Hb | intros _ _; exact IH].
Qed.

Lemma runs_keeps {A} (Q : A -> Prop) (c : M S A) : runs R Q c -> keeps R c.
Proof.
  intros Hc s. specialize (Hc s).
  destruct (c s) as [a s1|e s1|s1]; simpl; [now destruct Hc|done|done].
Qed.

End Runs.

Ltac runs_step :=
  match goal with
  | |- forall _, _ => intro
  | |- PreOrder _ => typeclasses eauto
  | |- True => exact I
  | |- runs _ _ (bind _ _) => apply (runs_bind _ (fun _ => True))
  | |- runs _ _ (try_except _ _) => apply runs_try_except
  | |- runs _ _ (ret _) => apply runs_ret; [.. | first [exact I | reflexivity]]
  | |- runs _ _ (raise _) => apply runs_raise
  | |- runs _ (fun _ => True) get => apply runs_get
  | |- runs _ (fun _ => True) (gets _) => apply runs_gets
  | |- runs _ (fun _ => True) (modify _) => apply runs_modify; [.. | keeps_side | exact I]
  | |- runs _ (fun _ => True) (for_each _ _) => apply runs_for_each
  | |- runs _ _ (match ?x with _ => _ end) => destruct x
  end.

(** ** The downloader's steps *)

Lemma dl_runs_with_driver {A} (R : Downloader.State -> Downloader.State -> Prop)
    `{!PreOrder R} (f : Driver -> exn + (A * Driver)) :
  (forall s v, R s (Downloader.set_driver v s)) ->
  runs R (fun _ => True) (Downloader.with_driver f).
Proof.
  intros HR s. unfold Downloader.with_driver.
  destruct (Downloader.driver s) as [d|]; simpl; [|reflexivity].
  destruct (f d) as [e|[a d']]; simpl; [reflexivity | split; [apply HR | exact I]].
Qed.

Lemma dl_runs_sleep (R : Downloader.State -> Downloader.State -> Prop) (d : Z) :
  (forall s v, R s (Downloader.set_clock v s)) ->
  runs R (fun _ => True) (Downloader.sleep d).
Proof. intros HR s. simpl. split; [apply HR | exact I]. Qed.

Lemma dl_runs_head_or_raise {A} (R : Downloader.State -> Downloader.State -> Prop)
    `{!PreOrder R} (l : list A) :
  runs R (fun _ => True) (Downloader.head_or_raise l).
Proof. destruct l; simpl; repeat runs_step. Qed.

Ltac dl_runs :=
  repeat first
    [ runs_step
    | apply dl_runs_with_driver; [.. | keeps_side]
    | apply dl_runs_sleep; keeps_side
    | apply dl_runs_head_or_raise
    | progress unfold Downloader.get_window_handles, Downloader.driver_get,
        Downloader.click, Downloader.click_meeting, Downloader.close_and_go_back,
        Downloader.close_tab_if_open, Downloader.back_to_first_tab ].

(** The ledger of the downloader: the set and the file. *)
Lemma dl_close_and_go_back_runs (R : Downloader.State -> Downloader.State -> Prop)
    `{!PreOrder R} (main_tab : Tab) :
  (forall s v, R s (Downloader.set_driver v s)) ->
  runs R (fun _ => True) (Downloader.close_and_go_back main_tab).
Proof. intros HR. unfold Downloader.close_and_go_back. dl_runs; apply HR. Qed.

Lemma dl_save_runs :
  runs (same Downloader.downloaded_events) (fun _ => True) Downloader.save_downloaded_events.
Proof.
  intros s. unfold Downloader.save_downloaded_events, try_except, bind, get,
    Downloader.write_downloaded_file, same.
  destruct (can_write (Downloader.disk s)); simpl; split; done.
Qed.

Lemma dl_make_download_folder_runs (name : string) (info : File) :
  runs (same dl_ledger) (fun _ => True) (Downloader.make_download_folder name info).
Proof.
  intros s. unfold Downloader.make_download_folder, same, dl_ledger.
  destruct (can_write (Downloader.disk s)); simpl; [split|]; done.
Qed.

(** ** C2: what precedes a ledger record *)

Lemma start_download_without_click (v : Downloader.Visit)
    (video_url event_title event_number : string) (tab_handle : Tab) :
  download_clicked v = false ->
  runs (same dl_ledger) (fun success => success = false)
    (Downloader.start_download v video_url event_title event_number tab_handle).
Proof.
  intros Hno. unfold Downloader.start_download.
  apply runs_try_except; [typeclasses eauto ..| |intros e; dl_runs].
  unfold download_clicked in Hno.
  destruct (Downloader.video_page v) as [page|].
  - apply (runs_bind _ (fun p => p = page)); [typeclasses eauto ..| |].
    { apply (runs_bind _ (fun _ => True)); [typeclasses eauto ..| |]; dl_runs. }
    intros p ->.
    apply (runs_bind _ (fun _ => True)); [typeclasses eauto ..|dl_runs|intros _ _].
    match goal with |- runs _ _ (let (_, _) := ?x in _) => destruct x as [name mdate] end.
    apply (runs_bind _ (fun _ => True)); [typeclasses eauto ..|dl_runs|intros now _].
    apply (runs_bind _ (fun _ => True));
      [typeclasses eauto ..|apply dl_make_download_folder_runs|intros _ _].
    apply (runs_bind _ (fun _ => True)); [typeclasses eauto ..|dl_runs|intros _ _].
    destruct (first_found page Downloader.download_selectors) as [button|]; [|dl_runs].
    apply (runs_bind _ (fun _ => False)); [typeclasses eauto ..| |intros _ []].
    intros s. unfold Downloader.click, Downloader.with_driver. rewrite Hno.
    destruct (Downloader.driver s); simpl; reflexivity.
  - apply (runs_bind _ (fun _ => False)); [typeclasses eauto ..|dl_runs|intros _ []].
Qed.

(** ** The uploader's steps *)

Lemma up_runs_with_driver {A} (R : Uploader.State -> Uploader.State -> Prop)
    `{!PreOrder R} (f : Driver -> exn + (A * Driver)) :
  (forall s v, R s (Uploader.set_driver v s)) ->
  runs R (fun _ => True) (Uploader.with_driver f).
Proof.
  intros HR s. unfold Uploader.with_driver.
  destruct (Uploader.driver s) as [d|]; simpl; [|reflexivity].
  destruct (f d) as [e|[a d']]; simpl; [reflexivity | split; [apply HR | exact I]].
Qed.

Lemma up_runs_sleep (R : Uploader.State -> Uploader.State -> Prop) (d : Z) :
  (forall s v, R s (Uploader.set_clock v s)) ->
  runs R (fun _ => True) (Uploader.sleep d).
Proof. intros HR s. simpl. split; [apply HR | exact I]. Qed.

Lemma up_runs_wait_until (p : Page) (timeout : Z) (selector : string) :
  runs (same up_ledger) (fun _ => True) (Uploader.wait_until timeout p selector).
Proof.
  unfold Uploader.wait_until. destruct (pg_query p selector); repeat runs_step.
  apply up_runs_sleep. keeps_side.
Qed.

Ltac up_runs :=
  repeat first
    [ runs_step
    | apply up_runs_with_driver; [.. | keeps_side]
    | apply up_runs_sleep; keeps_side
    | apply up_runs_wait_until
    | progress unfold Uploader.get_window_handles, Uploader.head_or_raise,
        Uploader.driver_get, Uploader.act_on, Uploader.switch_to ].

Lemma up_act_on_first_found (p : Page) (timeout : Z) (selectors : list string) :
  runs (same up_ledger)
    (fun found => if (found : bool)
                  then exists el, first_found p selectors = Some el /\ el_click_ok el = true
                  else first_found p selectors = None)
    (Uploader.act_on_first p timeout selectors).
Proof.
  induction selectors as [|sel rest IH]; simpl.
  - now apply runs_ret; [typeclasses eauto|].
  - apply (runs_bind _
             (fun found => if (found : bool)
                           then exists el, pg_query p sel = Some el /\ el_click_ok el = true
                           else pg_query p sel = None)); [typeclasses eauto ..| |].
    + intros s. unfold try_except_timeout, try_except, bind, Uploader.wait_until,
        Uploader.act_on, Uploader.with_driver, Uploader.sleep, modify, raise, ret, same,
        up_ledger.
      destruct (pg_query p sel) as [el|] eqn:Hq; simpl.
      * destruct (Uploader.driver s) as [d|]; simpl; [|reflexivity].
        destruct (el_click_ok el) eqn:Hok; simpl; [|reflexivity].
        split; [reflexivity|]. now exists el.
      * split; reflexivity.
    + intros [|] Hfound.
      * destruct Hfound as [el [Hq Hok]]. rewrite Hq.
        apply runs_ret; [typeclasses eauto|]. now exists el.
      * rewrite Hfound. exact IH.
Qed.

Lemma up_select_file_store_runs (v : Uploader.Visit) :
  runs (same up_ledger) (fun _ => True) (Uploader.select_file_store v).
Proof.
  unfold Uploader.select_file_store.
  assert (Hdyn : forall selectors,
            runs (same up_ledger) (fun _ => True)
              (Uploader.select_by_dynamic_id (Uploader.form v) selectors)).
  { induction selectors as [|sel rest IH]; simpl; up_runs. exact IH. }
  up_runs. apply Hdyn.
Qed.

Lemma upload_file_without_click (v : Uploader.Visit) (a : Uploader.Artifact) :
  final_upload_clicked (Uploader.form v) = false ->
  runs (same up_ledger) (fun success => success = false) (Uploader.upload_file v a).
Proof.
  intros Hno. unfold Uploader.upload_file.
  apply runs_try_except; [typeclasses eauto ..| |intros e; up_runs].
  apply (runs_bind _ (fun _ => True)); [typeclasses eauto ..| |intros clicked _].
  { eapply runs_weaken; [typeclasses eauto ..|apply up_act_on_first_found|done]. }
  apply (runs_bind _ (fun _ => True)); [typeclasses eauto ..| |intros _ _].
  { destruct clicked; up_runs. }
  apply (runs_bind _ (fun _ => True)); [typeclasses eauto ..|up_runs|intros _ _].
  apply (runs_bind _ (fun _ => True)); [typeclasses eauto ..| |intros found _].
  { eapply runs_weaken; [typeclasses eauto ..|apply up_act_on_first_found|done]. }
  destruct found; [|up_runs].
  apply (runs_bind _ (fun _ => True)); [typeclasses eauto ..|up_runs|intros _ _].
  apply (runs_bind _ (fun _ => True));
    [typeclasses eauto ..|apply up_select_file_store_runs|intros _ _].
  apply (runs_bind _ (fun _ => True)); [typeclasses eauto ..|up_runs|intros _ _].
  apply (runs_bind _ _ _ _ _ (up_act_on_first_found _ _ _)).
  intros final Hfinal. unfold final_upload_clicked in Hno.
  apply (runs_bind _ (fun _ => False)); [typeclasses eauto ..| |intros _ []].
  destruct final.
  - destruct Hfinal as [el [Hq Hok]]. rewrite Hq in Hno. congruence.
  - rewrite Hfinal in Hno. unfold Uploader.wait_until.
    destruct (pg_query (Uploader.form v) Uploader.final_text_xpath) as [el|].
    + intros s. unfold bind, ret, Uploader.act_on, Uploader.with_driver. rewrite Hno.
      destruct (Uploader.driver s); simpl; reflexivity.
    + apply (runs_bind _ (fun _ => False)); [typeclasses eauto ..|up_runs|intros _ []].
Qed.

(** C2, as the code has it.  The downloader adds an event to its ledger
    only in a call of [start_download] in which the recording page
    loaded, a download button was found and the click on it went
    through; the uploader adds a file only in a call of [upload_file]
    in which the final Upload button was found and clicked.  Neither
    looks at the disk or at an answer of the remote system before it
    writes the record. *)
Theorem record_follows_click :
  (forall (v : Downloader.Visit) (video_url event_title event_number : string)
          (tab_handle : Tab) (s : Downloader.State),
     event_number ∉ Downloader.downloaded_events s ->
     event_number ∈ Downloader.downloaded_events
       (state_of (Downloader.start_download v video_url event_title event_number
                    tab_handle s)) ->
     download_clicked v = true)
  /\
  (forall (v : Uploader.Visit) (a : Uploader.Artifact) (u : Uploader.State),
     Uploader.relative_path a ∉ Uploader.uploaded_files u ->
     Uploader.relative_path a ∈ Uploader.uploaded_files
       (state_of (Uploader.upload_file v a u)) ->
     final_upload_clicked (Uploader.form v) = true).
Proof.
  split.
  - intros v video_url event_title event_number tab_handle s Hbefore Hafter.
    destruct (download_clicked v) eqn:Hclick; [reflexivity|]. exfalso.
    pose proof (runs_keeps _ _ _
                  (start_download_without_click v video_url event_title event_number
                     tab_handle Hclick) s) as Hsame.
    unfold same, dl_ledger in Hsame. injection Hsame as Hset _.
    rewrite Hset in Hafter. contradiction.
  - intros v a u Hbefore Hafter.
    destruct (final_upload_clicked (Uploader.form v)) eqn:Hclick; [reflexivity|]. exfalso.
    pose proof (runs_keeps _ _ _ (upload_file_without_click v a Hclick) u) as Hsame.
    unfold same, up_ledger in Hsame. injection Hsame as Hset _.
    rewrite Hset in Hafter. contradiction.
Qed.

Lemma record_follows_click_witness :
  download_clicked downloads = true /\ final_upload_clicked upload_form = true.
Proof.
  destruct record_follows_click as [Hdownload Hupload]. split.
  - apply (Hdownload downloads "https://us02web.zoom.us/rec/play/abc"%string
             "Select Board Monday JUL 14, 2025"%string "1001"%string 1%nat
             (state_of (Downloader.click_meeting downloads browser_open))).
    + apply (bool_decide_unpack _). vm_compute. exact I.
    + apply (bool_decide_unpack _). vm_compute. exact I.
  - apply (Hupload accepts_upload stable_artifact uploader_open).
    + apply (bool_decide_unpack _). vm_compute. exact I.
    + apply (bool_decide_unpack _). vm_compute. exact I.
Defined.

(** C2, as stated, fails.  Meeting 1001 has a video and its download
    button works.  When [process_single_meeting] returns, the event is
    in the ledger, in memory and in [downloaded_events.txt], while the
    download folder holds [info.txt] and nothing else: the record is
    written at the click, with no look at the disk. *)
Lemma record_without_artifact :
  let s' := state_of (Downloader.process_single_meeting (event_of 1001 downloads)
                        browser_open) in
  elements (Downloader.downloaded_events s') = ["1001"%string]
  /\ downloaded_events_txt (Downloader.disk s') = Some ["1001"%string]
  /\ map (fun f => (map file_name (dir_files f), corrected_format f))
         (folders (Downloader.disk s'))
     = [(["info.txt"%string], None)].
Proof. vm_compute. repeat split; reflexivity. Qed.

(** ** C7: a meeting without media *)




(** ** C6: the date window at discovery *)

#[global] Instance adds_only_preorder (N : gset string) : PreOrder (adds_only N).
Proof.
  split.
  - intros s. unfold adds_only. set_solver.
  - intros a b c. unfold adds_only. set_solver.
Qed.

Lemma runs_mono {S A} (R R' : S -> S -> Prop) (Q : A -> Prop) (c : M S A) :
  runs R Q c -> (forall s s', R s s' -> R' s s') -> runs R' Q c.
Proof.
  intros Hc HR s. specialize (Hc s).
  destruct (c s) as [a s1|e s1|s1]; [|auto|done].
  destruct Hc. split; auto.
Qed.

Lemma candidate_spec (X : gset string) (now : datetime) (e : Downloader.ListItem)
    (ev : Downloader.event_info) :
  Downloader.candidate X now e = Some ev ->
  Downloader.element ev = e
  /\ (Downloader.event_number ev ∉ X)
  /\ exists dm,
       Downloader.date_match e = Some dm
       /\ datetime_ymd (Downloader.year dm)
            (Downloader.map_get_or Downloader.month_map (Downloader.month_name dm) 6)
            (Downloader.day dm) = Some (Downloader.date ev)
       /\ now - timedelta_days 14 <= Downloader.date ev <= now.
Proof.
  unfold Downloader.candidate.
  destruct (first_digits (Downloader.elem_id e)) as [number|]; [|done].
  case_bool_decide as Hin; [done|].
  destruct (Downloader.date_match e) as [dm|]; [|done].
  destruct (datetime_ymd _ _ _) as [d|] eqn:Hd; [|done].
  destruct (_ && _) eqn:Hwin; [|done].
  intros [= <-]. cbn [Downloader.element Downloader.event_number Downloader.date].
  apply andb_true_iff in Hwin as [H1 H2].
  apply Z.leb_le in H1, H2. repeat split; try done. exists dm. repeat split; done.
Qed.

Lemma in_recent_events_of (items : list Downloader.ListItem) (X : gset string)
    (now : datetime) (ev : Downloader.event_info) :
  In ev (Downloader.recent_events_of items X now) ->
  exists e, In e items /\ Downloader.candidate X now e = Some ev.
Proof.
  unfold Downloader.recent_events_of. intros Hin.
  apply list_elem_of_In, list_elem_of_omap in Hin as [e [He Hc]].
  exists e. split; [|exact Hc].
  apply list_elem_of_In in He. rewrite <- in_rev in He. apply filter_In in He. tauto.
Qed.

Section AddsOnly.
Variable N : gset string.

Lemma dl_untrack_adds (i : Downloader.download_info) :
  runs (adds_only N) (fun _ => True) (Downloader.untrack i).
Proof.
  intros s. unfold Downloader.untrack.
  destruct (list_remove i (Downloader.downloading_tabs s)); [split|]; keeps_side.
Qed.

Lemma dl_save_adds : runs (adds_only N) (fun _ => True) Downloader.save_downloaded_events.
Proof.
  apply (runs_mono (same Downloader.downloaded_events)); [apply dl_save_runs|].
  intros s s'. unfold same, adds_only. intros ->. set_solver.
Qed.

Lemma dl_make_download_folder_adds (name : string) (info : File) :
  runs (adds_only N) (fun _ => True) (Downloader.make_download_folder name info).
Proof.
  apply (runs_mono (same dl_ledger)); [apply dl_make_download_folder_runs|].
  intros s s'. unfold same, dl_ledger, adds_only. intros [= -> _]. set_solver.
Qed.

Ltac dl_adds :=
  repeat first
    [ runs_step
    | apply dl_runs_with_driver; [.. | keeps_side]
    | apply dl_runs_sleep; keeps_side
    | apply dl_runs_head_or_raise
    | apply dl_untrack_adds
    | apply dl_save_adds
    | apply dl_make_download_folder_adds
    | progress unfold Downloader.get_window_handles, Downloader.driver_get,
        Downloader.click, Downloader.click_meeting, Downloader.close_and_go_back,
        Downloader.close_tab_if_open, Downloader.back_to_first_tab ].

Lemma dl_close_expired_adds (now : Z) (l : list Downloader.download_info) :
  runs (adds_only N) (fun _ => True) (Downloader.close_expired now l).
Proof. induction l as [|i l IH]; simpl; dl_adds; exact IH. Qed.

Lemma dl_cleanup_adds : runs (adds_only N) (fun _ => True) Downloader.cleanup_old_download_tabs.
Proof.
  unfold Downloader.cleanup_old_download_tabs. dl_adds. apply dl_close_expired_adds.
Qed.

Lemma dl_limit_adds : runs (adds_only N) (fun _ => True) Downloader.limit_open_tabs.
Proof. unfold Downloader.limit_open_tabs. dl_adds. Qed.

Lemma dl_start_download_adds (v : Downloader.Visit)
    (video_url event_title event_number : string) (tab_handle : Tab) :
  event_number ∈ N ->
  runs (adds_only N) (fun _ => True)
    (Downloader.start_download v video_url event_title event_number tab_handle).
Proof.
  intros Hn. unfold Downloader.start_download, Downloader.mark_event_as_downloaded.
  dl_adds.
Qed.

Lemma dl_process_single_meeting_adds (ev : Downloader.event_info) :
  Downloader.event_number ev ∈ N ->
  runs (adds_only N) (fun _ => True) (Downloader.process_single_meeting ev).
Proof.
  intros Hn. unfold Downloader.process_single_meeting. cbv zeta.
  dl_adds. now apply dl_start_download_adds.
Qed.

Lemma dl_process_events_adds (events : list Downloader.event_info) :
  (forall ev, In ev events -> Downloader.event_number ev ∈ N) ->
  forall i, runs (adds_only N) (fun _ => True) (Downloader.process_events i events).
Proof.
  induction events as [|ev rest IH]; intros Hall i; simpl; dl_adds;
    first [ apply dl_cleanup_adds
          | apply dl_limit_adds
          | apply dl_process_single_meeting_adds; apply Hall; now left
          | apply IH; intros ev' Hin; apply Hall; now right ].
Qed.

Lemma dl_wait_and_close_tabs_adds :
  runs (adds_only N) (fun _ => True) Downloader.wait_and_close_tabs.
Proof.
  unfold Downloader.wait_and_close_tabs, Downloader.close_remaining_tabs. dl_adds.
Qed.

Lemma dl_driver_quit_adds :
  runs (adds_only N) (fun _ => True)
    (try_except Downloader.driver_quit (fun _ => ret tt)).
Proof. unfold Downloader.driver_quit. dl_adds. Qed.
End AddsOnly.

Lemma dl_load_all_events_spec (site : Downloader.Site) (s : Downloader.State) :
  match Downloader.load_all_events site s with
  | Ok recent_events s' =>
      recent_events
      = Downloader.recent_events_of (Downloader.list_items site)
          (Downloader.downloaded_events s) (discovery_time site s)
      /\ Downloader.downloaded_events s' = Downloader.downloaded_events s
  | Raised _ s' => Downloader.downloaded_events s' = Downloader.downloaded_events s
  | Unfinished _ => False
  end.
Proof.
  unfold Downloader.load_all_events, Downloader.driver_get, Downloader.with_driver,
    discovery_time, bind, get, ret.
  destruct (Downloader.driver s) as [d|]; [|reflexivity].
  destruct (Downloader.reachable site); [|reflexivity].
  destruct (Downloader.scroll_wrap site); simpl; (split; [|reflexivity]); f_equal; lia.
Qed.

Lemma state_of_try_except {S A} (P : S -> Prop) (c : M S A) (h : exn -> M S A) (s : S) :
  P (state_of (c s)) ->
  (forall e s1, c s = Raised e s1 -> P (state_of (h e s1))) ->
  P (state_of (try_except c h s)).
Proof.
  intros Hc Hh. unfold try_except. destruct (c s) as [a s1|e s1|s1]; simpl in *; auto.
Qed.

Lemma runs_at_weaken {S A} (R R' : S -> S -> Prop) (Q : A -> Prop) (c : M S A) (s : S) :
  runs_at R Q c s -> (forall s', R s s' -> R' s s') -> runs_at R' Q c s.
Proof.
  unfold runs_at. intros Hc HR. destruct (c s) as [a s1|e s1|s1]; [|auto|done].
  destruct Hc. split; auto.
Qed.

Lemma runs_at_bind {S A B} (R : S -> S -> Prop) `{!PreOrder R} (Q1 : A -> Prop)
    (Q : B -> Prop) (c : M S A) (k : A -> M S B) (s : S) :
  runs_at R Q1 c s -> (forall a, Q1 a -> runs R Q (k a)) -> runs_at R Q (bind c k) s.
Proof.
  unfold runs_at, bind. intros Hc Hk.
  destruct (c s) as [a s1|e s1|s1]; [|done|done].
  destruct Hc as [HR Ha]. specialize (Hk a Ha s1).
  destruct (k a s1) as [b s2|e s2|s2]; [| |done].
  - destruct Hk. split; [now transitivity s1|done].
  - now transitivity s1.
Qed.

Lemma runs_at_try_except {S A} (R : S -> S -> Prop) `{!PreOrder R} (Q : A -> Prop)
    (c : M S A) (h : exn -> M S A) (s : S) :
  runs_at R Q c s -> (forall e, runs R Q (h e)) -> runs_at R Q (try_except c h) s.
Proof.
  unfold runs_at, try_except. intros Hc Hh.
  destruct (c s) as [a s1|e s1|s1]; [done| |done].
  specialize (Hh e s1).
  destruct (h e s1) as [b s2|e2 s2|s2]; [| |done].
  - destruct Hh. split; [now transitivity s1|done].
  - now transitivity s1.
Qed.

Lemma runs_at_state {S A} (R : S -> S -> Prop) (Q : A -> Prop) (c : M S A) (s : S) :
  runs_at R Q c s -> R s (state_of (c s)).
Proof.
  unfold runs_at. destruct (c s) as [a s1|e s1|s1]; simpl; [now intros []|done|done].
Qed.

(** What a scan adds to the ledger are numbers of events that its
    discovery returned. *)
Lemma scan_steps_add_only_candidates (site : Downloader.Site) (s : Downloader.State) :
  runs_at
    (adds_only
       (list_to_set
          (map Downloader.event_number
             (Downloader.recent_events_of (Downloader.list_items site)
                (Downloader.downloaded_events s) (discovery_time site s)))))
    (fun _ => True) (Downloader.scan_steps site) s.
Proof.
  set (N := list_to_set _).
  unfold runs_at, Downloader.scan_steps, bind.
  pose proof (dl_load_all_events_spec site s) as Hload.
  destruct (Downloader.load_all_events site s) as [evs s1|e s1|s1]; [| |done].
  - destruct Hload as [Hevs Hledger].
    assert (Hin : forall ev, In ev evs -> Downloader.event_number ev ∈ N).
    { intros ev Hev. unfold N. apply elem_of_list_to_set, list_elem_of_In, in_map.
      now rewrite <- Hevs. }
    assert (Hrest : runs (adds_only N) (fun _ => True)
              (match evs with
               | [] => ret tt
               | _ :: _ => Downloader.process_events 1 evs ;;; Downloader.wait_and_close_tabs
               end)).
    { destruct evs as [|ev rest]; [now apply runs_ret; [typeclasses eauto|]|].
      apply (runs_bind _ (fun _ => True)); [typeclasses eauto ..| |intros _ _].
      - now apply dl_process_events_adds.
      - apply dl_wait_and_close_tabs_adds. }
    specialize (Hrest s1). unfold adds_only in *.
    rewrite Hledger in Hrest. exact Hrest.
  - unfold adds_only. rewrite Hload. set_solver.
Qed.

Lemma scan_adds_only_candidates (chrome_ok : bool) (site : Downloader.Site)
    (s : Downloader.State) :
  adds_only
    (list_to_set
       (map Downloader.event_number
          (Downloader.recent_events_of (Downloader.list_items site)
             (Downloader.downloaded_events s) (discovery_time site s))))
    s (state_of (Downloader.run_download_scan chrome_ok site s)).
Proof.
  set (N := list_to_set _).
  unfold Downloader.run_download_scan. destruct chrome_ok; [|simpl; reflexivity].
  unfold bind at 1. simpl.
  set (s1 := Downloader.set_next_tab _ _).
  assert (Hfrom : forall s', adds_only N s1 s' -> adds_only N s s') by (intros s' H; exact H).
  apply Hfrom. apply (runs_at_state _ (fun _ => True)).
  apply (runs_at_bind _ (fun _ => True)).
  - apply runs_at_try_except; [typeclasses eauto ..| |intros e; repeat runs_step].
    exact (scan_steps_add_only_candidates site s1).
  - intros _ _. apply dl_driver_quit_adds.
Qed.



(** C6, as stated, fails.  On 20 June 2025 the catalog lists one
    meeting, 1003, announced for "SEPT 14, 2025": 14 September, 86
    days ahead.  [month_map] has no key [SEPT], so
    [month_map.get(month_name, 6)] makes the date 14 June 2025, which
    lies in the window.  [load_all_events] returns the entry, dated 14
    June, the scan downloads it, and at the end the ledger holds 1003,
    in memory and on disk. *)
Lemma future_entry_is_downloaded :
  let s := Downloader.init june_20 empty_disk in
  let s1 := state_of (Downloader.run_download_scan true september_site s) in
  june_20 < ymd2ord 2025 9 14 * 86400
  /\ match (Downloader.init_driver true ;;; Downloader.load_all_events september_site) s with
     | Ok recent_events _ =>
         recent_events
         = [{| Downloader.element := september_item;
               Downloader.event_number := "1003";
               Downloader.title := "Select Board Sunday SEPT 14, 2025";
               Downloader.date := ymd2ord 2025 6 14 * 86400 |}]
     | _ => False
     end
  /\ elements (Downloader.downloaded_events s1) = ["1003"%string]
  /\ downloaded_events_txt (Downloader.disk s1) = Some ["1003"%string].
Proof. vm_compute. repeat split; reflexivity. Qed.

(** ** C3: the bound on open tabs *)

Lemma length_filter_ne (h : Tab) (l : list Tab) :
  h ∈ l -> (length (filter (fun x => x ≠ h) l) < length l)%nat.
Proof.
  induction l as [|y l IH]; intros Hh; [inversion Hh|].
  rewrite filter_cons. destruct (decide (y ≠ h)) as [Hne|Heq]; simpl.
  - apply elem_of_cons in Hh as [->|Hh]; [done|]. specialize (IH Hh). lia.
  - pose proof (length_filter (fun x => x ≠ h) l). lia.
Qed.

Lemma length_filter_closed (hs l : list Tab) :
  NoDup hs -> (forall h, h ∈ hs -> h ∈ l) ->
  (length (filter (fun x => x ∉ hs) l) + length hs <= length l)%nat.
Proof.
  intros Hnd. revert l. induction Hnd as [|h hs Hh Hnd IH]; intros l Hsub; simpl.
  - rewrite Nat.add_0_r. apply length_filter.
  - assert (Heq : filter (fun x => x ∉ h :: hs) l
                  = filter (fun x => x ∉ hs) (filter (fun x => x ≠ h) l)).
    { clear. induction l as [|y l IHl]; [reflexivity|].
      rewrite !filter_cons. destruct (decide (y ≠ h)) as [Hne|Heq].
      - rewrite filter_cons. destruct (decide (y ∉ hs)) as [Hn|Hi].
        + rewrite decide_True; [now f_equal|].
          intros Hin. apply elem_of_cons in Hin as [?|?]; [congruence|done].
        + rewrite decide_False; [done|]. intros Hn. apply Hi. intros Hin. apply Hn. now right.
      - rewrite decide_False; [done|]. intros Hn. apply Heq. intros ->. apply Hn. left. }
    rewrite Heq.
    assert (Hsub' : forall h', h' ∈ hs -> h' ∈ filter (fun x => x ≠ h) l).
    { intros h' Hh'. apply list_elem_of_filter. split.
      - intros ->. contradiction.
      - apply Hsub. now right. }
    specialize (IH _ Hsub').
    pose proof (length_filter_ne h l (Hsub h ltac:(left))). lia.
Qed.

Lemma dl_close_tab_if_open_some (h : Tab) (s : Downloader.State) (d : Driver) :
  Downloader.driver s = Some d ->
  Downloader.close_tab_if_open h s
  = Ok tt (Downloader.set_driver (Some (close_tab h d)) s).
Proof.
  intros Hd.
  unfold Downloader.close_tab_if_open, Downloader.get_window_handles,
    Downloader.with_driver, bind, ret.
  rewrite Hd. simpl.
  unfold close_tab, is_open. case_bool_decide as Hh; simpl; [|reflexivity].
  unfold drv_switch, is_open. rewrite bool_decide_eq_true_2 by done. simpl.
  unfold drv_close, is_open. simpl. rewrite bool_decide_eq_true_2 by done.
  reflexivity.
Qed.

Lemma dl_limit_loop (l : list Downloader.download_info) :
  forall s d,
    Downloader.driver s = Some d ->
    exists s',
      for_each l
        (fun download_info =>
           try_except
             (Downloader.close_tab_if_open (Downloader.tab download_info) ;;;
              Downloader.untrack download_info)
             (fun _ => ret tt)) s = Ok tt s'
      /\ Downloader.driver s' = Some (close_tabs (map Downloader.tab l) d)
      /\ (tracked_downloads s' <= tracked_downloads s)%nat.
Proof.
  induction l as [|i l IH]; intros s d Hd; simpl.
  - exists s. repeat split; [exact Hd | lia].
  - unfold bind at 1, try_except, bind at 1.
    rewrite (dl_close_tab_if_open_some _ s d Hd).
    unfold Downloader.untrack at 1. simpl.
    destruct (list_remove i (Downloader.downloading_tabs s)) as [l1|] eqn:Hrm.
    + edestruct (IH (Downloader.set_downloading_tabs l1
                       (Downloader.set_driver (Some (close_tab (Downloader.tab i) d)) s)))
        as [s' (Hrun & Hdrv & Hlen)]; [reflexivity|].
      exists s'. split; [exact Hrun|]. split; [exact Hdrv|].
      apply list_remove_length in Hrm. unfold tracked_downloads in *. simpl in Hlen. lia.
    + edestruct (IH (Downloader.set_driver (Some (close_tab (Downloader.tab i) d)) s))
        as [s' (Hrun & Hdrv & Hlen)]; [reflexivity|].
      exists s'. split; [exact Hrun|]. split; [exact Hdrv|].
      unfold tracked_downloads in *. simpl in Hlen. lia.
Qed.

Lemma NoDup_take_list {A} (n : nat) (l : list A) : NoDup l -> NoDup (take n l).
Proof.
  revert n. induction l as [|x l IH]; intros [|n] Hnd; simpl; try constructor.
  - intros Hin. apply NoDup_cons in Hnd as [Hx _]. apply Hx.
    apply elem_of_take in Hin as [j [Hj _]]. eapply list_elem_of_lookup_2. exact Hj.
  - apply IH. now apply NoDup_cons in Hnd as [_ Hnd].
Qed.

(** X10.  [limit_open_tabs] returns, and it leaves at most ten tabs open when
    every tracked download has a tab of its own that is open and the
    tracked downloads are at least as many as the tabs above ten.  It
    tracks no more downloads than before. *)
Lemma limit_open_tabs_closes (s : Downloader.State) (d : Driver) :
  Downloader.driver s = Some d ->
  NoDup (map Downloader.tab (Downloader.downloading_tabs s)) ->
  (forall i, i ∈ Downloader.downloading_tabs s -> Downloader.tab i ∈ window_handles d) ->
  (length (window_handles d) - 10 <= length (Downloader.downloading_tabs s))%nat ->
  exists s',
    Downloader.limit_open_tabs s = Ok tt s'
    /\ (open_tabs s' <= 10)%nat
    /\ (tracked_downloads s' <= tracked_downloads s)%nat.
Proof.
  intros Hd Hnd Hopen Henough.
  unfold Downloader.limit_open_tabs, bind at 1, Downloader.get_window_handles,
    Downloader.with_driver. rewrite Hd. simpl.
  destruct (10 <? length (window_handles d))%nat eqn:Hmany.
  - apply Nat.ltb_lt in Hmany.
    unfold bind at 1, gets. simpl.
    set (oldest := take _ _).
    destruct (dl_limit_loop oldest (Downloader.set_driver (Some d) s) d eq_refl)
      as [s1 (Hrun & Hdrv & Hlen)].
    unfold bind at 1. rewrite Hrun.
    destruct (dl_back_to_first_tab s1) as [dr [Hback Hh]]. rewrite Hback.
    eexists. split; [reflexivity|]. split.
    + unfold open_tabs. simpl. rewrite Hdrv in Hh. simpl in Hh.
      destruct dr as [d'|]; [|lia]. injection Hh as Hh. rewrite Hh.
      rewrite window_handles_close_tabs.
      assert (Hperm : Permutation
                (sorted (fun a b => Downloader.start_time a <=? Downloader.start_time b)
                   (Downloader.downloading_tabs s))
                (Downloader.downloading_tabs s)) by apply sorted_Permutation.
      pose proof (length_filter_closed (map Downloader.tab oldest) (window_handles d)) as Hcount.
      assert (Hl : length (map Downloader.tab oldest)
                   = (length (window_handles d) - 10)%nat).
      { rewrite length_map. unfold oldest. rewrite length_take.
        rewrite (Permutation_length Hperm). lia. }
      rewrite Hl in Hcount. 
      assert (length (filter (fun x => x ∉ map Downloader.tab oldest) (window_handles d))
              + (length (window_handles d) - 10) <= length (window_handles d))%nat; [|lia].
      apply Hcount.
      * unfold oldest. change (map Downloader.tab (take ?n ?l)) with (Downloader.tab <$> take n l).
        rewrite fmap_take. apply NoDup_take_list.
        change (NoDup (map Downloader.tab
                  (sorted (fun a b => Downloader.start_time a <=? Downloader.start_time b)
                     (Downloader.downloading_tabs s)))).
        rewrite Hperm. exact Hnd.
      * intros h Hh'. apply list_elem_of_In, in_map_iff in Hh' as [i [<- Hi]].
        apply Hopen. apply list_elem_of_In. rewrite <- Hperm. apply list_elem_of_In.
        apply list_elem_of_In in Hi. unfold oldest in Hi.
        apply elem_of_take in Hi as [j [Hj _]]. eapply list_elem_of_lookup_2. exact Hj.
    + simpl. unfold tracked_downloads in *. simpl in *. exact Hlen.
  - apply Nat.ltb_ge in Hmany. eexists. split; [reflexivity|]. split.
    + unfold open_tabs. simpl. exact Hmany.
    + unfold tracked_downloads. simpl. lia.
Qed.

(** A step of the browser that opens no tab. *)
Lemma dl_with_driver_opens_nothing {A} (f : Driver -> exn + (A * Driver)) :
  (forall d a d', f d = inr (a, d') ->
                  (length (window_handles d') <= length (window_handles d))%nat) ->
  runs (shrinks open_tabs) (fun _ => True) (Downloader.with_driver f).
Proof.
  intros Hf s. unfold Downloader.with_driver, shrinks, open_tabs.
  destruct (Downloader.driver s) as [d|] eqn:Hd; simpl; [|now rewrite Hd].
  destruct (f d) as [e|[a d']] eqn:Hfd; simpl; [now rewrite Hd|].
  split; [|exact I]. now apply (Hf d a).
Qed.

Ltac drv_side :=
  let d := fresh "d" in let a := fresh "a" in let d' := fresh "d'" in
  intros d a d';
  unfold drv_current, drv_switch, drv_close, drv_first;
  repeat match goal with
         | |- context [if ?b then _ else _] => destruct b
         | |- context [match window_handles ?x with _ => _ end] =>
             destruct (window_handles x)
         end;
  intros [= <- <-] || discriminate || idtac; simpl;
  try lia; try apply length_filter.

Lemma dl_save_opens_nothing :
  runs (shrinks open_tabs) (fun _ => True) Downloader.save_downloaded_events.
Proof.
  intros s. unfold Downloader.save_downloaded_events, try_except, bind, get,
    Downloader.write_downloaded_file, shrinks, open_tabs.
  destruct (can_write (Downloader.disk s)); simpl; (split; [|exact I]);
    destruct (Downloader.driver s); lia.
Qed.

Lemma dl_make_download_folder_opens_nothing (name : string) (info : File) :
  runs (shrinks open_tabs) (fun _ => True) (Downloader.make_download_folder name info).
Proof.
  intros s. unfold Downloader.make_download_folder, shrinks, open_tabs.
  destruct (can_write (Downloader.disk s)); simpl; [split; [|exact I]|];
    destruct (Downloader.driver s); lia.
Qed.

Ltac dl_tabs :=
  repeat first
    [ runs_step
    | apply dl_with_driver_opens_nothing; drv_side
    | apply dl_runs_sleep; keeps_side
    | apply dl_runs_head_or_raise
    | apply dl_save_opens_nothing
    | apply dl_make_download_folder_opens_nothing
    | progress unfold Downloader.get_window_handles, Downloader.driver_get,
        Downloader.click, Downloader.close_and_go_back,
        Downloader.close_tab_if_open, Downloader.back_to_first_tab,
        Downloader.mark_event_as_downloaded ].

Lemma dl_start_download_opens_nothing (v : Downloader.Visit)
    (video_url event_title event_number : string) (tab_handle : Tab) :
  runs (shrinks open_tabs) (fun _ => True)
    (Downloader.start_download v video_url event_title event_number tab_handle).
Proof. unfold Downloader.start_download. dl_tabs. Qed.

Lemma dl_click_meeting_opens_one (v : Downloader.Visit) :
  keeps (grows open_tabs 1) (Downloader.click_meeting v).
Proof.
  intros s. unfold Downloader.click_meeting, grows, open_tabs, bind, gets,
    Downloader.with_driver, modify.
  destruct (Downloader.opens_tab v); simpl;
    destruct (Downloader.driver s) as [d|] eqn:Hd; simpl; rewrite ?Hd; try lia.
  rewrite length_app. simpl. lia.
Qed.

Lemma process_single_meeting_opens_one (ev : Downloader.event_info) :
  keeps (grows open_tabs 1) (Downloader.process_single_meeting ev).
Proof.
  unfold Downloader.process_single_meeting. cbv zeta.
  apply keeps_shrinks_then_grows; [intros s; unfold shrinks; simpl; lia | intros s0].
  apply keeps_try_grows.
  - apply keeps_shrinks_then_grows;
      [apply (runs_keeps _ (fun _ => True)); dl_tabs | intros main_tab].
    apply keeps_shrinks_then_grows;
      [apply (runs_keeps _ (fun _ => True)); dl_tabs | intros original_tabs].
    apply keeps_grows_then_shrinks; [apply dl_click_meeting_opens_one | intros _].
    apply (runs_keeps _ (fun _ => True)). dl_tabs. apply dl_start_download_opens_nothing.
  - intros e. apply (runs_keeps _ (fun _ => True)). dl_tabs.
Qed.

(** ** C3: the list of download tabs during one scan *)

Section Triple.
Context {S : Type}.

Lemma triple_ret {A} (P : S -> Prop) (Q : A -> S -> Prop) (E : S -> Prop) (a : A) :
  (forall s, P s -> Q a s) -> triple P (ret a) Q E.
Proof. intros H s Hs. now apply H. Qed.

Lemma triple_raise {A} (P : S -> Prop) (Q : A -> S -> Prop) (E : S -> Prop) (e : exn) :
  (forall s, P s -> E s) -> triple P (raise e) Q E.
Proof. intros H s Hs. now apply H. Qed.

Lemma triple_bind {A B} (P : S -> Prop) (Q1 : A -> S -> Prop) (Q : B -> S -> Prop)
    (E : S -> Prop) (c : M S A) (k : A -> M S B) :
  triple P c Q1 E -> (forall a, triple (Q1 a) (k a) Q E) -> triple P (bind c k) Q E.
Proof.
  intros Hc Hk s Hs. unfold bind. specialize (Hc s Hs).
  destruct (c s) as [a s1|e s1|s1]; [now apply Hk | exact Hc | exact Hc].
Qed.

Lemma triple_bind_ret {A B} (P : S -> Prop) (Q : B -> S -> Prop) (E : S -> Prop)
    (a : A) (k : A -> M S B) :
  triple P (k a) Q E -> triple P (bind (ret a) k) Q E.
Proof. intros Hk s Hs. now apply Hk. Qed.

Lemma triple_try_except {A} (P : S -> Prop) (Q : A -> S -> Prop) (E1 E : S -> Prop)
    (c : M S A) (h : exn -> M S A) :
  triple P c Q E1 -> (forall e, triple E1 (h e) Q E) -> triple P (try_except c h) Q E.
Proof.
  intros Hc Hh s Hs. unfold try_except. specialize (Hc s Hs).
  destruct (c s) as [a s1|e s1|s1]; [exact Hc | now apply Hh | exact Hc].
Qed.

Lemma triple_weaken {A} (P P' : S -> Prop) (Q Q' : A -> S -> Prop) (E E' : S -> Prop)
    (c : M S A) :
  triple P' c Q' E' ->
  (forall s, P s -> P' s) -> (forall a s, Q' a s -> Q a s) -> (forall s, E' s -> E s) ->
  triple P c Q E.
Proof.
  intros Hc HP HQ HE s Hs. specialize (Hc s (HP s Hs)).
  destruct (c s) as [a s1|e s1|s1]; [now apply HQ | now apply HE | exact Hc].
Qed.

Lemma triple_pure {A} (fact : Prop) (P : S -> Prop) (Q : A -> S -> Prop) (E : S -> Prop)
    (c : M S A) :
  (fact -> triple P c Q E) -> triple (fun s => fact /\ P s) c Q E.
Proof. intros H s [Hf Hs]. now apply H. Qed.

Lemma triple_gets {A} (P : S -> Prop) (Q : A -> S -> Prop) (E : S -> Prop) (f : S -> A) :
  (forall s, P s -> Q (f s) s) -> triple P (gets f) Q E.
Proof. intros H s Hs. now apply H. Qed.

Lemma triple_get (P : S -> Prop) (Q : S -> S -> Prop) (E : S -> Prop) :
  (forall s, P s -> Q s s) -> triple P get Q E.
Proof. intros H s Hs. now apply H. Qed.

Lemma triple_modify (P : S -> Prop) (Q : unit -> S -> Prop) (E : S -> Prop) (f : S -> S) :
  (forall s, P s -> Q tt (f s)) -> triple P (modify f) Q E.
Proof. intros H s Hs. now apply H. Qed.

End Triple.

(** ** The browser and the list of download tabs, step by step *)

Section BrowserAt.
Variables (H : list Tab) (c : Tab) (T : list Downloader.download_info) (n : Tab).
Variable E : Downloader.State -> Prop.

Lemma browser_at_set_driver (H' : list Tab) (c' : Tab) (s : Downloader.State) :
  browser_at H c T n s ->
  browser_at H' c' T n
    (Downloader.set_driver (Some {| window_handles := H'; current := c' |}) s).
Proof. intros (_ & Ht & Hn). repeat split; assumption. Qed.

Lemma at_with_driver {A} (f : Driver -> exn + (A * Driver))
    (Q : A -> Downloader.State -> Prop) :
  (forall s, browser_at H c T n s ->
     match f {| window_handles := H; current := c |} with
     | inl _ => E s
     | inr (a, d') => Q a (Downloader.set_driver (Some d') s)
     end) ->
  triple (browser_at H c T n) (Downloader.with_driver f) Q E.
Proof.
  intros Hf s Hs. specialize (Hf s Hs). destruct Hs as (Hd & _ & _).
  unfold Downloader.with_driver. rewrite Hd.
  destruct (f _) as [e|[a d']]; exact Hf.
Qed.

Lemma at_handles :
  triple (browser_at H c T n) Downloader.get_window_handles
    (fun v s => v = H /\ browser_at H c T n s) E.
Proof.
  apply at_with_driver. intros s Hs. simpl. split; [reflexivity|].
  now apply browser_at_set_driver.
Qed.

Lemma at_current :
  (forall s, browser_at H c T n s -> E s) ->
  triple (browser_at H c T n) (Downloader.with_driver drv_current)
    (fun v s => v = c /\ browser_at H c T n s) E.
Proof.
  intros HE. apply at_with_driver. intros s Hs. unfold drv_current. simpl.
  destruct (is_open _ _); [|now apply HE].
  split; [reflexivity|]. now apply browser_at_set_driver.
Qed.

Lemma at_switch (h : Tab) :
  (forall s, browser_at H c T n s -> E s) ->
  triple (browser_at H c T n) (Downloader.with_driver (drv_switch h))
    (fun _ => browser_at H h T n) E.
Proof.
  intros HE. apply at_with_driver. intros s Hs. unfold drv_switch. simpl.
  destruct (is_open _ _); [|now apply HE]. now apply browser_at_set_driver.
Qed.

Lemma at_switch_open (h : Tab) :
  h ∈ H ->
  triple (browser_at H c T n) (Downloader.with_driver (drv_switch h))
    (fun _ => browser_at H h T n) E.
Proof.
  intros Hh. apply at_with_driver. intros s Hs. unfold drv_switch, is_open. simpl.
  rewrite bool_decide_eq_true_2 by exact Hh. now apply browser_at_set_driver.
Qed.

Lemma at_close :
  (forall s, browser_at H c T n s -> E s) ->
  triple (browser_at H c T n) (Downloader.with_driver drv_close)
    (fun _ => browser_at (filter (fun h => h ≠ c) H) c T n) E.
Proof.
  intros HE. apply at_with_driver. intros s Hs. unfold drv_close. simpl.
  destruct (is_open _ _); [|now apply HE]. now apply browser_at_set_driver.
Qed.

Lemma at_pass (b : bool) (e : exn) :
  (forall s, browser_at H c T n s -> E s) ->
  triple (browser_at H c T n)
    (Downloader.with_driver (fun d => if b then inr (tt, d) else inl e))
    (fun _ => browser_at H c T n) E.
Proof.
  intros HE. apply at_with_driver. intros s Hs.
  destruct b; [|now apply HE]. now apply browser_at_set_driver.
Qed.

Lemma at_driver_get (loads : bool) :
  (forall s, browser_at H c T n s -> E s) ->
  triple (browser_at H c T n) (Downloader.driver_get loads) (fun _ => browser_at H c T n) E.
Proof. apply at_pass. Qed.

Lemma at_click (el : Elem) :
  (forall s, browser_at H c T n s -> E s) ->
  triple (browser_at H c T n) (Downloader.click el) (fun _ => browser_at H c T n) E.
Proof. apply at_pass. Qed.

Lemma at_noop :
  triple (browser_at H c T n) (Downloader.with_driver (fun d => inr (tt, d)))
    (fun _ => browser_at H c T n) E.
Proof. apply at_with_driver. intros s Hs. now apply browser_at_set_driver. Qed.

Lemma at_sleep (k : Z) :
  triple (browser_at H c T n) (Downloader.sleep k) (fun _ => browser_at H c T n) E.
Proof. intros s Hs. exact Hs. Qed.

Lemma at_gets {A} (f : Downloader.State -> A) :
  triple (browser_at H c T n) (gets f) (fun _ => browser_at H c T n) E.
Proof. intros s Hs. exact Hs. Qed.

Lemma at_ret {A} (a : A) :
  triple (browser_at H c T n) (ret a) (fun _ => browser_at H c T n) E.
Proof. intros s Hs. exact Hs. Qed.

Lemma at_make_download_folder (name : string) (info : File) :
  (forall s, browser_at H c T n s -> E s) ->
  triple (browser_at H c T n) (Downloader.make_download_folder name info)
    (fun _ => browser_at H c T n) E.
Proof.
  intros HE s Hs. unfold Downloader.make_download_folder.
  destruct (can_write _); [exact Hs | now apply HE].
Qed.

Lemma at_mark_event_as_downloaded (id : string) :
  triple (browser_at H c T n) (Downloader.mark_event_as_downloaded id)
    (fun _ => browser_at H c T n) E.
Proof.
  intros s Hs.
  unfold Downloader.mark_event_as_downloaded, Downloader.save_downloaded_events,
    Downloader.write_downloaded_file, try_except, bind, modify, get, ret. simpl.
  destruct (can_write _); exact Hs.
Qed.

Lemma at_click_meeting (v : Downloader.Visit) :
  triple (browser_at H c T n) (Downloader.click_meeting v)
    (fun _ s => if Downloader.opens_tab v then browser_at (H ++ [n]) c T (S n) s
                else browser_at H c T n s) E.
Proof.
  intros s Hs. unfold Downloader.click_meeting.
  destruct (Downloader.opens_tab v).
  - destruct Hs as (Hd & Ht & Hn).
    unfold bind, gets, Downloader.with_driver, modify. rewrite Hd. simpl.
    rewrite Hn. repeat split. exact Ht.
  - now apply at_noop.
Qed.

Lemma at_append (e : Downloader.download_info) :
  triple (browser_at H c T n)
    (modify (fun s => Downloader.set_downloading_tabs
                        (Downloader.downloading_tabs s ++ [e]) s))
    (fun _ => browser_at H c (T ++ [e]) n) E.
Proof. intros s (Hd & Ht & Hn). repeat split; simpl; [exact Hd | now rewrite Ht | exact Hn]. Qed.

End BrowserAt.

Lemma triple_head_or_raise {A} (P : Downloader.State -> Prop) (E : Downloader.State -> Prop)
    (l : list A) :
  (l = [] -> forall s, P s -> E s) ->
  triple P (Downloader.head_or_raise l) (fun v s => head l = Some v /\ P s) E.
Proof.
  intros HE s Hs. destruct l as [|x l]; simpl.
  - now apply HE.
  - split; [reflexivity | exact Hs].
Qed.

Ltac at_side := solve [intros ? ?; eassumption].

Ltac at_prim :=
  first
    [ apply at_handles
    | apply at_current; at_side
    | apply at_switch; at_side
    | apply at_close; at_side
    | apply at_driver_get; at_side
    | apply at_click; at_side
    | apply at_pass; at_side
    | apply at_noop
    | apply at_sleep
    | apply at_make_download_folder; at_side
    | apply at_mark_event_as_downloaded
    | apply at_click_meeting
    | apply at_append
    | apply at_gets
    | apply at_ret ].

Ltac at_steps :=
  repeat first
    [ eapply triple_bind; [ at_prim | intros ? ]
    | apply triple_pure; intros ? ].

Lemma start_download_at (v : Downloader.Visit) (video_url event_title event_number : string)
    (t : Tab) (H : list Tab) (c : Tab) (T : list Downloader.download_info) (n : Tab)
    (h0 : Tab) (rest : list Tab) :
  List.filter (fun x => negb (Nat.eqb x t)) H = h0 :: rest ->
  triple (browser_at H c T n)
    (Downloader.start_download v video_url event_title event_number t)
    (fun b s => if b then exists e, Downloader.tab e = t /\ browser_at H h0 (T ++ [e]) n s
                else browser_at H c T n s)
    (fun _ => False).
Proof.
  intros Hother.
  assert (Hh0 : h0 ∈ H).
  { assert (Hin : In h0 (List.filter (fun x => negb (Nat.eqb x t)) H))
      by (rewrite Hother; left; reflexivity).
    apply filter_In in Hin as [Hin _]. now apply list_elem_of_In. }
  unfold Downloader.start_download.
  apply triple_try_except with (E1 := browser_at H c T n);
    [|intros _; apply triple_ret; intros s Hs; exact Hs].
  eapply triple_bind with (Q1 := fun _ => browser_at H c T n).
  { destruct (Downloader.video_page v) as [page|].
    - at_steps. at_prim.
    - at_steps. apply triple_raise. intros s Hs; exact Hs. }
  intros page.
  eapply triple_bind; [at_prim | intros ?].
  destruct (match pg_query page Downloader.topic_selector with
            | Some name_element => _
            | None => _
            end) as [meeting_name meeting_date].
  eapply triple_bind; [at_prim | intros now].
  eapply triple_bind; [at_prim | intros ?].
  eapply triple_bind; [at_prim | intros ?].
  destruct (first_found page Downloader.download_selectors) as [download_button|];
    [|apply triple_ret; intros s Hs; exact Hs].
  eapply triple_bind; [at_prim | intros ?].
  eapply triple_bind; [at_prim | intros started].
  eapply triple_bind; [apply at_append | intros ?].
  eapply triple_bind; [apply at_mark_event_as_downloaded | intros ?].
  eapply triple_bind; [apply at_handles | intros handles].
  apply triple_pure. intros ->. rewrite Hother. simpl.
  apply triple_bind_ret.
  eapply triple_bind; [apply at_switch_open; exact Hh0 | intros ?].
  apply triple_ret. intros s Hs. eexists. split; [|exact Hs]. reflexivity.
Qed.

(** ** What keeps the tabs in order *)

Lemma browser_at_in_order (H : list Tab) (c : Tab) (T : list Downloader.download_info)
    (n main_tab : Tab) (s : Downloader.State) :
  browser_at H c T n s ->
  NoDup (map Downloader.tab T) ->
  (forall i, i ∈ T -> Downloader.tab i ∈ H) ->
  (forall h, h ∈ H -> (h < n)%nat) ->
  main_tab ∈ H -> main_tab ∉ map Downloader.tab T ->
  tabs_in_order s.
Proof.
  intros (Hd & Ht & Hn) Hnd Hopen Hfresh Hm Hmt.
  exists {| window_handles := H; current := c |}, main_tab.
  rewrite Ht, Hn. simpl. repeat split; assumption.
Qed.

Lemma list_filter_all {A} (f : A -> bool) (l : list A) :
  (forall x, In x l -> f x = true) -> List.filter f l = l.
Proof.
  induction l as [|x l IH]; simpl; intros Hl; [reflexivity|].
  rewrite (Hl x) by now left. f_equal. apply IH. intros y Hy. apply Hl. now right.
Qed.

Section NewTab.
Variables (H : list Tab) (n : Tab).
Hypothesis Hfresh : forall h, h ∈ H -> (h < n)%nat.

Lemma new_tab_not_open : n ∉ H.
Proof. intros Hn. apply Hfresh in Hn. lia. Qed.

Lemma filter_new_tab :
  List.filter (fun t => negb (bool_decide (t ∈ H))) (H ++ [n]) = [n].
Proof.
  rewrite List.filter_app. simpl.
  rewrite bool_decide_eq_false_2 by exact new_tab_not_open. simpl.
  rewrite list_filter_none; [reflexivity|].
  intros x Hx. apply list_elem_of_In in Hx. now rewrite bool_decide_eq_true_2.
Qed.

Lemma filter_other_tabs :
  List.filter (fun t => negb (Nat.eqb t n)) (H ++ [n]) = H.
Proof.
  rewrite List.filter_app. simpl. rewrite Nat.eqb_refl. simpl. rewrite app_nil_r.
  apply list_filter_all. intros x Hx. apply list_elem_of_In, Hfresh in Hx.
  apply negb_true_iff, Nat.eqb_neq. lia.
Qed.

Lemma close_new_tab : filter (fun h => h ≠ n) (H ++ [n]) = H.
Proof.
  rewrite filter_app, filter_cons, decide_False by (intros Hn; now apply Hn).
  rewrite filter_nil, app_nil_r.
  clear - Hfresh. induction H as [|x l IH]; [reflexivity|].
  rewrite filter_cons, decide_True.
  - f_equal. apply IH. intros h Hh. apply Hfresh. now right.
  - assert (x < n)%nat by (apply Hfresh; left). lia.
Qed.

End NewTab.

Lemma in_order_switch (h : Tab) (P : Downloader.State -> Prop) :
  (forall s d c, P s -> Downloader.driver s = Some d ->
     P (Downloader.set_driver (Some {| window_handles := window_handles d; current := c |}) s)) ->
  triple P (try_except (Downloader.with_driver (drv_switch h)) (fun _ => ret tt))
    (fun _ => P) (fun _ => False).
Proof.
  intros HP s Hs. unfold try_except, Downloader.with_driver.
  destruct (Downloader.driver s) as [d|] eqn:Hd; simpl; [|exact Hs].
  unfold drv_switch. destruct (is_open h d); simpl; [|exact Hs].
  now apply HP.
Qed.

Section OneMeeting.
Variables (H : list Tab) (T : list Downloader.download_info) (n main_tab : Tab).
Hypothesis Hnd : NoDup (map Downloader.tab T).
Hypothesis Hopen : forall i, i ∈ T -> Downloader.tab i ∈ H.
Hypothesis Hfresh : forall h, h ∈ H -> (h < n)%nat.
Hypothesis Hmain : main_tab ∈ H.
Hypothesis Hmain_free : main_tab ∉ map Downloader.tab T.

Lemma meeting_leaves_same (c n' : Tab) (s : Downloader.State) :
  (n <= n')%nat -> browser_at H c T n' s -> after_meeting T s.
Proof.
  intros Hn Hs. split.
  - apply (browser_at_in_order H c T n' main_tab); try assumption.
    intros h Hh. apply Hfresh in Hh. lia.
  - destruct Hs as (_ & -> & _). lia.
Qed.

Lemma meeting_leaves_open (c : Tab) (s : Downloader.State) :
  browser_at (H ++ [n]) c T (S n) s -> after_meeting T s.
Proof.
  intros Hs. split.
  - apply (browser_at_in_order (H ++ [n]) c T (S n) main_tab); try assumption.
    + intros i Hi. apply elem_of_app. left. now apply Hopen.
    + intros h Hh. apply elem_of_app in Hh as [Hh|Hh].
      * apply Hfresh in Hh. lia.
      * apply list_elem_of_singleton in Hh. lia.
    + apply elem_of_app. now left.
  - destruct Hs as (_ & -> & _). lia.
Qed.

Lemma meeting_leaves_tracked (c : Tab) (e : Downloader.download_info) (s : Downloader.State) :
  Downloader.tab e = n -> browser_at (H ++ [n]) c (T ++ [e]) (S n) s -> after_meeting T s.
Proof.
  intros He Hs. split.
  - apply (browser_at_in_order (H ++ [n]) c (T ++ [e]) (S n) main_tab); try assumption.
    + rewrite map_app. simpl. rewrite He. apply NoDup_app. split; [exact Hnd|]. split.
      * intros h Hh Hn. apply list_elem_of_singleton in Hn. subst h.
        apply list_elem_of_In, in_map_iff in Hh as [i [Hi Hin]].
        apply list_elem_of_In, Hopen, Hfresh in Hin. lia.
      * apply NoDup_singleton.
    + intros i Hi. apply elem_of_app in Hi as [Hi|Hi]; apply elem_of_app.
      * left. now apply Hopen.
      * right. apply list_elem_of_singleton in Hi. subst i. rewrite He. left.
    + intros h Hh. apply elem_of_app in Hh as [Hh|Hh].
      * apply Hfresh in Hh. lia.
      * apply list_elem_of_singleton in Hh. lia.
    + apply elem_of_app. now left.
    + rewrite map_app. simpl. rewrite He. intros Hin.
      apply elem_of_app in Hin as [Hin|Hin]; [contradiction|].
      apply list_elem_of_singleton in Hin. apply Hfresh in Hmain. lia.
  - destruct Hs as (_ & -> & _). rewrite length_app. simpl. lia.
Qed.

Lemma meeting_leaves_set_driver (s : Downloader.State) (d : Driver) (c : Tab) :
  after_meeting T s -> Downloader.driver s = Some d ->
  after_meeting T
    (Downloader.set_driver (Some {| window_handles := window_handles d; current := c |}) s).
Proof.
  intros [(d0 & m & Hd0 & Hrest) Hlen] Hd. rewrite Hd in Hd0. injection Hd0 as <-.
  split; [|exact Hlen]. eexists _, m. split; [reflexivity|]. exact Hrest.
Qed.

Lemma close_and_go_back_at (c : Tab) :
  triple (browser_at (H ++ [n]) n T (S n)) (Downloader.close_and_go_back c ;;; ret false)
    (fun _ => after_meeting T) (after_meeting T).
Proof.
  unfold Downloader.close_and_go_back.
  eapply triple_bind; [|intros ?; apply triple_ret; intros s Hs; exact Hs].
  eapply triple_bind; [apply at_close; intros s Hs; now apply (meeting_leaves_open n)|intros ?].
  rewrite close_new_tab by exact Hfresh.
  eapply triple_weaken; [apply (at_switch H n T (S n) (after_meeting T) c)| | |].
  - intros s Hs. apply (meeting_leaves_same n (S n)); [lia | exact Hs].
  - intros s Hs. exact Hs.
  - intros ? s Hs. apply (meeting_leaves_same c (S n)); [lia | exact Hs].
  - intros s Hs. exact Hs.
Qed.

Lemma process_single_meeting_at (ev : Downloader.event_info) (c : Tab) :
  triple (browser_at H c T n) (Downloader.process_single_meeting ev)
    (fun _ => after_meeting T) (fun _ => False).
Proof.
  unfold Downloader.process_single_meeting. cbv zeta.
  eapply triple_bind; [apply (triple_get _ (fun _ => browser_at H c T n)); auto | intros s0].
  apply triple_try_except with (E1 := after_meeting T).
  2:{ intros _. eapply triple_bind; [|intros ?; apply triple_ret; intros s Hs; exact Hs].
      destruct (match Downloader.driver s0 with Some d => _ | None => _ end) as [main|].
      - apply in_order_switch. intros s d c' Hs Hd. now apply meeting_leaves_set_driver.
      - apply triple_ret. auto. }
  assert (Hsame : forall s, browser_at H c T n s -> after_meeting T s)
    by (intros s; apply meeting_leaves_same; lia).
  eapply triple_bind; [apply at_current; exact Hsame | intros main].
  apply triple_pure. intros ->.
  eapply triple_bind; [apply at_handles | intros original_tabs].
  apply triple_pure. intros ->.
  eapply triple_bind; [apply at_click_meeting | intros ?].
  destruct (Downloader.opens_tab (Downloader.on_click (Downloader.element ev))).
  - assert (Hopened : forall c' s, browser_at (H ++ [n]) c' T (S n) s -> after_meeting T s)
      by (intros c' s; apply meeting_leaves_open).
    eapply triple_bind; [apply at_sleep | intros ?].
    eapply triple_bind; [apply at_handles | intros new_tabs].
    apply triple_pure. intros ->.
    replace (length H <? length (H ++ [n]))%nat with true
      by (symmetry; apply Nat.ltb_lt; rewrite length_app; simpl; lia).
    rewrite filter_new_tab by exact Hfresh.
    change (Downloader.head_or_raise [n]) with (@ret Downloader.State _ n).
    apply triple_bind_ret.
    eapply triple_bind;
      [apply at_switch_open; apply elem_of_app; right; left | intros ?].
    destruct (str_in _ _); [|apply (close_and_go_back_at c)].
    match goal with |- context [first_found ?p ?l] =>
      destruct (first_found p l) as [media_button|] end;
      [|apply (close_and_go_back_at c)].
    eapply triple_bind; [apply at_sleep | intros ?].
    match goal with |- context [truthy ?u] => destruct (truthy u) end;
      [|apply (close_and_go_back_at c)].
    assert (HH : exists h0 rest, H = h0 :: rest).
    { clear - Hmain. destruct H as [|h0 rest]; [inversion Hmain|]. now exists h0, rest. }
    destruct HH as (h0 & rest & HH).
    eapply triple_bind.
    { eapply triple_weaken; [apply (start_download_at _ _ _ _ n (H ++ [n]) n T (S n) h0 rest)| | |].
      - rewrite filter_other_tabs by exact Hfresh. exact HH.
      - intros s Hs; exact Hs.
      - intros b s Hs; exact Hs.
      - intros s []. }
    intros [|].
    + apply triple_ret. intros s (e & He & Hs). now apply (meeting_leaves_tracked h0 e).
    + apply (close_and_go_back_at c).
  - eapply triple_bind; [apply at_sleep | intros ?].
    eapply triple_bind; [apply at_handles | intros new_tabs].
    apply triple_pure. intros ->.
    rewrite Nat.ltb_irrefl. apply triple_ret. exact Hsame.
Qed.

End OneMeeting.

Lemma process_single_meeting_in_order (ev : Downloader.event_info) (s : Downloader.State) :
  tabs_in_order s ->
  exists b s',
    Downloader.process_single_meeting ev s = Ok b s'
    /\ tabs_in_order s'
    /\ (tracked_downloads s' <= tracked_downloads s + 1)%nat.
Proof.
  intros (d & m & Hd & Hnd & Hopen & Hfresh & Hm & Hmt).
  pose proof (process_single_meeting_at (window_handles d) (Downloader.downloading_tabs s)
                (Downloader.next_tab s) m Hnd Hopen Hfresh Hm Hmt ev (current d) s) as Hrun.
  destruct (Downloader.process_single_meeting ev s) as [b s'|e s'|s'].
  - exists b, s'. split; [reflexivity|]. apply Hrun. destruct d. repeat split. exact Hd.
  - exfalso. apply Hrun. destruct d. repeat split. exact Hd.
  - exfalso. apply Hrun. destruct d. repeat split. exact Hd.
Qed.

Lemma list_filter_sublist {A} (f : A -> bool) (l : list A) : List.filter f l `sublist_of` l.
Proof.
  induction l as [|x l IH]; simpl; [constructor|].
  destruct (f x); [now apply sublist_skip | now apply sublist_cons].
Qed.

Lemma NoDup_map_inj {A B} (f : A -> B) (l : list A) (x y : A) :
  NoDup (map f l) -> x ∈ l -> y ∈ l -> f x = f y -> x = y.
Proof.
  induction l as [|z l IH]; simpl; intros Hnd Hx Hy Hf; [inversion Hx|].
  apply NoDup_cons in Hnd as [Hz Hnd].
  apply elem_of_cons in Hx as [->|Hx]; apply elem_of_cons in Hy as [->|Hy].
  - reflexivity.
  - exfalso. apply Hz. rewrite Hf. apply list_elem_of_In, in_map, list_elem_of_In, Hy.
  - exfalso. apply Hz. rewrite <- Hf. apply list_elem_of_In, in_map, list_elem_of_In, Hx.
  - now apply IH.
Qed.

(** The tracked tabs are open and the main tab is not one of them, so
    the browser has more tabs than the list has entries. *)
Lemma tabs_counted (s : Downloader.State) :
  tabs_in_order s -> (tracked_downloads s < open_tabs s)%nat.
Proof.
  intros (d & m & Hd & Hnd & Hopen & _ & Hm & Hmt).
  unfold tracked_downloads, open_tabs. rewrite Hd.
  pose proof (length_filter_closed
                (map Downloader.tab (Downloader.downloading_tabs s)) (window_handles d) Hnd)
    as Hcount.
  rewrite length_map in Hcount.
  assert (Hin : m ∈ filter (fun x => x ∉ map Downloader.tab (Downloader.downloading_tabs s))
                   (window_handles d))
    by (apply list_elem_of_filter; now split).
  destruct (filter _ (window_handles d)) as [|x l] eqn:Hf; [inversion Hin|].
  simpl in Hcount.
  assert (S (length l) + length (Downloader.downloading_tabs s) <= length (window_handles d))%nat;
    [|lia].
  apply Hcount. intros h Hh. apply list_elem_of_In, in_map_iff in Hh as [i [<- Hi]].
  apply Hopen. now apply list_elem_of_In.
Qed.

(** Closing the tabs of some entries and dropping those entries. *)
Lemma in_order_after_closing (s s' : Downloader.State) (d d' : Driver)
    (gone : list Downloader.download_info) :
  tabs_in_order s ->
  Downloader.driver s = Some d ->
  Downloader.driver s' = Some d' ->
  window_handles d' = filter (fun h => h ∉ map Downloader.tab gone) (window_handles d) ->
  Downloader.downloading_tabs s' `sublist_of` Downloader.downloading_tabs s ->
  (forall x, x ∈ Downloader.downloading_tabs s' -> x ∉ gone) ->
  (forall g, g ∈ gone -> g ∈ Downloader.downloading_tabs s) ->
  Downloader.next_tab s' = Downloader.next_tab s ->
  tabs_in_order s'.
Proof.
  intros (d0 & m & Hd0 & Hnd & Hopen & Hfresh & Hm & Hmt) Hd Hd' Hh Hsub Hkept Hgone Hn.
  rewrite Hd in Hd0. injection Hd0 as <-.
  exists d', m. split; [exact Hd'|]. repeat split.
  - eapply sublist_NoDup; [exact Hnd|]. now apply fmap_sublist.
  - intros i Hi. rewrite Hh. apply list_elem_of_filter. split.
    + intros Hin. apply list_elem_of_In, in_map_iff in Hin as [g [Hg Hgin]].
      apply list_elem_of_In in Hgin.
      assert (g = i).
      { apply (NoDup_map_inj Downloader.tab (Downloader.downloading_tabs s)); try assumption.
        - now apply Hgone.
        - eapply elem_of_sublist; eassumption. }
      subst g. now apply (Hkept i).
    + apply Hopen. eapply elem_of_sublist; eassumption.
  - intros h Hh'. rewrite Hh in Hh'. apply list_elem_of_filter in Hh' as [_ Hh'].
    rewrite Hn. now apply Hfresh.
  - rewrite Hh. apply list_elem_of_filter. split; [|exact Hm].
    intros Hin. apply Hmt. apply list_elem_of_In, in_map_iff in Hin as [g [Hg Hgin]].
    apply list_elem_of_In, in_map_iff. exists g. split; [exact Hg|].
    apply list_elem_of_In, Hgone, list_elem_of_In. exact Hgin.
  - intros Hin. apply Hmt. eapply elem_of_sublist; [exact Hin|]. now apply fmap_sublist.
Qed.

Lemma cleanup_in_order (s : Downloader.State) :
  tabs_in_order s ->
  exists s',
    Downloader.cleanup_old_download_tabs s = Ok tt s'
    /\ tabs_in_order s'
    /\ (tracked_downloads s' <= tracked_downloads s)%nat.
Proof.
  intros Hs. destruct (dl_cleanup s) as [dr [Hrun Hh]].
  pose proof Hs as (d & m & Hd & _).
  rewrite Hd in Hh. simpl in Hh. destruct dr as [d'|]; [|discriminate Hh].
  injection Hh as Hh.
  eexists. split; [exact Hrun|]. split.
  - eapply (in_order_after_closing s _ d d'); try eassumption; try reflexivity.
    + simpl. apply list_filter_sublist.
    + simpl. intros x Hx Hgone. apply list_elem_of_In, filter_In in Hx as [_ Hx].
      apply list_elem_of_In, filter_In in Hgone as [_ Hgone].
      rewrite Hgone in Hx. discriminate Hx.
    + intros g Hg. apply list_elem_of_In, filter_In in Hg as [Hg _]. now apply list_elem_of_In.
  - unfold tracked_downloads. simpl. apply sublist_length, list_filter_sublist.
Qed.

Lemma list_remove_spec `{EqDecision A} (x : A) (l : list A) :
  x ∈ l ->
  exists l',
    list_remove x l = Some l'
    /\ l' `sublist_of` l
    /\ (forall y, y ∈ l -> y ≠ x -> y ∈ l')
    /\ (NoDup l -> x ∉ l').
Proof.
  induction l as [|z l IH]; intros Hx; [inversion Hx|]. simpl.
  destruct (decide (x = z)) as [->|Hne].
  - exists l. split; [reflexivity|]. split; [now apply sublist_cons|]. split.
    + intros y Hy Hyz. apply elem_of_cons in Hy as [?|Hy]; [contradiction | exact Hy].
    + intros Hnd. now apply NoDup_cons in Hnd as [Hz _].
  - apply elem_of_cons in Hx as [?|Hx]; [contradiction|].
    destruct (IH Hx) as (l' & -> & Hsub & Hkeep & Hgone).
    exists (z :: l'). split; [reflexivity|]. split; [now apply sublist_skip|]. split.
    + intros y Hy Hyx. apply elem_of_cons in Hy as [->|Hy]; [left|right; now apply Hkeep].
    + intros Hnd. apply NoDup_cons in Hnd as [_ Hnd]. intros Hin.
      apply elem_of_cons in Hin as [?|Hin]; [contradiction | now apply Hgone].
Qed.

(** The loop of [limit_open_tabs] over entries that are all in the list. *)
Lemma limit_loop_in_order (l : list Downloader.download_info) :
  forall s d,
    Downloader.driver s = Some d ->
    NoDup (Downloader.downloading_tabs s) ->
    NoDup l ->
    (forall i, i ∈ l -> i ∈ Downloader.downloading_tabs s) ->
    exists s',
      for_each l
        (fun download_info =>
           try_except
             (Downloader.close_tab_if_open (Downloader.tab download_info) ;;;
              Downloader.untrack download_info)
             (fun _ => ret tt)) s = Ok tt s'
      /\ Downloader.driver s' = Some (close_tabs (map Downloader.tab l) d)
      /\ Downloader.downloading_tabs s' `sublist_of` Downloader.downloading_tabs s
      /\ (forall x, x ∈ Downloader.downloading_tabs s' -> x ∉ l)
      /\ Downloader.next_tab s' = Downloader.next_tab s.
Proof.
  induction l as [|i l IH]; intros s d Hd Hnd Hl Hsub; simpl.
  - exists s. split; [reflexivity|]. split; [exact Hd|]. split; [reflexivity|].
    split; [intros x _; apply not_elem_of_nil | reflexivity].
  - unfold bind at 1, try_except, bind at 1.
    rewrite (dl_close_tab_if_open_some _ s d Hd).
    unfold Downloader.untrack at 1. simpl.
    destruct (list_remove_spec i (Downloader.downloading_tabs s) (Hsub i ltac:(left)))
      as (l1 & -> & Hsub1 & Hkeep & Hgone).
    apply NoDup_cons in Hl as [Hi Hl].
    assert (Hnd1 : NoDup l1) by exact (sublist_NoDup _ _ Hnd Hsub1).
    assert (Hsub2 : forall j, j ∈ l -> j ∈ l1).
    { intros j Hj. apply Hkeep; [apply Hsub; right; exact Hj|]. intros Hji. subst j. exact (Hi Hj). }
    destruct (IH (Downloader.set_downloading_tabs l1
                    (Downloader.set_driver (Some (close_tab (Downloader.tab i) d)) s))
                (close_tab (Downloader.tab i) d) eq_refl Hnd1 Hl Hsub2)
      as (s' & Hrun & Hdrv & Hsub' & Hkept & Hn).
    exists s'. split; [exact Hrun|]. split; [exact Hdrv|]. simpl in *. split; [|split].
    + etransitivity; eassumption.
    + intros x Hx Hin. apply elem_of_cons in Hin as [->|Hin].
      * apply (Hgone Hnd). eapply elem_of_sublist; eassumption.
      * now apply (Hkept x).
    + exact Hn.
Qed.

Lemma limit_open_tabs_in_order (s : Downloader.State) :
  tabs_in_order s ->
  exists s',
    Downloader.limit_open_tabs s = Ok tt s'
    /\ tabs_in_order s'
    /\ (tracked_downloads s' <= 9)%nat.
Proof.
  intros Hs. pose proof Hs as (d & m & Hd & Hnd & Hopen & Hfresh & Hm & Hmt).
  unfold Downloader.limit_open_tabs, bind at 1, Downloader.get_window_handles,
    Downloader.with_driver. rewrite Hd. simpl.
  assert (Hid : Downloader.set_driver (Some d) s = s)
    by (rewrite <- Hd; apply dl_set_driver_id).
  rewrite Hid.
  destruct (10 <? length (window_handles d))%nat eqn:Hmany.
  - apply Nat.ltb_lt in Hmany.
    unfold bind at 1, gets. simpl.
    set (oldest := take _ _).
    assert (Hperm : Permutation
              (sorted (fun a b => Downloader.start_time a <=? Downloader.start_time b)
                 (Downloader.downloading_tabs s))
              (Downloader.downloading_tabs s)) by apply sorted_Permutation.
    assert (Hnd' : NoDup (Downloader.downloading_tabs s)) by now apply NoDup_fmap_1 in Hnd.
    assert (Hin : forall i, i ∈ oldest -> i ∈ Downloader.downloading_tabs s).
    { intros i Hi. rewrite <- Hperm. eapply elem_of_sublist; [exact Hi|]. apply sublist_take. }
    assert (Hndo : NoDup oldest).
    { apply NoDup_take_list. now rewrite Hperm. }
    destruct (limit_loop_in_order oldest s d Hd Hnd' Hndo Hin)
      as (s1 & Hrun & Hdrv & Hsub & Hkept & Hn).
    unfold bind at 1. rewrite Hrun.
    destruct (dl_back_to_first_tab s1) as [dr [Hback Hh]]. rewrite Hback.
    rewrite Hdrv in Hh. simpl in Hh. destruct dr as [d'|]; [|discriminate Hh].
    injection Hh as Hh. rewrite window_handles_close_tabs in Hh.
    assert (Hs' : tabs_in_order (Downloader.set_driver (Some d') s1)).
    { apply (in_order_after_closing s _ d d' oldest); try assumption; reflexivity. }
    eexists. split; [reflexivity|]. split; [exact Hs'|].
    destruct (decide (length (Downloader.downloading_tabs s)
                      <= length (window_handles d) - 10)%nat) as [Hall|Hsome].
    + assert (Hnone : Downloader.downloading_tabs s1 = []).
      { destruct (Downloader.downloading_tabs s1) as [|x l] eqn:Hl; [reflexivity|].
        exfalso. apply (Hkept x); [left|].
        unfold oldest. rewrite take_ge by (rewrite (Permutation_length Hperm); lia).
        rewrite Hperm. eapply elem_of_sublist; [|exact Hsub]. left. }
      unfold tracked_downloads. simpl. rewrite Hnone. simpl. lia.
    + pose proof (tabs_counted _ Hs') as Hcount.
      unfold open_tabs in Hcount. simpl in Hcount. rewrite Hh in Hcount.
      pose proof (length_filter_closed (map Downloader.tab oldest) (window_handles d)) as Hclosed.
      assert (Hl : length (map Downloader.tab oldest) = (length (window_handles d) - 10)%nat).
      { rewrite length_map. unfold oldest. rewrite length_take.
        rewrite (Permutation_length Hperm). lia. }
      rewrite Hl in Hclosed.
      assert (length (filter (fun x => x ∉ map Downloader.tab oldest) (window_handles d))
              + (length (window_handles d) - 10) <= length (window_handles d))%nat; [|lia].
      apply Hclosed.
      * unfold oldest.
        change (map Downloader.tab (take ?k ?l)) with (Downloader.tab <$> take k l).
        rewrite fmap_take. apply NoDup_take_list.
        change (NoDup (map Downloader.tab
                  (sorted (fun a b => Downloader.start_time a <=? Downloader.start_time b)
                     (Downloader.downloading_tabs s)))).
        rewrite Hperm. exact Hnd.
      * intros h Hh'. apply list_elem_of_In, in_map_iff in Hh' as [i [<- Hi]].
        apply Hopen, Hin. now apply list_elem_of_In.
  - apply Nat.ltb_ge in Hmany. exists s. split; [reflexivity|]. split; [exact Hs|].
    pose proof (tabs_counted _ Hs) as Hcount. unfold open_tabs in Hcount.
    rewrite Hd in Hcount. lia.
Qed.

Lemma in_order_set_clock (s : Downloader.State) (t : Z) :
  tabs_in_order s -> tabs_in_order (Downloader.set_clock t s).
Proof. intros Hs. exact Hs. Qed.

(** The loop over the events never tracks more than ten tabs. *)
Lemma process_events_bounded (events : list Downloader.event_info) :
  forall i s,
    tabs_in_order s ->
    (tracked_downloads s <= 10)%nat ->
    exists s',
      Downloader.process_events i events s = Ok tt s'
      /\ tabs_in_order s'
      /\ (tracked_downloads s' <= 10)%nat.
Proof.
  induction events as [|ev rest IH]; intros i s Hs Hlen; simpl.
  - exists s. repeat split; assumption.
  - assert (Hclean : exists s1,
              (if i mod 10 =? 0 then Downloader.cleanup_old_download_tabs else ret tt) s
              = Ok tt s1 /\ tabs_in_order s1).
    { destruct (i mod 10 =? 0).
      - destruct (cleanup_in_order s Hs) as (s1 & Hrun & Hs1 & _). now exists s1.
      - now exists s. }
    destruct Hclean as (s1 & Hrun1 & Hs1).
    unfold bind at 1. rewrite Hrun1.
    destruct (limit_open_tabs_in_order s1 Hs1) as (s2 & Hrun2 & Hs2 & Hlen2).
    unfold bind at 1. rewrite Hrun2.
    destruct (process_single_meeting_in_order ev s2 Hs2) as (b & s3 & Hrun3 & Hs3 & Hlen3).
    unfold bind at 1. rewrite Hrun3.
    unfold bind at 1. simpl.
    apply IH; [exact Hs3|].
    unfold tracked_downloads in *. simpl. lia.
Qed.

Lemma triple_for_each {S A} (P E : S -> Prop) (l : list A) (body : A -> M S unit) :
  (forall x, triple P (body x) (fun _ => P) E) ->
  triple P (for_each l body) (fun _ => P) E.
Proof.
  intros Hbody. induction l as [|x l IH]; simpl.
  - apply triple_ret. auto.
  - eapply triple_bind; [apply Hbody | intros ?; exact IH].
Qed.

Lemma load_all_events_at (site : Downloader.Site) (H : list Tab) (c : Tab)
    (T : list Downloader.download_info) (n : Tab) :
  triple (browser_at H c T n) (Downloader.load_all_events site)
    (fun _ => browser_at H c T n) (browser_at H c T n).
Proof.
  unfold Downloader.load_all_events.
  eapply triple_bind; [at_prim | intros ?].
  eapply triple_bind; [at_prim | intros ?].
  eapply triple_bind with (Q1 := fun _ => browser_at H c T n).
  { destruct (Downloader.scroll_wrap site); [|apply at_ret].
    eapply triple_bind; [|intros ?; apply at_sleep].
    apply triple_for_each. intros ?. apply at_sleep. }
  intros ?.
  eapply triple_bind; [apply (triple_get _ (fun _ => browser_at H c T n)); auto | intros ?].
  apply at_ret.
Qed.

(** A scan that starts with no tracked tab. *)
Lemma scan_through_step_2_bounded (site : Downloader.Site) (s : Downloader.State) :
  Downloader.downloading_tabs s = [] ->
  (tracked_downloads (state_of (scan_through_step_2 site s)) <= 10)%nat.
Proof.
  intros Hnone. unfold scan_through_step_2, Downloader.init_driver.
  unfold bind at 1, bind at 1, bind at 1, gets, modify, ret. 
  set (h := Downloader.next_tab s).
  set (s1 := Downloader.set_next_tab (S h) _).
  assert (Hat : browser_at [h] h [] (S h) s1) by (repeat split; exact Hnone).
  pose proof (load_all_events_at site [h] h [] (S h) s1 Hat) as Hload.
  unfold bind at 1.
  destruct (Downloader.load_all_events site s1) as [events s2|e s2|s2]; simpl.
  - destruct (process_events_bounded events 1 s2) as (s3 & -> & _ & Hlen); [| |exact Hlen].
    + apply (browser_at_in_order [h] h [] (S h) h); try assumption.
      * constructor.
      * intros i Hi. inversion Hi.
      * intros x Hx. apply list_elem_of_singleton in Hx. lia.
      * left.
      * apply not_elem_of_nil.
    + destruct Hload as (_ & Ht & _). unfold tracked_downloads. rewrite Ht. simpl. lia.
  - destruct Hload as (_ & Ht & _). unfold tracked_downloads. rewrite Ht. simpl. lia.
  - contradiction.
Qed.

Lemma wait_and_close_tabs_tracks_nothing :
  runs (shrinks tracked_downloads) (fun _ => True) Downloader.wait_and_close_tabs.
Proof.
  unfold Downloader.wait_and_close_tabs, Downloader.close_remaining_tabs. dl_runs.
Qed.

Lemma driver_quit_tracks_nothing :
  runs (shrinks tracked_downloads) (fun _ => True)
    (try_except Downloader.driver_quit (fun _ => ret tt)).
Proof. unfold Downloader.driver_quit. dl_runs. Qed.

Lemma scan_steps_bounded (site : Downloader.Site) (h : Tab) (s : Downloader.State) :
  browser_at [h] h [] (S h) s ->
  (tracked_downloads (state_of (Downloader.scan_steps site s)) <= 10)%nat.
Proof.
  intros Hat. pose proof (load_all_events_at site [h] h [] (S h) s Hat) as Hload.
  unfold Downloader.scan_steps, bind at 1.
  destruct (Downloader.load_all_events site s) as [events s2|e s2|s2]; simpl;
    [| |contradiction].
  - destruct events as [|ev rest].
    + destruct Hload as (_ & Ht & _). unfold tracked_downloads. simpl. rewrite Ht. simpl. lia.
    + destruct (process_events_bounded (ev :: rest) 1 s2) as (s3 & Hrun & _ & Hlen).
      * apply (browser_at_in_order [h] h [] (S h) h); try assumption.
        -- constructor.
        -- intros i Hi. inversion Hi.
        -- intros x Hx. apply list_elem_of_singleton in Hx. lia.
        -- left.
        -- apply not_elem_of_nil.
      * destruct Hload as (_ & Ht & _). unfold tracked_downloads. rewrite Ht. simpl. lia.
      * unfold bind. rewrite Hrun.
        pose proof (runs_keeps _ _ _ wait_and_close_tabs_tracks_nothing s3) as Hw.
        unfold shrinks in Hw. lia.
  - destruct Hload as (_ & Ht & _). unfold tracked_downloads. rewrite Ht. simpl. lia.
Qed.

(** A whole scan that starts with no tracked tab. *)
Lemma run_download_scan_bounded (chrome_ok : bool) (site : Downloader.Site)
    (s : Downloader.State) :
  Downloader.downloading_tabs s = [] ->
  (tracked_downloads (state_of (Downloader.run_download_scan chrome_ok site s)) <= 10)%nat.
Proof.
  intros Hnone. unfold Downloader.run_download_scan, Downloader.init_driver.
  destruct chrome_ok; [|unfold tracked_downloads; simpl; rewrite Hnone; simpl; lia].
  unfold bind at 1, bind at 1, bind at 1, gets, modify, ret.
  set (h := Downloader.next_tab s).
  set (s1 := Downloader.set_next_tab (S h) _).
  assert (Hat : browser_at [h] h [] (S h) s1) by (repeat split; exact Hnone).
  pose proof (scan_steps_bounded site h s1 Hat) as Hscan.
  unfold bind, try_except at 1.
  destruct (Downloader.scan_steps site s1) as [[] s2|e s2|s2]; simpl in Hscan |- *.
  - pose proof (runs_keeps _ _ _ driver_quit_tracks_nothing s2) as Hq.
    etransitivity; [exact Hq | exact Hscan].
  - pose proof (runs_keeps _ _ _ driver_quit_tracks_nothing s2) as Hq.
    etransitivity; [exact Hq | exact Hscan].
  - exact Hscan.
Qed.

(** X9.  What holds of the bound.  The uploader never tracks more than ten
    upload tabs: [upload_files] calls [wait_for_upload_slots] with 10
    before every file, and neither its loop nor a whole
    [upload_session] takes a state with at most ten tracked tabs to one
    with more.  A scan of the downloader that starts with no tracked
    tab never tracks more than ten download tabs, at the end of the
    loop over the events, whatever their number, and at the end of the
    scan. *)
Theorem pool_bound_within_a_scan (rounds : nat) (chrome_ok : bool) (site : Uploader.Site)
    (file_index : Z) (files : list Uploader.Artifact) (u : Uploader.State)
    (catalog_site : Downloader.Site) (s : Downloader.State) :
  (tracked_uploads u <= 10)%nat ->
  Downloader.downloading_tabs s = [] ->
  ((tracked_uploads (state_of (Uploader.upload_files rounds site file_index files u)) <= 10)%nat
   /\ (tracked_uploads (state_of (Uploader.upload_session rounds chrome_ok site u)) <= 10)%nat)
  /\ ((tracked_downloads (state_of (scan_through_step_2 catalog_site s)) <= 10)%nat
      /\ (tracked_downloads
            (state_of (Downloader.run_download_scan chrome_ok catalog_site s)) <= 10)%nat).
Proof.
  intros Hu Hnone. split; split.
  - now apply up_upload_files_bounded.
  - now apply up_session_bounded.
  - now apply scan_through_step_2_bounded.
  - now apply run_download_scan_bounded.
Qed.

(** A new downloader that scans ten meetings has eleven tabs open at
    the end of the loop, ten of them tracked download tabs:
    [limit_open_tabs] compares before the meeting opens its tab, and
    the main tab is one of the tabs it counts. *)
Lemma first_scan_opens_eleven_tabs :
  open_tabs during_first_scan = 11%nat
  /\ length (open_download_tabs during_first_scan) = 10%nat.
Proof. split; vm_compute; reflexivity. Qed.

(** C3 fails in the second of two scans of one downloader.  The first
    scan closes the tab of meeting 1020 in its last loop and leaves the
    entry in [downloading_tabs].  In the second scan that entry is the
    oldest one when the browser has eleven tabs, so [limit_open_tabs]
    drops it and closes nothing; at the end of the loop over the events
    the browser has twelve tabs open and eleven of them are tracked
    download tabs. *)
Theorem eleven_download_tabs_open :
  tracked_downloads after_first_scan = 1%nat
  /\ open_tabs during_second_scan = 12%nat
  /\ length (open_download_tabs during_second_scan) = 11%nat
  /\ tracked_downloads during_second_scan = 11%nat.
Proof. repeat split; vm_compute; reflexivity. Qed.

(** ** Strings as lists of characters *)

Lemma chars_inj (s t : string) : chars s = chars t -> s = t.
Proof.
  unfold chars. intros H.
  rewrite <- (string_of_list_ascii_of_string s), <- (string_of_list_ascii_of_string t).
  now rewrite H.
Qed.

Lemma chars_length (s : string) : String.length s = length (chars s).
Proof. unfold chars. induction s as [|c s IH]; simpl; [reflexivity | now rewrite IH]. Qed.

Lemma chars_app (s t : string) : chars (s +:+ t) = chars s ++ chars t.
Proof. unfold chars. induction s as [|c s IH]; simpl; [reflexivity | now rewrite IH]. Qed.

Lemma chars_rev_app (s t : string) : chars (String.rev_app s t) = rev (chars s) ++ chars t.
Proof.
  unfold chars. revert t. induction s as [|c s IH]; intros t; simpl; [reflexivity|].
  rewrite IH. simpl. now rewrite <- app_assoc.
Qed.

Lemma chars_rev (s : string) : chars (String.rev s) = rev (chars s).
Proof. unfold String.rev. rewrite chars_rev_app. simpl. apply app_nil_r. Qed.

Lemma chars_lstrip (s : string) : chars (lstrip s) = drop_spaces (chars s).
Proof.
  unfold chars. induction s as [|c s IH]; simpl; [reflexivity|].
  destruct (is_space c); [exact IH | reflexivity].
Qed.

Lemma chars_strip (s : string) :
  chars (strip s) = rev (drop_spaces (rev (drop_spaces (chars s)))).
Proof. unfold strip. now rewrite chars_rev, chars_lstrip, chars_rev, chars_lstrip. Qed.

Lemma chars_substring_0 (n : nat) (s : string) :
  chars (String.substring 0 n s) = take n (chars s).
Proof.
  unfold chars. revert s. induction n as [|n IH]; intros [|c s]; simpl; try reflexivity.
  now rewrite IH.
Qed.

Lemma chars_replace_char (bad : ascii) (s : string) :
  chars (replace_char bad s)
  = map (fun c => if Ascii.eqb c bad then "_"%char else c) (chars s).
Proof. unfold chars, replace_char. apply list_ascii_of_string_of_list_ascii. Qed.

Lemma in_drop_spaces (x : ascii) (l : list ascii) : In x (drop_spaces l) -> In x l.
Proof.
  induction l as [|c l IH]; simpl; [done|].
  destruct (is_space c); [intros H; right; now apply IH | done].
Qed.

Lemma in_take (x : ascii) (n : nat) (l : list ascii) : In x (take n l) -> In x l.
Proof.
  revert n. induction l as [|c l IH]; intros [|n]; simpl; try done.
  intros [->|H]; [now left | right; now apply (IH n)].
Qed.

Lemma in_chars_sanitize (x : ascii) (filename : string) :
  In x (chars (sanitize_filename filename)) ->
  In x (chars (foldl (fun s c => replace_char c s) filename invalid_chars)).
Proof.
  unfold sanitize_filename. rewrite chars_substring_0, chars_strip.
  intros H. apply in_take, in_rev, in_drop_spaces, in_rev, in_drop_spaces in H. exact H.
Qed.

Lemma in_chars_replace (x bad : ascii) (s : string) :
  In x (chars (replace_char bad s)) ->
  (x = "_"%char \/ In x (chars s)) /\ (x = bad -> bad = "_"%char).
Proof.
  rewrite chars_replace_char. intros H. apply in_map_iff in H as [c [Hc Hin]].
  destruct (Ascii.eqb_spec c bad) as [Heq|Hne].
  - subst x. split; [now left | congruence].
  - subst x. split; [now right | congruence].
Qed.

(** ** File names: [sanitize_filename] *)

(** X1.  [sanitize_filename] gives a name of at most 100 characters with
    none of the nine characters it replaces. *)
Theorem sanitize_filename_safe (filename : string) :
  (String.length (sanitize_filename filename) <= 100)%nat
  /\ forall c, In c invalid_chars -> ~ In c (chars (sanitize_filename filename)).
Proof.
  split.
  - rewrite chars_length. unfold sanitize_filename.
    rewrite chars_substring_0, length_take. lia.
  - intros c Hc Hin. apply in_chars_sanitize in Hin.
    assert (Hgen : forall bads s,
               In c bads -> c <> "_"%char ->
               ~ In c (chars (foldl (fun s c => replace_char c s) s bads))).
    { clear. intros bads. induction bads as [|b bads IH] using rev_ind; intros s Hc Hne; [done|].
      rewrite foldl_app. simpl. intros Hin. apply in_chars_replace in Hin as [[?|Hin] Hb]; [done|].
      apply in_app_or in Hc as [Hc|[->|[]]].
      - now apply (IH s).
      - now apply Hne, Hb. }
    apply (Hgen invalid_chars filename Hc); [|exact Hin].
    intros ->. vm_compute in Hc. intuition discriminate.
Qed.

Lemma replace_char_absent (bad : ascii) (s : string) :
  ~ In bad (chars s) -> replace_char bad s = s.
Proof.
  intros Hbad. apply chars_inj. rewrite chars_replace_char.
  rewrite <- (map_id (chars s)) at 2. apply map_ext_in.
  intros c Hc. destruct (Ascii.eqb_spec c bad) as [->|_]; [contradiction | reflexivity].
Qed.

(** X2.  A name of ASCII characters that needs no cleaning comes back as it
    is: none of the nine characters in it, no white space at either
    end, at most 100 characters. *)
Theorem sanitize_filename_clean (filename : string) :
  ascii_only filename = true ->
  (forall c, In c invalid_chars -> ~ In c (chars filename)) ->
  strip filename = filename ->
  (String.length filename <= 100)%nat ->
  sanitize_filename filename = filename.
Proof.
  intros _ Hclean Hstrip Hlen. unfold sanitize_filename.
  assert (Hfold : forall bads,
            (forall c, In c bads -> ~ In c (chars filename)) ->
            foldl (fun s c => replace_char c s) filename bads = filename).
  { intros bads. induction bads as [|b bads IH] using rev_ind; intros Hb; [reflexivity|].
    rewrite foldl_app. simpl. rewrite IH by (intros c Hc; apply Hb, in_or_app; now left).
    apply replace_char_absent, Hb, in_or_app. right. now left. }
  rewrite (Hfold _ Hclean), Hstrip.
  apply chars_inj. rewrite chars_substring_0. apply take_ge.
  now rewrite <- chars_length.
Qed.

Lemma sanitize_filename_clean_witness :
  sanitize_filename "Select Board" = "Select Board"%string.
Proof.
  apply sanitize_filename_clean.
  - reflexivity.
  - intros c Hc Hin. vm_compute in Hc, Hin.
    repeat (destruct Hc as [<-|Hc]; [intuition discriminate|]). exact Hc.
  - reflexivity.
  - simpl. lia.
Defined.

(** ** The ledger file across a restart *)

Lemma drop_spaces_no_space (l : list ascii) :
  forallb (fun c => negb (is_space c)) l = true -> drop_spaces l = l.
Proof.
  destruct l as [|c l]; simpl; [reflexivity|].
  intros H. apply andb_true_iff in H as [Hc _]. apply negb_true_iff in Hc. now rewrite Hc.
Qed.

Lemma strip_no_space (id : string) : no_space id = true -> strip id = id.
Proof.
  unfold no_space. intros H. apply chars_inj. rewrite chars_strip.
  rewrite (drop_spaces_no_space _ H), drop_spaces_no_space, rev_involutive; [reflexivity|].
  apply forallb_forall. intros c Hc. apply in_rev in Hc.
  now apply (proj1 (forallb_forall _ _) H).
Qed.

Lemma span_digits_digits (s : string) :
  forallb is_digit (chars (fst (span_digits s))) = true.
Proof.
  induction s as [|c s IH]; simpl; [reflexivity|].
  destruct (is_digit c) eqn:Hc; [|reflexivity].
  destruct (span_digits s) as [d r]. simpl in *. now rewrite Hc.
Qed.

Lemma first_digits_digits (s number : string) :
  first_digits s = Some number ->
  number <> EmptyString /\ forallb is_digit (chars number) = true.
Proof.
  induction s as [|c s IH]; simpl; [done|].
  destruct (is_digit c) eqn:Hc; [|exact IH].
  intros [= <-]. split.
  - now destruct (span_digits s).
  - pose proof (span_digits_digits (String c s)) as H. simpl in H. now rewrite Hc in H.
Qed.

Lemma digits_no_space (s : string) :
  forallb is_digit (chars s) = true -> no_space s = true.
Proof.
  unfold no_space. intros H. apply forallb_forall. intros c Hc.
  apply (proj1 (forallb_forall _ _) H) in Hc.
  unfold is_digit, is_space in *. apply negb_true_iff.
  apply andb_true_iff in Hc as [H1 H2]. apply Nat.leb_le in H1, H2.
  apply orb_false_iff. split; apply andb_false_iff.
  - right. apply Nat.leb_gt. lia.
  - right. apply Nat.leb_gt. lia.
Qed.

Lemma candidate_number (X : gset string) (now : datetime) (e : Downloader.ListItem)
    (ev : Downloader.event_info) :
  Downloader.candidate X now e = Some ev ->
  first_digits (Downloader.elem_id e) = Some (Downloader.event_number ev).
Proof.
  unfold Downloader.candidate.
  destruct (first_digits (Downloader.elem_id e)) as [number|]; [|done].
  case_bool_decide; [done|].
  destruct (Downloader.date_match e) as [dm|]; [|done].
  destruct (datetime_ymd _ _ _) as [d|]; [|done].
  destruct (_ && _); [|done]. now intros [= <-].
Qed.

#[global] Instance ledger_kept_preorder : PreOrder ledger_kept.
Proof.
  split.
  - intros s Hw. split; [exact Hw | now left].
  - intros s1 s2 s3 H12 H23 Hw. destruct (H12 Hw) as [Hw2 H2]. destruct (H23 Hw2) as [Hw3 H3].
    split; [exact Hw3|]. destruct H3 as [H3|H3]; [|now right].
    destruct H2 as [H2|H2]; [left; congruence|]. right.
    unfold ledger_written, dl_ledger in *. injection H3 as HX Hf. now rewrite Hf, HX.
Qed.

Ltac ledger_side :=
  intros; unfold ledger_kept, dl_ledger; simpl; intros Hw; split; [exact Hw | now left].

Lemma mark_event_keeps_ledger (id : string) :
  runs ledger_kept (fun _ => True) (Downloader.mark_event_as_downloaded id).
Proof.
  intros s.
  unfold Downloader.mark_event_as_downloaded, Downloader.save_downloaded_events,
    Downloader.write_downloaded_file, try_except, bind, modify, get, ret. simpl.
  destruct (can_write (Downloader.disk s)) eqn:Hw; simpl.
  - split; [|exact I]. intros _. simpl. split; [exact Hw|]. right. reflexivity.
  - split; [|exact I]. intros Hw'. congruence.
Qed.

Lemma make_download_folder_keeps_ledger (name : string) (info : File) :
  runs ledger_kept (fun _ => True) (Downloader.make_download_folder name info).
Proof.
  intros s. unfold Downloader.make_download_folder.
  destruct (can_write (Downloader.disk s)) eqn:Hw; simpl.
  - split; [|exact I]. intros _. simpl. split; [exact Hw | now left].
  - intros Hw'. congruence.
Qed.

Lemma untrack_keeps_ledger (i : Downloader.download_info) :
  runs ledger_kept (fun _ => True) (Downloader.untrack i).
Proof.
  intros s. unfold Downloader.untrack.
  destruct (list_remove i (Downloader.downloading_tabs s)); [split; [|exact I]|]; ledger_side.
Qed.

Ltac dl_ledger_steps :=
  repeat first
    [ runs_step
    | apply dl_runs_with_driver; [typeclasses eauto .. | ledger_side]
    | apply dl_runs_sleep; ledger_side
    | apply dl_runs_head_or_raise
    | apply mark_event_keeps_ledger
    | apply make_download_folder_keeps_ledger
    | apply untrack_keeps_ledger
    | apply runs_modify; [typeclasses eauto .. | ledger_side | exact I]
    | progress unfold Downloader.get_window_handles, Downloader.driver_get,
        Downloader.click, Downloader.click_meeting, Downloader.close_and_go_back,
        Downloader.close_tab_if_open, Downloader.back_to_first_tab ].

Lemma close_expired_keeps_ledger (now : Z) (l : list Downloader.download_info) :
  runs ledger_kept (fun _ => True) (Downloader.close_expired now l).
Proof. induction l as [|i l IH]; simpl; dl_ledger_steps; exact IH. Qed.

Lemma start_download_keeps_ledger (v : Downloader.Visit)
    (video_url event_title event_number : string) (tab_handle : Tab) :
  runs ledger_kept (fun _ => True)
    (Downloader.start_download v video_url event_title event_number tab_handle).
Proof. unfold Downloader.start_download. dl_ledger_steps. ledger_side. Qed.

Lemma process_events_keeps_ledger (events : list Downloader.event_info) :
  forall i, runs ledger_kept (fun _ => True) (Downloader.process_events i events).
Proof.
  induction events as [|ev rest IH]; intros i; simpl;
    unfold Downloader.cleanup_old_download_tabs, Downloader.limit_open_tabs,
      Downloader.process_single_meeting; cbv zeta;
    dl_ledger_steps;
    first [ apply close_expired_keeps_ledger
          | apply start_download_keeps_ledger
          | apply IH
          | ledger_side ].
Qed.

Lemma run_download_scan_keeps_ledger (chrome_ok : bool) (site : Downloader.Site) :
  runs ledger_kept (fun _ => True) (Downloader.run_download_scan chrome_ok site).
Proof.
  unfold Downloader.run_download_scan, Downloader.init_driver, Downloader.scan_steps,
    Downloader.load_all_events, Downloader.wait_and_close_tabs,
    Downloader.close_remaining_tabs, Downloader.driver_quit.
  dl_ledger_steps; first [ ledger_side | apply process_events_keeps_ledger ].
Qed.

Lemma restarted_written (now : Z) (s : Downloader.State) :
  ledger_written s ->
  (forall id, id ∈ Downloader.downloaded_events s -> no_space id = true) ->
  Downloader.downloaded_events (restarted now s) = Downloader.downloaded_events s.
Proof.
  intros Hw Hids. unfold restarted, Downloader.load_downloaded_events. simpl.
  rewrite Hw. simpl.
  assert (Hmap : map strip (sorted String.leb (elements (Downloader.downloaded_events s)))
                 = sorted String.leb (elements (Downloader.downloaded_events s))).
  { rewrite <- (map_id (sorted _ _)) at 2. apply map_ext_in. intros id Hid.
    apply strip_no_space, Hids. apply elem_of_elements, list_elem_of_In.
    eapply Permutation_in; [apply sorted_Permutation | exact Hid]. }
  rewrite Hmap. apply set_eq. intros id.
  rewrite elem_of_list_to_set, (sorted_Permutation String.leb). apply elem_of_elements.
Qed.

(** X3.  What a scan has recorded is what a new downloader object loads
    from the disk afterwards: when the disk can be written, the ids in
    the set hold no white space and the file agreed with the set before
    the scan, it agrees with it after the scan. *)
Theorem download_ledger_survives_restart (chrome_ok : bool) (site : Downloader.Site)
    (s : Downloader.State) (now now' : Z) :
  can_write (Downloader.disk s) = true ->
  (forall id, id ∈ Downloader.downloaded_events s -> no_space id = true) ->
  Downloader.downloaded_events (restarted now s) = Downloader.downloaded_events s ->
  let s' := state_of (Downloader.run_download_scan chrome_ok site s) in
  Downloader.downloaded_events (restarted now' s') = Downloader.downloaded_events s'.
Proof.
  intros Hw Hids Hsync s'.
  pose proof (runs_keeps _ _ _ (run_download_scan_keeps_ledger chrome_ok site) s) as Hkept.
  pose proof (scan_adds_only_candidates chrome_ok site s) as Hadds.
  fold s' in Hkept, Hadds. destruct (Hkept Hw) as [_ [Hsame|Hwritten]].
  - unfold dl_ledger in Hsame. injection Hsame as HX Hf.
    rewrite HX, <- Hsync. unfold restarted, Downloader.load_downloaded_events. simpl.
    rewrite Hf. now destruct (downloaded_events_txt (Downloader.disk s)).
  - apply restarted_written; [exact Hwritten|].
    intros id Hid. apply Hadds, elem_of_union in Hid as [Hid|Hid]; [now apply Hids|].
    apply elem_of_list_to_set, list_elem_of_In, in_map_iff in Hid as [ev [<- Hev]].
    apply in_recent_events_of in Hev as [e [_ Hc]].
    apply candidate_number, first_digits_digits in Hc as [_ Hd].
    now apply digits_no_space.
Qed.

(** ** The history file across a restart *)

#[global] Instance history_kept_preorder : PreOrder history_kept.
Proof.
  split.
  - intros s Hw. split; [exact Hw | now left].
  - intros s1 s2 s3 H12 H23 Hw. destruct (H12 Hw) as [Hw2 H2]. destruct (H23 Hw2) as [Hw3 H3].
    split; [exact Hw3|]. destruct H3 as [H3|H3]; [|now right].
    destruct H2 as [H2|[t H2]]; [left; congruence|]. right.
    unfold history_written, up_ledger in *. injection H3 as HX Hf. exists t. now rewrite Hf, HX.
Qed.

Ltac history_side :=
  intros; unfold history_kept, up_ledger; simpl; intros Hw; split; [exact Hw | now left].

Lemma mark_as_uploaded_keeps_history (a : Uploader.Artifact) :
  keeps history_kept (Uploader.mark_as_uploaded a).
Proof.
  intros s.
  unfold Uploader.mark_as_uploaded, Uploader.save_upload_history, try_except, bind, modify, ret.
  simpl. destruct (can_write (Uploader.disk s)) eqn:Hw; simpl.
  - intros _. simpl. split; [exact Hw|]. right. eexists. reflexivity.
  - intros Hw'. congruence.
Qed.

Lemma untrack_keeps_history (i : Uploader.upload_info) :
  keeps history_kept (Uploader.untrack i).
Proof.
  intros s. unfold Uploader.untrack.
  destruct (list_remove i (Uploader.uploading_tabs s)); history_side.
Qed.

Ltac up_history_steps :=
  repeat first
    [ keeps_step
    | apply up_keeps_with_driver; [typeclasses eauto .. | history_side]
    | apply up_keeps_sleep; history_side
    | apply mark_as_uploaded_keeps_history
    | apply untrack_keeps_history
    | apply keeps_modify; history_side
    | progress unfold Uploader.get_window_handles, Uploader.head_or_raise,
        Uploader.driver_get, Uploader.wait_until, Uploader.act_on, Uploader.switch_to,
        Uploader.switch_back, Uploader.close_tab_if_open ].

Lemma up_close_expired_keeps_history (now : Z) (l : list Uploader.upload_info) :
  keeps history_kept (Uploader.close_expired now l).
Proof. induction l as [|i l IH]; simpl; up_history_steps; exact IH. Qed.

Lemma up_cleanup_keeps_history : keeps history_kept Uploader.cleanup_old_upload_tabs.
Proof.
  unfold Uploader.cleanup_old_upload_tabs. up_history_steps.
  apply up_close_expired_keeps_history.
Qed.

Lemma up_wait_keeps_history (rounds : nat) (max_concurrent : Z) :
  keeps history_kept (Uploader.wait_for_upload_slots rounds max_concurrent).
Proof.
  induction rounds as [|n IH]; intros s; simpl;
    destruct (max_concurrent <=? _); try reflexivity.
  apply (keeps_bind history_kept); [apply up_keeps_sleep; history_side | intros _].
  apply (keeps_bind history_kept); [apply up_cleanup_keeps_history | intros _; exact IH].
Qed.

Lemma act_on_first_keeps_history (p : Page) (timeout : Z) (selectors : list string) :
  keeps history_kept (Uploader.act_on_first p timeout selectors).
Proof. induction selectors as [|sel rest IH]; simpl; up_history_steps; exact IH. Qed.

Lemma select_by_dynamic_id_keeps_history (p : Page) (selectors : list string) :
  keeps history_kept (Uploader.select_by_dynamic_id p selectors).
Proof. induction selectors as [|sel rest IH]; simpl; up_history_steps; exact IH. Qed.

Lemma upload_file_keeps_history (v : Uploader.Visit) (a : Uploader.Artifact) :
  keeps history_kept (Uploader.upload_file v a).
Proof.
  unfold Uploader.upload_file, Uploader.select_file_store. cbv zeta. up_history_steps;
    first [ apply act_on_first_keeps_history
          | apply select_by_dynamic_id_keeps_history
          | history_side ].
Qed.

Lemma navigate_to_assets_keeps_history (v : Uploader.Visit) (keep_old_tab : bool) :
  keeps history_kept (Uploader.navigate_to_assets v keep_old_tab).
Proof. unfold Uploader.navigate_to_assets. up_history_steps; history_side. Qed.

Lemma upload_files_keeps_history (rounds : nat) (site : Uploader.Site)
    (l : list Uploader.Artifact) :
  forall i, keeps history_kept (Uploader.upload_files rounds site i l).
Proof.
  induction l as [|a rest IH]; intros i; simpl;
    unfold Uploader.limit_open_upload_tabs; up_history_steps;
    first [ apply up_wait_keeps_history
          | apply navigate_to_assets_keeps_history
          | apply upload_file_keeps_history
          | apply up_cleanup_keeps_history
          | apply IH
          | history_side ].
Qed.

Lemma final_cleanup_keeps_history (left : nat) :
  keeps history_kept (Uploader.final_cleanup left).
Proof.
  induction left as [|n IH]; simpl; up_history_steps;
    first [apply up_cleanup_keeps_history | exact IH].
Qed.

Lemma upload_session_keeps_history (rounds : nat) (chrome_ok : bool) (site : Uploader.Site) :
  keeps history_kept (Uploader.upload_session rounds chrome_ok site).
Proof.
  unfold Uploader.upload_session.
  up_history_steps;
    first [ apply upload_files_keeps_history
          | apply navigate_to_assets_keeps_history
          | apply final_cleanup_keeps_history
          | unfold Uploader.init_driver, Uploader.login_to_cablecast,
              Uploader.force_close_remaining, Uploader.driver_quit;
            up_history_steps; history_side ].
Qed.

Lemma set_of_members_strings (l : list string) :
  set_of_members (map JStr l) = inr (list_to_set l).
Proof. induction l as [|x l IH]; simpl; [reflexivity | now rewrite IH]. Qed.

Lemma uploader_restarted_written (now : Z) (u : Uploader.State) :
  history_written u ->
  Uploader.uploaded_files (uploader_restarted now u) = Uploader.uploaded_files u.
Proof.
  intros [t Hw]. unfold uploader_restarted, Uploader.load_upload_history,
    Uploader.read_upload_history, try_except, bind, get, ret. simpl.
  rewrite Hw. simpl.
  rewrite set_of_members_strings. simpl. apply list_to_set_elements_L.
Qed.

(** X4.  The uploader's history survives a restart: when the disk can be
    written and the history file agreed with the set before a session,
    a new uploader object loads after the session the set the session
    left, however the session went. *)
Theorem upload_history_survives_restart (rounds : nat) (chrome_ok : bool)
    (site : Uploader.Site) (u : Uploader.State) (now now' : Z) :
  can_write (Uploader.disk u) = true ->
  Uploader.uploaded_files (uploader_restarted now u) = Uploader.uploaded_files u ->
  let u' := state_of (Uploader.upload_session rounds chrome_ok site u) in
  Uploader.uploaded_files (uploader_restarted now' u') = Uploader.uploaded_files u'.
Proof.
  intros Hw Hsync u'.
  destruct (upload_session_keeps_history rounds chrome_ok site u Hw) as [_ [Hsame|Hwritten]].
  - fold u' in Hsame. unfold up_ledger in Hsame. injection Hsame as HX Hf.
    rewrite HX, <- Hsync.
    unfold uploader_restarted, Uploader.load_upload_history, Uploader.read_upload_history,
      try_except, bind, get. simpl. rewrite Hf.
    destruct (uploaded_files_json (Uploader.disk u)) as [[|j]|]; simpl; try reflexivity.
    destruct (json_get_or_empty _ j) as [e|v]; simpl; [reflexivity|].
    destruct (py_set v); reflexivity.
  - now apply uploader_restarted_written.
Qed.

(** ** What discovery returns *)

(** X5.  Discovery leaves out what the ledger holds: an event that
    [load_all_events] returns comes from an element of the page, its
    number is the first run of digits of that element's id, and the
    number is not among the downloaded events. *)
Theorem discovery_skips_downloaded (site : Downloader.Site) (s : Downloader.State)
    (recent_events : list Downloader.event_info) (ev : Downloader.event_info) :
  value_of (Downloader.load_all_events site s) = Some recent_events ->
  In ev recent_events ->
  In (Downloader.element ev) (Downloader.list_items site)
  /\ first_digits (Downloader.elem_id (Downloader.element ev))
     = Some (Downloader.event_number ev)
  /\ Downloader.event_number ev ∉ Downloader.downloaded_events s.
Proof.
  intros Hrun Hin. pose proof (dl_load_all_events_spec site s) as Hspec.
  destruct (Downloader.load_all_events site s) as [evs s'|e s'|s']; [|done|done].
  injection Hrun as ->. destruct Hspec as [-> _].
  apply in_recent_events_of in Hin as [e [He Hc]].
  pose proof (candidate_number _ _ _ _ Hc) as Hnum.
  apply candidate_spec in Hc as (Hel & Hnew & _). rewrite Hel.
  repeat split; assumption.
Qed.

Lemma discovery_skips_downloaded_witness :
  In (Downloader.element (event_of 1001 downloads))
     (Downloader.list_items (catalog [downloads]))
  /\ first_digits (Downloader.elem_id (Downloader.element (event_of 1001 downloads)))
     = Some (Downloader.event_number (event_of 1001 downloads))
  /\ Downloader.event_number (event_of 1001 downloads)
     ∉ Downloader.downloaded_events browser_open.
Proof.
  apply (discovery_skips_downloaded (catalog [downloads]) browser_open
           [event_of 1001 downloads]).
  - vm_compute. reflexivity.
  - left. reflexivity.
Defined.

Lemma map_get_or_absent (m : list (string * Z)) (name : string) (dflt : Z) :
  (forall k, In k (map fst m) -> k <> name) -> Downloader.map_get_or m name dflt = dflt.
Proof.
  induction m as [|[k v] m IH]; simpl; intros Hk; [reflexivity|].
  rewrite (proj2 (String.eqb_neq k name)) by (apply Hk; now left).
  apply IH. intros k' Hk'. apply Hk. now right.
Qed.

(** X6.  A month name that is not one of the twelve keys of [month_map], all
    of them upper-case abbreviations, counts as June: the element is
    returned exactly when it has a number that is not in the ledger and
    day [day] of June of its year exists and lies in the window. *)
Theorem unknown_month_counts_as_june (X : gset string) (now : datetime)
    (e : Downloader.ListItem) (dm : Downloader.DateMatch) :
  Downloader.date_match e = Some dm ->
  (forall k, In k (map fst Downloader.month_map) -> k <> Downloader.month_name dm) ->
  forall ev,
    (Downloader.candidate X now e = Some ev) <->
    (exists number,
      first_digits (Downloader.elem_id e) = Some number
      /\ (number ∉ X)
      /\ 1 <= Downloader.year dm <= 9999
      /\ 1 <= Downloader.day dm <= 30
      /\ now - timedelta_days 14
         <= ymd2ord (Downloader.year dm) 6 (Downloader.day dm) * 86400 <= now
      /\ ev = {| Downloader.element := e; Downloader.event_number := number;
                 Downloader.title := strip (Downloader.elem_text e);
                 Downloader.date :=
                   ymd2ord (Downloader.year dm) 6 (Downloader.day dm) * 86400 |}).
Proof.
  intros Hdm Hkeys ev. unfold Downloader.candidate. rewrite Hdm.
  rewrite (map_get_or_absent _ _ _ Hkeys).
  destruct (first_digits (Downloader.elem_id e)) as [number|];
    [|split; [done | intros (n & Hn & _); discriminate]].
  unfold datetime_ymd.
  change (days_in_month (Downloader.year dm) 6) with 30.
  case_bool_decide as Hin.
  { split; [done|]. intros (n & [= <-] & Hnew & _). contradiction. }
  destruct ((1 <=? Downloader.year dm) && (Downloader.year dm <=? 9999) && (1 <=? 6)
            && (6 <=? 12) && (1 <=? Downloader.day dm) && (Downloader.day dm <=? 30)) eqn:Hvalid.
  - rewrite !andb_true_iff, !Z.leb_le in Hvalid.
    destruct (_ && _) eqn:Hwin.
    + rewrite andb_true_iff, !Z.leb_le in Hwin. split.
      * intros [= <-]. exists number. repeat split; try done; lia.
      * intros (n & [= <-] & _ & _ & _ & _ & ->). reflexivity.
    + split; [done|]. intros (n & _ & _ & _ & _ & Hw & _).
      apply andb_false_iff in Hwin as [Hlo|Hhi]; [apply Z.leb_gt in Hlo|apply Z.leb_gt in Hhi]; lia.
  - split; [done|]. intros (n & _ & _ & Hy & Hd & _).
    assert (Hok : (1 <=? Downloader.year dm) && (Downloader.year dm <=? 9999) && (1 <=? 6)
                  && (6 <=? 12) && (1 <=? Downloader.day dm) && (Downloader.day dm <=? 30)
                  = true)
      by (rewrite !andb_true_iff, !Z.leb_le; lia).
    congruence.
Qed.

(** ** The effect of [process_single_meeting] *)

Section DownloaderAt.
Variables (H : list Tab) (c : Tab) (T : list Downloader.download_info) (n : Tab).
Variables (X : gset string) (w : bool).
Variable E : Downloader.State -> Prop.

Lemma downloader_at_set_driver (H' : list Tab) (c' : Tab) (s : Downloader.State) :
  downloader_at H c T n X w s ->
  downloader_at H' c' T n X w
    (Downloader.set_driver (Some {| window_handles := H'; current := c' |}) s).
Proof. intros ((_ & Ht & Hn) & HX & Hw). repeat split; assumption. Qed.

Lemma da_with_driver {A} (f : Driver -> exn + (A * Driver))
    (Q : A -> Downloader.State -> Prop) :
  (forall s, downloader_at H c T n X w s ->
     match f {| window_handles := H; current := c |} with
     | inl _ => E s
     | inr (a, d') => Q a (Downloader.set_driver (Some d') s)
     end) ->
  triple (downloader_at H c T n X w) (Downloader.with_driver f) Q E.
Proof.
  intros Hf s Hs. specialize (Hf s Hs). destruct Hs as ((Hd & _ & _) & _ & _).
  unfold Downloader.with_driver. rewrite Hd.
  destruct (f _) as [e|[a d']]; exact Hf.
Qed.

Lemma da_handles :
  triple (downloader_at H c T n X w) Downloader.get_window_handles
    (fun v s => v = H /\ downloader_at H c T n X w s) E.
Proof.
  apply da_with_driver. intros s Hs. simpl. split; [reflexivity|].
  now apply downloader_at_set_driver.
Qed.

Lemma da_current :
  c ∈ H ->
  triple (downloader_at H c T n X w) (Downloader.with_driver drv_current)
    (fun v s => v = c /\ downloader_at H c T n X w s) E.
Proof.
  intros Hc. apply da_with_driver. intros s Hs. unfold drv_current, is_open. simpl.
  rewrite bool_decide_eq_true_2 by exact Hc.
  split; [reflexivity|]. now apply downloader_at_set_driver.
Qed.

Lemma da_switch (h : Tab) :
  h ∈ H ->
  triple (downloader_at H c T n X w) (Downloader.with_driver (drv_switch h))
    (fun _ => downloader_at H h T n X w) E.
Proof.
  intros Hh. apply da_with_driver. intros s Hs. unfold drv_switch, is_open. simpl.
  rewrite bool_decide_eq_true_2 by exact Hh. now apply downloader_at_set_driver.
Qed.

Lemma da_close :
  c ∈ H ->
  triple (downloader_at H c T n X w) (Downloader.with_driver drv_close)
    (fun _ => downloader_at (filter (fun h => h ≠ c) H) c T n X w) E.
Proof.
  intros Hc. apply da_with_driver. intros s Hs. unfold drv_close, is_open. simpl.
  rewrite bool_decide_eq_true_2 by exact Hc. now apply downloader_at_set_driver.
Qed.

Lemma da_noop :
  triple (downloader_at H c T n X w) (Downloader.with_driver (fun d => inr (tt, d)))
    (fun _ => downloader_at H c T n X w) E.
Proof. apply da_with_driver. intros s Hs. now apply downloader_at_set_driver. Qed.

Lemma da_fails {A} (f : Driver -> exn + (A * Driver)) (e : exn)
    (Q : A -> Downloader.State -> Prop) :
  f {| window_handles := H; current := c |} = inl e ->
  (forall s, downloader_at H c T n X w s -> E s) ->
  triple (downloader_at H c T n X w) (Downloader.with_driver f) Q E.
Proof. intros Hf HE. apply da_with_driver. intros s Hs. rewrite Hf. now apply HE. Qed.

Lemma da_sleep (k : Z) :
  triple (downloader_at H c T n X w) (Downloader.sleep k)
    (fun _ => downloader_at H c T n X w) E.
Proof. intros s Hs. exact Hs. Qed.

Lemma da_gets {A} (f : Downloader.State -> A) :
  triple (downloader_at H c T n X w) (gets f) (fun _ => downloader_at H c T n X w) E.
Proof. intros s Hs. exact Hs. Qed.

Lemma da_open_tab :
  triple (downloader_at H c T n X w)
    (h <- gets Downloader.next_tab ;;
     Downloader.with_driver (fun d => inr (tt, drv_open h d)) ;;;
     modify (fun s => Downloader.set_next_tab (S h) s))
    (fun _ => downloader_at (H ++ [n]) c T (S n) X w) E.
Proof.
  intros s ((Hd & Ht & Hn) & HX & Hw).
  unfold bind, gets, Downloader.with_driver, modify. rewrite Hd. simpl.
  rewrite Hn. repeat split; assumption.
Qed.

Lemma da_append (e : Downloader.download_info) :
  triple (downloader_at H c T n X w)
    (modify (fun s => Downloader.set_downloading_tabs
                        (Downloader.downloading_tabs s ++ [e]) s))
    (fun _ => downloader_at H c (T ++ [e]) n X w) E.
Proof.
  intros s ((Hd & Ht & Hn) & HX & Hw). repeat split; simpl; try assumption. now rewrite Ht.
Qed.

Lemma da_mark_event_as_downloaded (id : string) :
  triple (downloader_at H c T n X w) (Downloader.mark_event_as_downloaded id)
    (fun _ => downloader_at H c T n ({[ id ]} ∪ X) w) E.
Proof.
  intros s ((Hd & Ht & Hn) & HX & Hw).
  unfold Downloader.mark_event_as_downloaded, Downloader.save_downloaded_events,
    Downloader.write_downloaded_file, try_except, bind, modify, get, ret. simpl.
  rewrite Hw. destruct w; simpl; repeat split; try assumption; now rewrite HX.
Qed.

Lemma da_make_download_folder (name : string) (info : File) :
  (w = false -> forall s, downloader_at H c T n X w s -> E s) ->
  triple (downloader_at H c T n X w) (Downloader.make_download_folder name info)
    (fun _ s => w = true /\ downloader_at H c T n X w s) E.
Proof.
  intros HE s Hs. pose proof Hs as ((Hd & Ht & Hn) & HX & Hw).
  unfold Downloader.make_download_folder. rewrite Hw. destruct w.
  - split; [reflexivity|]. repeat split; assumption.
  - now apply HE.
Qed.

End DownloaderAt.

Section DownloaderAtPass.
Variables (H : list Tab) (c : Tab) (T : list Downloader.download_info) (n : Tab).
Variables (X : gset string) (w : bool).
Variable E : Downloader.State -> Prop.

Lemma da_pass (b : bool) (e : exn) :
  (b = false -> forall s, downloader_at H c T n X w s -> E s) ->
  triple (downloader_at H c T n X w)
    (Downloader.with_driver (fun d => if b then inr (tt, d) else inl e))
    (fun _ s => b = true /\ downloader_at H c T n X w s) E.
Proof.
  intros HE. apply da_with_driver. intros s Hs. destruct b.
  - split; [reflexivity|]. now apply (downloader_at_set_driver H c).
  - now apply HE.
Qed.

End DownloaderAtPass.

Lemma start_download_effect (v : Downloader.Visit) (video_url event_title event_number : string)
    (t : Tab) (H : list Tab) (c : Tab) (T : list Downloader.download_info) (n : Tab)
    (X : gset string) (w : bool) (h0 : Tab) (rest : list Tab) :
  List.filter (fun x => negb (Nat.eqb x t)) H = h0 :: rest ->
  triple (downloader_at H c T n X w)
    (Downloader.start_download v video_url event_title event_number t)
    (fun b s =>
       b = download_clicked v && Downloader.cdp_ok v && w
       /\ if b
          then exists e, Downloader.tab e = t
                 /\ Downloader.dl_event_number e = event_number
                 /\ downloader_at H h0 (T ++ [e]) n ({[ event_number ]} ∪ X) w s
          else downloader_at H c T n X w s)
    (fun _ => False).
Proof.
  intros Hother.
  assert (Hh0 : h0 ∈ H).
  { assert (Hin : In h0 (List.filter (fun x => negb (Nat.eqb x t)) H))
      by (rewrite Hother; left; reflexivity).
    apply filter_In in Hin as [Hin _]. now apply list_elem_of_In. }
  unfold Downloader.start_download.
  apply triple_try_except
    with (E1 := fun s => download_clicked v && Downloader.cdp_ok v && w = false
                         /\ downloader_at H c T n X w s).
  2:{ intros _. apply triple_ret. intros s [Hb Hs]. rewrite Hb. split; [reflexivity | exact Hs]. }
  unfold download_clicked.
  destruct (Downloader.video_page v) as [page|].
  2:{ eapply triple_bind with (Q1 := fun _ _ => False); [|intros ? ? []].
      eapply triple_bind with (Q1 := fun _ _ => False); [|intros ? ? []].
      apply (da_fails _ _ _ _ _ _ _ _ WebDriverException); [reflexivity|].
      intros s Hs. split; [reflexivity | exact Hs]. }
  eapply triple_bind with (Q1 := fun p s => p = page /\ downloader_at H c T n X w s).
  { eapply triple_bind; [apply da_noop | intros ?].
    apply triple_ret. intros s Hs. split; [reflexivity | exact Hs]. }
  intros ?. apply triple_pure. intros ->.
  eapply triple_bind; [apply da_sleep | intros ?].
  destruct (match pg_query page Downloader.topic_selector with
            | Some name_element => _
            | None => _
            end) as [meeting_name meeting_date].
  eapply triple_bind; [apply da_gets | intros now].
  eapply triple_bind.
  { apply da_make_download_folder. intros -> s Hs.
    split; [now rewrite !andb_false_r | exact Hs]. }
  intros ?. apply triple_pure. intros ->.
  eapply triple_bind.
  { apply da_pass. intros -> s Hs. split; [now rewrite andb_false_r | exact Hs]. }
  intros ?. apply triple_pure. intros ->.
  destruct (first_found page Downloader.download_selectors) as [download_button|].
  2:{ apply triple_ret. intros s Hs. split; [reflexivity | exact Hs]. }
  eapply triple_bind.
  { apply da_pass. intros -> s Hs. split; [reflexivity | exact Hs]. }
  intros ?. apply triple_pure. intros ->.
  eapply triple_bind; [apply da_gets | intros started].
  eapply triple_bind; [apply da_append | intros ?].
  eapply triple_bind; [apply da_mark_event_as_downloaded | intros ?].
  eapply triple_bind; [apply da_handles | intros handles].
  apply triple_pure. intros ->. rewrite Hother. simpl.
  apply triple_bind_ret.
  eapply triple_bind; [apply da_switch; exact Hh0 | intros ?].
  apply triple_ret. intros s Hs. split; [reflexivity|].
  eexists. split; [|split]; [| |exact Hs]; reflexivity.
Qed.

Section OneMeetingEffect.
Variables (H : list Tab) (T : list Downloader.download_info) (n c : Tab).
Variables (X : gset string) (w : bool).
Hypothesis Hfresh : forall h, h ∈ H -> (h < n)%nat.
Hypothesis Hc : c ∈ H.

Lemma close_and_go_back_effect :
  triple (downloader_at (H ++ [n]) n T (S n) X w)
    (Downloader.close_and_go_back c ;;; ret false)
    (fun b s => b = false /\ downloader_at H c T (S n) X w s)
    (fun _ => False).
Proof.
  unfold Downloader.close_and_go_back.
  eapply triple_bind; [|intros ?; apply triple_ret; intros s Hs; split; [reflexivity | exact Hs]].
  eapply triple_bind; [apply da_close; apply elem_of_app; right; left | intros ?].
  rewrite close_new_tab by exact Hfresh.
  apply da_switch. exact Hc.
Qed.

Ltac goes_back :=
  eapply triple_weaken;
    [ apply close_and_go_back_effect
    | intros s Hs; exact Hs
    | intros b s [-> Hs]; split; [simpl; rewrite ?andb_false_r; reflexivity | exact Hs]
    | intros s [] ].

Lemma process_single_meeting_at_exact (ev : Downloader.event_info) :
  let v := Downloader.on_click (Downloader.element ev) in
  triple (downloader_at H c T n X w) (Downloader.process_single_meeting ev)
    (fun b s =>
       b = downloadable v && w
       /\ if b
          then exists e, Downloader.tab e = n
                 /\ Downloader.dl_event_number e = Downloader.event_number ev
                 /\ downloader_at (H ++ [n]) (hd c H) (T ++ [e]) (S n)
                      ({[ Downloader.event_number ev ]} ∪ X) w s
          else downloader_at H c T (if Downloader.opens_tab v then S n else n) X w s)
    (fun _ => False).
Proof.
  intros v. unfold Downloader.process_single_meeting. cbv zeta. fold v.
  eapply triple_bind;
    [apply (triple_get _ (fun _ => downloader_at H c T n X w)); auto | intros s0].
  apply triple_try_except with (E1 := fun _ => False); [|intros _ s []].
  eapply triple_bind; [apply da_current; exact Hc | intros main].
  apply triple_pure. intros ->.
  eapply triple_bind; [apply da_handles | intros original_tabs].
  apply triple_pure. intros ->.
  unfold Downloader.click_meeting, downloadable, no_media.
  destruct (Downloader.opens_tab v).
  2:{ eapply triple_bind; [apply da_noop | intros ?].
      eapply triple_bind; [apply da_sleep | intros ?].
      eapply triple_bind; [apply da_handles | intros new_tabs].
      apply triple_pure. intros ->.
      rewrite Nat.ltb_irrefl. apply triple_ret. intros s Hs. split; [reflexivity | exact Hs]. }
  eapply triple_bind; [apply da_open_tab | intros ?].
  eapply triple_bind; [apply da_sleep | intros ?].
  eapply triple_bind; [apply da_handles | intros new_tabs].
  apply triple_pure. intros ->.
  replace (length H <? length (H ++ [n]))%nat with true
    by (symmetry; apply Nat.ltb_lt; rewrite length_app; simpl; lia).
  rewrite filter_new_tab by exact Hfresh.
  change (Downloader.head_or_raise [n]) with (@ret Downloader.State _ n).
  apply triple_bind_ret.
  eapply triple_bind; [apply da_switch; apply elem_of_app; right; left | intros ?].
  destruct (str_in _ _); [|goes_back].
  destruct (first_found (Downloader.meeting_page v) Downloader.media_selectors)
    as [media_button|]; [|goes_back].
  eapply triple_bind; [apply da_sleep | intros ?].
  destruct (truthy _); [|goes_back].
  assert (HH : exists h0 rest, H = h0 :: rest).
  { clear - Hc. destruct H as [|h0 rest]; [inversion Hc|]. now exists h0, rest. }
  destruct HH as (h0 & rest & HH).
  eapply triple_bind.
  { apply (start_download_effect _ _ _ _ n (H ++ [n]) n T (S n) X w h0 rest).
    rewrite filter_other_tabs by exact Hfresh. exact HH. }
  intros b. apply triple_pure. intros ->.
  change (true && true && negb (negb true) && download_clicked v && Downloader.cdp_ok v && w)
    with (download_clicked v && Downloader.cdp_ok v && w).
  destruct (download_clicked v && Downloader.cdp_ok v && w) eqn:Hb.
  - apply triple_ret. intros s (e & He & Hnum & Hs). split; [reflexivity|].
    exists e. split; [exact He|]. split; [exact Hnum|].
    replace (hd c H) with h0 by (clear - HH; now rewrite HH). exact Hs.
  - eapply triple_weaken; [apply close_and_go_back_effect | | |].
    + intros s Hs; exact Hs.
    + intros b s [-> Hs]. split; [reflexivity | exact Hs].
    + intros s [].
Qed.

End OneMeetingEffect.

(** X7.  [process_single_meeting], started in a browser that is on an open
    tab, returns [True] exactly for a meeting that can be downloaded
    when the disk can be written.  It then leaves the new tab open,
    tracked by one new entry at the end of the list, the browser on its
    first tab, and the event in the ledger.  When it returns [False],
    the browser shows the tabs it showed and is on the tab it was on,
    and the list and the ledger are as they were. *)
Theorem process_single_meeting_effect (ev : Downloader.event_info) (s : Downloader.State)
    (d : Driver) :
  Downloader.driver s = Some d ->
  current d ∈ window_handles d ->
  (forall h, h ∈ window_handles d -> (h < Downloader.next_tab s)%nat) ->
  let success :=
    downloadable (Downloader.on_click (Downloader.element ev))
    && can_write (Downloader.disk s) in
  exists s',
    Downloader.process_single_meeting ev s = Ok success s'
    /\ if success
       then exists e,
              Downloader.tab e = Downloader.next_tab s
              /\ Downloader.dl_event_number e = Downloader.event_number ev
              /\ Downloader.downloading_tabs s' = Downloader.downloading_tabs s ++ [e]
              /\ Downloader.driver s'
                 = Some {| window_handles := window_handles d ++ [Downloader.next_tab s];
                           current := hd (current d) (window_handles d) |}
              /\ Downloader.downloaded_events s'
                 = {[ Downloader.event_number ev ]} ∪ Downloader.downloaded_events s
       else Downloader.downloading_tabs s' = Downloader.downloading_tabs s
            /\ Downloader.driver s' = Some d
            /\ Downloader.downloaded_events s' = Downloader.downloaded_events s.
Proof.
  intros Hd Hc Hfresh success.
  pose proof (process_single_meeting_at_exact (window_handles d) (Downloader.downloading_tabs s)
                (Downloader.next_tab s) (current d) (Downloader.downloaded_events s)
                (can_write (Downloader.disk s)) Hfresh Hc ev s) as Hrun.
  assert (Hs : downloader_at (window_handles d) (current d) (Downloader.downloading_tabs s)
                 (Downloader.next_tab s) (Downloader.downloaded_events s)
                 (can_write (Downloader.disk s)) s)
    by (destruct d; repeat split; exact Hd).
  specialize (Hrun Hs). fold success in Hrun.
  destruct (Downloader.process_single_meeting ev s) as [b s'|e s'|s']; try contradiction.
  destruct Hrun as [-> Hrun]. exists s'. split; [reflexivity|].
  destruct success.
  - destruct Hrun as (e & He & Hnum & (Hd' & Ht' & _) & HX' & _).
    exists e. repeat split; assumption.
  - destruct Hrun as ((Hd' & Ht' & _) & HX' & _). destruct d. repeat split; assumption.
Qed.

Lemma process_single_meeting_effect_witness :
  exists s',
    Downloader.process_single_meeting (event_of 1001 downloads) browser_open = Ok true s'
    /\ exists e,
         Downloader.tab e = 1%nat
         /\ Downloader.dl_event_number e = "1001"%string
         /\ Downloader.downloading_tabs s' = [e]
         /\ Downloader.driver s' = Some {| window_handles := [0; 1]%nat; current := 0%nat |}
         /\ Downloader.downloaded_events s' = {[ "1001"%string ]} ∪ ∅.
Proof.
  apply (process_single_meeting_effect (event_of 1001 downloads) browser_open
           {| window_handles := [0%nat]; current := 0%nat |}).
  - reflexivity.
  - simpl. left.
  - intros h Hh. apply list_elem_of_singleton in Hh. subst h. simpl. lia.
Defined.

Lemma download_ledger_survives_restart_witness :
  let s' := state_of (Downloader.run_download_scan true (catalog [downloads])
                        (Downloader.init t0 empty_disk)) in
  Downloader.downloaded_events (restarted t0 s') = Downloader.downloaded_events s'.
Proof.
  apply (download_ledger_survives_restart true (catalog [downloads])
           (Downloader.init t0 empty_disk) t0 t0).
  - reflexivity.
  - intros id Hid. simpl in Hid. set_solver.
  - reflexivity.
Defined.

Lemma upload_history_survives_restart_witness :
  let u' := state_of (Uploader.upload_session 10 true upload_site
                        (Uploader.init 1360 disk_with_stable_file)) in
  Uploader.uploaded_files (uploader_restarted 1360 u') = Uploader.uploaded_files u'.
Proof.
  apply (upload_history_survives_restart 10 true upload_site
           (Uploader.init 1360 disk_with_stable_file) 1360 1360).
  - reflexivity.
  - reflexivity.
Defined.

Lemma unknown_month_counts_as_june_witness :
  Downloader.candidate ∅ t0 mixed_case_item = Some (event_of 1003 downloads) <->
  (exists number,
      first_digits "listItemText-1003" = Some number
      /\ (number ∉ (∅ : gset string))
      /\ 1 <= 2025 <= 9999
      /\ 1 <= 14 <= 30
      /\ t0 - timedelta_days 14 <= ymd2ord 2025 6 14 * 86400 <= t0
      /\ event_of 1003 downloads
         = {| Downloader.element := mixed_case_item; Downloader.event_number := number;
              Downloader.title := strip "Select Board Monday Jul 14, 2025";
              Downloader.date := ymd2ord 2025 6 14 * 86400 |}).
Proof.
  apply (unknown_month_counts_as_june ∅ t0 mixed_case_item
           {| Downloader.month_name := "Jul"; Downloader.day := 14;
              Downloader.year := 2025 |}).
  - reflexivity.
  - intros k Hk. vm_compute in Hk.
    repeat (destruct Hk as [<-|Hk]; [discriminate|]). contradiction.
Defined.

(** ** What a scan records *)

Lemma bind_ends {S A B} (c : M S A) (k : A -> M S B) (Q : S -> Prop) :
  (forall a s b s', k a s = Ok b s' -> Q s') ->
  forall s b s', bind c k s = Ok b s' -> Q s'.
Proof.
  intros Hk s b s'. unfold bind. destruct (c s) as [a s1|e s1|s1]; [apply Hk | done | done].
Qed.

Lemma back_to_first_tab_on_first (s : Downloader.State) (b : unit) (s' : Downloader.State) :
  Downloader.back_to_first_tab s = Ok b s' -> on_first_tab s'.
Proof.
  unfold Downloader.back_to_first_tab, try_except, bind, Downloader.with_driver, ret.
  destruct (Downloader.driver s) as [d|] eqn:Hd; simpl.
  - unfold drv_first. destruct (window_handles d) as [|h hs] eqn:Hh; simpl.
    + intros [= <- <-] d' Hd' Hne. rewrite Hd in Hd'. injection Hd' as <-. contradiction.
    + unfold drv_switch, is_open. rewrite Hh.
      rewrite bool_decide_eq_true_2 by left. simpl.
      intros [= <- <-] d' Hd' _. simpl in Hd'. injection Hd' as <-. simpl. left.
  - intros [= <- <-] d' Hd'. congruence.
Qed.

Lemma in_order_on_first (s : Downloader.State) :
  tabs_in_order s -> on_first_tab s -> on_open_tab s.
Proof.
  intros (d & m & Hd & _ & _ & _ & Hm & _) Hfirst. exists d. split; [exact Hd|].
  apply (Hfirst d Hd). intros Hnil. rewrite Hnil in Hm. inversion Hm.
Qed.

Ltac frame_side :=
  intros; unfold same, ledger_and_disk; simpl; reflexivity.

Lemma untrack_keeps_frame (i : Downloader.download_info) :
  runs (same ledger_and_disk) (fun _ => True) (Downloader.untrack i).
Proof.
  intros s. unfold Downloader.untrack.
  destruct (list_remove i (Downloader.downloading_tabs s)); [split; [|exact I]|]; frame_side.
Qed.

Ltac dl_frame :=
  repeat first
    [ runs_step
    | apply dl_runs_with_driver; [typeclasses eauto .. | frame_side]
    | apply dl_runs_sleep; frame_side
    | apply dl_runs_head_or_raise
    | apply untrack_keeps_frame
    | apply runs_modify; [typeclasses eauto .. | frame_side | exact I]
    | progress unfold Downloader.get_window_handles, Downloader.driver_get,
        Downloader.click, Downloader.click_meeting, Downloader.close_and_go_back,
        Downloader.close_tab_if_open, Downloader.back_to_first_tab ].

Lemma close_expired_keeps_frame (now : Z) (l : list Downloader.download_info) :
  runs (same ledger_and_disk) (fun _ => True) (Downloader.close_expired now l).
Proof. induction l as [|i l IH]; simpl; dl_frame; exact IH. Qed.

Lemma cleanup_keeps_frame :
  runs (same ledger_and_disk) (fun _ => True) Downloader.cleanup_old_download_tabs.
Proof.
  unfold Downloader.cleanup_old_download_tabs. dl_frame. apply close_expired_keeps_frame.
Qed.

Lemma limit_keeps_frame :
  runs (same ledger_and_disk) (fun _ => True) Downloader.limit_open_tabs.
Proof. unfold Downloader.limit_open_tabs. dl_frame. Qed.

Lemma wait_and_close_tabs_keeps_frame :
  runs (same ledger_and_disk) (fun _ => True) Downloader.wait_and_close_tabs.
Proof.
  unfold Downloader.wait_and_close_tabs, Downloader.close_remaining_tabs. dl_frame.
Qed.

Lemma driver_quit_keeps_frame :
  runs (same ledger_and_disk) (fun _ => True)
    (try_except Downloader.driver_quit (fun _ => ret tt)).
Proof. unfold Downloader.driver_quit. dl_frame. Qed.

Lemma cleanup_ready (X : gset string) (s : Downloader.State) :
  ready X s ->
  exists s', Downloader.cleanup_old_download_tabs s = Ok tt s' /\ ready X s'.
Proof.
  intros (Hord & _ & Hframe).
  destruct (cleanup_in_order s Hord) as (s' & Hrun & Hord' & _).
  exists s'. split; [exact Hrun|]. split; [exact Hord'|]. split.
  - apply in_order_on_first; [exact Hord'|].
    revert Hrun. unfold Downloader.cleanup_old_download_tabs.
    repeat (apply bind_ends; intros ?). apply back_to_first_tab_on_first.
  - pose proof (runs_keeps _ _ _ cleanup_keeps_frame s) as Hsame.
    rewrite Hrun in Hsame. unfold same in Hsame. simpl in Hsame. congruence.
Qed.

Lemma limit_ready (X : gset string) (s : Downloader.State) :
  ready X s ->
  exists s', Downloader.limit_open_tabs s = Ok tt s' /\ ready X s'.
Proof.
  intros (Hord & (d & Hd & Hc) & Hframe).
  destruct (limit_open_tabs_in_order s Hord) as (s' & Hrun & Hord' & _).
  exists s'. split; [exact Hrun|]. split; [exact Hord'|]. split.
  - revert Hrun.
    unfold Downloader.limit_open_tabs, bind at 1, Downloader.get_window_handles,
      Downloader.with_driver. rewrite Hd. simpl.
    assert (Hid : Downloader.set_driver (Some d) s = s)
      by (rewrite <- Hd; apply dl_set_driver_id).
    rewrite Hid.
    destruct (10 <? length (window_handles d))%nat.
    + intros Hrun. apply in_order_on_first; [exact Hord'|].
      revert Hrun. repeat (apply bind_ends; intros ?). apply back_to_first_tab_on_first.
    + intros [= <-]. now exists d.
  - pose proof (runs_keeps _ _ _ limit_keeps_frame s) as Hsame.
    rewrite Hrun in Hsame. unfold same in Hsame. simpl in Hsame. congruence.
Qed.

Lemma process_single_meeting_ready (X : gset string) (ev : Downloader.event_info)
    (s : Downloader.State) :
  ready X s ->
  exists b s',
    Downloader.process_single_meeting ev s = Ok b s'
    /\ ready ((if downloadable (Downloader.on_click (Downloader.element ev))
               then {[ Downloader.event_number ev ]} else ∅) ∪ X) s'.
Proof.
  intros (Hord & (d & Hd & Hc) & Hframe).
  destruct (process_single_meeting_in_order ev s Hord) as (b & s' & Hrun & Hord' & _).
  exists b, s'. split; [exact Hrun|]. split; [exact Hord'|].
  pose proof Hord as (d0 & m & Hd0 & _ & _ & Hfresh & _).
  rewrite Hd in Hd0. injection Hd0 as <-.
  injection Hframe as HX Hw.
  pose proof (process_single_meeting_at_exact (window_handles d) (Downloader.downloading_tabs s)
                (Downloader.next_tab s) (current d) X true Hfresh Hc ev s) as Hexact.
  rewrite Hrun in Hexact. rewrite andb_true_r in Hexact.
  destruct Hexact as [-> Hexact].
  { destruct d. repeat split; assumption. }
  destruct (downloadable _).
  - destruct Hexact as (e & _ & _ & (Hd' & _ & _) & HX' & Hw'). split.
    + eexists. split; [exact Hd'|]. simpl. apply elem_of_app. left.
      destruct (window_handles d) as [|h0 rest]; [inversion Hc | left].
    + unfold ledger_and_disk. now rewrite HX', Hw'.
  - destruct Hexact as ((Hd' & _ & _) & HX' & Hw'). split.
    + eexists. split; [exact Hd'|]. exact Hc.
    + unfold ledger_and_disk. rewrite HX', Hw'. f_equal. set_solver.
Qed.

Lemma downloadable_numbers_cons (ev : Downloader.event_info)
    (rest : list Downloader.event_info) (X : gset string) :
  downloadable_numbers rest
    ∪ ((if downloadable (Downloader.on_click (Downloader.element ev))
        then {[ Downloader.event_number ev ]} else ∅) ∪ X)
  = downloadable_numbers (ev :: rest) ∪ X.
Proof.
  unfold downloadable_numbers. simpl.
  destruct (downloadable _); simpl; set_solver.
Qed.

Lemma ready_set_clock (X : gset string) (s : Downloader.State) (t : Z) :
  ready X s -> ready X (Downloader.set_clock t s).
Proof.
  intros (Hord & (d & Hd & Hc) & Hframe). split; [now apply in_order_set_clock|].
  split; [now exists d | exact Hframe].
Qed.

Lemma process_events_records (events : list Downloader.event_info) :
  forall i s X,
    ready X s ->
    exists s',
      Downloader.process_events i events s = Ok tt s'
      /\ ready (downloadable_numbers events ∪ X) s'.
Proof.
  induction events as [|ev rest IH]; intros i s X Hs; simpl.
  - exists s. split; [reflexivity|].
    replace (downloadable_numbers [] ∪ X) with X by (unfold downloadable_numbers; set_solver).
    exact Hs.
  - assert (Hclean : exists s1,
              (if i mod 10 =? 0 then Downloader.cleanup_old_download_tabs else ret tt) s
              = Ok tt s1 /\ ready X s1).
    { destruct (i mod 10 =? 0); [now apply cleanup_ready | now exists s]. }
    destruct Hclean as (s1 & Hrun1 & Hs1).
    unfold bind at 1. rewrite Hrun1.
    destruct (limit_ready X s1 Hs1) as (s2 & Hrun2 & Hs2).
    unfold bind at 1. rewrite Hrun2.
    destruct (process_single_meeting_ready X ev s2 Hs2) as (b & s3 & Hrun3 & Hs3).
    unfold bind at 1. rewrite Hrun3.
    unfold bind at 1. simpl.
    rewrite <- downloadable_numbers_cons.
    apply IH. now apply ready_set_clock.
Qed.

Lemma load_all_events_keeps_frame (site : Downloader.Site) :
  runs (same ledger_and_disk) (fun _ => True) (Downloader.load_all_events site).
Proof. unfold Downloader.load_all_events. dl_frame. Qed.

Lemma load_all_events_reachable (site : Downloader.Site) (s : Downloader.State) (d : Driver) :
  Downloader.driver s = Some d ->
  match Downloader.load_all_events site s with
  | Ok _ _ => Downloader.reachable site = true
  | Raised _ _ => Downloader.reachable site = false
  | Unfinished _ => False
  end.
Proof.
  intros Hd.
  unfold Downloader.load_all_events, Downloader.driver_get, Downloader.with_driver, bind, get, ret.
  rewrite Hd. destruct (Downloader.reachable site); [|reflexivity].
  destruct (Downloader.scroll_wrap site); reflexivity.
Qed.

Lemma scan_steps_records (site : Downloader.Site) (h : Tab) (s : Downloader.State)
    (X : gset string) :
  browser_at [h] h [] (S h) s ->
  ledger_and_disk s = (X, true) ->
  Downloader.downloaded_events (state_of (Downloader.scan_steps site s))
  = (if Downloader.reachable site
     then downloadable_numbers
            (Downloader.recent_events_of (Downloader.list_items site) X (discovery_time site s))
     else ∅) ∪ X.
Proof.
  intros Hat Hframe.
  pose proof (load_all_events_at site [h] h [] (S h) s Hat) as Hload.
  pose proof (dl_load_all_events_spec site s) as Hspec.
  pose proof (runs_keeps _ _ _ (load_all_events_keeps_frame site) s) as Hsame.
  pose proof (load_all_events_reachable site s _ (proj1 Hat)) as Hreach.
  injection Hframe as HX Hw. rewrite HX in Hspec.
  unfold Downloader.scan_steps, bind at 1.
  destruct (Downloader.load_all_events site s) as [events s2|e s2|s2]; simpl;
    [| |contradiction].
  - rewrite Hreach. destruct Hspec as [<- HX2].
    assert (Hready : ready X s2).
    { split; [|split].
      - apply (browser_at_in_order [h] h [] (S h) h); try assumption.
        + constructor.
        + intros i Hi. inversion Hi.
        + intros x Hx. apply list_elem_of_singleton in Hx. lia.
        + left.
        + apply not_elem_of_nil.
      - eexists. split; [exact (proj1 Hload) | left].
      - unfold same in Hsame. simpl in Hsame. rewrite Hsame.
        unfold ledger_and_disk. now rewrite HX, Hw. }
    destruct events as [|ev rest].
    + simpl. unfold downloadable_numbers. simpl. rewrite HX2. set_solver.
    + destruct (process_events_records (ev :: rest) 1 s2 X Hready) as (s3 & Hrun & Hs3).
      unfold bind. rewrite Hrun.
      pose proof (runs_keeps _ _ _ wait_and_close_tabs_keeps_frame s3) as Hw3.
      destruct Hs3 as (_ & _ & Hf3). unfold same in Hw3. rewrite Hf3 in Hw3.
      now injection Hw3.
  - rewrite Hreach, Hspec. set_solver.
Qed.

(** X8.  When a scan ends, the ledger of a downloader that started it with
    no tracked tab and a disk that can be written holds what it held
    and the numbers of the events that discovery returned and that
    could be downloaded, and nothing else.  A catalog that does not
    load adds nothing. *)
Theorem scan_records_downloadable (site : Downloader.Site) (s : Downloader.State) :
  Downloader.downloading_tabs s = [] ->
  can_write (Downloader.disk s) = true ->
  Downloader.downloaded_events (state_of (Downloader.run_download_scan true site s))
  = (if Downloader.reachable site
     then downloadable_numbers
            (Downloader.recent_events_of (Downloader.list_items site)
               (Downloader.downloaded_events s) (discovery_time site s))
     else ∅) ∪ Downloader.downloaded_events s.
Proof.
  intros Hnone Hw. unfold Downloader.run_download_scan, Downloader.init_driver.
  unfold bind at 1, bind at 1, bind at 1, gets, modify, ret.
  set (h := Downloader.next_tab s).
  set (s1 := Downloader.set_next_tab (S h) _).
  assert (Hat : browser_at [h] h [] (S h) s1) by (repeat split; exact Hnone).
  assert (Hframe : ledger_and_disk s1 = (Downloader.downloaded_events s, true))
    by (unfold ledger_and_disk; simpl; now rewrite Hw).
  pose proof (scan_steps_records site h s1 _ Hat Hframe) as Hscan.
  change (discovery_time site s1) with (discovery_time site s) in Hscan.
  rewrite <- Hscan.
  unfold bind, try_except at 1.
  destruct (Downloader.scan_steps site s1) as [[] s2|e s2|s2]; simpl.
  - pose proof (runs_keeps _ _ _ driver_quit_keeps_frame s2) as Hq.
    unfold same in Hq. now injection Hq.
  - pose proof (runs_keeps _ _ _ driver_quit_keeps_frame s2) as Hq.
    unfold same in Hq. now injection Hq.
  - reflexivity.
Qed.

Lemma scan_records_downloadable_witness :
  Downloader.downloaded_events
    (state_of (Downloader.run_download_scan true (catalog [downloads; has_no_video])
                 (Downloader.init t0 empty_disk)))
  = (if Downloader.reachable (catalog [downloads; has_no_video])
     then downloadable_numbers
            (Downloader.recent_events_of
               (Downloader.list_items (catalog [downloads; has_no_video]))
               (Downloader.downloaded_events (Downloader.init t0 empty_disk))
               (discovery_time (catalog [downloads; has_no_video])
                  (Downloader.init t0 empty_disk)))
     else ∅) ∪ Downloader.downloaded_events (Downloader.init t0 empty_disk).
Proof.
  apply (scan_records_downloadable (catalog [downloads; has_no_video])
           (Downloader.init t0 empty_disk)).
  - reflexivity.
  - reflexivity.
Defined.

(** ** The pool of download tabs at its limit *)

Lemma pool_bound_within_a_scan_witness :
  ((tracked_uploads (state_of (Uploader.upload_files 25 upload_site 1 [stable_artifact]
                                 full_pool)) <= 10)%nat
   /\ (tracked_uploads (state_of (Uploader.upload_session 25 true upload_site full_pool))
       <= 10)%nat)
  /\ ((tracked_downloads (state_of (scan_through_step_2 (catalog (replicate 10 downloads))
                                      (Downloader.init t0 empty_disk))) <= 10)%nat
      /\ (tracked_downloads
            (state_of (Downloader.run_download_scan true (catalog (replicate 10 downloads))
                         (Downloader.init t0 empty_disk))) <= 10)%nat).
Proof.
  apply (pool_bound_within_a_scan 25 true upload_site 1 [stable_artifact] full_pool
           (catalog (replicate 10 downloads)) (Downloader.init t0 empty_disk)).
  - vm_compute. lia.
  - reflexivity.
Defined.

Lemma limit_open_tabs_closes_witness :
  exists s',
    Downloader.limit_open_tabs during_first_scan = Ok tt s'
    /\ (open_tabs s' <= 10)%nat
    /\ (tracked_downloads s' <= tracked_downloads during_first_scan)%nat.
Proof.
  apply (limit_open_tabs_closes during_first_scan
           {| window_handles := seq 0 11; current := 0%nat |}).
  - vm_compute. reflexivity.
  - refine (bool_decide_unpack _ _); vm_compute; exact I.
  - apply Forall_forall. refine (bool_decide_unpack _ _); vm_compute; exact I.
  - vm_compute. lia.
Defined.

(** X11.  [limit_open_tabs] closes tabs of tracked downloads only: a tab
    that is open and belongs to no entry of [downloading_tabs], the
    main tab for one, is open when it returns, and it does return. *)
Theorem limit_open_tabs_spares_untracked (s : Downloader.State) (d : Driver) (h : Tab) :
  Downloader.driver s = Some d ->
  h ∈ window_handles d ->
  h ∉ map Downloader.tab (Downloader.downloading_tabs s) ->
  exists s' d',
    Downloader.limit_open_tabs s = Ok tt s'
    /\ Downloader.driver s' = Some d'
    /\ h ∈ window_handles d'.
Proof.
  intros Hd Hopen Hfree.
  unfold Downloader.limit_open_tabs, bind at 1, Downloader.get_window_handles,
    Downloader.with_driver. rewrite Hd. simpl.
  destruct (10 <? length (window_handles d))%nat.
  - unfold bind at 1, gets. simpl.
    set (oldest := take _ _).
    destruct (dl_limit_loop oldest (Downloader.set_driver (Some d) s) d eq_refl)
      as [s1 (Hrun & Hdrv & _)].
    unfold bind at 1. rewrite Hrun.
    destruct (dl_back_to_first_tab s1) as [dr [Hback Hh]]. rewrite Hback.
    rewrite Hdrv in Hh. simpl in Hh. destruct dr as [d'|]; [|discriminate Hh].
    injection Hh as Hh.
    exists (Downloader.set_driver (Some d') s1), d'. split; [reflexivity|].
    split; [reflexivity|].
    rewrite Hh, window_handles_close_tabs. apply list_elem_of_filter. split; [|exact Hopen].
    intros Hin. apply Hfree.
    apply list_elem_of_In, in_map_iff in Hin as [i [Hi Hin]].
    apply list_elem_of_In, in_map_iff. exists i. split; [exact Hi|].
    apply list_elem_of_In. apply list_elem_of_In in Hin.
    assert (Hsub : i ∈ sorted (fun a b => Downloader.start_time a <=? Downloader.start_time b)
                         (Downloader.downloading_tabs s))
      by (eapply elem_of_sublist; [exact Hin | apply sublist_take]).
    now rewrite (sorted_Permutation _ (Downloader.downloading_tabs s)) in Hsub.
  - exists (Downloader.set_driver (Some d) s), d. repeat split. exact Hopen.
Qed.

Lemma limit_open_tabs_spares_untracked_witness :
  exists s' d',
    Downloader.limit_open_tabs during_first_scan = Ok tt s'
    /\ Downloader.driver s' = Some d'
    /\ 0%nat ∈ window_handles d'.
Proof.
  apply (limit_open_tabs_spares_untracked during_first_scan
           {| window_handles := seq 0 11; current := 0%nat |} 0%nat).
  - vm_compute. reflexivity.
  - left.
  - refine (bool_decide_unpack _ _); vm_compute; exact I.
Defined.

(** ** How a scan ends *)

#[global] Instance stays_open_preorder : PreOrder stays_open.
Proof.
  split.
  - intros s Hs. exact Hs.
  - intros s1 s2 s3 H12 H23 Hs. apply H23, H12, Hs.
Qed.

Ltac open_side := intros; unfold stays_open; simpl; intros Hopen; exact Hopen.

Lemma with_driver_stays_open {A} (f : Driver -> exn + (A * Driver)) :
  runs stays_open (fun _ => True) (Downloader.with_driver f).
Proof.
  intros s. unfold Downloader.with_driver.
  destruct (Downloader.driver s) as [d|] eqn:Hd; [|now intros Hopen].
  destruct (f d) as [e|[a d']]; [now intros Hopen|].
  split; [|exact I]. intros _. simpl. now eexists.
Qed.

Lemma untrack_stays_open (i : Downloader.download_info) :
  runs stays_open (fun _ => True) (Downloader.untrack i).
Proof.
  intros s. unfold Downloader.untrack.
  destruct (list_remove i (Downloader.downloading_tabs s)); [split; [|exact I]|]; open_side.
Qed.

Lemma make_download_folder_stays_open (name : string) (info : File) :
  runs stays_open (fun _ => True) (Downloader.make_download_folder name info).
Proof.
  intros s. unfold Downloader.make_download_folder.
  destruct (can_write (Downloader.disk s)); [split; [|exact I]|]; open_side.
Qed.

Lemma mark_event_stays_open (id : string) :
  runs stays_open (fun _ => True) (Downloader.mark_event_as_downloaded id).
Proof.
  intros s.
  unfold Downloader.mark_event_as_downloaded, Downloader.save_downloaded_events,
    Downloader.write_downloaded_file, try_except, bind, modify, get, ret. simpl.
  destruct (can_write (Downloader.disk s)); simpl; (split; [|exact I]); open_side.
Qed.

Ltac dl_open :=
  repeat first
    [ runs_step
    | apply with_driver_stays_open
    | apply dl_runs_sleep; open_side
    | apply dl_runs_head_or_raise
    | apply untrack_stays_open
    | apply make_download_folder_stays_open
    | apply mark_event_stays_open
    | apply runs_modify; [typeclasses eauto .. | open_side | exact I]
    | progress unfold Downloader.get_window_handles, Downloader.driver_get,
        Downloader.click, Downloader.click_meeting, Downloader.close_and_go_back,
        Downloader.close_tab_if_open, Downloader.back_to_first_tab ].

Lemma close_expired_stays_open (now : Z) (l : list Downloader.download_info) :
  runs stays_open (fun _ => True) (Downloader.close_expired now l).
Proof. induction l as [|i l IH]; simpl; dl_open; exact IH. Qed.

Lemma start_download_stays_open (v : Downloader.Visit)
    (video_url event_title event_number : string) (tab_handle : Tab) :
  runs stays_open (fun _ => True)
    (Downloader.start_download v video_url event_title event_number tab_handle).
Proof. unfold Downloader.start_download. dl_open. open_side. Qed.

Lemma process_events_stays_open (events : list Downloader.event_info) :
  forall i, runs stays_open (fun _ => True) (Downloader.process_events i events).
Proof.
  induction events as [|ev rest IH]; intros i; simpl;
    unfold Downloader.cleanup_old_download_tabs, Downloader.limit_open_tabs,
      Downloader.process_single_meeting; cbv zeta;
    dl_open;
    first [ apply close_expired_stays_open
          | apply start_download_stays_open
          | apply IH
          | open_side ].
Qed.

Lemma scan_steps_stays_open (site : Downloader.Site) :
  runs stays_open (fun _ => True) (Downloader.scan_steps site).
Proof.
  unfold Downloader.scan_steps, Downloader.load_all_events, Downloader.wait_and_close_tabs,
    Downloader.close_remaining_tabs.
  dl_open; first [ open_side | apply process_events_stays_open ].
Qed.

(** X12.  No exception leaves [run_download_scan]: whatever the catalog and
    the pages behind it answer, and whether or not Chrome starts, it
    returns; and when Chrome started, the session is quit by then. *)
Theorem run_download_scan_returns (chrome_ok : bool) (site : Downloader.Site)
    (s : Downloader.State) :
  exists s',
    Downloader.run_download_scan chrome_ok site s = Ok tt s'
    /\ (chrome_ok = true -> Downloader.driver s' = None).
Proof.
  unfold Downloader.run_download_scan, Downloader.init_driver.
  destruct chrome_ok; [|exists s; split; [reflexivity | discriminate]].
  unfold bind at 1, bind at 1, bind at 1, gets, modify, ret.
  set (s1 := Downloader.set_next_tab _ _).
  pose proof (scan_steps_stays_open site s1) as Hscan.
  assert (Hopen1 : is_Some (Downloader.driver s1)) by (simpl; now eexists).
  assert (Hquit : forall s2, is_Some (Downloader.driver s2) ->
            exists s',
              try_except Downloader.driver_quit (fun _ => ret tt) s2 = Ok tt s'
              /\ Downloader.driver s' = None).
  { intros s2 [d Hd].
    unfold try_except, Downloader.driver_quit, bind, Downloader.with_driver, modify.
    rewrite Hd. eexists. split; reflexivity. }
  unfold bind, try_except at 1.
  destruct (Downloader.scan_steps site s1) as [[] s2|e s2|s2]; simpl; [| |contradiction].
  - destruct (Hquit s2 (proj1 Hscan Hopen1)) as (s' & Hrun & Hnone).
    exists s'. split; [exact Hrun | intros _; exact Hnone].
  - destruct (Hquit s2 (Hscan Hopen1)) as (s' & Hrun & Hnone).
    exists s'. split; [exact Hrun | intros _; exact Hnone].
Qed.

(** ** No second download, no second upload *)

(** X13.  What one downloader object recorded in a scan, the next object
    skips: on a disk that can be written and whose ledger file agreed
    with the set before the scan, no event that the discovery of a new
    downloader object returns has a number that the scan left in the
    ledger. *)
Theorem recorded_events_are_not_rediscovered (chrome_ok : bool)
    (site next_site : Downloader.Site) (s : Downloader.State) (now now' : Z) :
  can_write (Downloader.disk s) = true ->
  (forall id, id ∈ Downloader.downloaded_events s -> no_space id = true) ->
  Downloader.downloaded_events (restarted now s) = Downloader.downloaded_events s ->
  let s' := state_of (Downloader.run_download_scan chrome_ok site s) in
  let next := state_of (Downloader.init_driver true (restarted now' s')) in
  forall recent_events ev,
    value_of (Downloader.load_all_events next_site next) = Some recent_events ->
    In ev recent_events ->
    Downloader.event_number ev ∉ Downloader.downloaded_events s'.
Proof.
  intros Hw Hids Hsync s' next recent_events ev Hrun Hin.
  assert (Hreload : Downloader.downloaded_events (restarted now' s')
                    = Downloader.downloaded_events s').
  { pose proof (runs_keeps _ _ _ (run_download_scan_keeps_ledger chrome_ok site) s) as Hkept.
    pose proof (scan_adds_only_candidates chrome_ok site s) as Hadds.
    fold s' in Hkept, Hadds. destruct (Hkept Hw) as [_ [Hsame|Hwritten]].
    - unfold dl_ledger in Hsame. injection Hsame as HX Hf.
      rewrite HX, <- Hsync. unfold restarted, Downloader.load_downloaded_events. simpl.
      rewrite Hf. now destruct (downloaded_events_txt (Downloader.disk s)).
    - apply restarted_written; [exact Hwritten|].
      intros id Hid. apply Hadds, elem_of_union in Hid as [Hid|Hid]; [now apply Hids|].
      apply elem_of_list_to_set, list_elem_of_In, in_map_iff in Hid as [ev' [<- Hev]].
      apply in_recent_events_of in Hev as [e [_ Hc]].
      apply candidate_number, first_digits_digits in Hc as [_ Hd].
      now apply digits_no_space. }
  pose proof (dl_load_all_events_spec next_site next) as Hspec.
  destruct (Downloader.load_all_events next_site next) as [evs s2|e s2|s2]; [|done|done].
  injection Hrun as ->. destruct Hspec as [-> _].
  apply in_recent_events_of in Hin as [e [He Hc]].
  apply candidate_spec in Hc as (_ & Hnew & _).
  rewrite <- Hreload. exact Hnew.
Qed.

Lemma recorded_events_are_not_rediscovered_witness :
  Downloader.event_number (event_of 1002 downloads)
  ∉ Downloader.downloaded_events
      (state_of (Downloader.run_download_scan true (catalog [downloads])
                   (Downloader.init t0 empty_disk))).
Proof.
  apply (recorded_events_are_not_rediscovered true (catalog [downloads])
           (catalog [downloads; downloads]) (Downloader.init t0 empty_disk) t0 (t0 + 21600))
    with (recent_events := [event_of 1002 downloads]).
  - reflexivity.
  - intros id Hid. simpl in Hid. set_solver.
  - reflexivity.
  - vm_compute. reflexivity.
  - left. reflexivity.
Defined.

(** X14.  The same for the uploader: no file that [find_files_to_upload]
    returns to a new uploader object has a path that the session before
    left in the history. *)
Theorem recorded_files_are_not_offered_again (rounds : nat) (chrome_ok : bool)
    (site : Uploader.Site) (u : Uploader.State) (now now' : Z) :
  can_write (Uploader.disk u) = true ->
  Uploader.uploaded_files (uploader_restarted now u) = Uploader.uploaded_files u ->
  let u' := state_of (Uploader.upload_session rounds chrome_ok site u) in
  forall files_to_upload a,
    value_of (Uploader.find_files_to_upload (uploader_restarted now' u'))
    = Some files_to_upload ->
    In a files_to_upload ->
    Uploader.relative_path a ∉ Uploader.uploaded_files u'.
Proof.
  intros Hw Hsync u' files_to_upload a Hrun Hin.
  assert (Hreload : Uploader.uploaded_files (uploader_restarted now' u')
                    = Uploader.uploaded_files u').
  { destruct (upload_session_keeps_history rounds chrome_ok site u Hw)
      as [_ [Hsame|Hwritten]].
    - fold u' in Hsame. unfold up_ledger in Hsame. injection Hsame as HX Hf.
      rewrite HX, <- Hsync.
      unfold uploader_restarted, Uploader.load_upload_history, Uploader.read_upload_history,
        try_except, bind, get. simpl. rewrite Hf.
      destruct (uploaded_files_json (Uploader.disk u)) as [[|j]|]; simpl; try reflexivity.
      destruct (json_get_or_empty _ j) as [e|v]; simpl; [reflexivity|].
      destruct (py_set v); reflexivity.
    - now apply uploader_restarted_written. }
  rewrite find_files_to_upload_returns in Hrun. injection Hrun as <-.
  apply in_flat_map in Hin as [folder [_ Hin]].
  apply in_files_of_folder in Hin as (found & _ & _ & _ & _ & Hwanted).
  unfold Uploader.wanted in Hwanted. apply andb_true_iff in Hwanted as [Hnew _].
  apply negb_true_iff, bool_decide_eq_false_1 in Hnew.
  rewrite <- Hreload. exact Hnew.
Qed.

Lemma recorded_files_are_not_offered_again_witness :
  Uploader.relative_path late_artifact
  ∉ Uploader.uploaded_files
      (state_of (Uploader.upload_session 25 true upload_site
                   (Uploader.init 1360 disk_with_two_files))).
Proof.
  apply (recorded_files_are_not_offered_again 25 true upload_site
           (Uploader.init 1360 disk_with_two_files) 1360 22960)
    with (files_to_upload := [late_artifact]).
  - reflexivity.
  - reflexivity.
  - vm_compute. reflexivity.
  - left. reflexivity.
Defined.

(** ** The keys of the upload history *)

Lemma split_at_first {A} (x : A) (l1 l2 r1 r2 : list A) :
  ~ In x l1 -> ~ In x l2 -> l1 ++ x :: r1 = l2 ++ x :: r2 -> l1 = l2 /\ r1 = r2.
Proof.
  revert l2. induction l1 as [|a l1 IH]; intros [|b l2] H1 H2 Heq; simpl in *.
  - now injection Heq.
  - injection Heq as <- _. exfalso. apply H2. now left.
  - injection Heq as -> _. exfalso. apply H1. now left.
  - injection Heq as -> Heq. destruct (IH l2) as [-> ->]; auto.
Qed.

(** X15.  A key of the upload history names one file: two files that differ
    in their folder or in their name, in folders whose names hold no
    separator, have different [relative_path]s. *)
Theorem relative_path_names_one_file (a b : Uploader.Artifact) :
  ~ In "/"%char (chars (Uploader.in_folder a)) ->
  ~ In "/"%char (chars (Uploader.in_folder b)) ->
  Uploader.in_folder a <> Uploader.in_folder b
  \/ file_name (Uploader.file a) <> file_name (Uploader.file b) ->
  Uploader.relative_path a <> Uploader.relative_path b.
Proof.
  intros Ha Hb Hdiff Heq. apply (f_equal chars) in Heq.
  unfold Uploader.relative_path, Uploader.sep in Heq. rewrite !chars_app in Heq.
  change (chars "/") with ["/"%char] in Heq. simpl in Heq.
  apply split_at_first in Heq as [Hfolder Hrest]; [|exact Ha|exact Hb].
  destruct Hdiff as [Hdiff|Hdiff]; apply Hdiff, chars_inj; [exact Hfolder|].
  injection Hrest as Hrest. exact Hrest.
Qed.

Lemma relative_path_names_one_file_witness :
  Uploader.relative_path stable_artifact <> Uploader.relative_path late_artifact.
Proof.
  apply (relative_path_names_one_file stable_artifact late_artifact).
  - vm_compute. intuition discriminate.
  - vm_compute. intuition discriminate.
  - right. discriminate.
Defined.

(** ** The names that [convert_video] gives *)

Lemma string_rev_app (s t : string) :
  String.rev (s +:+ t) = (String.rev t +:+ String.rev s)%string.
Proof.
  apply chars_inj. now rewrite chars_rev, !chars_app, !chars_rev, rev_app_distr.
Qed.

Lemma all_digits_rev (s : string) : all_digits s = true -> all_digits (String.rev s) = true.
Proof.
  unfold all_digits. rewrite chars_rev. intros H. apply forallb_forall.
  intros c Hc. apply in_rev in Hc. now apply (proj1 (forallb_forall _ _) H).
Qed.

Lemma no_newline_chars (s : string) :
  no_newline s = forallb (fun c => negb (Ascii.eqb c (ascii_of_nat 10))) (chars s).
Proof. unfold chars. induction s as [|c s IH]; simpl; [reflexivity | now rewrite IH]. Qed.

Lemma no_newline_rev (s : string) : no_newline s = true -> no_newline (String.rev s) = true.
Proof.
  rewrite !no_newline_chars, chars_rev. intros H. apply forallb_forall.
  intros c Hc. apply in_rev in Hc. now apply (proj1 (forallb_forall _ _) H).
Qed.

Lemma take_digits_app (d rest : string) :
  all_digits d = true -> take_digits (String.length d) (d +:+ rest) = Some rest.
Proof.
  unfold all_digits, chars. induction d as [|c d IH]; simpl; [reflexivity|].
  intros H. apply andb_true_iff in H as [Hc Hd]. rewrite Hc. now apply IH.
Qed.

Lemma span_digits_app (d rest : string) :
  all_digits d = true ->
  match rest with String c _ => is_digit c = false | EmptyString => True end ->
  span_digits (d +:+ rest) = (d, rest).
Proof.
  unfold all_digits, chars. intros Hd Hrest. induction d as [|c d IH]; simpl.
  - destruct rest as [|c rest]; [reflexivity|]. simpl. now rewrite Hrest.
  - simpl in Hd. apply andb_true_iff in Hd as [Hc Hd]. rewrite Hc, (IH Hd). reflexivity.
Qed.

Lemma str_split_nonempty (sep : ascii) (s : string) : str_split sep s <> [].
Proof.
  induction s as [|c s IH]; simpl; [discriminate|].
  destruct (str_split sep s) as [|part parts]; [contradiction|].
  destruct (Ascii.eqb c sep); discriminate.
Qed.

Lemma str_split_whole (sep : ascii) (s : string) :
  ~ In sep (chars s) -> str_split sep s = [s].
Proof.
  unfold chars. induction s as [|c s IH]; simpl; [reflexivity|]. intros Hsep.
  rewrite IH by (intros Hin; apply Hsep; now right).
  destruct (Ascii.eqb_spec c sep) as [->|_]; [|reflexivity].
  exfalso. apply Hsep. now left.
Qed.

Lemma str_split_first (sep : ascii) (s rest : string) :
  ~ In sep (chars s) ->
  str_split sep (s +:+ String sep rest) = s :: str_split sep rest.
Proof.
  unfold chars. induction s as [|c s IH]; simpl; intros Hsep.
  - pose proof (str_split_nonempty sep rest) as Hne.
    destruct (str_split sep rest) as [|part parts]; [contradiction|].
    now rewrite Ascii.eqb_refl.
  - rewrite IH by (intros Hin; apply Hsep; now right).
    destruct (Ascii.eqb_spec c sep) as [->|_]; [|reflexivity].
    exfalso. apply Hsep. now left.
Qed.

Lemma str_split_last (sep : ascii) (s last_part : string) :
  ~ In sep (chars last_part) ->
  str_split sep (s +:+ String sep last_part) = str_split sep s ++ [last_part].
Proof.
  intros Hsep. induction s as [|c s IH]; simpl.
  - rewrite (str_split_whole sep last_part Hsep). now rewrite Ascii.eqb_refl.
  - rewrite IH. pose proof (str_split_nonempty sep s) as Hne.
    destruct (str_split sep s) as [|part parts]; [contradiction|]. simpl.
    destruct (Ascii.eqb c sep); reflexivity.
Qed.

Lemma str_join_split (sep : ascii) (s : string) :
  str_join (String sep EmptyString) (str_split sep s) = s.
Proof.
  induction s as [|c s IH]; simpl; [reflexivity|].
  pose proof (str_split_nonempty sep s) as Hne.
  destruct (str_split sep s) as [|part parts]; [contradiction|].
  destruct (Ascii.eqb_spec c sep) as [->|_].
  - simpl. simpl in IH. now rewrite IH.
  - destruct parts as [|p ps]; simpl in *; now rewrite <- IH.
Qed.

Lemma digit_is_no_underscore (s : string) :
  all_digits s = true -> ~ In "_"%char (chars s).
Proof.
  unfold all_digits. intros H Hin. apply (proj1 (forallb_forall _ _) H) in Hin.
  discriminate Hin.
Qed.

Lemma is_download_folder_made (date time name number : string) :
  all_digits date = true -> String.length date = 8%nat ->
  all_digits time = true -> String.length time = 6%nat ->
  all_digits number = true -> number <> EmptyString ->
  no_newline name = true ->
  is_download_folder
    (date +:+ "_" +:+ time +:+ "_" +:+ name +:+ "_" +:+ number)%string = true.
Proof.
  intros Hdate Hlen8 Htime Hlen6 Hnum Hne Hname. unfold is_download_folder.
  assert (Hu : forall x, take_underscore ("_" +:+ x) = Some x) by reflexivity.
  rewrite <- Hlen8, take_digits_app, Hu by exact Hdate.
  rewrite <- Hlen6, take_digits_app, Hu by exact Htime.
  unfold ends_with_number.
  change (name +:+ String "_" number)%string with (name +:+ ("_" +:+ number))%string.
  rewrite !string_rev_app. change (String.rev "_") with "_"%string.
  replace ((String.rev number +:+ "_") +:+ String.rev name)%string
    with (String.rev number +:+ String "_" (String.rev name))%string
    by (apply chars_inj; rewrite !chars_app; simpl; now rewrite <- app_assoc).
  pose proof (all_digits_rev number Hnum) as Hrev.
  assert (Hrne : String.rev number <> EmptyString).
  { intros Hempty. apply Hne. apply chars_inj. apply (f_equal chars) in Hempty.
    rewrite chars_rev in Hempty. apply (f_equal (@rev ascii)) in Hempty.
    now rewrite rev_involutive in Hempty. }
  destruct (String.rev number) as [|c r] eqn:Hr; [contradiction|].
  assert (Hc : is_digit c = true).
  { unfold all_digits, chars in Hrev. simpl in Hrev. now apply andb_true_iff in Hrev as [Hc _]. }
  change (String c r +:+ String "_" (String.rev name))%string
    with (String c (r +:+ String "_" (String.rev name)))%string.
  cbv iota.
  destruct (Ascii.eqb_spec c (ascii_of_nat 10)) as [->|_]; [discriminate Hc|].
  change (String c (r +:+ String "_" (String.rev name)))
    with (String c r +:+ String "_" (String.rev name))%string.
  rewrite span_digits_app; [|exact Hrev|reflexivity].
  simpl. now apply no_newline_rev.
Qed.

(** X16.  [convert_video] finds again the meeting name that the download put
    into the folder name.  For a folder named after the date (eight
    digits), the time (six digits), a meeting name and the event number,
    joined by underscores, and a video that lies in the folder itself,
    the name it uses is the meeting name, cleaned once more, whatever
    underscores the meeting name has of its own. *)
Theorem meeting_name_found_again (date time name number : string) :
  all_digits date = true -> String.length date = 8%nat ->
  all_digits time = true -> String.length time = 6%nat ->
  all_digits number = true -> number <> EmptyString ->
  no_newline name = true ->
  let folder_name := (date +:+ "_" +:+ time +:+ "_" +:+ name +:+ "_" +:+ number)%string in
  meeting_name_of folder_name folder_name = sanitize_filename name.
Proof.
  intros Hdate Hlen8 Htime Hlen6 Hnum Hne Hname folder_name.
  unfold meeting_name_of.
  rewrite String.eqb_refl. simpl negb. cbv iota. unfold folder_name.
  rewrite is_download_folder_made by assumption.
  change (date +:+ "_" +:+ time +:+ "_" +:+ name +:+ "_" +:+ number)%string
    with (date +:+ String "_" (time +:+ String "_" (name +:+ String "_" number)))%string.
  rewrite (str_split_first "_" date) by now apply digit_is_no_underscore.
  rewrite (str_split_first "_" time) by now apply digit_is_no_underscore.
  rewrite (str_split_last "_" name) by now apply digit_is_no_underscore.
  pose proof (str_join_split "_" name) as Hjoin.
  set (parts := str_split "_" name) in *.
  assert (Hslice : slice_2_to_last (date :: time :: parts ++ [number]) = parts).
  { unfold slice_2_to_last. simpl. rewrite length_app. simpl.
    replace (length parts + 1 - 0)%nat with (length parts + 1)%nat by lia.
    destruct (length parts + 1)%nat as [|k] eqn:Hk; [lia|]. simpl.
    assert (k = length parts) as -> by lia.
    now rewrite take_app_length. }
  rewrite Hslice, Hjoin.
  replace (3 <=? length (date :: time :: parts ++ [number]))%nat with true; [reflexivity|].
  symmetry. apply Nat.leb_le. simpl. rewrite length_app. simpl. lia.
Qed.

Lemma meeting_name_found_again_witness :
  meeting_name_of "20250714_103000_Select_Board_1001" "20250714_103000_Select_Board_1001"
  = sanitize_filename "Select_Board".
Proof.
  apply (meeting_name_found_again "20250714" "103000" "Select_Board" "1001");
    try reflexivity.
  discriminate.
Defined.

Lemma chars_substring (n m : nat) (s : string) :
  chars (String.substring n m s) = take m (drop n (chars s)).
Proof.
  unfold chars. revert n m. induction s as [|c s IH]; intros [|n] [|m]; simpl;
    try reflexivity.
  - now rewrite (IH 0%nat m).
  - now rewrite (IH n 0%nat).
  - now rewrite (IH n (S m)).
Qed.

Lemma is_mp4_suffix (name suffix : string) (size mtime : Z) :
  String.length suffix = 4%nat ->
  Uploader.is_mp4 {| file_name := (name +:+ suffix)%string; st_size := size;
                     st_mtime := mtime |}
  = String.eqb suffix ".mp4".
Proof.
  intros Hlen. unfold Uploader.is_mp4. cbn [file_name]. cbv zeta.
  assert (Hl : String.length (name +:+ suffix) = (String.length name + 4)%nat).
  { rewrite !chars_length, chars_app, length_app, <- !chars_length. now rewrite Hlen. }
  rewrite Hl. replace (String.length name + 4 - 4)%nat with (String.length name) by lia.
  replace (4 <=? String.length name + 4)%nat with true
    by (symmetry; apply Nat.leb_le; lia).
  rewrite andb_true_l. f_equal. apply chars_inj.
  rewrite chars_substring, chars_app, chars_length, drop_app_length.
  apply take_ge. rewrite <- chars_length. lia.
Qed.

(** X17.  [convert_video] keeps the suffix of its input, and the uploader
    looks for [*.mp4] only: the output of an [.m4a] recording is never
    among the files that [find_files_to_upload] returns, whatever its
    size and age, while the output of an [.mp4] recording passes the
    test on the name. *)
Theorem converted_audio_is_not_offered (folder_name video_parent stem : string)
    (u : Uploader.State) :
  (forall a files_to_upload,
     value_of (Uploader.find_files_to_upload u) = Some files_to_upload ->
     In a files_to_upload ->
     file_name (Uploader.file a) <> output_filename folder_name video_parent stem ".m4a")
  /\ (forall size mtime,
        Uploader.is_mp4 {| file_name := output_filename folder_name video_parent stem ".mp4";
                           st_size := size; st_mtime := mtime |} = true).
Proof.
  assert (Hname : forall suffix,
            output_filename folder_name video_parent stem suffix
            = ((meeting_name_of folder_name video_parent +:+ "_" +:+ stem
                +:+ "_29.97fps_1080p") +:+ suffix)%string).
  { intros suffix. unfold output_filename. apply chars_inj.
    rewrite !chars_app. now rewrite <- !app_assoc. }
  split.
  - intros a files_to_upload Hrun Hin Hout.
    rewrite find_files_to_upload_returns in Hrun. injection Hrun as <-.
    apply in_flat_map in Hin as [folder [_ Hin]].
    apply in_files_of_folder in Hin as (found & _ & _ & Hmp4 & _).
    destruct (Uploader.file a) as [n size mtime]. simpl in Hout. subst n.
    rewrite Hname, is_mp4_suffix in Hmp4 by reflexivity. discriminate Hmp4.
  - intros size mtime. rewrite Hname. now rewrite is_mp4_suffix.
Qed.

(** ** The effect of [upload_file] *)

Section UploaderAt.
Variables (d : Driver) (T : list Uploader.upload_info) (X : gset string) (t0 : Z).
Variable E : Uploader.State -> Prop.

Lemma uploader_at_set_driver (u : Uploader.State) :
  uploader_at d T X t0 u -> uploader_at d T X t0 (Uploader.set_driver (Some d) u).
Proof. intros (Hd & Ht & HX & Hc). repeat split; assumption. Qed.

Lemma ua_sleep (k : Z) :
  0 <= k ->
  triple (uploader_at d T X t0) (Uploader.sleep k) (fun _ => uploader_at d T X t0) E.
Proof. intros Hk u (Hd & Ht & HX & Hc). repeat split; try assumption. simpl. lia. Qed.

Lemma ua_act_on (el : Elem) :
  (el_click_ok el = false -> forall u, uploader_at d T X t0 u -> E u) ->
  triple (uploader_at d T X t0) (Uploader.act_on el)
    (fun _ u => el_click_ok el = true /\ uploader_at d T X t0 u) E.
Proof.
  intros HE u Hu. pose proof Hu as (Hd & _).
  unfold Uploader.act_on, Uploader.with_driver. rewrite Hd.
  destruct (el_click_ok el).
  - split; [reflexivity|]. now apply uploader_at_set_driver.
  - now apply HE.
Qed.

Lemma ua_current :
  current d ∈ window_handles d ->
  triple (uploader_at d T X t0) (Uploader.with_driver drv_current)
    (fun c u => c = current d /\ uploader_at d T X t0 u) E.
Proof.
  intros Hc u Hu. pose proof Hu as (Hd & _).
  unfold Uploader.with_driver, drv_current, is_open. rewrite Hd.
  rewrite bool_decide_eq_true_2 by exact Hc.
  split; [reflexivity|]. now apply uploader_at_set_driver.
Qed.

Lemma ua_gets_clock :
  triple (uploader_at d T X t0) (gets Uploader.clock)
    (fun t u => t0 <= t /\ uploader_at d T X t u) E.
Proof. intros u (Hd & Ht & HX & Hc). simpl. repeat split; try assumption. lia. Qed.

Lemma ua_append (e : Uploader.upload_info) :
  triple (uploader_at d T X t0)
    (modify (fun s => Uploader.set_uploading_tabs (Uploader.uploading_tabs s ++ [e]) s))
    (fun _ => uploader_at d (T ++ [e]) X t0) E.
Proof.
  intros u (Hd & Ht & HX & Hc). repeat split; simpl; try assumption. now rewrite Ht.
Qed.

Lemma ua_mark_as_uploaded (a : Uploader.Artifact) :
  triple (uploader_at d T X t0) (Uploader.mark_as_uploaded a)
    (fun _ => uploader_at d T ({[ Uploader.relative_path a ]} ∪ X) t0) E.
Proof.
  intros u (Hd & Ht & HX & Hc).
  unfold Uploader.mark_as_uploaded, Uploader.save_upload_history, try_except, bind, modify, ret.
  simpl. destruct (can_write (Uploader.disk u)); simpl; repeat split; try assumption;
    now rewrite HX.
Qed.

(** One selector of a loop that leaves out the selectors that time
    out. *)
Lemma ua_act_on_first (p : Page) (timeout : Z) (selectors : list string) :
  0 <= timeout ->
  (first_click p selectors = Some false -> forall u, uploader_at d T X t0 u -> E u) ->
  triple (uploader_at d T X t0) (Uploader.act_on_first p timeout selectors)
    (fun found u => first_click p selectors = (if found then Some true else None)
                    /\ uploader_at d T X t0 u) E.
Proof.
  intros Htime. unfold first_click.
  induction selectors as [|sel rest IH]; simpl; intros HE.
  - apply triple_ret. intros u Hu. split; [reflexivity | exact Hu].
  - destruct (pg_query p sel) as [el|] eqn:Hq; simpl in *.
    + intros u Hu. pose proof Hu as (Hd & _).
      unfold bind, try_except_timeout, try_except, Uploader.wait_until. rewrite Hq. simpl.
      unfold Uploader.act_on, Uploader.with_driver. rewrite Hd.
      destruct (el_click_ok el) eqn:Hok; simpl.
      * split; [reflexivity|]. now apply uploader_at_set_driver.
      * now apply HE.
    + intros u Hu.
      unfold bind at 1, try_except_timeout, try_except, Uploader.wait_until. rewrite Hq.
      simpl. apply (IH HE). destruct Hu as (Hd & Ht & HX & Hc).
      repeat split; try assumption. simpl. lia.
Qed.

Lemma ua_wait_until (k : Z) (p : Page) (selector : string) :
  0 <= k ->
  (pg_query p selector = None -> forall u, uploader_at d T X t0 u -> E u) ->
  triple (uploader_at d T X t0) (Uploader.wait_until k p selector)
    (fun el u => pg_query p selector = Some el /\ uploader_at d T X t0 u) E.
Proof.
  intros Hk HE. unfold Uploader.wait_until.
  destruct (pg_query p selector) as [el|].
  - apply triple_ret. intros u Hu. split; [reflexivity | exact Hu].
  - eapply triple_bind; [now apply ua_sleep | intros ?].
    apply triple_raise. now apply HE.
Qed.

Lemma ua_act_on_any (el : Elem) :
  (forall u, uploader_at d T X t0 u -> E u) ->
  triple (uploader_at d T X t0) (Uploader.act_on el) (fun _ => uploader_at d T X t0) E.
Proof.
  intros HE. eapply triple_weaken; [apply ua_act_on | | |].
  - intros _. exact HE.
  - auto.
  - intros _ u [_ Hu]. exact Hu.
  - auto.
Qed.

End UploaderAt.

Section UploaderAtSteps.
Variables (d : Driver) (T : list Uploader.upload_info) (X : gset string) (t0 : Z).
Variable E : Uploader.State -> Prop.

Lemma ua_select_by_dynamic_id (p : Page) (selectors : list string) :
  triple (uploader_at d T X t0) (Uploader.select_by_dynamic_id p selectors)
    (fun _ => uploader_at d T X t0) E.
Proof.
  induction selectors as [|sel rest IH]; simpl.
  - apply triple_ret. auto.
  - eapply triple_bind with (Q1 := fun _ => uploader_at d T X t0);
      [|intros [|]; [apply triple_ret; auto | exact IH]].
    apply triple_try_except with (E1 := uploader_at d T X t0);
      [|intros _; apply triple_ret; auto].
    eapply triple_bind; [apply ua_wait_until; [lia | auto] | intros dropdown].
    apply triple_pure. intros _.
    eapply triple_bind; [apply ua_act_on_any; auto | intros ?].
    eapply triple_bind; [apply ua_sleep; lia | intros ?].
    eapply triple_bind; [apply ua_wait_until; [lia | auto] | intros first_option].
    apply triple_pure. intros _.
    eapply triple_bind; [apply ua_act_on_any; auto | intros ?].
    apply triple_ret. auto.
Qed.

(** The button found by its text, when no selector found it. *)
Lemma ua_click_by_text (p : Page) (text_xpath : string) :
  ((match pg_query p text_xpath with Some button => el_click_ok button | None => false end)
   = false -> forall u, uploader_at d T X t0 u -> E u) ->
  triple (uploader_at d T X t0)
    (button <- Uploader.wait_until 10 p text_xpath ;; Uploader.act_on button)
    (fun _ u => (match pg_query p text_xpath with
                 | Some button => el_click_ok button
                 | None => false
                 end) = true
                /\ uploader_at d T X t0 u) E.
Proof.
  intros HE. unfold Uploader.wait_until.
  destruct (pg_query p text_xpath) as [button|].
  - apply triple_bind_ret. now apply ua_act_on.
  - intros u Hu. unfold bind, Uploader.sleep, modify, raise. simpl.
    apply (HE eq_refl). destruct Hu as (Hd & Ht & HX & Hc).
    repeat split; try assumption. simpl. lia.
Qed.

End UploaderAtSteps.

Lemma ua_select_file_store (d : Driver) (T : list Uploader.upload_info) (X : gset string)
    (t0 : Z) (E : Uploader.State -> Prop) (v : Uploader.Visit) :
  triple (uploader_at d T X t0) (Uploader.select_file_store v)
    (fun _ => uploader_at d T X t0) E.
Proof.
  unfold Uploader.select_file_store.
  apply triple_try_except with (E1 := uploader_at d T X t0);
    [|intros _; apply triple_ret; auto].
  destruct (Uploader.flex_by_text v); [apply triple_ret; auto|].
  apply triple_bind with (Q1 := fun _ => uploader_at d T X t0);
    [apply ua_select_by_dynamic_id | intros ?; apply triple_ret; auto].
Qed.

Lemma clicked_first (p : Page) (selectors : list string) (text_xpath : string) (b : bool) :
  first_click p selectors = Some b -> clicked p selectors text_xpath = b.
Proof.
  unfold first_click, clicked. destruct (first_found p selectors); simpl; congruence.
Qed.

Lemma clicked_by_text (p : Page) (selectors : list string) (text_xpath : string) :
  first_click p selectors = None ->
  clicked p selectors text_xpath
  = match pg_query p text_xpath with Some button => el_click_ok button | None => false end.
Proof.
  unfold first_click, clicked. destruct (first_found p selectors); simpl; [discriminate|].
  reflexivity.
Qed.

(** The search by text that follows a loop over selectors which found
    nothing. *)
Lemma ua_click (d : Driver) (T : list Uploader.upload_info) (X : gset string) (t0 : Z)
    (E : Uploader.State -> Prop) (p : Page) (selectors : list string) (text_xpath : string)
    (found : bool) :
  first_click p selectors = (if found then Some true else None) ->
  (clicked p selectors text_xpath = false -> forall u, uploader_at d T X t0 u -> E u) ->
  triple (uploader_at d T X t0)
    (if found then ret tt
     else (button <- Uploader.wait_until 10 p text_xpath ;; Uploader.act_on button))
    (fun _ u => clicked p selectors text_xpath = true /\ uploader_at d T X t0 u) E.
Proof.
  intros Hfirst HE. destruct found.
  - apply triple_ret. intros u Hu. split; [now apply clicked_first | exact Hu].
  - rewrite (clicked_by_text _ _ _ Hfirst) in *. now apply ua_click_by_text.
Qed.

Lemma upload_file_at (d : Driver) (T : list Uploader.upload_info) (X : gset string) (t0 : Z)
    (v : Uploader.Visit) (a : Uploader.Artifact) :
  current d ∈ window_handles d ->
  triple (uploader_at d T X t0) (Uploader.upload_file v a)
    (fun b u =>
       b = uploadable v
       /\ if b
          then exists e, Uploader.tab e = current d
                 /\ Uploader.filename e = file_name (Uploader.file a)
                 /\ t0 <= Uploader.start_time e
                 /\ uploader_at d (T ++ [e]) ({[ Uploader.relative_path a ]} ∪ X)
                      (Uploader.start_time e) u
          else uploader_at d T X t0 u)
    (fun _ => False).
Proof.
  intros Hc. unfold Uploader.upload_file. cbv zeta.
  apply triple_try_except
    with (E1 := fun u => uploadable v = false /\ uploader_at d T X t0 u).
  2:{ intros _. apply triple_ret. intros u [Hno Hu]. rewrite Hno. split; [reflexivity | exact Hu]. }
  unfold uploadable.
  eapply triple_bind.
  { apply ua_act_on_first; [lia|]. intros Hno u Hu. split; [|exact Hu].
    now rewrite (clicked_first _ _ Uploader.upload_text_xpath _ Hno). }
  intros upload_clicked. apply triple_pure. intros Hfirst.
  eapply triple_bind.
  { apply (ua_click d T X t0 _ (Uploader.form v) Uploader.upload_selectors
             Uploader.upload_text_xpath upload_clicked Hfirst).
    intros Hno u Hu. rewrite Hno. split; [reflexivity | exact Hu]. }
  intros ?. apply triple_pure. intros ->.
  eapply triple_bind; [apply ua_sleep; lia | intros ?].
  eapply triple_bind.
  { apply ua_act_on_first; [lia|]. intros Hno u Hu. rewrite Hno. split; [reflexivity | exact Hu]. }
  intros file_input_found. apply triple_pure. intros ->.
  destruct file_input_found.
  2:{ apply triple_ret. intros u Hu. split; [reflexivity | exact Hu]. }
  eapply triple_bind; [apply ua_sleep; lia | intros ?].
  eapply triple_bind; [apply ua_select_file_store | intros ?].
  eapply triple_bind; [apply ua_sleep; lia | intros ?].
  change (final_upload_clicked (Uploader.form v))
    with (clicked (Uploader.form v) Uploader.final_upload_selectors
            Uploader.final_text_xpath).
  eapply triple_bind.
  { apply ua_act_on_first; [lia|]. intros Hno u Hu. split; [|exact Hu].
    now rewrite (clicked_first _ _ Uploader.final_text_xpath _ Hno). }
  intros final_clicked. apply triple_pure. intros Hlast.
  eapply triple_bind.
  { apply (ua_click d T X t0 _ (Uploader.form v) Uploader.final_upload_selectors
             Uploader.final_text_xpath final_clicked Hlast).
    intros Hno u Hu. rewrite Hno. split; [reflexivity | exact Hu]. }
  intros ?. apply triple_pure. intros Hfinal.
  change (final_upload_clicked (Uploader.form v))
    with (clicked (Uploader.form v) Uploader.final_upload_selectors
            Uploader.final_text_xpath).
  rewrite Hfinal.
  eapply triple_bind; [apply ua_current; exact Hc | intros current_tab].
  apply triple_pure. intros ->.
  eapply triple_bind; [apply ua_gets_clock | intros started].
  apply triple_pure. intros Hstarted.
  eapply triple_bind; [apply ua_append | intros ?].
  eapply triple_bind; [apply ua_sleep; lia | intros ?].
  eapply triple_bind; [apply ua_mark_as_uploaded | intros ?].
  apply triple_ret. intros u Hu. split; [reflexivity|].
  eexists. split; [|split; [|split]]; [| | |exact Hu]; [reflexivity | reflexivity | exact Hstarted].
Qed.

(** X18.  [upload_file], started in a browser that is on an open tab,
    returns [True] exactly when that tab takes the upload: the Upload
    button, the file input and the final Upload button are there and
    take the click or the keys.  It then has recorded the file in the
    history and tracks the tab by one new last entry, dated between its
    start and its return.  When it returns [False], the history
    and the list of upload tabs are as they were.  The browser is as it
    was in both cases. *)
Theorem upload_file_effect (v : Uploader.Visit) (a : Uploader.Artifact) (u : Uploader.State)
    (d : Driver) :
  Uploader.driver u = Some d ->
  current d ∈ window_handles d ->
  exists u',
    Uploader.upload_file v a u = Ok (uploadable v) u'
    /\ Uploader.driver u' = Some d
    /\ if uploadable v
       then Uploader.uploaded_files u'
            = {[ Uploader.relative_path a ]} ∪ Uploader.uploaded_files u
            /\ exists e,
                 Uploader.uploading_tabs u' = Uploader.uploading_tabs u ++ [e]
                 /\ Uploader.tab e = current d
                 /\ Uploader.filename e = file_name (Uploader.file a)
                 /\ Uploader.clock u <= Uploader.start_time e <= Uploader.clock u'
       else Uploader.uploaded_files u' = Uploader.uploaded_files u
            /\ Uploader.uploading_tabs u' = Uploader.uploading_tabs u.
Proof.
  intros Hd Hc.
  pose proof (upload_file_at d (Uploader.uploading_tabs u) (Uploader.uploaded_files u)
                (Uploader.clock u) v a Hc u) as Hrun.
  assert (Hu : uploader_at d (Uploader.uploading_tabs u) (Uploader.uploaded_files u)
                 (Uploader.clock u) u) by (repeat split; [exact Hd | lia]).
  specialize (Hrun Hu).
  destruct (Uploader.upload_file v a u) as [b u'|e u'|u']; try contradiction.
  destruct Hrun as [-> Hrun]. exists u'. split; [reflexivity|].
  destruct (uploadable v).
  - destruct Hrun as (e & Htab & Hname & Hstart & Hd' & Ht' & HX' & Hclock).
    split; [exact Hd'|]. split; [exact HX'|]. exists e. repeat split; assumption.
  - destruct Hrun as (Hd' & Ht' & HX' & _). repeat split; assumption.
Qed.

Lemma upload_file_effect_witness :
  exists u',
    Uploader.upload_file accepts_upload stable_artifact two_upload_tabs = Ok true u'
    /\ Uploader.driver u' = Some {| window_handles := [0; 1; 2]%nat; current := 0%nat |}
    /\ Uploader.uploaded_files u'
       = {[ Uploader.relative_path stable_artifact ]} ∪ Uploader.uploaded_files two_upload_tabs
    /\ exists e,
         Uploader.uploading_tabs u' = Uploader.uploading_tabs two_upload_tabs ++ [e]
         /\ Uploader.tab e = 0%nat
         /\ Uploader.filename e = file_name (Uploader.file stable_artifact)
         /\ Uploader.clock two_upload_tabs <= Uploader.start_time e <= Uploader.clock u'.
Proof.
  apply (upload_file_effect accepts_upload stable_artifact two_upload_tabs
           {| window_handles := [0; 1; 2]%nat; current := 0%nat |}).
  - reflexivity.
  - left.
Defined.

(** ** What a session records *)

#[global] Instance ages_preorder : PreOrder ages.
Proof.
  split.
  - intros u. repeat split; [lia | reflexivity | auto].
  - intros u1 u2 u3 (Hc1 & Hs1 & HX1 & Hd1) (Hc2 & Hs2 & HX2 & Hd2).
    repeat split; [lia | now transitivity (Uploader.uploading_tabs u2) | congruence | auto].
Qed.

Lemma in_session_ages (X : gset string) (u u' : Uploader.State) :
  in_session X u -> ages u u' -> in_session X u'.
Proof.
  intros (Hd & Hpast & HX) (Hc & Hs & HX' & Hd'). repeat split; [auto | | congruence].
  apply Forall_forall. intros i Hi.
  assert (Hin : i ∈ Uploader.uploading_tabs u) by (eapply elem_of_sublist; eassumption).
  apply (proj1 (Forall_forall _ _) Hpast) in Hin. lia.
Qed.

Ltac ages_side :=
  intros; unfold ages; simpl; repeat split; try lia; try reflexivity; auto.

Lemma with_driver_ages {A} (f : Driver -> exn + (A * Driver)) :
  runs ages (fun _ => True) (Uploader.with_driver f).
Proof.
  intros u. unfold Uploader.with_driver.
  destruct (Uploader.driver u) as [d|] eqn:Hd; [|reflexivity].
  destruct (f d) as [e|[a d']]; [reflexivity|].
  split; [|exact I]. ages_side.
Qed.

Lemma list_remove_sublist `{EqDecision A} (x : A) (l l' : list A) :
  list_remove x l = Some l' -> l' `sublist_of` l.
Proof.
  revert l'. induction l as [|y l IH]; simpl; intros l'; [discriminate|].
  destruct (decide (x = y)) as [->|_].
  - intros [= ->]. now apply sublist_cons.
  - destruct (list_remove x l) as [l1|]; [|discriminate]. intros [= <-].
    apply sublist_skip. now apply IH.
Qed.

Lemma untrack_ages (i : Uploader.upload_info) :
  runs ages (fun _ => True) (Uploader.untrack i).
Proof.
  intros u. unfold Uploader.untrack.
  destruct (list_remove i (Uploader.uploading_tabs u)) as [l|] eqn:Hl; [|reflexivity].
  split; [|exact I]. unfold ages. simpl. repeat split; try lia; auto.
  now apply (list_remove_sublist i).
Qed.

Lemma sleep_ages (k : Z) : 0 <= k -> runs ages (fun _ => True) (Uploader.sleep k).
Proof. intros Hk u. split; [|exact I]. unfold ages. simpl. repeat split; try lia; auto. Qed.

Ltac up_ages :=
  repeat first
    [ runs_step
    | apply with_driver_ages
    | apply sleep_ages; lia
    | apply untrack_ages
    | progress unfold Uploader.get_window_handles, Uploader.head_or_raise,
        Uploader.driver_get, Uploader.wait_until, Uploader.act_on, Uploader.switch_to,
        Uploader.switch_back, Uploader.close_tab_if_open ].

Lemma close_expired_ages (now : Z) (l : list Uploader.upload_info) :
  runs ages (fun _ => True) (Uploader.close_expired now l).
Proof. induction l as [|i l IH]; simpl; up_ages; exact IH. Qed.

Lemma cleanup_ages : runs ages (fun _ => True) Uploader.cleanup_old_upload_tabs.
Proof. unfold Uploader.cleanup_old_upload_tabs. up_ages. apply close_expired_ages. Qed.

Lemma limit_ages : runs ages (fun _ => True) Uploader.limit_open_upload_tabs.
Proof. unfold Uploader.limit_open_upload_tabs. up_ages. Qed.

Lemma wait_ages (rounds : nat) (max_concurrent : Z) :
  keeps ages (Uploader.wait_for_upload_slots rounds max_concurrent).
Proof.
  induction rounds as [|n IH]; intros u; simpl;
    destruct (max_concurrent <=? _); try reflexivity.
  apply (keeps_bind ages); [apply (runs_keeps _ (fun _ => True)), sleep_ages; lia | intros _].
  apply (keeps_bind ages); [apply (runs_keeps _ (fun _ => True)), cleanup_ages | intros _].
  exact IH.
Qed.

Lemma wait_in_session (X : gset string) (rounds : nat) (u : Uploader.State) :
  (25 <= rounds)%nat ->
  in_session X u ->
  exists u', Uploader.wait_for_upload_slots rounds 10 u = Ok tt u' /\ in_session X u'.
Proof.
  intros Hrounds Hu. pose proof Hu as (_ & Hpast & _).
  destruct rounds as [|n]; [lia|].
  destruct (up_wait_terminates n 10 ltac:(lia) u) as (u' & Hrun & _).
  - intros i Hi. apply list_elem_of_In in Hi.
    apply (proj1 (Forall_forall _ _) Hpast) in Hi. lia.
  - exists u'. split; [exact Hrun|]. apply (in_session_ages X u); [exact Hu|].
    pose proof (wait_ages (S n) 10 u) as Hages. now rewrite Hrun in Hages.
Qed.

Lemma runs_in_session {A} (X : gset string) (c : M Uploader.State A) :
  runs ages (fun _ => True) c ->
  triple (in_session X) c (fun _ => in_session X) (in_session X).
Proof.
  intros Hc u Hu. specialize (Hc u).
  destruct (c u) as [a u'|e u'|u']; [|now apply (in_session_ages X u)|done].
  destruct Hc as [Hages _]. now apply (in_session_ages X u).
Qed.

Section UploaderAtDriver.
Variables (d : Driver) (T : list Uploader.upload_info) (X : gset string) (t0 : Z).
Variable E : Uploader.State -> Prop.

Lemma ua_with_driver {A} (f : Driver -> exn + (A * Driver)) (a : A) (d' : Driver) :
  f d = inr (a, d') ->
  triple (uploader_at d T X t0) (Uploader.with_driver f)
    (fun r u => r = a /\ uploader_at d' T X t0 u) E.
Proof.
  intros Hf u (Hd & Ht & HX & Hc). unfold Uploader.with_driver. rewrite Hd, Hf.
  repeat split; assumption.
Qed.

Lemma ua_gets {A} (f : Uploader.State -> A) :
  triple (uploader_at d T X t0) (gets f) (fun _ => uploader_at d T X t0) E.
Proof. intros u Hu. exact Hu. Qed.

Lemma ua_set_next_tab (h : Tab) :
  triple (uploader_at d T X t0) (modify (fun s => Uploader.set_next_tab h s))
    (fun _ => uploader_at d T X t0) E.
Proof. intros u Hu. exact Hu. Qed.

Lemma ua_driver_get (loads : bool) :
  (loads = false -> forall u, uploader_at d T X t0 u -> E u) ->
  triple (uploader_at d T X t0) (Uploader.driver_get loads)
    (fun _ u => loads = true /\ uploader_at d T X t0 u) E.
Proof.
  intros HE u Hu. pose proof Hu as (Hd & _).
  unfold Uploader.driver_get, Uploader.with_driver. rewrite Hd.
  destruct loads.
  - split; [reflexivity|]. now apply uploader_at_set_driver.
  - now apply HE.
Qed.

End UploaderAtDriver.

(** [navigate_to_assets] for one file: the new tab stays, loaded or
    not, and the browser is on it. *)
Lemma navigate_to_assets_at (d : Driver) (T : list Uploader.upload_info) (X : gset string)
    (t0 : Z) (v : Uploader.Visit) :
  triple (uploader_at d T X t0) (Uploader.navigate_to_assets v true)
    (fun upload_tab u =>
       match upload_tab with
       | Some _ => Uploader.assets_loads v = true
       | None => Uploader.assets_loads v = false
       end
       /\ exists d', current d' ∈ window_handles d' /\ uploader_at d' T X t0 u)
    (fun _ => False).
Proof.
  unfold Uploader.navigate_to_assets.
  apply triple_try_except
    with (E1 := fun u => Uploader.assets_loads v = false
                         /\ exists d', current d' ∈ window_handles d'
                                       /\ uploader_at d' T X t0 u).
  2:{ intros _. apply triple_ret. intros u [Hno Hu]. split; assumption. }
  eapply triple_bind; [apply ua_gets | intros h].
  set (d1 := {| window_handles := window_handles d ++ [h]; current := current d |}).
  set (d2 := {| window_handles := window_handles d ++ [h]; current := h |}).
  assert (Hopen : h ∈ window_handles d ++ [h]) by (apply elem_of_app; right; left).
  eapply triple_bind; [apply (ua_with_driver d T X t0 _ _ tt d1); reflexivity | intros ?].
  apply triple_pure. intros _.
  eapply triple_bind; [apply ua_set_next_tab | intros ?].
  eapply triple_bind; [apply (ua_with_driver d1 T X t0 _ _ (window_handles d1) d1); reflexivity
                      | intros handles].
  apply triple_pure. intros ->. simpl. rewrite last_snoc.
  apply triple_bind_ret.
  eapply triple_bind.
  { apply (ua_with_driver d1 T X t0 _ _ tt d2). unfold drv_switch, is_open. simpl.
    now rewrite bool_decide_eq_true_2. }
  intros ?. apply triple_pure. intros _.
  eapply triple_bind.
  { apply ua_driver_get. intros Hno u' Hu'. split; [exact Hno|]. exists d2. split; [exact Hopen | exact Hu']. }
  intros ?. apply triple_pure. intros Hloads.
  eapply triple_bind; [apply ua_sleep; lia | intros ?].
  eapply triple_bind; [apply (ua_with_driver d2 T X t0 _ _ (window_handles d2) d2); reflexivity
                      | intros handles].
  apply triple_pure. intros _. simpl.
  apply triple_bind_ret.
  eapply triple_bind; [apply ua_sleep; lia | intros ?].
  eapply triple_bind; [apply ua_current; exact Hopen | intros current_tab].
  apply triple_pure. intros _.
  apply triple_ret. intros u' Hu'. split; [exact Hloads|]. exists d2. split; [exact Hopen | exact Hu'].
Qed.

Lemma in_session_at (X : gset string) (u : Uploader.State) :
  in_session X u ->
  exists d, uploader_at d (Uploader.uploading_tabs u) X (Uploader.clock u) u.
Proof. intros ([d Hd] & _ & HX). exists d. repeat split; [exact Hd | exact HX | lia]. Qed.

Lemma at_in_session (d : Driver) (T : list Uploader.upload_info) (X : gset string) (t0 : Z)
    (u : Uploader.State) :
  Forall (fun i => Uploader.start_time i <= t0) T ->
  uploader_at d T X t0 u -> in_session X u.
Proof.
  intros Hpast (Hd & Ht & HX & Hc). split; [now exists d|]. split; [|exact HX].
  rewrite Ht. eapply Forall_impl; [exact Hpast|]. intros i Hi. simpl in Hi. lia.
Qed.

Lemma limit_in_session (X : gset string) :
  triple (in_session X) Uploader.limit_open_upload_tabs (fun _ => in_session X)
    (fun _ => False).
Proof.
  unfold Uploader.limit_open_upload_tabs.
  eapply triple_bind with (Q1 := fun _ => in_session X).
  { intros u Hu. pose proof Hu as ([d Hd] & _).
    unfold Uploader.get_window_handles, Uploader.with_driver. rewrite Hd.
    apply (in_session_ages X u); [exact Hu|]. ages_side. }
  intros handles. destruct (10 <? length handles)%nat; [|apply triple_ret; auto].
  eapply triple_bind; [apply (triple_gets _ (fun _ => in_session X)); auto | intros tabs].
  apply triple_for_each. intros i.
  apply triple_try_except with (E1 := in_session X).
  - apply runs_in_session. up_ages.
  - intros _. apply triple_try_except with (E1 := in_session X).
    + apply runs_in_session. apply untrack_ages.
    + intros _. apply triple_ret. auto.
Qed.

Lemma after_upload_in_session (X : gset string) (i : Z) (u : Uploader.State) :
  in_session X u ->
  exists u',
    ((if i mod 3 =? 0
      then Uploader.cleanup_old_upload_tabs ;;; Uploader.limit_open_upload_tabs
      else ret tt) ;;; Uploader.sleep 5) u = Ok tt u'
    /\ in_session X u'.
Proof.
  intros Hu.
  assert (Hfirst : exists u1,
            (if i mod 3 =? 0
             then Uploader.cleanup_old_upload_tabs ;;; Uploader.limit_open_upload_tabs
             else ret tt) u = Ok tt u1 /\ in_session X u1).
  { destruct (i mod 3 =? 0); [|now exists u].
    unfold bind. pose proof (runs_keeps _ _ _ cleanup_ages u) as Hages.
    rewrite up_cleanup in *. simpl in Hages.
    match goal with |- context [Uploader.limit_open_upload_tabs ?t] =>
      pose proof (limit_in_session X t (in_session_ages X u t Hu Hages)) as Hlimit;
      destruct (Uploader.limit_open_upload_tabs t) as [[] u1|e u1|u1]; try contradiction
    end.
    now exists u1. }
  destruct Hfirst as (u1 & Hrun & Hu1). unfold bind at 1. rewrite Hrun.
  eexists. split; [reflexivity|].
  apply (in_session_ages X u1); [exact Hu1 | ages_side].
Qed.

Lemma uploads_of_cons (site : Uploader.Site) (a : Uploader.Artifact)
    (rest : list Uploader.Artifact) (X : gset string) :
  uploads_of site rest
    ∪ ((if Uploader.assets_loads (Uploader.visit_for site a)
           && uploadable (Uploader.visit_for site a)
        then {[ Uploader.relative_path a ]} else ∅) ∪ X)
  = uploads_of site (a :: rest) ∪ X.
Proof.
  unfold uploads_of. simpl.
  destruct (Uploader.assets_loads _ && uploadable _); simpl; set_solver.
Qed.

Lemma upload_files_records (rounds : nat) (site : Uploader.Site)
    (files : list Uploader.Artifact) :
  (25 <= rounds)%nat ->
  forall i u X,
    in_session X u ->
    exists u',
      Uploader.upload_files rounds site i files u = Ok tt u'
      /\ in_session (uploads_of site files ∪ X) u'.
Proof.
  intros Hrounds. induction files as [|a rest IH]; intros i u X Hu; simpl.
  - exists u. split; [reflexivity|].
    replace (uploads_of site [] ∪ X) with X by (unfold uploads_of; set_solver).
    exact Hu.
  - destruct (wait_in_session X rounds u Hrounds Hu) as (u1 & Hrun1 & Hu1).
    unfold bind at 1. rewrite Hrun1.
    destruct (in_session_at X u1 Hu1) as [d Hat].
    pose proof Hu1 as (_ & Hpast & _).
    pose proof (navigate_to_assets_at d _ X _ (Uploader.visit_for site a) u1 Hat) as Hnav.
    unfold bind at 1.
    destruct (Uploader.navigate_to_assets (Uploader.visit_for site a) true u1)
      as [upload_tab u2|e u2|u2]; try contradiction.
    destruct Hnav as (Hloads & d' & Hopen & Hat2).
    rewrite <- uploads_of_cons.
    destruct upload_tab as [upload_tab|].
    + rewrite Hloads. simpl andb.
      pose proof (upload_file_at d' _ X _ (Uploader.visit_for site a) a Hopen u2 Hat2)
        as Hup.
      unfold bind at 1, bind at 1.
      destruct (Uploader.upload_file (Uploader.visit_for site a) a u2)
        as [b u3|e u3|u3]; try contradiction.
      destruct Hup as [-> Hup].
      assert (Hu3 : in_session
                      ((if uploadable (Uploader.visit_for site a)
                        then {[ Uploader.relative_path a ]} else ∅) ∪ X) u3).
      { destruct (uploadable (Uploader.visit_for site a)).
        - destruct Hup as (e & _ & _ & Hstart & Hat3).
          apply (at_in_session d' _ _ _ u3) in Hat3; [exact Hat3|].
          apply Forall_app. split; [|now repeat constructor].
          eapply Forall_impl; [exact Hpast|]. intros j Hj. simpl in Hj. lia.
        - apply (at_in_session d' _ _ _ u3) in Hup; [|exact Hpast].
          replace (∅ ∪ X) with X by set_solver. exact Hup. }
      destruct (after_upload_in_session _ i u3 Hu3) as (u4 & Hrun4 & Hu4).
      rewrite Hrun4. now apply IH.
    + rewrite Hloads. simpl andb. cbv iota.
      unfold bind at 1. simpl.
      apply IH. replace (∅ ∪ X) with X by set_solver.
      apply (at_in_session d' _ _ _ u2 Hpast Hat2).
Qed.

Section UploaderExactly.
Variables (d : Driver) (T : list Uploader.upload_info) (X : gset string).
Variables (t : Z) (n : Tab) (dk : Disk).
Variable E : Uploader.State -> Prop.

Lemma ue_with_driver {A} (f : Driver -> exn + (A * Driver)) (a : A) (d' : Driver) :
  f d = inr (a, d') ->
  triple (uploader_exactly d T X t n dk) (Uploader.with_driver f)
    (fun r u => r = a /\ uploader_exactly d' T X t n dk u) E.
Proof.
  intros Hf u (Hd & Hrest). unfold Uploader.with_driver. rewrite Hd, Hf.
  split; [reflexivity|]. split; [reflexivity | exact Hrest].
Qed.

Lemma ue_with_driver_fails {A} (f : Driver -> exn + (A * Driver)) (e : exn)
    (Q : A -> Uploader.State -> Prop) :
  f d = inl e ->
  (forall u, uploader_exactly d T X t n dk u -> E u) ->
  triple (uploader_exactly d T X t n dk) (Uploader.with_driver f) Q E.
Proof.
  intros Hf HE u Hu. pose proof Hu as (Hd & _). unfold Uploader.with_driver.
  rewrite Hd, Hf. now apply HE.
Qed.

Lemma ue_sleep (k : Z) :
  triple (uploader_exactly d T X t n dk) (Uploader.sleep k)
    (fun _ => uploader_exactly d T X (t + k) n dk) E.
Proof.
  intros u (Hd & Ht & HX & Hc & Hn & Hdk). repeat split; try assumption. simpl. now rewrite Hc.
Qed.

Lemma ue_next_tab :
  triple (uploader_exactly d T X t n dk) (gets Uploader.next_tab)
    (fun h u => h = n /\ uploader_exactly d T X t n dk u) E.
Proof. intros u Hu. split; [apply Hu | exact Hu]. Qed.

Lemma ue_set_next_tab (h : Tab) :
  triple (uploader_exactly d T X t n dk) (modify (fun s => Uploader.set_next_tab h s))
    (fun _ => uploader_exactly d T X t h dk) E.
Proof. intros u (Hd & Ht & HX & Hc & Hn & Hdk). repeat split; assumption. Qed.

Lemma ue_set_logged_in (b : bool) :
  triple (uploader_exactly d T X t n dk) (modify (Uploader.set_logged_in b))
    (fun _ => uploader_exactly d T X t n dk) E.
Proof. intros u Hu. exact Hu. Qed.

Lemma ue_get :
  triple (uploader_exactly d T X t n dk) get (fun _ => uploader_exactly d T X t n dk) E.
Proof. intros u Hu. exact Hu. Qed.

End UploaderExactly.

(** [login_to_cablecast] takes seven seconds when the login goes
    through and twenty when it does not. *)
Lemma login_to_cablecast_exactly (d : Driver) (T : list Uploader.upload_info)
    (X : gset string) (t : Z) (n : Tab) (dk : Disk) (site : Uploader.Site) :
  triple (uploader_exactly d T X t n dk) (Uploader.login_to_cablecast site)
    (fun logged u =>
       logged = Uploader.login_ok site
       /\ uploader_exactly d T X (t + (if logged then 7 else 20)) n dk u)
    (fun _ => False).
Proof.
  unfold Uploader.login_to_cablecast.
  apply triple_try_except
    with (E1 := fun u => Uploader.login_ok site = false
                         /\ uploader_exactly d T X (t + 20) n dk u).
  2:{ intros _. eapply triple_bind.
      - apply (triple_modify _ (fun _ u => Uploader.login_ok site = false
                                           /\ uploader_exactly d T X (t + 20) n dk u)).
        intros u [Hno Hu]. split; [exact Hno | exact Hu].
      - intros ?. apply triple_ret. intros u [Hno Hu]. split; [now rewrite Hno | exact Hu]. }
  eapply triple_bind.
  { unfold Uploader.driver_get. apply (ue_with_driver d T X t n dk _ _ tt d). reflexivity. }
  intros ?. apply triple_pure. intros _.
  eapply triple_bind; [apply ue_sleep | intros ?].
  destruct (Uploader.login_ok site).
  - eapply triple_bind; [apply ue_sleep | intros ?].
    eapply triple_bind; [apply ue_sleep | intros ?].
    eapply triple_bind; [apply ue_set_logged_in | intros ?].
    apply triple_ret. intros u Hu. split; [reflexivity|].
    replace (t + 7) with (t + 5 + 1 + 1) by lia. exact Hu.
  - eapply triple_bind; [apply ue_sleep | intros ?].
    apply triple_raise. intros u Hu. split; [reflexivity|].
    replace (t + 20) with (t + 5 + 15) by lia. exact Hu.
Qed.

(** The first [navigate_to_assets] of a session: it opens the Assets
    tab, closes the tab the browser started with, and takes thirteen
    seconds. *)
Lemma first_navigation_exactly (T : list Uploader.upload_info) (X : gset string)
    (t : Z) (h : Tab) (dk : Disk) (v : Uploader.Visit) :
  triple (uploader_exactly {| window_handles := [h]; current := h |} T X t (S h) dk)
    (Uploader.navigate_to_assets v false)
    (fun assets_tab u =>
       match assets_tab with
       | Some _ =>
           Uploader.assets_loads v = true
           /\ uploader_exactly {| window_handles := [S h]; current := S h |} T X (t + 13)
                (S (S h)) dk u
       | None =>
           Uploader.assets_loads v = false
           /\ Uploader.uploaded_files u = X
       end)
    (fun _ => False).
Proof.
  unfold Uploader.navigate_to_assets.
  apply triple_try_except
    with (E1 := fun u => Uploader.assets_loads v = false /\ Uploader.uploaded_files u = X).
  2:{ intros _. apply triple_ret. auto. }
  set (d1 := {| window_handles := [h; S h]; current := h |}).
  set (d2 := {| window_handles := [h; S h]; current := S h |}).
  set (d3 := {| window_handles := [S h]; current := h |}).
  set (d4 := {| window_handles := [S h]; current := S h |}).
  assert (Hne : S h ≠ h) by lia.
  eapply triple_bind; [apply ue_next_tab | intros n].
  apply triple_pure. intros ->.
  eapply triple_bind; [apply (ue_with_driver _ T X t (S h) dk _ _ tt d1); reflexivity | intros ?].
  apply triple_pure. intros _.
  eapply triple_bind; [apply ue_set_next_tab | intros ?].
  eapply triple_bind;
    [apply (ue_with_driver d1 T X t (S (S h)) dk _ _ [h; S h] d1); reflexivity | intros handles].
  apply triple_pure. intros ->. simpl.
  apply triple_bind_ret.
  eapply triple_bind.
  { apply (ue_with_driver d1 T X t (S (S h)) dk _ _ tt d2).
    unfold drv_switch, is_open. simpl. rewrite bool_decide_eq_true_2 by set_solver.
    reflexivity. }
  intros ?. apply triple_pure. intros _.
  destruct (Uploader.assets_loads v) eqn:Hloads.
  2:{ eapply triple_bind with (Q1 := fun _ _ => False); [|intros ? ? []].
      apply (ue_with_driver_fails d2 T X t (S (S h)) dk _ _ WebDriverException);
        [reflexivity|].
      intros u Hu. split; [reflexivity | apply Hu]. }
  eapply triple_bind;
    [apply (ue_with_driver d2 T X t (S (S h)) dk _ _ tt d2); reflexivity | intros ?].
  apply triple_pure. intros _.
  eapply triple_bind; [apply ue_sleep | intros ?].
  eapply triple_bind;
    [apply (ue_with_driver d2 T X (t + 10) (S (S h)) dk _ _ [h; S h] d2); reflexivity
    | intros handles].
  apply triple_pure. intros ->. simpl.
  eapply triple_bind with (Q1 := fun _ => uploader_exactly d4 T X (t + 10) (S (S h)) dk).
  { eapply triple_bind; [apply ue_get | intros s].
    apply triple_try_except with (E1 := fun _ => False); [|intros ? ? []].
    eapply triple_bind.
    { apply (ue_with_driver d2 T X (t + 10) (S (S h)) dk _ _ (S h) d2).
      unfold drv_current, is_open. simpl. rewrite bool_decide_eq_true_2 by set_solver.
      reflexivity. }
    intros old_tab. apply triple_pure. intros ->.
    eapply triple_bind.
    { apply (ue_with_driver d2 T X (t + 10) (S (S h)) dk _ _ tt d1).
      unfold drv_switch, is_open. simpl. rewrite bool_decide_eq_true_2 by set_solver.
      reflexivity. }
    intros ?. apply triple_pure. intros _.
    eapply triple_bind.
    { apply (ue_with_driver d1 T X (t + 10) (S (S h)) dk _ _ tt d3).
      unfold drv_close, is_open. simpl. rewrite bool_decide_eq_true_2 by set_solver.
      rewrite filter_cons, decide_False by (intros Hn; now apply Hn).
      rewrite filter_cons, decide_True by exact Hne. reflexivity. }
    intros ?. apply triple_pure. intros _.
    eapply triple_weaken;
      [apply (ue_with_driver d3 T X (t + 10) (S (S h)) dk (fun _ => False) _ tt d4)| | |].
    - unfold drv_switch, is_open. simpl. rewrite bool_decide_eq_true_2 by set_solver.
      reflexivity.
    - auto.
    - intros ? u [_ Hu]. exact Hu.
    - auto. }
  intros ?.
  eapply triple_bind; [apply ue_sleep | intros ?].
  eapply triple_bind.
  { apply (ue_with_driver d4 T X (t + 10 + 3) (S (S h)) dk _ _ (S h) d4).
    unfold drv_current, is_open. simpl. rewrite bool_decide_eq_true_2 by set_solver.
    reflexivity. }
  intros current_tab. apply triple_pure. intros ->.
  apply triple_ret. intros u Hu. split; [reflexivity|].
  replace (t + 13) with (t + 10 + 3) by lia. exact Hu.
Qed.

Lemma untrack_keeps_history_set (i : Uploader.upload_info) :
  keeps (same Uploader.uploaded_files) (Uploader.untrack i).
Proof.
  intros u. unfold Uploader.untrack.
  destruct (list_remove i (Uploader.uploading_tabs u)); reflexivity.
Qed.

Ltac up_same_history :=
  repeat first
    [ keeps_step
    | apply up_keeps_with_driver; [typeclasses eauto .. | keeps_side]
    | apply up_keeps_sleep; keeps_side
    | apply untrack_keeps_history_set
    | progress unfold Uploader.get_window_handles, Uploader.head_or_raise,
        Uploader.driver_get, Uploader.wait_until, Uploader.act_on, Uploader.switch_to,
        Uploader.switch_back, Uploader.close_tab_if_open ].

Lemma close_expired_keeps_history_set (now : Z) (l : list Uploader.upload_info) :
  keeps (same Uploader.uploaded_files) (Uploader.close_expired now l).
Proof. induction l as [|i l IH]; simpl; up_same_history; exact IH. Qed.

Lemma final_cleanup_keeps_history_set (left : nat) :
  keeps (same Uploader.uploaded_files) (Uploader.final_cleanup left).
Proof.
  induction left as [|n IH]; simpl; unfold Uploader.cleanup_old_upload_tabs;
    up_same_history; first [apply close_expired_keeps_history_set | exact IH].
Qed.

Lemma session_end_keeps_history_set :
  keeps (same Uploader.uploaded_files)
    (Uploader.final_cleanup 20 ;;;
     Uploader.force_close_remaining ;;;
     try_except
       (handles <- Uploader.get_window_handles ;;
        match handles with
        | first :: _ => Uploader.switch_to first
        | [] => ret tt
        end)
       (fun _ => ret tt)).
Proof.
  apply keeps_bind; [typeclasses eauto | apply final_cleanup_keeps_history_set | intros _].
  unfold Uploader.force_close_remaining. up_same_history.
Qed.

Lemma driver_quit_keeps_history_set :
  keeps (same Uploader.uploaded_files)
    (try_except Uploader.driver_quit (fun _ => ret tt)).
Proof. unfold Uploader.driver_quit. up_same_history. Qed.

Lemma state_of_bind_ok {S A B} (c : M S A) (k : A -> M S B) (s s1 : S) (a : A) :
  c s = Ok a s1 -> state_of (bind c k s) = state_of (k a s1).
Proof. intros Hc. unfold bind. now rewrite Hc. Qed.

Lemma history_after_session (body : M Uploader.State unit) (u : Uploader.State)
    (R : gset string) :
  Uploader.uploaded_files (state_of (body u)) = R ->
  Uploader.uploaded_files
    (state_of ((try_except body (fun _ => ret tt) ;;;
                try_except Uploader.driver_quit (fun _ => ret tt)) u)) = R.
Proof.
  intros Hbody. unfold bind at 1, try_except at 1.
  destruct (body u) as [a u1|e u1|u1]; simpl in Hbody |- *;
    [| |exact Hbody]; now rewrite driver_quit_keeps_history_set.
Qed.

Lemma upload_session_history (rounds : nat) (chrome_ok : bool) (site : Uploader.Site)
    (u : Uploader.State) :
  (25 <= rounds)%nat ->
  Forall (fun i => Uploader.start_time i <= Uploader.clock u) (Uploader.uploading_tabs u) ->
  Uploader.uploaded_files (state_of (Uploader.upload_session rounds chrome_ok site u))
  = (if chrome_ok && Uploader.login_ok site
        && Uploader.assets_loads (Uploader.first_visit site)
     then uploads_of site (files_found u)
     else ∅) ∪ Uploader.uploaded_files u.
Proof.
  intros Hrounds Hpast.
  unfold Uploader.upload_session, Uploader.init_driver.
  destruct chrome_ok; [|simpl; set_solver]. rewrite andb_true_l.
  unfold bind at 1, bind at 1, bind at 1, gets, modify, ret at 1.
  set (h := Uploader.next_tab u).
  set (u0 := Uploader.set_next_tab (S h) _).
  assert (Hu0 : uploader_exactly {| window_handles := [h]; current := h |}
                  (Uploader.uploading_tabs u) (Uploader.uploaded_files u) (Uploader.clock u) (S h) (Uploader.disk u) u0)
    by (repeat split).
  apply history_after_session.
  unfold Uploader.check_login_status.
  rewrite (state_of_bind_ok _ _ u0 u0 false eq_refl).
  pose proof (login_to_cablecast_exactly _ _ _ _ _ _ site u0 Hu0) as Hlogin.
  destruct (Uploader.login_to_cablecast site u0) as [logged u1|e u1|u1] eqn:Hrun1;
    try contradiction.
  rewrite (state_of_bind_ok _ _ u0 u1 logged Hrun1).
  destruct Hlogin as [-> Hu1].
  destruct (Uploader.login_ok site); simpl andb; cbv iota.
  2:{ destruct Hu1 as (_ & _ & HX & _). transitivity (Uploader.uploaded_files u); [exact HX | set_solver]. }
  pose proof (first_navigation_exactly _ _ _ _ _ (Uploader.first_visit site) u1 Hu1) as Hnav.
  destruct (Uploader.navigate_to_assets (Uploader.first_visit site) false u1)
    as [assets_tab u2|e u2|u2] eqn:Hrun2; try contradiction.
  rewrite (state_of_bind_ok _ _ u1 u2 assets_tab Hrun2).
  destruct assets_tab as [assets_tab|]; destruct Hnav as [Hloads Hu2]; rewrite Hloads.
  2:{ transitivity (Uploader.uploaded_files u); [exact Hu2 | set_solver]. }
  rewrite (state_of_bind_ok _ _ u2 u2 _ (find_files_to_upload_returns u2)).
  destruct Hu2 as (Hd2 & Ht2 & HX2 & Hc2 & Hn2 & Hdk2).
  rewrite HX2, Hc2, Hdk2.
  replace (Uploader.clock u + 7 + 13) with (Uploader.clock u + 20) by lia.
  change (flat_map _ (folders (Uploader.disk u))) with (files_found u).
  destruct (files_found u) as [|a rest] eqn:Hfound.
  { transitivity (Uploader.uploaded_files u); [exact HX2 | unfold uploads_of; simpl; set_solver]. }
  assert (Hin : in_session (Uploader.uploaded_files u) u2).
  { split; [rewrite Hd2; now eexists|]. split; [|exact HX2].
    rewrite Ht2, Hc2. eapply Forall_impl; [exact Hpast|]. intros i Hi. simpl in Hi. lia. }
  destruct (upload_files_records rounds site (a :: rest) Hrounds 1 u2 _ Hin)
    as (u3 & Hrun3 & _ & _ & HX3).
  rewrite (state_of_bind_ok _ _ u2 u3 tt Hrun3).
  etransitivity; [apply session_end_keeps_history_set | exact HX3].
Qed.

(** X19.  What a session records.  An uploader that starts a session with no
    upload tab dated after its clock, and that is given the rounds its
    waits for a slot may need, ends it with the history it had and the
    paths of the files that its scan found, twenty seconds into the
    session, and whose tab loaded the Assets page and took the upload;
    nothing else is added.  A login that fails or an Assets page that
    does not load at the start adds nothing. *)
Theorem upload_session_records (rounds : nat) (site : Uploader.Site) (u : Uploader.State) :
  (25 <= rounds)%nat ->
  Forall (fun i => Uploader.start_time i <= Uploader.clock u) (Uploader.uploading_tabs u) ->
  Uploader.uploaded_files (state_of (Uploader.upload_session rounds true site u))
  = (if Uploader.login_ok site && Uploader.assets_loads (Uploader.first_visit site)
     then uploads_of site (files_found u)
     else ∅) ∪ Uploader.uploaded_files u.
Proof.
  intros Hrounds Hpast.
  rewrite (upload_session_history rounds true site u Hrounds Hpast).
  now rewrite andb_true_l.
Qed.

Lemma upload_session_records_witness :
  Uploader.uploaded_files
    (state_of (Uploader.upload_session 25 true upload_site
                 (Uploader.init 1360 disk_with_two_files)))
  = (if Uploader.login_ok upload_site && Uploader.assets_loads (Uploader.first_visit upload_site)
     then uploads_of upload_site (files_found (Uploader.init 1360 disk_with_two_files))
     else ∅) ∪ Uploader.uploaded_files (Uploader.init 1360 disk_with_two_files).
Proof.
  apply (upload_session_records 25 upload_site (Uploader.init 1360 disk_with_two_files)).
  - lia.
  - constructor.
Defined.

(** ** One cycle of the manager *)

Lemma bind_ok {S A B} (c : M S A) (k : A -> M S B) (s s1 : S) (a : A) :
  c s = Ok a s1 -> bind c k s = k a s1.
Proof. intros Hc. unfold bind. now rewrite Hc. Qed.

Lemma run_download_scan_is_ok (chrome_ok : bool) (site : Downloader.Site)
    (s : Downloader.State) :
  exists s', Downloader.run_download_scan chrome_ok site s = Ok tt s'.
Proof.
  unfold Downloader.run_download_scan, Downloader.init_driver.
  destruct chrome_ok; [|now exists s].
  unfold bind at 1, bind at 1, bind at 1, gets, modify, ret at 1.
  set (s1 := Downloader.set_next_tab _ _).
  pose proof (scan_steps_stays_open site s1) as Hscan.
  assert (Hquit : forall s2, exists s',
            try_except Downloader.driver_quit (fun _ => ret tt) s2 = Ok tt s').
  { intros s2. unfold try_except, Downloader.driver_quit, bind, Downloader.with_driver, modify.
    destruct (Downloader.driver s2); now eexists. }
  unfold bind, try_except at 1.
  destruct (Downloader.scan_steps site s1) as [[] s2|e s2|s2]; [| |contradiction];
    apply Hquit.
Qed.

Lemma load_downloaded_events_is_ok (s : Downloader.State) :
  exists s', Downloader.load_downloaded_events s = Ok tt s'
             /\ Downloader.clock s' = Downloader.clock s.
Proof.
  unfold Downloader.load_downloaded_events.
  destruct (downloaded_events_txt (Downloader.disk s)); now eexists.
Qed.

Lemma new_downloader_made (m : Manager.Machine) (w : Manager.World) :
  Manager.save_path_mkdir m = true ->
  Manager.ffmpeg_search_raises m = false ->
  exists s, Manager.new_downloader m w = Some s
            /\ Downloader.clock s = Manager.clock w.
Proof.
  intros Hmk Hff. unfold Manager.new_downloader. rewrite Hmk, Hff.
  destruct (load_downloaded_events_is_ok
              (Downloader.init (Manager.clock w) (Manager.save_path w))) as (s & Hrun & Hclock).
  rewrite Hrun. now exists s.
Qed.

Lemma new_downloader_not_made (m : Manager.Machine) (w : Manager.World) :
  Manager.save_path_mkdir m = false \/ Manager.ffmpeg_search_raises m = true ->
  Manager.new_downloader m w = None.
Proof.
  intros Hno. unfold Manager.new_downloader.
  destruct (Manager.save_path_mkdir m); [|reflexivity].
  destruct Hno as [Hno|Hno]; [discriminate|]. rewrite Hno.
  now destruct (Downloader.load_downloaded_events _).
Qed.

Lemma run_downloader_returns (m : Manager.Machine) (chrome_ok : bool)
    (catalog : Downloader.Site) (w : Manager.World) :
  exists (download_success : bool) (w' : Manager.World),
    Manager.run_downloader m chrome_ok catalog w = Ok download_success w'
    /\ (download_success = true <->
        Manager.imported m = true
        /\ Manager.save_path_mkdir m = true
        /\ (Manager.is_windows m = true -> Manager.getuser_ok m = true))
    /\ (download_success = false -> w' = w).
Proof.
  unfold Manager.run_downloader.
  destruct (Manager.imported m) eqn:Himp.
  2:{ exists false, w. split; [reflexivity|].
      split; [|reflexivity]. split; [discriminate | intros [? _]; discriminate]. }
  destruct (Manager.save_path_mkdir m) eqn:Hmk.
  2:{ rewrite new_downloader_not_made by now left.
      exists false, w. split; [reflexivity|].
      split; [|reflexivity]. split; [discriminate | intros (_ & ? & _); discriminate]. }
  destruct (Manager.ffmpeg_search_raises m) eqn:Hff.
  - rewrite new_downloader_not_made by now right.
    exists false, w. split; [reflexivity|]. split; [|reflexivity].
    split; [discriminate|]. intros (_ & _ & Huser).
    unfold Manager.ffmpeg_search_raises in Hff.
    apply andb_true_iff in Hff as [Hwin Hno]. rewrite (Huser Hwin) in Hno. discriminate.
  - destruct (new_downloader_made m w Hmk Hff) as (s0 & Hnew & _). rewrite Hnew.
    destruct (run_download_scan_is_ok chrome_ok catalog s0) as [s Hscan]. rewrite Hscan.
    exists true, (Manager.after_download s w). split; [reflexivity|].
    split; [|discriminate]. split; [|reflexivity]. intros _. repeat split.
    intros Hwin. unfold Manager.ffmpeg_search_raises in Hff. rewrite Hwin in Hff.
    simpl in Hff. now apply negb_false_iff in Hff.
Qed.

(** X20.  [run_downloader] reports success exactly when the classes were
    imported and the constructor of the downloader went through: the
    folder could be made and, on Windows, the user name was found.
    What the scan meets does not count, since the scan always returns:
    Chrome may not start, the catalog may not load, no event may be
    downloaded.  [run_sync_cycle] then waits five minutes and runs the
    uploader; otherwise it leaves everything as it is. *)
Theorem sync_cycle_uploads_when_downloader_starts (m : Manager.Machine) (rounds : nat)
    (chrome_ok chrome_ok_again : bool) (catalog : Downloader.Site)
    (cablecast : Uploader.Site) (w : Manager.World) :
  exists (download_success : bool) (w' : Manager.World),
    Manager.run_downloader m chrome_ok catalog w = Ok download_success w'
    /\ (download_success = true <->
        Manager.imported m = true
        /\ Manager.save_path_mkdir m = true
        /\ (Manager.is_windows m = true -> Manager.getuser_ok m = true))
    /\ Manager.run_sync_cycle m rounds chrome_ok chrome_ok_again catalog cablecast w
       = if download_success
         then (Manager.sleep 300 ;;;
               Manager.run_uploader m rounds chrome_ok_again cablecast ;;;
               ret tt) w'
         else Ok tt w.
Proof.
  destruct (run_downloader_returns m chrome_ok catalog w) as (b & w' & Hrun & Hiff & Hsame).
  exists b, w'. split; [exact Hrun|]. split; [exact Hiff|].
  unfold Manager.run_sync_cycle. rewrite (bind_ok _ _ w w' b Hrun).
  destruct b; [reflexivity|]. now rewrite Hsame.
Qed.

(** ** The clock during a download *)

#[global] Instance later_preorder : PreOrder later.
Proof.
  split.
  - intros s. unfold later. lia.
  - intros s1 s2 s3. unfold later. lia.
Qed.

Ltac later_side := intros; unfold later; simpl; lia.

Lemma sleep_later (d : Z) : 0 <= d -> runs later (fun _ => True) (Downloader.sleep d).
Proof. intros Hd s. simpl. split; [later_side | exact I]. Qed.

Lemma untrack_later (i : Downloader.download_info) :
  runs later (fun _ => True) (Downloader.untrack i).
Proof.
  intros s. unfold Downloader.untrack.
  destruct (list_remove i (Downloader.downloading_tabs s)); [split; [|exact I]|]; later_side.
Qed.

Lemma make_download_folder_later (name : string) (info : File) :
  runs later (fun _ => True) (Downloader.make_download_folder name info).
Proof.
  intros s. unfold Downloader.make_download_folder.
  destruct (can_write (Downloader.disk s)); [split; [|exact I]|]; later_side.
Qed.

Lemma mark_event_later (id : string) :
  runs later (fun _ => True) (Downloader.mark_event_as_downloaded id).
Proof.
  intros s.
  unfold Downloader.mark_event_as_downloaded, Downloader.save_downloaded_events,
    Downloader.write_downloaded_file, try_except, bind, modify, get, ret. simpl.
  destruct (can_write (Downloader.disk s)); simpl; (split; [|exact I]); later_side.
Qed.

Ltac dl_later :=
  repeat first
    [ runs_step
    | apply dl_runs_with_driver; [typeclasses eauto .. | later_side]
    | apply sleep_later; lia
    | apply dl_runs_head_or_raise
    | apply untrack_later
    | apply make_download_folder_later
    | apply mark_event_later
    | apply runs_modify; [typeclasses eauto .. | later_side | exact I]
    | progress unfold Downloader.get_window_handles, Downloader.driver_get,
        Downloader.click, Downloader.click_meeting, Downloader.close_and_go_back,
        Downloader.close_tab_if_open, Downloader.back_to_first_tab ].

Lemma close_expired_later (now : Z) (l : list Downloader.download_info) :
  runs later (fun _ => True) (Downloader.close_expired now l).
Proof. induction l as [|i l IH]; simpl; dl_later; exact IH. Qed.

Lemma start_download_later (v : Downloader.Visit)
    (video_url event_title event_number : string) (tab_handle : Tab) :
  runs later (fun _ => True)
    (Downloader.start_download v video_url event_title event_number tab_handle).
Proof. unfold Downloader.start_download. dl_later. later_side. Qed.

Lemma process_events_later (events : list Downloader.event_info) :
  forall i, runs later (fun _ => True) (Downloader.process_events i events).
Proof.
  induction events as [|ev rest IH]; intros i; simpl;
    unfold Downloader.cleanup_old_download_tabs, Downloader.limit_open_tabs,
      Downloader.process_single_meeting; cbv zeta;
    dl_later;
    first [ apply close_expired_later
          | apply start_download_later
          | apply IH
          | later_side ].
Qed.

Lemma run_download_scan_later (chrome_ok : bool) (site : Downloader.Site) :
  runs later (fun _ => True) (Downloader.run_download_scan chrome_ok site).
Proof.
  unfold Downloader.run_download_scan, Downloader.init_driver, Downloader.scan_steps,
    Downloader.load_all_events, Downloader.wait_and_close_tabs,
    Downloader.close_remaining_tabs, Downloader.driver_quit.
  dl_later; first [ later_side | apply process_events_later ].
Qed.

(** ** A file that waits in the watched folder *)

Lemma loaded_history_is_of_file (t t' : Z) (dk dk' : Disk) :
  uploaded_files_json dk = uploaded_files_json dk' ->
  Uploader.uploaded_files (state_of (Uploader.load_upload_history (Uploader.init t dk)))
  = Uploader.uploaded_files (state_of (Uploader.load_upload_history (Uploader.init t' dk'))).
Proof.
  intros Hfile.
  unfold Uploader.load_upload_history, Uploader.read_upload_history, try_except, bind, get.
  simpl. rewrite Hfile. destruct (uploaded_files_json dk') as [[|j]|]; simpl; try reflexivity.
  destruct (json_get_or_empty _ j) as [e|v]; simpl; [reflexivity|].
  destruct (py_set v); reflexivity.
Qed.

Lemma upload_history_reloaded (rounds : nat) (chrome_ok : bool) (site : Uploader.Site)
    (u : Uploader.State) (now now' : Z) :
  can_write (Uploader.disk u) = true ->
  Uploader.uploaded_files (uploader_restarted now u) = Uploader.uploaded_files u ->
  let u' := state_of (Uploader.upload_session rounds chrome_ok site u) in
  Uploader.uploaded_files (uploader_restarted now' u') = Uploader.uploaded_files u'.
Proof.
  intros Hw Hsync u'.
  destruct (upload_session_keeps_history rounds chrome_ok site u Hw) as [_ [Hsame|Hwritten]].
  - fold u' in Hsame. unfold up_ledger in Hsame. injection Hsame as HX Hf.
    rewrite HX, <- Hsync. now apply loaded_history_is_of_file.
  - now apply uploader_restarted_written.
Qed.

Lemma load_upload_history_keeps_rest :
  keeps (same (fun u => (Uploader.disk u, Uploader.clock u, Uploader.uploading_tabs u)))
    Uploader.load_upload_history.
Proof.
  unfold Uploader.load_upload_history, Uploader.read_upload_history.
  repeat keeps_step.
Qed.

Lemma load_upload_history_is_ok (u : Uploader.State) :
  Uploader.load_upload_history u = Ok tt (state_of (Uploader.load_upload_history u)).
Proof.
  unfold Uploader.load_upload_history, Uploader.read_upload_history, try_except, bind, get.
  simpl. destruct (uploaded_files_json (Uploader.disk u)) as [[|j]|]; simpl; try reflexivity.
  destruct (json_get_or_empty _ j) as [e|v]; simpl; [reflexivity|].
  destruct (py_set v); reflexivity.
Qed.

Lemma new_uploader_made (m : Manager.Machine) (w : Manager.World) :
  Manager.watch_path_mkdir m = true ->
  Manager.new_uploader m w
  = Some (state_of (Uploader.load_upload_history
                      (Uploader.init (Manager.clock w) (Manager.watch_path w)))).
Proof.
  intros Hmk. unfold Manager.new_uploader.
  now rewrite load_upload_history_is_ok, Hmk.
Qed.

Lemma new_uploader_is_new (t : Z) (dk : Disk) :
  let u := state_of (Uploader.load_upload_history (Uploader.init t dk)) in
  Uploader.disk u = dk /\ Uploader.clock u = t /\ Uploader.uploading_tabs u = [].
Proof.
  pose proof (load_upload_history_keeps_rest (Uploader.init t dk)) as Hsame.
  unfold same in Hsame. simpl in Hsame. injection Hsame as Hdisk Hclock Htabs.
  repeat split; assumption.
Qed.

Lemma after_upload_watched (u : Uploader.State) (w : Manager.World) :
  Manager.watch_path (Manager.after_upload u w) = Uploader.disk u
  /\ Manager.clock (Manager.after_upload u w) = Uploader.clock u.
Proof.
  unfold Manager.after_upload, Manager.watch_path, Manager.set_watch_path, Manager.set_clock.
  simpl. now destruct (Manager.layout w).
Qed.

Lemma run_uploader_leaves (m : Manager.Machine) (rounds : nat) (chrome_ok : bool)
    (site : Uploader.Site) (w : Manager.World) :
  Manager.imported m = true ->
  Manager.watch_path_mkdir m = true ->
  state_of (Manager.run_uploader m rounds chrome_ok site w)
  = Manager.after_upload
      (state_of (Uploader.upload_session rounds chrome_ok site
                   (state_of (Uploader.load_upload_history
                                (Uploader.init (Manager.clock w) (Manager.watch_path w))))))
      w.
Proof.
  intros Himp Hmk. unfold Manager.run_uploader.
  rewrite Himp, (new_uploader_made m w Hmk).
  now destruct (Uploader.upload_session _ _ _ _).
Qed.

(** X21.  A cycle uploads what waits in the folder that the uploader
    watches, however its download goes.  Let the scripts lie outside
    [C:\], so that the downloader works in a folder of its own, and let
    both constructors go through.  Take an MP4 file of more than 1 MiB
    in a [corrected_format] folder of [C:/govideosav], there when the
    cycle starts and last modified by then.  When the login, the
    Assets page and the tab opened for the file take the upload, the
    history that a new uploader loads after the cycle holds the file:
    the five minutes that [run_sync_cycle] waits and the twenty seconds
    that the session needs before it looks for files make the file old
    enough for [find_files_to_upload]. *)
Theorem sync_cycle_uploads_waiting_file (m : Manager.Machine) (rounds : nat)
    (chrome_ok : bool) (catalog : Downloader.Site) (cablecast : Uploader.Site)
    (w : Manager.World) (saved watched : Disk)
    (folder : Folder) (found : list File) (f : File) :
  (25 <= rounds)%nat ->
  Manager.imported m = true ->
  Manager.save_path_mkdir m = true ->
  Manager.ffmpeg_search_raises m = false ->
  Manager.watch_path_mkdir m = true ->
  Manager.layout w = Manager.TwoFolders saved watched ->
  can_write watched = true ->
  let a := {| Uploader.in_folder := dir_name folder; Uploader.file := f |} in
  In folder (folders watched) ->
  corrected_format folder = Some found ->
  In f found ->
  Uploader.is_mp4 f = true ->
  1024 * 1024 < st_size f ->
  st_mtime f <= Manager.clock w ->
  Uploader.login_ok cablecast = true ->
  Uploader.assets_loads (Uploader.first_visit cablecast) = true ->
  Uploader.assets_loads (Uploader.visit_for cablecast a) = true ->
  uploadable (Uploader.visit_for cablecast a) = true ->
  exists u,
    Manager.new_uploader m
      (state_of (Manager.run_sync_cycle m rounds chrome_ok true catalog cablecast w))
    = Some u
    /\ Uploader.relative_path a ∈ Uploader.uploaded_files u.
Proof.
  intros Hrounds Himp Hmk Hff Hmk' Hlayout Hw a Hfolder Hcf Hf Hmp4 Hsize Hmtime
    Hlogin Hassets Hloads Hup.
  destruct (new_downloader_made m w Hmk Hff) as (s0 & Hnew & Hclock0).
  destruct (run_download_scan_is_ok chrome_ok catalog s0) as [s Hscan].
  pose proof (run_download_scan_later chrome_ok catalog s0) as Hlater.
  rewrite Hscan in Hlater. destruct Hlater as [Hlater _]. unfold later in Hlater.
  assert (Hrun : Manager.run_downloader m chrome_ok catalog w
                 = Ok true (Manager.after_download s w))
    by (unfold Manager.run_downloader; now rewrite Himp, Hnew, Hscan).
  unfold Manager.run_sync_cycle. rewrite (state_of_bind_ok _ _ _ _ _ Hrun).
  unfold Manager.sleep. unfold bind at 1, modify.
  set (w1 := Manager.set_clock _ _).
  assert (Hwatch1 : Manager.watch_path w1 = watched)
    by (unfold w1, Manager.watch_path; simpl; now rewrite Hlayout).
  assert (Hclock1 : Manager.clock w1 = Downloader.clock s + 300) by reflexivity.
  set (u0 := state_of (Uploader.load_upload_history
                         (Uploader.init (Manager.clock w1) (Manager.watch_path w1)))).
  destruct (new_uploader_is_new (Manager.clock w1) (Manager.watch_path w1))
    as (Hdisk0 & Hclk0 & Htabs0).
  fold u0 in Hdisk0, Hclk0, Htabs0. rewrite Hwatch1 in Hdisk0. rewrite Hclock1 in Hclk0.
  set (u' := state_of (Uploader.upload_session rounds true cablecast u0)).
  assert (Hend : state_of ((Manager.run_uploader m rounds true cablecast ;;; ret tt) w1)
                 = Manager.after_upload u' w1).
  { pose proof (run_uploader_leaves m rounds true cablecast w1 Himp Hmk') as Hleaves.
    fold u0 in Hleaves. fold u' in Hleaves. rewrite <- Hleaves.
    unfold bind. now destruct (Manager.run_uploader m rounds true cablecast w1). }
  rewrite Hend, (new_uploader_made _ _ Hmk').
  destruct (after_upload_watched u' w1) as [-> ->].
  eexists. split; [reflexivity|].
  change (state_of (Uploader.load_upload_history
                      (Uploader.init (Uploader.clock u') (Uploader.disk u'))))
    with (uploader_restarted (Uploader.clock u') u').
  unfold u'. rewrite (upload_history_reloaded rounds true cablecast u0 (Uploader.clock u0)).
  2:{ now rewrite Hdisk0. }
  2:{ unfold uploader_restarted. rewrite Hdisk0. unfold u0.
      apply loaded_history_is_of_file. now rewrite Hwatch1. }
  rewrite (upload_session_history rounds true cablecast u0 Hrounds)
    by (rewrite Htabs0; constructor).
  rewrite Hlogin, Hassets. simpl andb. cbv iota.
  destruct (decide (Uploader.relative_path a ∈ Uploader.uploaded_files u0)) as [Hold|Hnew'];
    [set_solver|].
  apply elem_of_union. left. unfold uploads_of.
  apply elem_of_list_to_set, list_elem_of_In, in_map_iff. exists a. split; [reflexivity|].
  apply filter_In. split; [|now rewrite Hloads, Hup].
  unfold files_found. apply in_flat_map. exists folder. split.
  - now rewrite Hdisk0.
  - apply in_files_of_folder. exists found. simpl. rewrite Hmp4.
    repeat split; try assumption.
    unfold Uploader.wanted. rewrite bool_decide_eq_false_2 by exact Hnew'. simpl.
    apply is_stable_spec. simpl. split; [exact Hsize|].
    rewrite Hclk0. lia.
Qed.

Lemma sync_cycle_uploads_waiting_file_witness :
  exists u,
    Manager.new_uploader windows_pc
      (state_of (Manager.run_sync_cycle windows_pc 25 true true (catalog [downloads])
                   upload_site two_files_waiting))
    = Some u
    /\ Uploader.relative_path stable_artifact ∈ Uploader.uploaded_files u.
Proof.
  apply (sync_cycle_uploads_waiting_file windows_pc 25 true (catalog [downloads]) upload_site
           two_files_waiting empty_disk disk_with_two_files
           {| dir_name := "1000_Select_Board_1001"; dir_files := [];
              corrected_format := Some [stable_file; late_file] |}
           [stable_file; late_file] stable_file).
  - lia.
  - reflexivity.
  - reflexivity.
  - reflexivity.
  - reflexivity.
  - reflexivity.
  - reflexivity.
  - left. reflexivity.
  - reflexivity.
  - left. reflexivity.
  - reflexivity.
  - vm_compute. reflexivity.
  - vm_compute. intros H. discriminate H.
  - reflexivity.
  - reflexivity.
  - reflexivity.
  - reflexivity.
Defined.
